(** * A virtual POSIX-like file system: [src/harness/vfs.ts]

    Shallow embedding of the [vfs.FileSystem] class.  JavaScript objects that
    are shared and mutated in place (inodes, link maps, buffers, file systems)
    live in heaps addressed by natural numbers; every method is a function in
    a state-and-exception monad over that store. *)

From Stdlib Require Import ZArith List String Ascii Bool Lia.
From stdpp Require Import base option list strings.
Import ListNotations.

Set Implicit Arguments.
Unset Strict Implicit.

(** ** Constants *)

Definition S_IFMT   : Z := 61440.  (* 0o170000 *)
Definition S_IFSOCK : Z := 49152.  (* 0o140000 *)
Definition S_IFLNK  : Z := 40960.  (* 0o120000 *)
Definition S_IFREG  : Z := 32768.  (* 0o100000 *)
Definition S_IFBLK  : Z := 24576.  (* 0o060000 *)
Definition S_IFDIR  : Z := 16384.  (* 0o040000 *)
Definition S_IFCHR  : Z := 8192.   (* 0o020000 *)
Definition S_IFIFO  : Z := 4096.   (* 0o010000 *)

Definition O_ACCMODE   : Z := 3.
Definition O_RDONLY    : Z := 0.
Definition O_WRONLY    : Z := 1.
Definition O_RDWR      : Z := 2.
Definition O_CREAT     : Z := 64.      (* 0o100 *)
Definition O_EXCL      : Z := 128.     (* 0o200 *)
Definition O_TRUNC     : Z := 512.     (* 0o1000 *)
Definition O_APPEND    : Z := 1024.    (* 0o2000 *)
Definition O_SYNC      : Z := 4096.    (* 0o10000 *)
Definition O_DIRECTORY : Z := 65536.   (* 0o200000 *)
Definition O_NOFOLLOW  : Z := 131072.  (* 0o400000 *)

Definition F_OK : Z := 0.
Definition W_OK : Z := 2.
Definition R_OK : Z := 4.

(** JavaScript truthiness of a number. *)
Definition truthy (n : Z) : bool := negb (n =? 0)%Z.

(** ** Errors *)

Inductive Errno :=
  EACCES | EIO | ENOENT | EEXIST | ELOOP | ENOTDIR | EISDIR | EBADF
| EINVAL | ENOTEMPTY | EPERM | EROFS.

Inductive Exn :=
| IOError (code : Errno)
| JsError (msg : string).

Definition Errno_eqb (a b : Errno) : bool :=
  match a, b with
  | EACCES, EACCES | EIO, EIO | ENOENT, ENOENT | EEXIST, EEXIST
  | ELOOP, ELOOP | ENOTDIR, ENOTDIR | EISDIR, EISDIR | EBADF, EBADF
  | EINVAL, EINVAL | ENOTEMPTY, ENOTEMPTY | EPERM, EPERM | EROFS, EROFS => true
  | _, _ => false
  end.

(** [e.code === c] *)
Definition has_code (e : Exn) (c : Errno) : bool :=
  match e with IOError c' => Errno_eqb c' c | JsError _ => false end.

(** ** Path strings

    Modelled from the spec: the path-string collaborator [vpath] (parse,
    format, dirname, basename, combine, resolve, isAbsolute, validate) is not
    part of this file.  A path is kept in parsed form, the list of its
    components with the root first: ["/"; "a"; "b"] for [/a/b], and [""] in
    front of a relative path.  The empty list stands for the empty string. *)

Abbreviation Path := (list string) (only parsing).

Definition isAbsolute (p : Path) : bool :=
  match p with
  | r :: _ => negb (String.eqb r "")
  | [] => false
  end.

Fixpoint join_components (cs : list string) : string :=
  match cs with
  | [] => ""
  | [c] => c
  | c :: cs' => c ++ "/" ++ join_components cs'
  end.

Definition format (p : Path) : string :=
  match p with
  | [] => ""
  | r :: cs => r ++ join_components cs
  end.

Definition dirname (p : Path) : Path :=
  match p with
  | [] | [_] => p
  | _ => removelast p
  end.

Definition basename (p : Path) : string :=
  match p with
  | [] | [_] => ""
  | _ :: cs => List.last cs ""
  end.

Definition combine (p : Path) (name : string) : Path := p ++ [name].

(** Removal of [.] and [..] components, processed left to right over the
    components collected so far (in reverse). *)
Fixpoint reduce_components (absolute : bool) (acc : list string) (cs : list string)
  : list string :=
  match cs with
  | [] => rev acc
  | c :: cs' =>
      if String.eqb c "" || String.eqb c "." then reduce_components absolute acc cs'
      else if String.eqb c ".." then
        match acc with
        | a :: acc' =>
            if String.eqb a ".." then reduce_components absolute (c :: acc) cs'
            else reduce_components absolute acc' cs'
        | [] =>
            if absolute then reduce_components absolute acc cs'
            else reduce_components absolute (c :: acc) cs'
        end
      else reduce_components absolute (c :: acc) cs'
  end.

Definition normalize (p : Path) : Path :=
  match p with
  | [] => []
  | r :: cs => r :: reduce_components (isAbsolute p) [] cs
  end.

Definition resolve (base p : Path) : Path :=
  if isAbsolute p then normalize p
  else match base with
       | [] => normalize p
       | _ => normalize (base ++ tl p)
       end.

Inductive ValidationFlags := Absolute | RelativeOrAbsolute.

(** ** Ordered maps and sets

    Modelled from the spec: [core.SortedMap] and [core.SortedSet] are not part
    of this file.  They are association lists kept in the order of the file
    system's comparer; two keys the comparer finds equal are one key. *)

Definition upper_ascii (a : ascii) : ascii :=
  let n := nat_of_ascii a in
  if (97 <=? n)%nat && (n <=? 122)%nat then ascii_of_nat (n - 32) else a.

Fixpoint upper (s : string) : string :=
  match s with
  | EmptyString => EmptyString
  | String a s' => String (upper_ascii a) (upper s')
  end.

Definition canon (ignoreCase : bool) (s : string) : string :=
  if ignoreCase then upper s else s.

(** [stringComparer]: [vpath.compareCaseInsensitive] when [ignoreCase], else
    [vpath.compareCaseSensitive]. *)
Definition stringComparer (ignoreCase : bool) (a b : string) : comparison :=
  String.compare (canon ignoreCase a) (canon ignoreCase b).

Abbreviation SortedMap V := (list (string * V)) (only parsing).
Abbreviation SortedSet := (list string) (only parsing).

Section Sorted.
Variable ic : bool.
Variable V : Type.

Fixpoint sm_get (k : string) (m : SortedMap V) : option V :=
  match m with
  | [] => None
  | (k', v) :: m' =>
      match stringComparer ic k k' with
      | Eq => Some v
      | _ => sm_get k m'
      end
  end.

Definition sm_has (k : string) (m : SortedMap V) : bool :=
  match sm_get k m with Some _ => true | None => false end.

Fixpoint sm_set (k : string) (v : V) (m : SortedMap V) : SortedMap V :=
  match m with
  | [] => [(k, v)]
  | (k', v') :: m' =>
      match stringComparer ic k k' with
      | Eq => (k', v) :: m'
      | Lt => (k, v) :: m
      | Gt => (k', v') :: sm_set k v m'
      end
  end.

Fixpoint sm_delete (k : string) (m : SortedMap V) : SortedMap V :=
  match m with
  | [] => []
  | (k', v') :: m' =>
      match stringComparer ic k k' with
      | Eq => m'
      | _ => (k', v') :: sm_delete k m'
      end
  end.

Definition sm_size (m : SortedMap V) : Z := Z.of_nat (length m).
Definition sm_keys (m : SortedMap V) : list string := map fst m.
Definition sm_values (m : SortedMap V) : list V := map snd m.
End Sorted.

Section SortedSets.
Variable ic : bool.

Fixpoint ss_add (k : string) (s : SortedSet) : SortedSet :=
  match s with
  | [] => [k]
  | k' :: s' =>
      match stringComparer ic k k' with
      | Eq => s
      | Lt => k :: s
      | Gt => k' :: ss_add k s'
      end
  end.

Fixpoint ss_delete (k : string) (s : SortedSet) : SortedSet :=
  match s with
  | [] => []
  | k' :: s' =>
      match stringComparer ic k k' with
      | Eq => s'
      | _ => k' :: ss_delete k s'
      end
  end.

Definition ss_of_list (l : list string) : SortedSet :=
  fold_left (fun s k => ss_add k s) l [].

Definition ss_size (s : SortedSet) : Z := Z.of_nat (length s).
End SortedSets.

(** A JavaScript [Map] keyed by a type with decidable equality, in insertion
    order. *)
Section JsMap.
Variables K V : Type.
Variable eqb : K -> K -> bool.

Fixpoint jm_get (k : K) (m : list (K * V)) : option V :=
  match m with
  | [] => None
  | (k', v) :: m' => if eqb k k' then Some v else jm_get k m'
  end.

Fixpoint jm_set (k : K) (v : V) (m : list (K * V)) : list (K * V) :=
  match m with
  | [] => [(k, v)]
  | (k', v') :: m' =>
      if eqb k k' then (k', v) :: m' else (k', v') :: jm_set k v m'
  end.

Fixpoint jm_delete (k : K) (m : list (K * V)) : list (K * V) :=
  match m with
  | [] => []
  | (k', v') :: m' =>
      if eqb k k' then m' else (k', v') :: jm_delete k m'
  end.
End JsMap.

(** ** Objects of the store *)

Abbreviation ptr := nat (only parsing).      (* an inode object *)
Abbreviation mapref := nat (only parsing).   (* a [core.SortedMap<string, Inode>] object *)
Abbreviation bufref := nat (only parsing).   (* a [Buffer] object *)
Abbreviation fsref := nat (only parsing).    (* a [FileSystem] object *)

(** The external file-system resolver of a mount ([FileSystemResolver]): three
    synchronous functions.  Every call is recorded in the store. *)
Record FileSystemResolver := {
  r_statSync : Path -> Z * Z;           (* { mode, size } *)
  r_readdirSync : Path -> list string;
  r_readFileSync : Path -> list Byte.byte
}.

Inductive ResolverCall :=
| CallStat (p : Path)
| CallReaddir (p : Path)
| CallReadFile (p : Path).

Module Inode.
(** [InodeBase] with the fields of [FileInode], [DirectoryInode] and
    [SymlinkInode]; an absent property is [None]. *)
Record t := {
  dev : Z;
  ino : Z;
  mode : Z;
  atimeMs : Z;
  mtimeMs : Z;
  ctimeMs : Z;
  birthtimeMs : Z;
  nlink : Z;
  shadowRoot : option ptr;
  incomingLinks : list (option ptr * SortedSet);
  paths : option (list string);
  size : option Z;
  buffer : option bufref;
  source : option Path;
  resolver : option FileSystemResolver;
  links : option mapref;
  symlink : option Path
}.

Definition with_mode v i := {| dev := dev i; ino := ino i; mode := v; atimeMs := atimeMs i; mtimeMs := mtimeMs i; ctimeMs := ctimeMs i; birthtimeMs := birthtimeMs i; nlink := nlink i; shadowRoot := shadowRoot i; incomingLinks := incomingLinks i; paths := paths i; size := size i; buffer := buffer i; source := source i; resolver := resolver i; links := links i; symlink := symlink i |}.
Definition with_mtimeMs v i := {| dev := dev i; ino := ino i; mode := mode i; atimeMs := atimeMs i; mtimeMs := v; ctimeMs := ctimeMs i; birthtimeMs := birthtimeMs i; nlink := nlink i; shadowRoot := shadowRoot i; incomingLinks := incomingLinks i; paths := paths i; size := size i; buffer := buffer i; source := source i; resolver := resolver i; links := links i; symlink := symlink i |}.
Definition with_ctimeMs v i := {| dev := dev i; ino := ino i; mode := mode i; atimeMs := atimeMs i; mtimeMs := mtimeMs i; ctimeMs := v; birthtimeMs := birthtimeMs i; nlink := nlink i; shadowRoot := shadowRoot i; incomingLinks := incomingLinks i; paths := paths i; size := size i; buffer := buffer i; source := source i; resolver := resolver i; links := links i; symlink := symlink i |}.
Definition with_nlink v i := {| dev := dev i; ino := ino i; mode := mode i; atimeMs := atimeMs i; mtimeMs := mtimeMs i; ctimeMs := ctimeMs i; birthtimeMs := birthtimeMs i; nlink := v; shadowRoot := shadowRoot i; incomingLinks := incomingLinks i; paths := paths i; size := size i; buffer := buffer i; source := source i; resolver := resolver i; links := links i; symlink := symlink i |}.
Definition with_incomingLinks v i := {| dev := dev i; ino := ino i; mode := mode i; atimeMs := atimeMs i; mtimeMs := mtimeMs i; ctimeMs := ctimeMs i; birthtimeMs := birthtimeMs i; nlink := nlink i; shadowRoot := shadowRoot i; incomingLinks := v; paths := paths i; size := size i; buffer := buffer i; source := source i; resolver := resolver i; links := links i; symlink := symlink i |}.
Definition with_paths v i := {| dev := dev i; ino := ino i; mode := mode i; atimeMs := atimeMs i; mtimeMs := mtimeMs i; ctimeMs := ctimeMs i; birthtimeMs := birthtimeMs i; nlink := nlink i; shadowRoot := shadowRoot i; incomingLinks := incomingLinks i; paths := v; size := size i; buffer := buffer i; source := source i; resolver := resolver i; links := links i; symlink := symlink i |}.
Definition with_size v i := {| dev := dev i; ino := ino i; mode := mode i; atimeMs := atimeMs i; mtimeMs := mtimeMs i; ctimeMs := ctimeMs i; birthtimeMs := birthtimeMs i; nlink := nlink i; shadowRoot := shadowRoot i; incomingLinks := incomingLinks i; paths := paths i; size := v; buffer := buffer i; source := source i; resolver := resolver i; links := links i; symlink := symlink i |}.
Definition with_buffer v i := {| dev := dev i; ino := ino i; mode := mode i; atimeMs := atimeMs i; mtimeMs := mtimeMs i; ctimeMs := ctimeMs i; birthtimeMs := birthtimeMs i; nlink := nlink i; shadowRoot := shadowRoot i; incomingLinks := incomingLinks i; paths := paths i; size := size i; buffer := v; source := source i; resolver := resolver i; links := links i; symlink := symlink i |}.
Definition with_source v i := {| dev := dev i; ino := ino i; mode := mode i; atimeMs := atimeMs i; mtimeMs := mtimeMs i; ctimeMs := ctimeMs i; birthtimeMs := birthtimeMs i; nlink := nlink i; shadowRoot := shadowRoot i; incomingLinks := incomingLinks i; paths := paths i; size := size i; buffer := buffer i; source := v; resolver := resolver i; links := links i; symlink := symlink i |}.
Definition with_resolver v i := {| dev := dev i; ino := ino i; mode := mode i; atimeMs := atimeMs i; mtimeMs := mtimeMs i; ctimeMs := ctimeMs i; birthtimeMs := birthtimeMs i; nlink := nlink i; shadowRoot := shadowRoot i; incomingLinks := incomingLinks i; paths := paths i; size := size i; buffer := buffer i; source := source i; resolver := v; links := links i; symlink := symlink i |}.
Definition with_links v i := {| dev := dev i; ino := ino i; mode := mode i; atimeMs := atimeMs i; mtimeMs := mtimeMs i; ctimeMs := ctimeMs i; birthtimeMs := birthtimeMs i; nlink := nlink i; shadowRoot := shadowRoot i; incomingLinks := incomingLinks i; paths := paths i; size := size i; buffer := buffer i; source := source i; resolver := resolver i; links := v; symlink := symlink i |}.
Definition with_symlink v i := {| dev := dev i; ino := ino i; mode := mode i; atimeMs := atimeMs i; mtimeMs := mtimeMs i; ctimeMs := ctimeMs i; birthtimeMs := birthtimeMs i; nlink := nlink i; shadowRoot := shadowRoot i; incomingLinks := incomingLinks i; paths := paths i; size := size i; buffer := buffer i; source := source i; resolver := resolver i; links := links i; symlink := v |}.
End Inode.

Definition isFileInode (node : Inode.t) : bool :=
  (Z.land (Inode.mode node) S_IFMT =? S_IFREG)%Z.
Definition isDirectoryInode (node : Inode.t) : bool :=
  (Z.land (Inode.mode node) S_IFMT =? S_IFDIR)%Z.
Definition isSymlinkInode (node : Inode.t) : bool :=
  (Z.land (Inode.mode node) S_IFMT =? S_IFLNK)%Z.

Module FileDescription.
Record t := {
  path : list string;
  basename : string;
  parent : ptr;
  node : ptr
}.
End FileDescription.

Module OpenFile.
(** [OpenFileDescription] *)
Record t := {
  fd : Z;
  path : list string;
  basename : string;
  parent : ptr;
  node : ptr;
  flags : Z;
  written : bool;
  offset : Z;
  buffer : option bufref
}.

Definition with_offset v e := {| fd := fd e; path := path e; basename := basename e; parent := parent e; node := node e; flags := flags e; written := written e; offset := v; buffer := buffer e |}.
Definition with_buffer v e := {| fd := fd e; path := path e; basename := basename e; parent := parent e; node := node e; flags := flags e; written := written e; offset := offset e; buffer := v |}.
End OpenFile.

Definition isReadable (file : OpenFile.t) : bool :=
  negb (Z.land (OpenFile.flags file) O_ACCMODE =? O_WRONLY)%Z.
Definition isWritable (file : OpenFile.t) : bool :=
  negb (Z.land (OpenFile.flags file) O_ACCMODE =? O_RDONLY)%Z.

Module Stats.
Record t := {
  dev : Z; ino : Z; mode : Z; nlink : Z; uid : Z; gid : Z; rdev : Z;
  size : Z; blksize : Z; blocks : Z;
  atimeMs : Z; mtimeMs : Z; ctimeMs : Z; birthtimeMs : Z
}.
Definition isFile (s : t) : bool := (Z.land (mode s) S_IFMT =? S_IFREG)%Z.
Definition isDirectory (s : t) : bool := (Z.land (mode s) S_IFMT =? S_IFDIR)%Z.
Definition isSymbolicLink (s : t) : bool := (Z.land (mode s) S_IFMT =? S_IFLNK)%Z.
End Stats.

Module FS.
(** The fields of a [FileSystem] object.  [frozen] is [Object.isFrozen(this)];
    [_time] is the time source, given the number of clock readings the
    process has made so far (a fixed timestamp is a constant function). *)
Record t := {
  ignoreCase : bool;
  frozen : bool;
  lazy_links : option mapref;            (* _lazy.links *)
  lazy_shadows : option (list (Z * ptr)); (* _lazy.shadows *)
  _cwd : Path;
  _time : nat -> Z;
  _openFiles : list (Z * OpenFile.t);
  _shadowRoot : option fsref;
  _dirStack : option (list Path)
}.

Definition with_frozen v f := {| ignoreCase := ignoreCase f; frozen := v; lazy_links := lazy_links f; lazy_shadows := lazy_shadows f; _cwd := _cwd f; _time := _time f; _openFiles := _openFiles f; _shadowRoot := _shadowRoot f; _dirStack := _dirStack f |}.
Definition with_lazy_links v f := {| ignoreCase := ignoreCase f; frozen := frozen f; lazy_links := v; lazy_shadows := lazy_shadows f; _cwd := _cwd f; _time := _time f; _openFiles := _openFiles f; _shadowRoot := _shadowRoot f; _dirStack := _dirStack f |}.
Definition with_lazy_shadows v f := {| ignoreCase := ignoreCase f; frozen := frozen f; lazy_links := lazy_links f; lazy_shadows := v; _cwd := _cwd f; _time := _time f; _openFiles := _openFiles f; _shadowRoot := _shadowRoot f; _dirStack := _dirStack f |}.
Definition with_cwd v f := {| ignoreCase := ignoreCase f; frozen := frozen f; lazy_links := lazy_links f; lazy_shadows := lazy_shadows f; _cwd := v; _time := _time f; _openFiles := _openFiles f; _shadowRoot := _shadowRoot f; _dirStack := _dirStack f |}.
Definition with_openFiles v f := {| ignoreCase := ignoreCase f; frozen := frozen f; lazy_links := lazy_links f; lazy_shadows := lazy_shadows f; _cwd := _cwd f; _time := _time f; _openFiles := v; _shadowRoot := _shadowRoot f; _dirStack := _dirStack f |}.
Definition with_shadowRoot v f := {| ignoreCase := ignoreCase f; frozen := frozen f; lazy_links := lazy_links f; lazy_shadows := lazy_shadows f; _cwd := _cwd f; _time := _time f; _openFiles := _openFiles f; _shadowRoot := v; _dirStack := _dirStack f |}.
Definition with_dirStack v f := {| ignoreCase := ignoreCase f; frozen := frozen f; lazy_links := lazy_links f; lazy_shadows := lazy_shadows f; _cwd := _cwd f; _time := _time f; _openFiles := _openFiles f; _shadowRoot := _shadowRoot f; _dirStack := v |}.
End FS.

(** ** The store *)

Record State := {
  devCount : Z;
  inoCount : Z;
  fdCount : Z;
  inodes : list Inode.t;
  linkmaps : list (SortedMap ptr);
  buffers : list (list Byte.byte);
  filesystems : list FS.t;
  ticks : nat;                     (* clock readings made so far *)
  calls : list ResolverCall        (* resolver calls made so far, oldest first *)
}.

Definition with_devCount v s := {| devCount := v; inoCount := inoCount s; fdCount := fdCount s; inodes := inodes s; linkmaps := linkmaps s; buffers := buffers s; filesystems := filesystems s; ticks := ticks s; calls := calls s |}.
Definition with_inoCount v s := {| devCount := devCount s; inoCount := v; fdCount := fdCount s; inodes := inodes s; linkmaps := linkmaps s; buffers := buffers s; filesystems := filesystems s; ticks := ticks s; calls := calls s |}.
Definition with_fdCount v s := {| devCount := devCount s; inoCount := inoCount s; fdCount := v; inodes := inodes s; linkmaps := linkmaps s; buffers := buffers s; filesystems := filesystems s; ticks := ticks s; calls := calls s |}.
Definition with_inodes v s := {| devCount := devCount s; inoCount := inoCount s; fdCount := fdCount s; inodes := v; linkmaps := linkmaps s; buffers := buffers s; filesystems := filesystems s; ticks := ticks s; calls := calls s |}.
Definition with_linkmaps v s := {| devCount := devCount s; inoCount := inoCount s; fdCount := fdCount s; inodes := inodes s; linkmaps := v; buffers := buffers s; filesystems := filesystems s; ticks := ticks s; calls := calls s |}.
Definition with_buffers v s := {| devCount := devCount s; inoCount := inoCount s; fdCount := fdCount s; inodes := inodes s; linkmaps := linkmaps s; buffers := v; filesystems := filesystems s; ticks := ticks s; calls := calls s |}.
Definition with_filesystems v s := {| devCount := devCount s; inoCount := inoCount s; fdCount := fdCount s; inodes := inodes s; linkmaps := linkmaps s; buffers := buffers s; filesystems := v; ticks := ticks s; calls := calls s |}.
Definition with_ticks v s := {| devCount := devCount s; inoCount := inoCount s; fdCount := fdCount s; inodes := inodes s; linkmaps := linkmaps s; buffers := buffers s; filesystems := filesystems s; ticks := v; calls := calls s |}.
Definition with_calls v s := {| devCount := devCount s; inoCount := inoCount s; fdCount := fdCount s; inodes := inodes s; linkmaps := linkmaps s; buffers := buffers s; filesystems := filesystems s; ticks := ticks s; calls := v |}.

(** The store of a process that has created nothing yet. *)
Definition initial : State :=
  {| devCount := 0; inoCount := 0; fdCount := 0; inodes := []; linkmaps := [];
     buffers := []; filesystems := []; ticks := 0; calls := [] |}.

(** ** State and exceptions *)

Inductive Res (A : Type) :=
| Ok (a : A) (s : State)
| Throw (e : Exn) (s : State).
Arguments Throw {A} e s.

Definition M (A : Type) := State -> Res A.

Definition ret {A} (a : A) : M A := fun s => Ok a s.
Definition bind {A B} (m : M A) (k : A -> M B) : M B :=
  fun s => match m s with
           | Ok a s' => k a s'
           | Throw e s' => Throw e s'
           end.
Definition throw {A} (e : Exn) : M A := fun s => Throw e s.
Definition catch {A} (m : M A) (h : Exn -> M A) : M A :=
  fun s => match m s with
           | Ok a s' => Ok a s'
           | Throw e s' => h e s'
           end.
Definition gets {A} (f : State -> A) : M A := fun s => Ok (f s) s.
Definition modify (f : State -> State) : M unit := fun s => Ok tt (f s).

Notation "'let*' x ':=' m 'in' k" := (bind m (fun x => k))
  (at level 10, x pattern, m at level 100, k at level 200).
Notation "m1 ';;' m2" := (bind m1 (fun _ => m2))
  (at level 100, m2 at level 200, right associativity).

Definition when (b : bool) (m : M unit) : M unit := if b then m else ret tt.

(** [for (const x of xs) body(x)] *)
Fixpoint for_each {A} (xs : list A) (body : A -> M unit) : M unit :=
  match xs with
  | [] => ret tt
  | x :: xs' => body x ;; for_each xs' body
  end.

Definition final_state {A} (r : Res A) : State :=
  match r with Ok _ s => s | Throw _ s => s end.

(** *** Access to the heaps *)

Definition inode_at (p : ptr) : M Inode.t :=
  fun s => match inodes s !! p with
           | Some i => Ok i s
           | None => Throw (JsError "undefined inode") s
           end.
Definition update_inode (p : ptr) (f : Inode.t -> Inode.t) : M unit :=
  modify (fun s => with_inodes (alter f p (inodes s)) s).
Definition new_inode (i : Inode.t) : M ptr :=
  fun s => Ok (length (inodes s)) (with_inodes (inodes s ++ [i]) s).

Definition map_at (m : mapref) : M (SortedMap ptr) :=
  fun s => match linkmaps s !! m with
           | Some l => Ok l s
           | None => Throw (JsError "undefined map") s
           end.
Definition update_map (m : mapref) (f : SortedMap ptr -> SortedMap ptr) : M unit :=
  modify (fun s => with_linkmaps (alter f m (linkmaps s)) s).
Definition new_map : M mapref :=
  fun s => Ok (length (linkmaps s)) (with_linkmaps (linkmaps s ++ [[]]) s).

Definition buffer_at (b : bufref) : M (list Byte.byte) :=
  fun s => match buffers s !! b with
           | Some l => Ok l s
           | None => Throw (JsError "undefined buffer") s
           end.
Definition update_buffer (b : bufref) (f : list Byte.byte -> list Byte.byte) : M unit :=
  modify (fun s => with_buffers (alter f b (buffers s)) s).
Definition new_buffer (l : list Byte.byte) : M bufref :=
  fun s => Ok (length (buffers s)) (with_buffers (buffers s ++ [l]) s).

Definition fs_at (this : fsref) : M FS.t :=
  fun s => match filesystems s !! this with
           | Some f => Ok f s
           | None => Throw (JsError "undefined file system") s
           end.
Definition update_fs (this : fsref) (f : FS.t -> FS.t) : M unit :=
  modify (fun s => with_filesystems (alter f this (filesystems s)) s).
Definition new_fs (f : FS.t) : M fsref :=
  fun s => Ok (length (filesystems s)) (with_filesystems (filesystems s ++ [f]) s).

Definition record_call (c : ResolverCall) : M unit :=
  modify (fun s => with_calls (calls s ++ [c]) s).

(** ** Private methods of [FileSystem] *)

Definition optptr_eqb (a b : option ptr) : bool :=
  match a, b with
  | Some x, Some y => Nat.eqb x y
  | None, None => true
  | _, _ => false
  end.

Definition byteLength (b : list Byte.byte) : Z := Z.of_nat (length b).

(** [this.isReadonly] *)
Definition isReadonly (this : fsref) : M bool :=
  let* fs := fs_at this in ret (FS.frozen fs).

(** [this.time()], without a new value. *)
Definition time (this : fsref) : M Z :=
  let* fs := fs_at this in
  let* t := gets ticks in
  modify (with_ticks (S t)) ;;
  ret (FS._time fs t).

Definition _mknod (this : fsref) (dev type mode umask : Z) : M ptr :=
  let* timestamp := time this in
  let* n := gets inoCount in
  modify (with_inoCount (n + 1)%Z) ;;
  new_inode
    {| Inode.dev := dev;
       Inode.ino := (n + 1)%Z;
       Inode.mode :=
         Z.lor (Z.land (Z.land (Z.land mode (Z.lnot S_IFMT)) (Z.lnot umask)) 4095)
               (Z.land type S_IFMT);
       Inode.atimeMs := timestamp;
       Inode.mtimeMs := timestamp;
       Inode.ctimeMs := timestamp;
       Inode.birthtimeMs := timestamp;
       Inode.nlink := 0;
       Inode.shadowRoot := None;
       Inode.incomingLinks := [];
       Inode.paths := None;
       Inode.size := None;
       Inode.buffer := None;
       Inode.source := None;
       Inode.resolver := None;
       Inode.links := None;
       Inode.symlink := None |}.

(** The default [umask] of [_mknod]. *)
Definition default_umask : Z := 18.  (* 0o022 *)

Definition _fsync (this : fsref) (entry : OpenFile.t) (metadata : bool) : M unit :=
  let* node := inode_at (OpenFile.node entry) in
  match OpenFile.buffer entry with
  | Some b =>
      if isFileInode node
         && negb (match Inode.buffer node with Some b' => Nat.eqb b b' | None => false end)
      then
        let* time := time this in
        update_inode (OpenFile.node entry) (Inode.with_buffer (Some b)) ;;
        update_inode (OpenFile.node entry) (Inode.with_mtimeMs time) ;;
        update_inode (OpenFile.node entry) (Inode.with_ctimeMs time) ;;
        if metadata then
          let* bytes := buffer_at b in
          update_inode (OpenFile.node entry) (Inode.with_size (Some (byteLength bytes)))
        else ret tt
      else ret tt
  | None => ret tt
  end.

Definition _addLink (this : fsref) (parent : option ptr) (links : mapref)
    (name : string) (node : ptr) : M unit :=
  let* fs := fs_at this in
  let ic := FS.ignoreCase fs in
  update_map links (sm_set ic name node) ;;
  update_inode node (fun i => Inode.with_nlink (Inode.nlink i + 1)%Z i) ;;
  let* n := inode_at node in
  let set := match jm_get optptr_eqb parent (Inode.incomingLinks n) with
             | Some set => set
             | None => []
             end in
  update_inode node
    (fun i => Inode.with_incomingLinks
                (jm_set optptr_eqb parent (ss_add ic name set) (Inode.incomingLinks i)) i).

Definition _removeLink (this : fsref) (parent : option ptr) (links : mapref)
    (name : string) (node : ptr) : M unit :=
  let* fs := fs_at this in
  let ic := FS.ignoreCase fs in
  update_map links (sm_delete ic name) ;;
  update_inode node (fun i => Inode.with_nlink (Inode.nlink i - 1)%Z i) ;;
  let* n := inode_at node in
  match jm_get optptr_eqb parent (Inode.incomingLinks n) with
  | Some set =>
      let set' := ss_delete ic name set in
      if (ss_size set' =? 0)%Z then
        update_inode node
          (fun i => Inode.with_incomingLinks
                      (jm_delete optptr_eqb parent (Inode.incomingLinks i)) i)
      else
        update_inode node
          (fun i => Inode.with_incomingLinks
                      (jm_set optptr_eqb parent set' (Inode.incomingLinks i)) i)
  | None => ret tt
  end.

Definition _replaceLink (this : fsref) (oldParent : ptr) (oldLinks : mapref)
    (oldName : string) (newParent : ptr) (newLinks : mapref) (newName : string)
    (node : ptr) : M unit :=
  if negb (Nat.eqb oldParent newParent) then
    _removeLink this (Some oldParent) oldLinks oldName node ;;
    _addLink this (Some newParent) newLinks newName node
  else
    let* fs := fs_at this in
    let ic := FS.ignoreCase fs in
    update_map oldLinks (sm_delete ic oldName) ;;
    update_map oldLinks (sm_set ic newName node) ;;
    let* n := inode_at node in
    match jm_get optptr_eqb (Some oldParent) (Inode.incomingLinks n) with
    | Some set =>
        update_inode node
          (fun i => Inode.with_incomingLinks
                      (jm_set optptr_eqb (Some oldParent)
                         (ss_add ic newName (ss_delete ic oldName set))
                         (Inode.incomingLinks i)) i)
    | None => ret tt
    end.

Definition stack_overflow : Exn := JsError "Maximum call stack size exceeded".

(** [_getShadow].  The recursion follows the parents recorded in
    [incomingLinks]; the memo table is filled before the recursive calls, and
    [fuel] stands for the call stack. *)
Fixpoint getShadow_rec (fuel : nat) (this : fsref) (root : ptr) : M ptr :=
  match fuel with
  | O => throw stack_overflow
  | S fuel' =>
      let* fs := fs_at this in
      let shadows := match FS.lazy_shadows fs with Some m => m | None => [] end in
      update_fs this (FS.with_lazy_shadows (Some shadows)) ;;
      let* r := inode_at root in
      match jm_get Z.eqb (Inode.ino r) shadows with
      | Some shadow => ret shadow
      | None =>
          let* shadow :=
            new_inode
              {| Inode.dev := Inode.dev r;
                 Inode.ino := Inode.ino r;
                 Inode.mode := Inode.mode r;
                 Inode.atimeMs := Inode.atimeMs r;
                 Inode.mtimeMs := Inode.mtimeMs r;
                 Inode.ctimeMs := Inode.ctimeMs r;
                 Inode.birthtimeMs := Inode.birthtimeMs r;
                 Inode.nlink := Inode.nlink r;
                 Inode.shadowRoot := Some root;
                 Inode.incomingLinks := [];
                 Inode.paths := Inode.paths r;
                 Inode.size := None;
                 Inode.buffer := None;
                 Inode.source := None;
                 Inode.resolver := None;
                 Inode.links := None;
                 Inode.symlink := if isSymlinkInode r then Inode.symlink r else None |} in
          update_fs this
            (fun f => FS.with_lazy_shadows
                        (Some (jm_set Z.eqb (Inode.ino r) shadow
                                 (match FS.lazy_shadows f with Some m => m | None => [] end))) f) ;;
          for_each (Inode.incomingLinks r)
            (fun '(rootParent, rootNames) =>
               let* key := match rootParent with
                           | Some rp => let* sp := getShadow_rec fuel' this rp in ret (Some sp)
                           | None => ret None
                           end in
               update_inode shadow
                 (fun i => Inode.with_incomingLinks
                             (jm_set optptr_eqb key (ss_of_list (FS.ignoreCase fs) rootNames)
                                (Inode.incomingLinks i)) i)) ;;
          ret shadow
      end
  end.

Definition _getShadow (this : fsref) (root : ptr) : M ptr :=
  fun s => getShadow_rec (S (length (inodes s))) this root s.

Definition _copyShadowLinks (this : fsref) (source : SortedMap ptr) (target : mapref)
  : M unit :=
  let* fs := fs_at this in
  for_each source
    (fun '(name, root) =>
       let* shadow := _getShadow this root in
       update_map target (sm_set (FS.ignoreCase fs) name shadow)).

(** [_getRootLinks].  A file system is created after the one it shadows, so
    the reference of [_shadowRoot] is the smaller one; [n] bounds the
    descent along [_shadowRoot]. *)
Fixpoint getRootLinks_rec (n : nat) (this : fsref) : M mapref :=
  match n with
  | O => throw stack_overflow
  | S n' =>
      let* fs := fs_at this in
      match FS.lazy_links fs with
      | Some m => ret m
      | None =>
          let* m := new_map in
          update_fs this (FS.with_lazy_links (Some m)) ;;
          match FS._shadowRoot fs with
          | Some p =>
              if (p <? this)%nat then
                let* pm := getRootLinks_rec n' p in
                let* src := map_at pm in
                _copyShadowLinks this src m
              else throw stack_overflow
          | None => ret tt
          end ;;
          ret m
      end
  end.

Definition _getRootLinks (this : fsref) : M mapref := getRootLinks_rec (S this) this.

(** The body of the loop of [_getLinks] over [resolver.readdirSync(source)]:
    [node] is the directory, [dev] its device and [links] its new map. *)
Definition mount_entry (this : fsref) (node : ptr) (dev : Z) (source : Path)
    (resolver : FileSystemResolver) (links : mapref) (name : string) : M unit :=
  let path := combine source name in
  record_call (CallStat path) ;;
  let stats := r_statSync resolver path in
  let type := Z.land (fst stats) S_IFMT in
  if (type =? S_IFDIR)%Z then
    let* dir := _mknod this dev S_IFDIR 511 default_umask in
    update_inode dir (Inode.with_source (Some (combine source name))) ;;
    update_inode dir (Inode.with_resolver (Some resolver)) ;;
    _addLink this (Some node) links name dir
  else if (type =? S_IFREG)%Z then
    let* file := _mknod this dev S_IFREG 438 default_umask in
    update_inode file (Inode.with_source (Some (combine source name))) ;;
    update_inode file (Inode.with_resolver (Some resolver)) ;;
    update_inode file (Inode.with_size (Some (snd stats))) ;;
    _addLink this (Some node) links name file
  else ret tt.

(** The iteration of [_getLinks] over the entries of a mounted directory,
    once [node.source] and [node.resolver] are cleared. *)
Definition mount_entries (this : fsref) (node : ptr) (dev : Z) (source : Path)
    (resolver : FileSystemResolver) (links : mapref) : M unit :=
  record_call (CallReaddir source) ;;
  for_each (r_readdirSync resolver source) (mount_entry this node dev source resolver links).

Fixpoint getLinks_rec (n : nat) (this : fsref) (node : option ptr) : M mapref :=
  match n with
  | O => throw stack_overflow
  | S n' =>
      match node with
      | None => getRootLinks_rec (S n') this
      | Some node =>
          let* i := inode_at node in
          match Inode.links i with
          | Some m => ret m
          | None =>
              let* links := new_map in
              match Inode.source i, Inode.resolver i with
              | Some source, Some resolver =>
                  update_inode node (Inode.with_source None) ;;
                  update_inode node (Inode.with_resolver None) ;;
                  mount_entries this node (Inode.dev i) source resolver links
              | _, _ =>
                  let* fs := fs_at this in
                  match FS._shadowRoot fs, Inode.shadowRoot i with
                  | Some p, Some r =>
                      if (p <? this)%nat then
                        let* pm := getLinks_rec n' p (Some r) in
                        let* src := map_at pm in
                        _copyShadowLinks this src links
                      else throw stack_overflow
                  | _, _ => ret tt
                  end
              end ;;
              update_inode node (Inode.with_links (Some links)) ;;
              ret links
          end
      end
  end.

Definition _getLinks (this : fsref) (node : option ptr) : M mapref :=
  getLinks_rec (S this) this node.

Fixpoint getSize_rec (n : nat) (this : fsref) (node : ptr) : M Z :=
  match n with
  | O => throw stack_overflow
  | S n' =>
      let* i := inode_at node in
      match Inode.buffer i with
      | Some b => let* bytes := buffer_at b in ret (byteLength bytes)
      | None =>
          match Inode.size i with
          | Some sz => ret sz
          | None =>
              match Inode.source i, Inode.resolver i with
              | Some source, Some resolver =>
                  record_call (CallStat source) ;;
                  let sz := snd (r_statSync resolver source) in
                  update_inode node (Inode.with_size (Some sz)) ;;
                  ret sz
              | _, _ =>
                  let* fs := fs_at this in
                  match FS._shadowRoot fs, Inode.shadowRoot i with
                  | Some p, Some r =>
                      if (p <? this)%nat then
                        let* sz := getSize_rec n' p r in
                        update_inode node (Inode.with_size (Some sz)) ;;
                        ret sz
                      else throw stack_overflow
                  | _, _ => ret 0%Z
                  end
              end
          end
      end
  end.

Definition _getSize (this : fsref) (node : ptr) : M Z := getSize_rec (S this) this node.

Fixpoint getBuffer_rec (n : nat) (this : fsref) (node : ptr) : M bufref :=
  match n with
  | O => throw stack_overflow
  | S n' =>
      let* i := inode_at node in
      match Inode.buffer i with
      | Some b => ret b
      | None =>
          match Inode.source i, Inode.resolver i with
          | Some source, Some resolver =>
              update_inode node (Inode.with_source None) ;;
              update_inode node (Inode.with_resolver None) ;;
              update_inode node (Inode.with_size None) ;;
              record_call (CallReadFile source) ;;
              let* b := new_buffer (r_readFileSync resolver source) in
              update_inode node (Inode.with_buffer (Some b)) ;;
              ret b
          | _, _ =>
              let* fs := fs_at this in
              match FS._shadowRoot fs, Inode.shadowRoot i with
              | Some p, Some r =>
                  if (p <? this)%nat then
                    let* b := getBuffer_rec n' p r in
                    update_inode node (Inode.with_buffer (Some b)) ;;
                    ret b
                  else throw stack_overflow
              | _, _ =>
                  let* b := new_buffer [] in
                  update_inode node (Inode.with_buffer (Some b)) ;;
                  ret b
              end
          end
      end
  end.

Definition _getBuffer (this : fsref) (node : ptr) : M bufref :=
  getBuffer_rec (S this) this node.

(** [_invalidatePaths]; [fuel] stands for the call stack. *)
Fixpoint _invalidatePaths (fuel : nat) (this : fsref) (node : ptr) : M unit :=
  match fuel with
  | O => throw stack_overflow
  | S fuel' =>
      update_inode node (Inode.with_paths None) ;;
      let* i := inode_at node in
      if isDirectoryInode i then
        let* m := _getLinks this (Some node) in
        let* children := map_at m in
        for_each (sm_values children) (fun child => _invalidatePaths fuel' this child)
      else ret tt
  end.

Inductive FileKind := KindFile | KindDirectory.

Definition _file (this : fsref) (fd : Z) (kind : option FileKind) (mode : Z)
  : M OpenFile.t :=
  let* fs := fs_at this in
  match jm_get Z.eqb fd (FS._openFiles fs) with
  | None => throw (IOError EBADF)
  | Some entry =>
      let* node := inode_at (OpenFile.node entry) in
      match kind with
      | Some KindFile =>
          if isDirectoryInode node then throw (IOError EISDIR)
          else if negb (isFileInode node) then throw (IOError EBADF)
          else ret tt
      | Some KindDirectory =>
          if negb (isDirectoryInode node) then throw (IOError EBADF) else ret tt
      | None => ret tt
      end ;;
      if truthy (Z.land mode W_OK) && negb (isWritable entry) then throw (IOError EBADF)
      else if truthy (Z.land mode R_OK) && negb (isReadable entry) then throw (IOError EBADF)
      else ret entry
  end.

(** *** Path resolution *)

Inductive WalkStep :=
| Found (entry : FileDescription.t)
| Missing                       (* [return undefined] *)
| Restart (components : Path).  (* a symbolic link was expanded *)

(** The body of the [while] loop of [_walk] from one assignment of
    [components] to the next: [done] is [components.slice(0, step)] and
    [rest] is [components.slice(step)]. *)
Fixpoint walk_steps (this : fsref) (noFollow : bool) (depth : nat)
    (done rest : list string) (links : mapref) (parent : option ptr) : M WalkStep :=
  match rest with
  | [] => ret Missing
  | basename :: rest' =>
      if (40 <=? depth)%nat then throw (IOError ELOOP)
      else
        let lastStep := match rest' with [] => true | _ => false end in
        let* fs := fs_at this in
        let* m := map_at links in
        match sm_get (FS.ignoreCase fs) basename m with
        | None => ret Missing
        | Some node =>
            let* n := inode_at node in
            if isSymlinkInode n && negb (noFollow && lastStep) then
              let dirname := done in
              match Inode.symlink n with
              | None => throw (JsError "symlink is undefined")
              | Some target =>
                  let symlink := resolve dirname target in
                  if negb (isAbsolute symlink) then throw (JsError "Path not absolute")
                  else ret (Restart (symlink ++ rest'))
              end
            else if lastStep then
              let path := done ++ [basename] in
              let parent := match parent with
                            | None => if isDirectoryInode n then Some node else None
                            | Some _ => parent
                            end in
              match parent with
              | None => throw (IOError ENOENT)
              | Some p =>
                  ret (Found {| FileDescription.path := path;
                                FileDescription.basename := basename;
                                FileDescription.parent := p;
                                FileDescription.node := node |})
              end
            else if isDirectoryInode n then
              let* links' := _getLinks this (Some node) in
              walk_steps this noFollow depth (done ++ [basename]) rest' links' (Some node)
            else throw (IOError ENOTDIR)
        end
  end.

(** The loop of [_walk] from a value of [depth] on.  Every expansion of a
    symbolic link increments [depth], and the check at the head of the loop
    stops at 40, so [budget] = 40 never runs out. *)
Fixpoint walk_loop (budget : nat) (this : fsref) (noFollow : bool) (depth : nat)
    (components : Path) : M (option FileDescription.t) :=
  let* links := _getRootLinks this in
  let* r := walk_steps this noFollow depth [] components links None in
  match r with
  | Found entry => ret (Some entry)
  | Missing => ret None
  | Restart components' =>
      match budget with
      | S budget' => walk_loop budget' this noFollow (S depth) components'
      | O => throw (IOError ELOOP)
      end
  end.

Definition _walk (this : fsref) (path : Path) (noFollow : bool)
  : M (option FileDescription.t) :=
  walk_loop 40 this noFollow 0 path.

Definition _find (this : fsref) (path : Path) := _walk this path false.
Definition _lfind (this : fsref) (path : Path) := _walk this path true.

(** [x || _throw(new IOError(code, ...))] *)
Definition or_throw {A} (m : M (option A)) (code : Errno) : M A :=
  let* r := m in
  match r with
  | Some a => ret a
  | None => throw (IOError code)
  end.

(** Modelled from the spec: [vpath.validate], which is not part of this file;
    a path that must be absolute and is not is rejected. *)
Definition validate (p : Path) (flags : ValidationFlags) : M Path :=
  match flags with
  | Absolute => if isAbsolute p then ret p else throw (IOError ENOENT)
  | RelativeOrAbsolute => ret p
  end.

Definition nonempty {A} (l : list A) : bool :=
  match l with [] => false | _ => true end.

Definition path_eqb (p q : Path) : bool :=
  if decide (p = q) then true else false.

Definition _resolve (this : fsref) (path : Path) : M Path :=
  let* fs := fs_at this in
  if nonempty (FS._cwd fs) then
    let* p := validate path RelativeOrAbsolute in
    ret (resolve (FS._cwd fs) p)
  else validate path Absolute.

(** [this.stringComparer(vpath.dirname(path), path) === 0] *)
Definition is_root_path (ignoreCase : bool) (path : Path) : bool :=
  match stringComparer ignoreCase (format (dirname path)) (format path) with
  | Eq => true
  | _ => false
  end.

(** ** Public methods *)

Definition makeReadonly (this : fsref) : M unit :=
  update_fs this (FS.with_frozen true).

Definition _stat (this : fsref) (node : ptr) : M Stats.t :=
  let* n := inode_at node in
  let* size :=
    if isFileInode n then _getSize this node
    else if isSymlinkInode n then
      ret (match Inode.symlink n with
           | Some t => Z.of_nat (String.length (format t))
           | None => 0%Z
           end)
    else ret 0%Z in
  let* n := inode_at node in
  ret {| Stats.dev := Inode.dev n; Stats.ino := Inode.ino n; Stats.mode := Inode.mode n;
         Stats.nlink := Inode.nlink n; Stats.uid := 0; Stats.gid := 0; Stats.rdev := 0;
         Stats.size := size; Stats.blksize := 4096; Stats.blocks := 0;
         Stats.atimeMs := Inode.atimeMs n; Stats.mtimeMs := Inode.mtimeMs n;
         Stats.ctimeMs := Inode.ctimeMs n; Stats.birthtimeMs := Inode.birthtimeMs n |}.

Definition statSync (this : fsref) (path : Path) : M Stats.t :=
  let* path := _resolve this path in
  let* entry := or_throw (_find this path) ENOENT in
  _stat this (FileDescription.node entry).

Definition lstatSync (this : fsref) (path : Path) : M Stats.t :=
  let* path := _resolve this path in
  let* entry := or_throw (_lfind this path) ENOENT in
  _stat this (FileDescription.node entry).

Definition fstatSync (this : fsref) (fd : Z) : M Stats.t :=
  let* entry := _file this fd None F_OK in
  _stat this (OpenFile.node entry).

Definition readdirSync (this : fsref) (path : Path) : M (list string) :=
  let* path := _resolve this path in
  let* entry := or_throw (_find this path) ENOENT in
  let* node := inode_at (FileDescription.node entry) in
  if negb (isDirectoryInode node) then throw (IOError ENOTDIR)
  else
    let* links := _getLinks this (Some (FileDescription.node entry)) in
    let* m := map_at links in
    ret (sm_keys m).

Definition chdir (this : fsref) (path : Path) : M unit :=
  let* ro := isReadonly this in
  if ro then throw (IOError EPERM)
  else
    let* path := _resolve this path in
    let* entry := or_throw (_find this path) ENOENT in
    let* node := inode_at (FileDescription.node entry) in
    if negb (isDirectoryInode node) then throw (IOError ENOTDIR)
    else
      let* fs := fs_at this in
      if negb (path_eqb (FS._cwd fs) path) then update_fs this (FS.with_cwd path)
      else ret tt.

Definition pushd (this : fsref) (path : option Path) : M unit :=
  let* ro := isReadonly this in
  if ro then throw (IOError EPERM)
  else
    let* path := match path with
                 | Some p => if nonempty p then let* p' := _resolve this p in ret (Some p')
                             else ret (Some p)
                 | None => ret None
                 end in
    let* fs := fs_at this in
    when (nonempty (FS._cwd fs))
      (update_fs this
         (fun f => FS.with_dirStack
                     (Some (match FS._dirStack f with Some st => st | None => [] end
                            ++ [FS._cwd fs])) f)) ;;
    match path with
    | Some p => if nonempty p && negb (path_eqb p (FS._cwd fs)) then chdir this p else ret tt
    | None => ret tt
    end.

Definition popd (this : fsref) : M unit :=
  let* ro := isReadonly this in
  if ro then throw (IOError EPERM)
  else
    let* fs := fs_at this in
    match FS._dirStack fs with
    | Some st =>
        match last st with
        | Some p =>
            update_fs this (FS.with_dirStack (Some (removelast st))) ;;
            if nonempty p then chdir this p else ret tt
        | None => ret tt
        end
    | None => ret tt
    end.

Definition chmodSync (this : fsref) (path : Path) (mode : Z) : M unit :=
  let* path := _resolve this path in
  let* entry := or_throw (_find this path) ENOENT in
  let* ro := isReadonly this in
  if ro then throw (IOError EROFS)
  else
    update_inode (FileDescription.node entry)
      (fun i => Inode.with_mode (Z.lor (Z.land (Inode.mode i) S_IFMT) (Z.land mode 4095)) i) ;;
    let* t := time this in
    update_inode (FileDescription.node entry) (Inode.with_ctimeMs t).

(** The parent directory and the name under which [mkdirSync] and
    [mountSync] create their node: a root is a name of the root link map. *)
Definition parent_and_name (this : fsref) (path : Path) : M (option ptr * string) :=
  let* fs := fs_at this in
  if is_root_path (FS.ignoreCase fs) path then ret (None, format path)
  else
    let* entry := or_throw (_find this (dirname path)) ENOENT in
    let* node := inode_at (FileDescription.node entry) in
    if negb (isDirectoryInode node) then throw (IOError ENOTDIR)
    else ret (Some (FileDescription.node entry), basename path).

(** What [mkdirSync] and [mountSync] share after the node is made. *)
Definition link_new_directory (this : fsref) (parent : option ptr) (links : mapref)
    (name : string) (path : Path) (node : ptr) : M unit :=
  _addLink this parent links name node ;;
  match parent with
  | Some p =>
      let* t := time this in
      update_inode p (Inode.with_mtimeMs t)
  | None =>
      let* fs := fs_at this in
      if negb (nonempty (FS._cwd fs)) then update_fs this (FS.with_cwd path) else ret tt
  end.

Definition new_directory_node (this : fsref) (parent : option ptr) (mode : Z) : M ptr :=
  match parent with
  | Some p =>
      let* pi := inode_at p in
      _mknod this (Inode.dev pi) S_IFDIR mode default_umask
  | None =>
      let* d := gets devCount in
      modify (with_devCount (d + 1)%Z) ;;
      _mknod this (d + 1)%Z S_IFDIR mode 0
  end.

Definition mountSync (this : fsref) (source target : Path)
    (resolver : FileSystemResolver) (mode : Z) : M unit :=
  let* source := validate source Absolute in
  let* target := _resolve this target in
  let mode := Z.land mode 1023 in
  let* (parent, name) := parent_and_name this target in
  let* links := _getLinks this parent in
  let* m := map_at links in
  let* fs := fs_at this in
  if sm_has (FS.ignoreCase fs) name m then throw (IOError EEXIST)
  else if FS.frozen fs then throw (IOError EROFS)
  else
    let* node := new_directory_node this parent mode in
    update_inode node (Inode.with_source (Some source)) ;;
    update_inode node (Inode.with_resolver (Some resolver)) ;;
    link_new_directory this parent links name target node.

Definition mkdirSync (this : fsref) (path : Path) (mode : Z) : M unit :=
  let* path := _resolve this path in
  let mode := Z.land mode 1023 in
  let* (parent, name) := parent_and_name this path in
  let* links := _getLinks this parent in
  let* m := map_at links in
  let* fs := fs_at this in
  if sm_has (FS.ignoreCase fs) name m then throw (IOError EEXIST)
  else if FS.frozen fs then throw (IOError EROFS)
  else
    let* node := new_directory_node this parent mode in
    link_new_directory this parent links name path node.

(** [mkdirpSync]; [fuel] stands for the call stack. *)
Fixpoint mkdirp_rec (fuel : nat) (this : fsref) (path : Path) (mode : Z) : M unit :=
  match fuel with
  | O => throw stack_overflow
  | S fuel' =>
      let* path := _resolve this path in
      catch (mkdirSync this path mode)
        (fun e =>
           if has_code e ENOENT then
             mkdirp_rec fuel' this (dirname path) mode ;;
             mkdirSync this path mode
           else if negb (has_code e EEXIST) then throw e
           else ret tt)
  end.

Definition mkdirpSync (this : fsref) (path : Path) (mode : Z) : M unit :=
  mkdirp_rec (S (S (length path))) this path mode.

Definition rmdirSync (this : fsref) (path : Path) : M unit :=
  let* path := _resolve this path in
  let* entry := or_throw (_find this path) ENOENT in
  let parent := FileDescription.parent entry in
  let node := FileDescription.node entry in
  let* n := inode_at node in
  if negb (isDirectoryInode n) then throw (IOError ENOTDIR)
  else
    let* own := _getLinks this (Some node) in
    let* m := map_at own in
    if negb (sm_size m =? 0)%Z then throw (IOError ENOTEMPTY)
    else
      let* ro := isReadonly this in
      if ro then throw (IOError EROFS)
      else
        let name := basename path in
        let* links := _getLinks this (Some parent) in
        _removeLink this (Some parent) links name node ;;
        let* time := time this in
        update_inode parent (Inode.with_mtimeMs time) ;;
        update_inode node (Inode.with_ctimeMs time) ;;
        _invalidatePaths 1 this node.

Definition linkSync (this : fsref) (oldpath newpath : Path) : M unit :=
  let* oldpath := _resolve this oldpath in
  let* newpath := _resolve this newpath in
  let* entry := or_throw (_find this oldpath) ENOENT in
  let node := FileDescription.node entry in
  let* n := inode_at node in
  if isDirectoryInode n then throw (IOError EPERM)
  else
    let* newEntry := or_throw (_find this (dirname newpath)) ENOENT in
    let newParent := FileDescription.node newEntry in
    let* np := inode_at newParent in
    if negb (isDirectoryInode np) then throw (IOError ENOTDIR)
    else
      let* newParentLinks := _getLinks this (Some newParent) in
      let newBasename := basename newpath in
      let* m := map_at newParentLinks in
      let* fs := fs_at this in
      if sm_has (FS.ignoreCase fs) newBasename m then throw (IOError EEXIST)
      else if FS.frozen fs then throw (IOError EROFS)
      else
        _addLink this (Some newParent) newParentLinks newBasename node ;;
        let* time := time this in
        update_inode newParent (Inode.with_mtimeMs time) ;;
        update_inode node (Inode.with_ctimeMs time) ;;
        _invalidatePaths 1 this node.

Definition unlinkSync (this : fsref) (path : Path) : M unit :=
  let* path := _resolve this path in
  let* entry := or_throw (_lfind this path) ENOENT in
  let parent := FileDescription.parent entry in
  let node := FileDescription.node entry in
  let basename := FileDescription.basename entry in
  let* n := inode_at node in
  if isDirectoryInode n then throw (IOError EISDIR)
  else
    let* ro := isReadonly this in
    if ro then throw (IOError EROFS)
    else
      let* links := _getLinks this (Some parent) in
      _removeLink this (Some parent) links basename node ;;
      let* time := time this in
      update_inode parent (Inode.with_mtimeMs time) ;;
      update_inode node (Inode.with_ctimeMs time) ;;
      _invalidatePaths 1 this node.

(** [renameSync]; [fuel] stands for the call stack of the last
    [_invalidatePaths], which descends through the moved directory. *)
Definition renameSync (fuel : nat) (this : fsref) (oldpath newpath : Path) : M unit :=
  let* oldpath := _resolve this oldpath in
  let* newpath := _resolve this newpath in
  let* entry := or_throw (_lfind this oldpath) ENOENT in
  let oldParent := FileDescription.parent entry in
  let node := FileDescription.node entry in
  let oldBasename := FileDescription.basename entry in
  let* newEntry := or_throw (_find this (dirname newpath)) ENOENT in
  let newParent := FileDescription.node newEntry in
  let* np := inode_at newParent in
  if negb (isDirectoryInode np) then throw (IOError ENOTDIR)
  else
    let newBasename := basename newpath in
    let* newParentLinks := _getLinks this (Some newParent) in
    let* m := map_at newParentLinks in
    let* fs := fs_at this in
    let existingNode := sm_get (FS.ignoreCase fs) newBasename m in
    match existingNode with
    | Some existing =>
        let* n := inode_at node in
        let* e := inode_at existing in
        if isDirectoryInode n then
          if negb (isDirectoryInode e) then throw (IOError ENOTDIR)
          else
            let* el := _getLinks this (Some existing) in
            let* em := map_at el in
            if (0 <? sm_size em)%Z then throw (IOError ENOTEMPTY) else ret tt
        else
          if isDirectoryInode e then throw (IOError EISDIR) else ret tt
    | None => ret tt
    end ;;
    let* ro := isReadonly this in
    if ro then throw (IOError EROFS)
    else
      let* time := time this in
      match existingNode with
      | Some existing =>
          _removeLink this (Some newParent) newParentLinks newBasename existing ;;
          _invalidatePaths 1 this existing ;;
          update_inode existing (Inode.with_ctimeMs time)
      | None => ret tt
      end ;;
      let* oldParentLinks := _getLinks this (Some oldParent) in
      _replaceLink this oldParent oldParentLinks oldBasename
        newParent newParentLinks newBasename node ;;
      update_inode oldParent (Inode.with_mtimeMs time) ;;
      update_inode newParent (Inode.with_mtimeMs time) ;;
      _invalidatePaths fuel this node.

Definition symlinkSync (this : fsref) (target linkpath : Path) : M unit :=
  let* target := validate target RelativeOrAbsolute in
  let* linkpath := _resolve this linkpath in
  let dirname := dirname linkpath in
  let* entry := or_throw (_find this dirname) ENOENT in
  let parent := FileDescription.node entry in
  let* p := inode_at parent in
  if negb (isDirectoryInode p) then throw (IOError ENOTDIR)
  else
    let basename := basename linkpath in
    let* parentLinks := _getLinks this (Some parent) in
    let* m := map_at parentLinks in
    let* fs := fs_at this in
    if sm_has (FS.ignoreCase fs) basename m then throw (IOError EEXIST)
    else if FS.frozen fs then throw (IOError EROFS)
    else
      let* node := _mknod this (Inode.dev p) S_IFLNK 438 default_umask in
      update_inode node (Inode.with_symlink (Some target)) ;;
      _addLink this (Some parent) parentLinks basename node ;;
      let* time := time this in
      update_inode parent (Inode.with_mtimeMs time).

Definition readlinkSync (this : fsref) (path : Path) : M Path :=
  let* path := _resolve this path in
  let* entry := or_throw (_lfind this path) ENOENT in
  let* node := inode_at (FileDescription.node entry) in
  if negb (isSymlinkInode node) then throw (IOError EINVAL)
  else match Inode.symlink node with
       | Some t => ret t
       | None => throw (JsError "symlink is undefined")
       end.

(** The [flags] argument of [openSync]: a flag string or a bit mask. *)
Inductive OpenFlags :=
| FlagString (s : string)
| FlagNumber (n : Z).

Definition parseFlags (flags : OpenFlags) : M Z :=
  match flags with
  | FlagNumber n => ret n
  | FlagString s =>
      if String.eqb s "r" then ret O_RDONLY
      else if String.eqb s "r+" then ret O_RDWR
      else if String.eqb s "rs+" then ret O_RDWR
      else if String.eqb s "w" then ret (Z.lor (Z.lor O_WRONLY O_TRUNC) O_CREAT)
      else if String.eqb s "wx" then ret (Z.lor (Z.lor (Z.lor O_WRONLY O_TRUNC) O_CREAT) O_EXCL)
      else if String.eqb s "w+" then ret (Z.lor (Z.lor O_RDWR O_TRUNC) O_CREAT)
      else if String.eqb s "wx+" then ret (Z.lor (Z.lor (Z.lor O_RDWR O_TRUNC) O_CREAT) O_EXCL)
      else if String.eqb s "a" then ret (Z.lor (Z.lor O_WRONLY O_APPEND) O_CREAT)
      else if String.eqb s "ax" then ret (Z.lor (Z.lor (Z.lor O_WRONLY O_APPEND) O_CREAT) O_EXCL)
      else if String.eqb s "a+" then ret (Z.lor (Z.lor O_RDWR O_APPEND) O_CREAT)
      else if String.eqb s "ax+" then ret (Z.lor (Z.lor (Z.lor O_RDWR O_APPEND) O_CREAT) O_EXCL)
      else throw (JsError "Unrecognized file open flag")
  end.

(** [flags & O_ACCMODE && flags & O_CREAT | O_TRUNC]: [&] binds tighter than
    [|], which binds tighter than [&&]. *)
Definition open_write (flags : Z) : Z :=
  if truthy (Z.land flags O_ACCMODE) then Z.lor (Z.land flags O_CREAT) O_TRUNC
  else Z.land flags O_ACCMODE.

Definition openSync (this : fsref) (path : Path) (flags : OpenFlags) (mode : Z) : M Z :=
  let* path := _resolve this path in
  let* flags := parseFlags flags in
  let write := open_write flags in
  let* ro := isReadonly this in
  if truthy write && ro then throw (IOError EROFS)
  else
    let basename := basename path in
    let* entry := _walk this path (truthy (Z.land flags O_NOFOLLOW)) in
    let* (flags, node, parent) :=
      match entry with
      | None =>
          if truthy (Z.land (Z.lnot flags) O_CREAT) then throw (IOError ENOENT)
          else if truthy (Z.land flags O_DIRECTORY) then throw (IOError ENOTDIR)
          else
            let flags := Z.lor flags O_TRUNC in
            let* entry := or_throw (_walk this (dirname path) false) ENOENT in
            let parent := FileDescription.node entry in
            let* p := inode_at parent in
            if negb (isDirectoryInode p) then throw (IOError ENOTDIR)
            else
              let* node := _mknod this (Inode.dev p) S_IFREG mode default_umask in
              let* b := new_buffer [] in
              update_inode node (Inode.with_buffer (Some b)) ;;
              let* links := _getLinks this (Some parent) in
              _addLink this (Some parent) links basename node ;;
              let* time := time this in
              update_inode parent (Inode.with_mtimeMs time) ;;
              ret (flags, node, parent)
      | Some entry =>
          if truthy (Z.land flags O_EXCL) then throw (IOError EEXIST)
          else ret (flags, FileDescription.node entry, FileDescription.parent entry)
      end in
    let* n := inode_at node in
    if truthy (Z.land flags O_DIRECTORY) && isFileInode n then throw (IOError ENOTDIR)
    else if truthy write && isDirectoryInode n then throw (IOError EISDIR)
    else
      let* c := gets fdCount in
      modify (with_fdCount (c + 1)%Z) ;;
      let fd := (c + 1)%Z in
      let* offset :=
        if isFileInode n && (Z.land flags (Z.lor O_APPEND O_TRUNC) =? O_APPEND)%Z
        then _getSize this node else ret 0%Z in
      let file := {| OpenFile.fd := fd; OpenFile.path := path;
                     OpenFile.basename := basename; OpenFile.parent := parent;
                     OpenFile.node := node; OpenFile.flags := flags;
                     OpenFile.written := false; OpenFile.offset := offset;
                     OpenFile.buffer := None |} in
      update_fs this (fun f => FS.with_openFiles (jm_set Z.eqb fd file (FS._openFiles f)) f) ;;
      (if truthy (Z.land flags O_TRUNC) then
         let* b := new_buffer [] in
         let file := OpenFile.with_buffer (Some b) file in
         update_fs this (fun f => FS.with_openFiles (jm_set Z.eqb fd file (FS._openFiles f)) f) ;;
         if truthy (Z.land flags O_SYNC) then _fsync this file true else ret tt
       else ret tt) ;;
      ret fd.

Definition closeSync (this : fsref) (fd : Z) : M unit :=
  let* entry := _file this fd None F_OK in
  update_fs this
    (fun f => FS.with_openFiles (jm_delete Z.eqb (OpenFile.fd entry) (FS._openFiles f)) f) ;;
  _fsync this entry true.

(** Modelled from the spec: [Buffer.prototype.copy], which is not part of this
    file.  [buffer_copy source target targetStart sourceStart sourceEnd] is the
    target after the copy and the number of bytes copied. *)
Definition buffer_copy (source target : list Byte.byte)
    (targetStart sourceStart sourceEnd : Z) : list Byte.byte * Z :=
  let chunk := take (Z.to_nat (sourceEnd - sourceStart))
                 (drop (Z.to_nat sourceStart) source) in
  let chunk := take (length target - Z.to_nat targetStart) chunk in
  (take (Z.to_nat targetStart) target ++ chunk
     ++ drop (Z.to_nat targetStart + length chunk) target,
   Z.of_nat (length chunk)).

(** [readSync] into the caller's [buffer], which is returned with the number
    of bytes read.  [position] is [None] when it is not a number. *)
Definition readSync (this : fsref) (fd : Z) (buffer : list Byte.byte)
    (offset length : Z) (position : option Z) : M (Z * list Byte.byte) :=
  let position := match position with Some p => p | None => (-1)%Z end in
  if (offset <? 0)%Z || (length <? 0)%Z || (position <? -1)%Z
     || (byteLength buffer - length <? offset)%Z
  then throw (IOError EINVAL)
  else if (length =? 0)%Z then ret (0%Z, buffer)
  else
    let* entry := _file this fd (Some KindFile) R_OK in
    let node := OpenFile.node entry in
    let entry := if negb (position =? -1)%Z then OpenFile.with_offset position entry
                 else entry in
    let* b := match OpenFile.buffer entry with
              | Some b => ret b
              | None => _getBuffer this node
              end in
    let entry := OpenFile.with_buffer (Some b) entry in
    let* bytes := buffer_at b in
    let '(buffer', bytesRead) :=
      buffer_copy bytes buffer offset (OpenFile.offset entry)
        (OpenFile.offset entry + length) in
    let entry := OpenFile.with_offset (OpenFile.offset entry + bytesRead)%Z entry in
    update_fs this
      (fun f => FS.with_openFiles (jm_set Z.eqb (OpenFile.fd entry) entry (FS._openFiles f)) f) ;;
    ret (bytesRead, buffer').

Definition resizeBuffer (buffer : bufref) (size : Z) : M bufref :=
  let* bytes := buffer_at buffer in
  if (byteLength bytes =? size)%Z then ret buffer
  else
    let kept := take (Z.to_nat size) bytes in
    new_buffer (kept ++ replicate (Z.to_nat size - length kept) Byte.x00).

(** [writeSync] of a [Buffer]; an argument that is not a number is [None].
    The result is [None] for the [return;] of a write of length 0. *)
Definition writeSync (this : fsref) (fd : Z) (buffer : list Byte.byte)
    (offset length position : option Z) : M (option Z) :=
  let offset := match offset with Some o => o | None => 0%Z end in
  let length := match length with Some l => l | None => (byteLength buffer - offset)%Z end in
  let position := match position with Some p => p | None => (-1)%Z end in
  if (offset <? 0)%Z || (length <? 0)%Z || (position <? -1)%Z
     || (byteLength buffer - length <? offset)%Z
  then throw (IOError EINVAL)
  else if (length =? 0)%Z then ret None
  else
    let* entry := _file this fd (Some KindFile) W_OK in
    let node := OpenFile.node entry in
    let entry := if negb (position =? -1)%Z then OpenFile.with_offset position entry
                 else entry in
    let* b := match OpenFile.buffer entry with
              | Some b => ret b
              | None =>
                  (* if we haven't yet started writing, get a copy of the storage buffer *)
                  let* nb := _getBuffer this node in
                  let* bytes := buffer_at nb in
                  new_buffer bytes
              end in
    let* bytes := buffer_at b in
    let* b := if (byteLength bytes - length <=? OpenFile.offset entry)%Z
              then resizeBuffer b (OpenFile.offset entry + length)
              else ret b in
    let entry := OpenFile.with_buffer (Some b) entry in
    let* target := buffer_at b in
    let '(target', bytesWritten) :=
      buffer_copy buffer target (OpenFile.offset entry) offset (offset + length) in
    update_buffer b (fun _ => target') ;;
    let entry := OpenFile.with_offset (OpenFile.offset entry + bytesWritten)%Z entry in
    update_fs this
      (fun f => FS.with_openFiles (jm_set Z.eqb (OpenFile.fd entry) entry (FS._openFiles f)) f) ;;
    (if truthy (Z.land (OpenFile.flags entry) O_SYNC) then _fsync this entry true else ret tt) ;;
    ret (Some bytesWritten).

(** [try { m } finally { f }] *)
Definition finally {A} (m : M A) (f : M unit) : M A :=
  fun s => match m s with
           | Ok a s' =>
               match f s' with Ok _ s'' => Ok a s'' | Throw e s'' => Throw e s'' end
           | Throw e s' =>
               match f s' with Ok _ s'' => Throw e s'' | Throw e' s'' => Throw e' s'' end
           end.

(** The [path] argument of [readFileSync] and [writeFileSync]: a path or an
    open descriptor. *)
Inductive FileArg :=
| ByPath (p : Path)
| ByFd (fd : Z).

Definition nontermination : Exn := JsError "the loop does not terminate".

(** The [while] loop of [readFileSync]; it ends when an iteration reads
    nothing, so [fuel] = [size + 2] never runs out. *)
Fixpoint read_loop (fuel : nat) (this : fsref) (fd : Z) (buffer : list Byte.byte)
    (size offset : Z) (lastOffset : option Z) : M (Z * list Byte.byte) :=
  match fuel with
  | O => throw nontermination
  | S fuel' =>
      if negb (match lastOffset with Some l => (l =? offset)%Z | None => false end)
         && (offset <? size)%Z
      then
        let* r := readSync this fd buffer offset (size - offset) (Some offset) in
        read_loop fuel' this fd (snd r) size (offset + fst r) (Some offset)
      else ret (offset, buffer)
  end.

(** [readFileSync] without an encoding: the result is the [Buffer]. *)
Definition readFileSync (this : fsref) (path : FileArg) (flag : OpenFlags)
  : M (list Byte.byte) :=
  let* fd := match path with
             | ByFd fd => ret fd
             | ByPath p => openSync this p flag 438
             end in
  let* stats := fstatSync this fd in
  let size := Stats.size stats in
  let buffer := replicate (Z.to_nat size) Byte.x00 in
  finally
    (let* r := read_loop (S (S (Z.to_nat size))) this fd buffer size 0 None in
     let '(offset, buffer) := r in
     if (offset <? size)%Z then ret (take (Z.to_nat offset) buffer) else ret buffer)
    (match path with
     | ByFd _ => ret tt
     | ByPath _ => closeSync this fd
     end).

(** The [while] loop of [writeFileSync]. *)
Fixpoint write_loop (fuel : nat) (this : fsref) (fd : Z) (buffer : list Byte.byte)
    (flags offset : Z) : M unit :=
  match fuel with
  | O => throw nontermination
  | S fuel' =>
      if (offset <? byteLength buffer)%Z then
        let* r := writeSync this fd buffer (Some offset) (Some (byteLength buffer - offset)%Z)
                    (if truthy (Z.land flags O_APPEND) then None else Some offset) in
        match r with
        | Some n => write_loop fuel' this fd buffer flags (offset + n)
        | None => ret tt   (* [offset] is NaN: the loop ends *)
        end
      else ret tt
  end.

(** [writeFileSync] of a [Buffer]. *)
Definition writeFileSync (this : fsref) (path : FileArg) (data : list Byte.byte)
    (flag : OpenFlags) (mode : Z) : M unit :=
  let* flags := parseFlags flag in
  let* fd := match path with
             | ByFd fd => ret fd
             | ByPath p => openSync this p (FlagNumber flags) mode
             end in
  finally
    (write_loop (S (length data)) this fd data flags 0)
    (match path with
     | ByFd _ => ret tt
     | ByPath _ => closeSync this fd
     end).

(** [rimrafSync]; [fuel] stands for the call stack. *)
Fixpoint rimrafSync (fuel : nat) (this : fsref) (path : Path) : M unit :=
  match fuel with
  | O => throw stack_overflow
  | S fuel' =>
      catch
        (let* stats := lstatSync this path in
         if Stats.isFile stats || Stats.isSymbolicLink stats then unlinkSync this path
         else if Stats.isDirectory stats then
           let* files := readdirSync this path in
           for_each files (fun file => rimrafSync fuel' this (combine path file)) ;;
           rmdirSync this path
         else ret tt)
        (fun e => if has_code e ENOENT then ret tt else throw e)
  end.

(** [new FileSystem(ignoreCase, { time, cwd })], without [files] and [meta]. *)
Definition FileSystem_new (ignoreCase : bool) (time : nat -> Z) (cwd : Path) : M fsref :=
  let* this :=
    new_fs {| FS.ignoreCase := ignoreCase; FS.frozen := false; FS.lazy_links := None;
              FS.lazy_shadows := None; FS._cwd := []; FS._time := time;
              FS._openFiles := []; FS._shadowRoot := None; FS._dirStack := None |} in
  (if nonempty cwd then
     validate cwd Absolute ;;
     mkdirpSync this cwd 511
   else ret tt) ;;
  update_fs this (FS.with_cwd cwd) ;;
  ret this.

(** [shadow(ignoreCase = this.ignoreCase)] *)
Definition shadow (this : fsref) (ignoreCase : option bool) : M fsref :=
  let* fs := fs_at this in
  let ignoreCase := match ignoreCase with Some b => b | None => FS.ignoreCase fs end in
  if negb (FS.frozen fs) then throw (JsError "Cannot shadow a mutable file system.")
  else if ignoreCase && negb (FS.ignoreCase fs)
  then throw (JsError "Cannot create a case-insensitive file system from a case-sensitive one.")
  else
    let* child := FileSystem_new ignoreCase (FS._time fs) [] in
    update_fs child (FS.with_shadowRoot (Some this)) ;;
    update_fs child (FS.with_cwd (FS._cwd fs)) ;;
    ret child.

(** ** File sets *)

(** [Link], [Symlink] and [Mount]: the entries of a [FileSet] that [apply]
    defers.  The [meta] option is left out. *)
Inductive Deferred : Type :=
| Link (path : Path)
| Symlink (symlink : Path) (mode : option Z)
| Mount (source : Path) (resolver : FileSystemResolver) (mode : option Z).

(** An entry of a [FileSet] as [_normalizeFileSetEntry] returns it: [null],
    a [File] (a [Buffer]), a [Directory] or a deferred entry.  The keys are in
    the order of [Object.keys]. *)
#[warnings="-register-all"]
Inductive FileSetEntry : Type :=
| Null
| File (data : list Byte.byte) (mode : option Z)
| Directory (files : list (Path * FileSetEntry)) (mode : option Z)
| Later (entry : Deferred).

Abbreviation FileSet := (list (Path * FileSetEntry)) (only parsing).

(** [_applyFileExtendedOptions] for an entry without [meta]. *)
Definition _applyFileExtendedOptions (this : fsref) (path : Path) (mode : option Z) : M unit :=
  match mode with
  | Some mode => chmodSync this path mode
  | None => ret tt
  end.

(** The body of the loop of [_applyFilesWorker] for one normalized entry;
    [deferred] is the array the worker pushes to, [fuel] the call stack of
    [rimrafSync]. *)
Fixpoint apply_entry (fuel : nat) (this : fsref) (value : FileSetEntry) (path : Path)
    (deferred : list (Deferred * Path)) {struct value} : M (list (Deferred * Path)) :=
  match value with
  | Null =>
      let* fs := fs_at this in
      if is_root_path (FS.ignoreCase fs) path
      then throw (JsError "Roots cannot be deleted.")
      else rimrafSync fuel this path ;; ret deferred
  | File data mode =>
      let* fs := fs_at this in
      if is_root_path (FS.ignoreCase fs) path
      then throw (JsError "Roots cannot be files.")
      else
        mkdirpSync this (dirname path) 511 ;;
        writeFileSync this (ByPath path) data (FlagString "w") 438 ;;
        _applyFileExtendedOptions this path mode ;;
        ret deferred
  | Directory files mode =>
      mkdirpSync this path 511 ;;
      _applyFileExtendedOptions this path mode ;;
      (fix worker (files : list (Path * FileSetEntry)) (deferred : list (Deferred * Path))
         : M (list (Deferred * Path)) :=
         match files with
         | [] => ret deferred
         | (key, value) :: files' =>
             let path' := if nonempty path then resolve path key else key in
             validate path' Absolute ;;
             let* deferred := apply_entry fuel this value path' deferred in
             worker files' deferred
         end) files deferred
  | Later entry => ret (deferred ++ [(entry, path)])
  end.

Fixpoint _applyFilesWorker (fuel : nat) (this : fsref) (files : FileSet) (dirname : Path)
    (deferred : list (Deferred * Path)) : M (list (Deferred * Path)) :=
  match files with
  | [] => ret deferred
  | (key, value) :: files' =>
      let path := if nonempty dirname then resolve dirname key else key in
      validate path Absolute ;;
      let* deferred := apply_entry fuel this value path deferred in
      _applyFilesWorker fuel this files' dirname deferred
  end.

Definition apply_deferred (this : fsref) (d : Deferred * Path) : M unit :=
  let (entry, path) := d in
  mkdirpSync this (dirname path) 511 ;;
  pushd this (Some (dirname path)) ;;
  (match entry with
   | Symlink symlink mode =>
       let* fs := fs_at this in
       if is_root_path (FS.ignoreCase fs) path
       then throw (JsError "Roots cannot be symbolic links.")
       else
         symlinkSync this symlink path ;;
         _applyFileExtendedOptions this path mode
   | Link p =>
       let* fs := fs_at this in
       if is_root_path (FS.ignoreCase fs) path
       then throw (JsError "Roots cannot be hard links.")
       else linkSync this p path
   | Mount source resolver mode =>
       mountSync this source path resolver 511 ;;
       _applyFileExtendedOptions this path mode
   end) ;;
  popd this.

Definition _applyFiles (fuel : nat) (this : fsref) (files : FileSet) (dirname : Path) : M unit :=
  let* deferred := _applyFilesWorker fuel this files dirname [] in
  for_each deferred (apply_deferred this).

(** [apply(files)] *)
Definition apply (fuel : nat) (this : fsref) (files : FileSet) : M unit :=
  let* fs := fs_at this in
  _applyFiles fuel this files (FS._cwd fs).

(** ** Lookups without a descriptor *)

(** [realpathSync(path)] *)
Definition realpathSync (this : fsref) (path : Path) : M Path :=
  let* path := _resolve this path in
  let* entry := or_throw (_find this path) ENOENT in
  ret (FileDescription.path entry).

(** [cwd()] *)
Definition cwd (this : fsref) : M Path :=
  let* fs := fs_at this in
  if negb (nonempty (FS._cwd fs))
  then throw (JsError "The current working directory has not been set.")
  else
    let* entry := or_throw (_find this (FS._cwd fs)) ENOENT in
    let* node := inode_at (FileDescription.node entry) in
    if negb (isDirectoryInode node) then throw (IOError ENOTDIR)
    else
      let* fs := fs_at this in
      ret (FS._cwd fs).

(** * Definitions used by the statements *)

Unset Implicit Arguments.

(** ** The hard-link invariant *)

(** The sum of the sizes of the name sets of [incomingLinks]. *)
Definition link_sum (i : Inode.t) : Z :=
  fold_right (fun e acc => (ss_size (snd e) + acc)%Z) 0%Z (Inode.incomingLinks i).

Definition nlink_invariant (s : State) : Prop :=
  forall p i, inodes s !! p = Some i -> Inode.nlink i = link_sum i.

(** ** Sample file systems *)

Definition sample_time : nat -> Z := fun n => (1000 + Z.of_nat n)%Z.
Definition root_path : Path := ["/"%string].

(** [new FileSystem(false, { time })], then [mkdirSync("/")]. *)
Definition fresh_root : M fsref :=
  let* fs := FileSystem_new false sample_time [] in
  mkdirSync fs root_path 511 ;;
  ret fs.

(** [mkdirSync("/"); rmdirSync("/")] on a new file system. *)
Definition rmdir_root : M fsref :=
  let* fs := fresh_root in
  rmdirSync fs root_path ;;
  ret fs.

(** [writeFileSync("/f", "z"); renameSync("/f", "/f"); unlinkSync("/f")]. *)
Definition rename_self_unlink : M fsref :=
  let* fs := fresh_root in
  writeFileSync fs (ByPath ["/"; "f"]%string) [Byte.x7a] (FlagString "w") 438 ;;
  renameSync 1 fs ["/"; "f"]%string ["/"; "f"]%string ;;
  unlinkSync fs ["/"; "f"]%string ;;
  ret fs.

(** ** Descriptors *)

(** The entry of [fd] in the open-file table of [this]. *)
Definition open_entry (s : State) (this : fsref) (fd : Z) : option OpenFile.t :=
  match filesystems s !! this with
  | Some fs => jm_get Z.eqb fd (FS._openFiles fs)
  | None => None
  end.


(** The store after [closeSync] has removed [entry] from the table of [this]. *)
Definition unregister (this : fsref) (entry : OpenFile.t) (s : State) : State :=
  with_filesystems
    (alter (fun f => FS.with_openFiles
                       (jm_delete Z.eqb (OpenFile.fd entry) (FS._openFiles f)) f)
       this (filesystems s)) s.


(** ** Mounted directories *)




(** The inode that [_mknod] returns. *)
Definition mknod_inode (dev type mode umask : Z) (ino t : Z) : Inode.t :=
  {| Inode.dev := dev;
     Inode.ino := ino;
     Inode.mode :=
       Z.lor (Z.land (Z.land (Z.land mode (Z.lnot S_IFMT)) (Z.lnot umask)) 4095)
         (Z.land type S_IFMT);
     Inode.atimeMs := t; Inode.mtimeMs := t; Inode.ctimeMs := t; Inode.birthtimeMs := t;
     Inode.nlink := 0; Inode.shadowRoot := None; Inode.incomingLinks := [];
     Inode.paths := None; Inode.size := None; Inode.buffer := None;
     Inode.source := None; Inode.resolver := None; Inode.links := None;
     Inode.symlink := None |}.

(** The inode [i] after [_addLink(parent, links, name, i)]. *)
Definition linked (ic : bool) (parent : option ptr) (name : string) (i : Inode.t) : Inode.t :=
  Inode.with_incomingLinks
    (jm_set optptr_eqb parent
       (ss_add ic name
          (match jm_get optptr_eqb parent (Inode.incomingLinks i) with
           | Some set => set
           | None => []
           end))
       (Inode.incomingLinks i))
    (Inode.with_nlink (Inode.nlink i + 1)%Z i).




(** A resolver over [/src], which holds the regular file [a.txt] of size 3. *)
Definition sample_resolver : FileSystemResolver :=
  {| r_statSync := fun p =>
       if decide (p = ["/"; "src"; "a.txt"]%string) then (Z.lor S_IFREG 420, 3%Z)
       else (Z.lor S_IFDIR 493, 0%Z);
     r_readdirSync := fun p =>
       if decide (p = ["/"; "src"]%string) then ["a.txt"%string] else [];
     r_readFileSync := fun _ => [Byte.x61; Byte.x62; Byte.x63] |}.

(** [mountSync("/src", "/m", resolver)] on a file system with a root. *)
Definition lazy_mount : M fsref :=
  let* fs := fresh_root in
  mountSync fs ["/"; "src"]%string ["/"; "m"]%string sample_resolver 511 ;;
  ret fs.

Definition mounted_state : State := final_state (lazy_mount initial).


Definition mounted_fs : FS.t :=
  match filesystems mounted_state !! 0 with
  | Some f => f
  | None => {| FS.ignoreCase := false; FS.frozen := false; FS.lazy_links := None;
               FS.lazy_shadows := None; FS._cwd := []; FS._time := sample_time;
               FS._openFiles := []; FS._shadowRoot := None; FS._dirStack := None |}
  end.

(** [statSync("/m/a.txt")] twice on the mounted file system; the result is the
    two sizes and the resolver calls recorded after each. *)
Definition stat_twice : M (Z * list ResolverCall * (Z * list ResolverCall)) :=
  let* fs := lazy_mount in
  let* st1 := statSync fs ["/"; "m"; "a.txt"]%string in
  let* c1 := gets calls in
  let* st2 := statSync fs ["/"; "m"; "a.txt"]%string in
  let* c2 := gets calls in
  ret (Stats.size st1, c1, (Stats.size st2, c2)).

(** [/a] holds "hello" and is open with flag "r+". *)
Definition plain_descriptor : M (fsref * Z) :=
  let* fs := fresh_root in
  writeFileSync fs (ByPath ["/"; "a"]%string)
    [Byte.x68; Byte.x65; Byte.x6c; Byte.x6c; Byte.x6f] (FlagString "w") 438 ;;
  let* fd := openSync fs ["/"; "a"]%string (FlagString "r+") 438 in
  ret (fs, fd).

Definition plain_state : State := final_state (plain_descriptor initial).

Definition plain_entry : OpenFile.t :=
  match open_entry plain_state 0 2 with
  | Some e => e
  | None => {| OpenFile.fd := 0; OpenFile.path := []; OpenFile.basename := "";
               OpenFile.parent := 0; OpenFile.node := 0; OpenFile.flags := 0;
               OpenFile.written := false; OpenFile.offset := 0;
               OpenFile.buffer := None |}
  end.

Definition plain_inode : Inode.t :=
  match inodes plain_state !! 1 with
  | Some i => i
  | None => mknod_inode 0 0 0 0 0 0
  end.

Definition plain_fs : FS.t :=
  match filesystems plain_state !! 0 with
  | Some f => f
  | None => mounted_fs
  end.

(** ** What resolution may change

    Looking a path up fills in state that is built lazily: the link map of a
    directory (from its mount or from the file system it shadows), the root
    link map and the shadow table; the cached [size] of a file may be filled
    in and the cache [paths] may be dropped.
    [lazy_inode] and [lazy_fs] say what that may change in an inode and in a
    file system that exist already. *)

Definition lazy_inode (i i' : Inode.t) : Prop :=
  Inode.dev i' = Inode.dev i /\ Inode.ino i' = Inode.ino i
  /\ Inode.mode i' = Inode.mode i /\ Inode.atimeMs i' = Inode.atimeMs i
  /\ Inode.mtimeMs i' = Inode.mtimeMs i /\ Inode.ctimeMs i' = Inode.ctimeMs i
  /\ Inode.birthtimeMs i' = Inode.birthtimeMs i /\ Inode.nlink i' = Inode.nlink i
  /\ Inode.shadowRoot i' = Inode.shadowRoot i
  /\ Inode.incomingLinks i' = Inode.incomingLinks i
  /\ (Inode.paths i' = Inode.paths i \/ Inode.paths i' = None)
  /\ (forall z, Inode.size i = Some z -> Inode.size i' = Some z)
  /\ Inode.buffer i' = Inode.buffer i /\ Inode.symlink i' = Inode.symlink i
  /\ (forall m, Inode.links i = Some m -> Inode.links i' = Some m)
  /\ (Inode.source i' = Inode.source i \/ Inode.source i' = None)
  /\ (Inode.resolver i' = Inode.resolver i \/ Inode.resolver i' = None).

Definition lazy_fs (f f' : FS.t) : Prop :=
  FS.ignoreCase f' = FS.ignoreCase f /\ FS.frozen f' = FS.frozen f
  /\ FS._cwd f' = FS._cwd f /\ FS._time f' = FS._time f
  /\ FS._openFiles f' = FS._openFiles f /\ FS._shadowRoot f' = FS._shadowRoot f
  /\ FS._dirStack f' = FS._dirStack f
  /\ (forall m, FS.lazy_links f = Some m -> FS.lazy_links f' = Some m).

(** [lazy_upto ni nm s s']: from [s] to [s'] only lazily built state has
    changed, as far as the inodes below [ni] and the link maps below [nm] are
    concerned; objects may have been added. *)
Record lazy_upto (ni nm : nat) (s s' : State) : Prop := {
  lz_inodes : forall p i, (p < ni)%nat -> inodes s !! p = Some i ->
                exists i', inodes s' !! p = Some i' /\ lazy_inode i i';
  lz_inodes_len : (length (inodes s) <= length (inodes s'))%nat;
  lz_maps : forall m L, (m < nm)%nat -> linkmaps s !! m = Some L ->
              linkmaps s' !! m = Some L;
  lz_maps_len : (length (linkmaps s) <= length (linkmaps s'))%nat;
  lz_buffers : buffers s' = buffers s;
  lz_fs : forall f fs, filesystems s !! f = Some fs ->
            exists fs', filesystems s' !! f = Some fs' /\ lazy_fs fs fs';
  lz_fs_len : length (filesystems s') = length (filesystems s);
  lz_devCount : devCount s' = devCount s;
  lz_fdCount : fdCount s' = fdCount s
}.

(** Only lazily built state has changed from [s] to [s']. *)
Definition lazy_ext (s s' : State) : Prop :=
  lazy_upto (length (inodes s)) (length (linkmaps s)) s s'.

Definition bounded (ni nm : nat) (s : State) : Prop :=
  (ni <= length (inodes s))%nat /\ (nm <= length (linkmaps s))%nat.

(** ** Symbolic links *)

(** One run of the loop of [_walk] from the root over [components], up to the
    next expansion of a symbolic link. *)
Definition walk_pass (this : fsref) (noFollow : bool) (depth : nat) (components : Path)
  : M WalkStep :=
  let* links := _getRootLinks this in
  walk_steps this noFollow depth [] components links None.

(** [expands this noFollow k s cs s' cs']: resolving [cs] from the store [s]
    expands [k] symbolic links, one after the other, and arrives at the
    components [cs'] in the store [s'].  The limit on the depth plays no part:
    every run is taken at depth 0. *)
Inductive expands (this : fsref) (noFollow : bool)
  : nat -> State -> Path -> State -> Path -> Prop :=
| expands_O s cs : expands this noFollow 0 s cs s cs
| expands_S k s cs s1 cs1 s2 cs2 :
    expands this noFollow k s cs s1 cs1 ->
    walk_pass this noFollow 0 cs1 s1 = Ok (Restart cs2) s2 ->
    expands this noFollow (S k) s cs s2 cs2.

(** What [_walk] returns when its last run ends with [r]. *)
Definition walk_result (r : Res WalkStep) : Res (option FileDescription.t) :=
  match r with
  | Ok (Found entry) s => Ok (Some entry) s
  | Ok Missing s => Ok None s
  | Ok (Restart _) s => Throw (IOError ELOOP) s
  | Throw e s => Throw e s
  end.

Definition is_restart (r : Res WalkStep) : bool :=
  match r with Ok (Restart _) _ => true | _ => false end.

(** A chain of [n] symbolic links [/l0 -> /l1 -> ... -> /target] under a root
    that holds the regular file [/target]. *)
Definition link_name (k : nat) : string :=
  String "l" (String (ascii_of_nat (48 + k / 10)) (String (ascii_of_nat (48 + k mod 10)) "")).

Fixpoint make_chain (fs : fsref) (k n : nat) : M unit :=
  match n with
  | O => ret tt
  | S n' =>
      symlinkSync fs
        ["/"%string; match n' with O => "target"%string | S _ => link_name (S k) end]
        ["/"%string; link_name k] ;;
      make_chain fs (S k) n'
  end.

Definition chain (n : nat) : M fsref :=
  let* fs := fresh_root in
  writeFileSync fs (ByPath ["/"; "target"]%string) [Byte.x7a] (FlagString "w") 438 ;;
  make_chain fs 0 n ;;
  ret fs.

(** [symlinkSync("/l", "/l")] under a root. *)
Definition self_link : M fsref :=
  let* fs := fresh_root in
  symlinkSync fs ["/"; "l"]%string ["/"; "l"]%string ;;
  ret fs.

Definition chain1_state : State := final_state (chain 1 initial).

(** ** A read-only file system *)

(** [this] is frozen in [s]. *)
Definition is_frozen (s : State) (this : fsref) : Prop :=
  exists fs, filesystems s !! this = Some fs /\ FS.frozen fs = true.

(** The result [r] of a call made in [s] is an exception, and only lazily
    built state has changed. *)
Definition fails_upto (ni nm : nat) {A} (s : State) (r : Res A) : Prop :=
  exists e s', r = Throw e s' /\ lazy_upto ni nm s s'.


(** [/a] holds "hello" and is open with flag "r+", [/d] is a directory; then
    the file system is frozen. *)
Definition frozen_fs : M (fsref * Z) :=
  let* fs := fresh_root in
  writeFileSync fs (ByPath ["/"; "a"]%string)
    [Byte.x68; Byte.x65; Byte.x6c; Byte.x6c; Byte.x6f] (FlagString "w") 438 ;;
  mkdirSync fs ["/"; "d"]%string 511 ;;
  let* fd := openSync fs ["/"; "a"]%string (FlagString "r+") 438 in
  makeReadonly fs ;;
  ret (fs, fd).

Definition frozen_state : State := final_state (frozen_fs initial).


(** ** Renaming *)

(** [i'] has the type and the links of [i]. *)
Definition same_shape (i i' : Inode.t) : Prop :=
  Inode.mode i' = Inode.mode i /\ Inode.links i' = Inode.links i.

(** What [renameSync] leaves behind when it has moved [node] to [name] in the
    directory with the link map [links], where [existing] was linked: the
    name maps to [node], [existing] has lost a link, and the call has returned
    when [node] is not a directory. *)
Definition moved_onto (ic : bool) (fuel : nat) (links : mapref) (name : string)
    (node existing : ptr) (n e : Inode.t) (r : Res unit) : Prop :=
  (exists m', linkmaps (final_state r) !! links = Some m' /\ sm_get ic name m' = Some node)
  /\ (existing <> node ->
      exists e', inodes (final_state r) !! existing = Some e'
                 /\ Inode.nlink e' = (Inode.nlink e - 1)%Z)
  /\ (isDirectoryInode n = false -> (0 < fuel)%nat -> r = Ok tt (final_state r)).

(** [/d] is an empty directory, [/n] a directory with the file [/n/x], [/f]
    and [/g] are files; both directories have been listed. *)
Definition rename_sample : M fsref :=
  let* fs := fresh_root in
  mkdirSync fs ["/"; "d"]%string 511 ;;
  mkdirSync fs ["/"; "n"]%string 511 ;;
  writeFileSync fs (ByPath ["/"; "n"; "x"]%string) [Byte.x78] (FlagString "w") 438 ;;
  writeFileSync fs (ByPath ["/"; "f"]%string) [Byte.x66] (FlagString "w") 438 ;;
  writeFileSync fs (ByPath ["/"; "g"]%string) [Byte.x67] (FlagString "w") 438 ;;
  readdirSync fs ["/"; "d"]%string ;;
  readdirSync fs ["/"; "n"]%string ;;
  ret fs.

Definition rename_state : State := final_state (rename_sample initial).

(** ** Lookups *)

(** [_walk("/m/a.txt")] and [statSync("/m/a.txt")] on the mounted file
    system, where nothing has been looked up yet. *)
Definition first_walk : Res (option FileDescription.t) :=
  _walk 0 ["/"; "m"; "a.txt"]%string false mounted_state.

Definition first_walk_entry : option FileDescription.t :=
  match first_walk with Ok r _ => r | Throw _ _ => None end.

Definition first_stat : Res Stats.t := statSync 0 ["/"; "m"; "a.txt"]%string mounted_state.

Definition first_stat_stats : Stats.t :=
  match first_stat with
  | Ok st _ => st
  | Throw _ _ =>
      {| Stats.dev := 0; Stats.ino := 0; Stats.mode := 0; Stats.nlink := 0; Stats.uid := 0;
         Stats.gid := 0; Stats.rdev := 0; Stats.size := 0; Stats.blksize := 0;
         Stats.blocks := 0; Stats.atimeMs := 0; Stats.mtimeMs := 0; Stats.ctimeMs := 0;
         Stats.birthtimeMs := 0 |}
  end.

(** [entry] is a link of the store [s]: its node exists, its parent is a
    directory, and either the entry is a root (the parent is the node itself)
    or the links of the parent map the base name to the node. *)
Definition is_link (s : State) (this : fsref) (entry : FileDescription.t) : Prop :=
  exists ni pi fs,
    inodes s !! FileDescription.node entry = Some ni
    /\ inodes s !! FileDescription.parent entry = Some pi
    /\ isDirectoryInode pi = true
    /\ filesystems s !! this = Some fs
    /\ last (FileDescription.path entry) = Some (FileDescription.basename entry)
    /\ (FileDescription.parent entry = FileDescription.node entry
        \/ exists l m, Inode.links pi = Some l /\ linkmaps s !! l = Some m
                       /\ sm_get (FS.ignoreCase fs) (FileDescription.basename entry) m
                          = Some (FileDescription.node entry)).

Definition is_symlink_at (s : State) (p : ptr) : bool :=
  match inodes s !! p with Some i => isSymlinkInode i | None => false end.

(** ** Permissions and descriptors *)

(** The table of open files is a [Map]: no key twice; and every entry is filed
    under its own [fd]. *)
Definition table_ok (t : list (Z * OpenFile.t)) : Prop :=
  NoDup (map fst t) /\ Forall (fun p => OpenFile.fd (snd p) = fst p) t.

(** [chmodSync("/f", 0o444)] and [closeSync(2)] on the sample stores. *)
Definition chmod_result : Res unit := chmodSync 0 ["/"; "f"]%string 292 rename_state.

Definition close_result : Res unit := closeSync 0 2 plain_state.

(** ** Reading and writing through a descriptor *)

(** The bytes [c] after [data] is written at [pos]: a gap is filled with
    zeros. *)
Definition spliced (c data : list Byte.byte) (pos : nat) : list Byte.byte :=
  let t := c ++ replicate (pos + length data - length c) Byte.x00 in
  take pos t ++ data ++ drop (pos + length data) t.

(** The bytes the descriptor [e] sees in the store [s]: those of its own
    buffer, or else those of the buffer of its inode. *)
Definition visible (s : State) (e : OpenFile.t) : option (list Byte.byte) :=
  match OpenFile.buffer e with
  | Some b => buffers s !! b
  | None =>
      match inodes s !! OpenFile.node e with
      | Some n => match Inode.buffer n with
                  | Some nb => buffers s !! nb
                  | None => None
                  end
      | None => None
      end
  end.

(** From [s] to [s'] the tree is the same: the link maps are, every inode has
    kept its type, its links and its symlink target, and every file system
    all but its table of open files. *)
Record same_tree (s s' : State) : Prop := {
  st_maps : linkmaps s' = linkmaps s;
  st_inodes_len : length (inodes s') = length (inodes s);
  st_inodes : forall p i, inodes s !! p = Some i ->
                exists i', inodes s' !! p = Some i' /\ Inode.mode i' = Inode.mode i
                           /\ Inode.links i' = Inode.links i
                           /\ Inode.symlink i' = Inode.symlink i;
  st_fs_len : length (filesystems s') = length (filesystems s);
  st_fs : forall f fs, filesystems s !! f = Some fs ->
            exists fs', filesystems s' !! f = Some fs'
                        /\ FS.ignoreCase fs' = FS.ignoreCase fs
                        /\ FS.frozen fs' = FS.frozen fs
                        /\ FS.lazy_links fs' = FS.lazy_links fs
                        /\ FS.lazy_shadows fs' = FS.lazy_shadows fs
                        /\ FS._cwd fs' = FS._cwd fs
                        /\ FS._time fs' = FS._time fs
                        /\ FS._shadowRoot fs' = FS._shadowRoot fs
}.

(** ** New links *)

(** From [s] to [s'] every link stays: a lookup with the comparer [ic] that
    finds a node in a link map of [s] finds it in [s'], every inode keeps its
    type and its symlink target, and links and root links that are built stay
    built. *)
Record keeps_links (ic : bool) (s s' : State) : Prop := {
  kl_fs : forall f fs, filesystems s !! f = Some fs ->
            exists fs', filesystems s' !! f = Some fs'
                        /\ FS.ignoreCase fs' = FS.ignoreCase fs
                        /\ FS._cwd fs' = FS._cwd fs
                        /\ (forall m, FS.lazy_links fs = Some m -> FS.lazy_links fs' = Some m);
  kl_inodes : forall p i, inodes s !! p = Some i ->
                exists i', inodes s' !! p = Some i' /\ Inode.mode i' = Inode.mode i
                           /\ Inode.symlink i' = Inode.symlink i
                           /\ (forall m, Inode.links i = Some m -> Inode.links i' = Some m);
  kl_maps : forall l m k v, linkmaps s !! l = Some m -> sm_get ic k m = Some v ->
              exists m', linkmaps s' !! l = Some m' /\ sm_get ic k m' = Some v
}.

Definition not_missing (r : WalkStep) : Prop :=
  match r with Missing => False | _ => True end.

(** [x] is linked under [name] in the directory [dir] of the store [s]. *)
Definition linked_in (s : State) (ic : bool) (dir : ptr) (name : string) (x : ptr) : Prop :=
  exists n l m,
    inodes s !! dir = Some n /\ isDirectoryInode n = true
    /\ Inode.links n = Some l /\ linkmaps s !! l = Some m
    /\ sm_get ic name m = Some x.

Definition child_entry (e : FileDescription.t) (name : string) (x : ptr) : FileDescription.t :=
  {| FileDescription.path := FileDescription.path e ++ [name];
     FileDescription.basename := name;
     FileDescription.parent := FileDescription.node e;
     FileDescription.node := x |}.

(** A change of an inode that keeps its type, its symlink target and its
    links. *)
Definition keeps_node (f : Inode.t -> Inode.t) : Prop :=
  forall i, Inode.mode (f i) = Inode.mode i /\ Inode.symlink (f i) = Inode.symlink i
            /\ Inode.links (f i) = Inode.links i.

Definition rename_fs : FS.t :=
  match filesystems rename_state !! 0 with
  | Some f => f
  | None => mounted_fs
  end.

(** [mkdirSync("/d/e", 0o755)] on the sample store. *)
Definition mkdir_result : Res unit := mkdirSync 0 ["/"; "d"; "e"]%string 493 rename_state.

(** [symlinkSync("/f", "/d/l")] on the sample store. *)
Definition symlink_result : Res unit :=
  symlinkSync 0 ["/"; "f"]%string ["/"; "d"; "l"]%string rename_state.

(** ** Opening, writing and reading a file *)

(** The end of [openSync], from the test of the node that the path has
    resolved to (or that has been made for it). *)
Definition open_tail (this : fsref) (path : Path) (write : Z) (r : Z * ptr * ptr) : M Z :=
  let '(flags, node, parent) := r in
  let* n := inode_at node in
  if truthy (Z.land flags O_DIRECTORY) && isFileInode n then throw (IOError ENOTDIR)
  else if truthy write && isDirectoryInode n then throw (IOError EISDIR)
  else
    let* c := gets fdCount in
    modify (with_fdCount (c + 1)%Z) ;;
    let fd := (c + 1)%Z in
    let* offset :=
      if isFileInode n && (Z.land flags (Z.lor O_APPEND O_TRUNC) =? O_APPEND)%Z
      then _getSize this node else ret 0%Z in
    let file := {| OpenFile.fd := fd; OpenFile.path := path;
                   OpenFile.basename := basename path; OpenFile.parent := parent;
                   OpenFile.node := node; OpenFile.flags := flags;
                   OpenFile.written := false; OpenFile.offset := offset;
                   OpenFile.buffer := None |} in
    update_fs this (fun f => FS.with_openFiles (jm_set Z.eqb fd file (FS._openFiles f)) f) ;;
    (if truthy (Z.land flags O_TRUNC) then
       let* b := new_buffer [] in
       let file := OpenFile.with_buffer (Some b) file in
       update_fs this (fun f => FS.with_openFiles (jm_set Z.eqb fd file (FS._openFiles f)) f) ;;
       if truthy (Z.land flags O_SYNC) then _fsync this file true else ret tt
     else ret tt) ;;
    ret fd.

(** The node that [openSync] opens: the one the path resolves to, or a new
    file. *)
Definition open_node (this : fsref) (path : Path) (flags mode : Z)
    (entry : option FileDescription.t) : M (Z * ptr * ptr) :=
  match entry with
  | None =>
      if truthy (Z.land (Z.lnot flags) O_CREAT) then throw (IOError ENOENT)
      else if truthy (Z.land flags O_DIRECTORY) then throw (IOError ENOTDIR)
      else
        let flags := Z.lor flags O_TRUNC in
        let* entry := or_throw (_walk this (dirname path) false) ENOENT in
        let parent := FileDescription.node entry in
        let* p := inode_at parent in
        if negb (isDirectoryInode p) then throw (IOError ENOTDIR)
        else
          let* node := _mknod this (Inode.dev p) S_IFREG mode default_umask in
          let* b := new_buffer [] in
          update_inode node (Inode.with_buffer (Some b)) ;;
          let* links := _getLinks this (Some parent) in
          _addLink this (Some parent) links (basename path) node ;;
          let* time := time this in
          update_inode parent (Inode.with_mtimeMs time) ;;
          ret (flags, node, parent)
  | Some entry =>
      if truthy (Z.land flags O_EXCL) then throw (IOError EEXIST)
      else ret (flags, FileDescription.node entry, FileDescription.parent entry)
  end.

(** What [readFileSync] does with the descriptor: [after] closes it when the
    file was given by its path. *)
Definition read_opened (this : fsref) (fd : Z) (after : M unit) : M (list Byte.byte) :=
  let* stats := fstatSync this fd in
  let size := Stats.size stats in
  let buffer := replicate (Z.to_nat size) Byte.x00 in
  finally
    (let* r := read_loop (S (S (Z.to_nat size))) this fd buffer size 0 None in
     let '(offset, buffer) := r in
     if (offset <? size)%Z then ret (take (Z.to_nat offset) buffer) else ret buffer)
    after.

(** [path] resolves to [node] in [s] and in every store that keeps the links
    of [s]. *)
Definition resolves_to (this : fsref) (ic : bool) (p : Path) (node : ptr) (s : State) : Prop :=
  forall s', keeps_links ic s s' ->
    exists e, _walk this p false s' = Ok (Some e) s' /\ FileDescription.node e = node.

(** [writeFileSync("/f", "hi")] on the sample store, where [/f] holds "f". *)
Definition overwrite_data : list Byte.byte := [Byte.x68; Byte.x69].

Definition found_f : Res (option FileDescription.t) :=
  _find 0 ["/"; "f"]%string rename_state.

Definition found_f_entry : FileDescription.t :=
  match found_f with
  | Ok (Some e) _ => e
  | _ => {| FileDescription.path := []; FileDescription.basename := "";
            FileDescription.parent := 0; FileDescription.node := 0 |}
  end.

Definition found_f_inode : Inode.t :=
  match inodes (final_state found_f) !! FileDescription.node found_f_entry with
  | Some n => n
  | None => mknod_inode 0 0 0 0 0 0
  end.

(** The directory [dir] of the store [s] has its links built, and they have
    no entry for [name]. *)
Definition unlinked_in (s : State) (ic : bool) (dir : ptr) (name : string) : Prop :=
  exists n l m,
    inodes s !! dir = Some n /\ isDirectoryInode n = true
    /\ Inode.links n = Some l /\ linkmaps s !! l = Some m
    /\ sm_get ic name m = None.

(** [/d] is found in the sample store and has no entry [new.txt]. *)
Definition found_d : Res (option FileDescription.t) :=
  _find 0 ["/"; "d"]%string rename_state.

Definition found_d_entry : FileDescription.t :=
  match found_d with
  | Ok (Some e) _ => e
  | _ => {| FileDescription.path := []; FileDescription.basename := "";
            FileDescription.parent := 0; FileDescription.node := 0 |}
  end.

(** ** Hard links *)

(** [linkSync("/f", "/d/h")] on the sample store. *)
Definition link_result : Res unit :=
  linkSync 0 ["/"; "f"]%string ["/"; "d"; "h"]%string rename_state.

(** ** What the operations on names leave alone *)

(** From [s] to [s'] the files are as they were: every buffer has its bytes,
    every inode its type, its buffer, its symlink target and the size it has
    cached, every file system its descriptors and its read-only flag, and no
    descriptor number has been given out. *)
Record keeps_files (s s' : State) : Prop := {
  kf_buffers : forall b c, buffers s !! b = Some c -> buffers s' !! b = Some c;
  kf_inodes : forall p i, inodes s !! p = Some i ->
                exists i', inodes s' !! p = Some i' /\ Inode.mode i' = Inode.mode i
                           /\ Inode.buffer i' = Inode.buffer i
                           /\ Inode.symlink i' = Inode.symlink i
                           /\ (forall z, Inode.size i = Some z -> Inode.size i' = Some z);
  kf_fs : forall f fs, filesystems s !! f = Some fs ->
            exists fs', filesystems s' !! f = Some fs'
                        /\ FS._openFiles fs' = FS._openFiles fs
                        /\ FS.frozen fs' = FS.frozen fs
                        /\ FS.ignoreCase fs' = FS.ignoreCase fs;
  kf_fdCount : fdCount s' = fdCount s
}.

(** A change of an inode that leaves its type, buffer, symlink target and
    cached size alone. *)
Definition keeps_file (f : Inode.t -> Inode.t) : Prop :=
  forall i, Inode.mode (f i) = Inode.mode i /\ Inode.buffer (f i) = Inode.buffer i
            /\ Inode.symlink (f i) = Inode.symlink i /\ Inode.size (f i) = Inode.size i.

(** ** Removing a name *)

(** From [s] to [s'] every link stays but for links of the map [l]: a lookup
    that found a node finds it in [s'] or, in [l], finds nothing. *)
Record keeps_but (ic : bool) (l : mapref) (s s' : State) : Prop := {
  kb_fs : forall f fs, filesystems s !! f = Some fs ->
            exists fs', filesystems s' !! f = Some fs'
                        /\ FS.ignoreCase fs' = FS.ignoreCase fs
                        /\ (forall m, FS.lazy_links fs = Some m -> FS.lazy_links fs' = Some m);
  kb_inodes : forall p i, inodes s !! p = Some i ->
                exists i', inodes s' !! p = Some i' /\ Inode.mode i' = Inode.mode i
                           /\ Inode.symlink i' = Inode.symlink i
                           /\ (forall m, Inode.links i = Some m -> Inode.links i' = Some m);
  kb_maps : forall l' m k v, linkmaps s !! l' = Some m -> sm_get ic k m = Some v ->
              exists m', linkmaps s' !! l' = Some m'
                         /\ (sm_get ic k m' = Some v \/ (l' = l /\ sm_get ic k m' = None))
}.

(** The directory [dir] of the store [s] has its links built, and they have
    [x] under [name] and no other entry for [name]. *)
Definition linked_once (s : State) (ic : bool) (dir : ptr) (name : string) (x : ptr) : Prop :=
  exists n l m,
    inodes s !! dir = Some n /\ isDirectoryInode n = true
    /\ Inode.links n = Some l /\ linkmaps s !! l = Some m
    /\ sm_get ic name m = Some x
    /\ sm_get ic name (sm_delete ic name m) = None.

(** [unlinkSync("/f")] on the sample store. *)
Definition found_root : Res (option FileDescription.t) :=
  _find 0 ["/"]%string rename_state.

Definition found_root_entry : FileDescription.t :=
  match found_root with
  | Ok (Some e) _ => e
  | _ => {| FileDescription.path := []; FileDescription.basename := "";
            FileDescription.parent := 0; FileDescription.node := 0 |}
  end.

Definition found_d_inode : Inode.t :=
  match inodes rename_state !! 1 with
  | Some i => i
  | None => mknod_inode 0 0 0 0 0 0
  end.

(** ** Descriptor numbers and access modes *)

(** From [s] to [s'] no descriptor has been opened, closed or changed. *)
Definition keeps_tables (s s' : State) : Prop :=
  fdCount s' = fdCount s
  /\ (forall f fd, open_entry s' f fd = open_entry s f fd)
  /\ (forall f, is_Some (filesystems s' !! f) <-> is_Some (filesystems s !! f)).

(** Every descriptor in a table is at most [fdCount]. *)
Definition fds_bounded (s : State) : Prop :=
  forall f fd e, open_entry s f fd = Some e -> (fd <= fdCount s)%Z.

(** [openSync("/a", "r")] on the store where [/a] is open as descriptor 2. *)
Definition second_open : Res Z := openSync 0 ["/"; "a"]%string (FlagString "r") 438 plain_state.

(** [/a] is open as descriptor 2 with flag "r+" and as descriptor 3 with
    flag "r". *)
Definition readonly_state : State :=
  final_state (openSync 0 ["/"; "a"]%string (FlagString "r") 438 plain_state).

Definition readonly_entry : OpenFile.t :=
  match open_entry readonly_state 0 3 with
  | Some e => e
  | None => plain_entry
  end.

(** ** The working directory *)

Definition chdir_result : Res unit := chdir 0 [""; "n"]%string rename_state.

(** ** Operations that are refused *)

(** The inode of [/n] and its links in the sample store. *)
Definition found_n_inode : Inode.t :=
  match inodes rename_state !! 2 with
  | Some i => i
  | None => mknod_inode 0 0 0 0 0 0
  end.

Definition found_n_links : list (string * ptr) :=
  match Inode.links found_n_inode with
  | Some l => match linkmaps rename_state !! l with Some m => m | None => [] end
  | None => []
  end.

(** The root inode and its links in the sample store. *)
Definition found_root_inode : Inode.t :=
  match inodes rename_state !! 0 with
  | Some i => i
  | None => mknod_inode 0 0 0 0 0 0
  end.

Definition found_root_links : list (string * ptr) :=
  match Inode.links found_root_inode with
  | Some l => match linkmaps rename_state !! l with Some m => m | None => [] end
  | None => []
  end.

(** ** Moving a file *)

(** From [s] to [s'] every link stays but for links to [x], which is neither
    a directory nor a symbolic link. *)
Record keeps_except (ic : bool) (x : ptr) (s s' : State) : Prop := {
  ke_fs : forall f fs, filesystems s !! f = Some fs ->
            exists fs', filesystems s' !! f = Some fs'
                        /\ FS.ignoreCase fs' = FS.ignoreCase fs
                        /\ (forall m, FS.lazy_links fs = Some m -> FS.lazy_links fs' = Some m);
  ke_inodes : forall p i, inodes s !! p = Some i ->
                exists i', inodes s' !! p = Some i' /\ Inode.mode i' = Inode.mode i
                           /\ Inode.symlink i' = Inode.symlink i
                           /\ (forall m, Inode.links i = Some m -> Inode.links i' = Some m);
  ke_maps : forall l m k v, linkmaps s !! l = Some m -> sm_get ic k m = Some v -> v <> x ->
              exists m', linkmaps s' !! l = Some m' /\ sm_get ic k m' = Some v;
  ke_file : forall i, inodes s !! x = Some i ->
              isDirectoryInode i = false /\ isSymlinkInode i = false
}.

(** What a run of the loop body has found is not the node [x]. *)
Definition avoids (x : ptr) (r : WalkStep) : Prop :=
  match r with
  | Found e => FileDescription.node e <> x
  | _ => True
  end.

(** [i'] is [i] but for its link count, its incoming links and its times. *)
Definition same_content (i i' : Inode.t) : Prop :=
  Inode.mode i' = Inode.mode i /\ Inode.links i' = Inode.links i
  /\ Inode.symlink i' = Inode.symlink i /\ Inode.buffer i' = Inode.buffer i
  /\ Inode.size i' = Inode.size i.

(** * Properties *)

(** ** The monad *)

Lemma bind_Ok {A B} (m : M A) (k : A -> M B) s b s' :
  bind m k s = Ok b s' ->
  exists a s1, m s = Ok a s1 /\ k a s1 = Ok b s'.
Proof.
  unfold bind. destruct (m s) as [a s1|e s1]; [eauto|discriminate].
Qed.

Lemma bind_Throw {A B} (m : M A) (k : A -> M B) s e s' :
  bind m k s = Throw e s' ->
  m s = Throw e s' \/ exists a s1, m s = Ok a s1 /\ k a s1 = Throw e s'.
Proof.
  unfold bind. destruct (m s) as [a s1|e1 s1]; [eauto|].
  intros [= -> ->]; left; reflexivity.
Qed.

Lemma bind_eq_Ok {A B} {m : M A} (k : A -> M B) {s a s1} :
  m s = Ok a s1 -> bind m k s = k a s1.
Proof. unfold bind. intros ->. reflexivity. Qed.

Lemma bind_eq_Throw {A B} {m : M A} (k : A -> M B) {s e s1} :
  m s = Throw e s1 -> bind m k s = Throw e s1.
Proof. unfold bind. intros ->. reflexivity. Qed.

(** ** C10: a read of length 0 *)

(** C10.  [readSync] with [length = 0] and valid [offset] and [position]
    returns 0 and leaves the store and the caller's buffer as they are,
    whatever [fd] is: the test for length 0 comes before the lookup of the
    descriptor, which would raise [EBADF] for a descriptor that is not in the
    open-file table. *)
Theorem readSync_zero_length :
  forall (s : State) (this : fsref) (fd : Z) (buffer : list Byte.byte)
         (offset : Z) (position : option Z),
    (0 <= offset <= byteLength buffer)%Z ->
    (match position with Some p => (-1 <= p)%Z | None => True end) ->
    readSync this fd buffer offset 0 position s = Ok (0%Z, buffer) s
    /\ (forall fs, filesystems s !! this = Some fs ->
                   jm_get Z.eqb fd (FS._openFiles fs) = None ->
                   _file this fd (Some KindFile) R_OK s = Throw (IOError EBADF) s).
Proof.
  intros s this fd buffer offset position [Ho1 Ho2] Hp. split.
  - unfold readSync.
    assert (Hpos : ((match position with Some p => p | None => -1 end) <? -1)%Z = false).
    { destruct position; apply Z.ltb_ge; lia. }
    rewrite Hpos.
    replace (offset <? 0)%Z with false by (symmetry; apply Z.ltb_ge; lia).
    replace (0 <? 0)%Z with false by reflexivity.
    replace (byteLength buffer - 0 <? offset)%Z with false
      by (symmetry; apply Z.ltb_ge; lia).
    reflexivity.
  - intros fs Hfs Hfd. unfold _file, bind, fs_at. rewrite Hfs, Hfd. reflexivity.
Qed.

Lemma readSync_zero_length_witness :
  readSync 0 7 [Byte.x00; Byte.x01] 1 0 (Some 0%Z) initial
  = Ok (0%Z, [Byte.x00; Byte.x01]) initial.
Proof.
  apply (readSync_zero_length initial 0 7 [Byte.x00; Byte.x01] 1 (Some 0%Z)).
  - unfold byteLength; simpl; lia.
  - simpl; lia.
Defined.

(** ** C2: the link count *)

(** C2 (the code breaks the invariant).  After [mkdirSync("/")] the root has
    [nlink = 1] and one incoming name; [rmdirSync("/")] then decrements
    [nlink] and removes no name, because the walker reports the root as its
    own parent and [incomingLinks] of a root is keyed by no parent.  A rename
    of a file onto itself followed by [unlinkSync] leaves [nlink = -1]. *)
Theorem rmdir_root_breaks_nlink :
  (exists fs s, fresh_root initial = Ok fs s /\ nlink_invariant s)
  /\ (exists fs s i,
        rmdir_root initial = Ok fs s /\ inodes s !! 0 = Some i
        /\ Inode.nlink i = 0%Z /\ link_sum i = 1%Z /\ ~ nlink_invariant s)
  /\ (exists fs s i,
        rename_self_unlink initial = Ok fs s /\ inodes s !! 1 = Some i
        /\ Inode.nlink i = (-1)%Z /\ link_sum i = 0%Z /\ ~ nlink_invariant s).
Proof.
  split; [|split].
  - eexists _, _. split; [vm_compute; reflexivity|].
    intros p i. destruct p as [|p]; simpl.
    + intros [= <-]. reflexivity.
    + destruct p; discriminate.
  - eexists _, _, _. split; [vm_compute; reflexivity|].
    split; [reflexivity|]. split; [reflexivity|]. split; [reflexivity|].
    intros H. specialize (H 0 _ eq_refl). vm_compute in H. discriminate.
  - eexists _, _, _. split; [vm_compute; reflexivity|].
    split; [reflexivity|]. split; [reflexivity|]. split; [reflexivity|].
    intros H. specialize (H 1 _ eq_refl). vm_compute in H. discriminate.
Qed.

(** ** C4: writes stay in the descriptor until [_fsync] *)

Lemma file_Ok this fd kind mode s e s1 :
  _file this fd kind mode s = Ok e s1 -> s1 = s /\ open_entry s this fd = Some e.
Proof.
  unfold _file, open_entry, bind, fs_at, inode_at, ret, throw.
  destruct (filesystems s !! this) as [fs|]; [|discriminate].
  destruct (jm_get Z.eqb fd (FS._openFiles fs)) as [entry|]; [|discriminate].
  destruct (inodes s !! OpenFile.node entry) as [node|]; [|discriminate].
  destruct kind as [[|]|].
  all: repeat match goal with
         | |- context [if ?b then _ else _] => destruct b
         end; intros H; inversion H; subst; auto.
Qed.

Lemma getBuffer_loaded this node s i nb :
  inodes s !! node = Some i -> Inode.buffer i = Some nb ->
  _getBuffer this node s = Ok nb s.
Proof.
  intros Hi Hb. unfold _getBuffer. simpl. unfold bind, inode_at. rewrite Hi, Hb. reflexivity.
Qed.




Lemma closeSync_spec :
  forall s this fd entry i,
    open_entry s this fd = Some entry ->
    inodes s !! OpenFile.node entry = Some i ->
    closeSync this fd s = _fsync this entry true (unregister this entry s).
Proof.
  intros s this fd entry i He Hi.
  unfold closeSync, bind at 1.
  unfold open_entry in He. destruct (filesystems s !! this) as [fs|] eqn:Hfs; [|discriminate].
  unfold _file, bind, fs_at, inode_at. rewrite Hfs, He, Hi. simpl. reflexivity.
Qed.




(** ** C9: a mounted directory is read once *)

Lemma time_spec this fs s :
  filesystems s !! this = Some fs ->
  time this s = Ok (FS._time fs (ticks s)) (with_ticks (S (ticks s)) s).
Proof. intros H. unfold time, bind, fs_at, gets, modify, ret. rewrite H. reflexivity. Qed.

Lemma mknod_spec this fs dev type mode umask s :
  filesystems s !! this = Some fs ->
  _mknod this dev type mode umask s
  = Ok (length (inodes s))
      (with_inodes
         (inodes s ++ [mknod_inode dev type mode umask (inoCount s + 1) (FS._time fs (ticks s))])
         (with_inoCount (inoCount s + 1)%Z (with_ticks (S (ticks s)) s))).
Proof.
  intros H. unfold _mknod. rewrite (bind_eq_Ok _ (time_spec this fs s H)).
  reflexivity.
Qed.

Lemma alter_at {A} (f : A -> A) (l : list A) i x :
  l !! i = Some x -> alter f i l = <[i := f x]> l.
Proof.
  intros H. rewrite list_insert_alter. apply list_alter_ext; [|reflexivity].
  intros y Hy. congruence.
Qed.

Lemma addLink_spec this fs parent links name node ni s :
  filesystems s !! this = Some fs ->
  inodes s !! node = Some ni ->
  _addLink this parent links name node s
  = Ok tt (with_inodes (<[node := linked (FS.ignoreCase fs) parent name ni]> (inodes s))
             (with_linkmaps (alter (sm_set (FS.ignoreCase fs) name node) links (linkmaps s)) s)).
Proof.
  intros Hfs Hn. unfold _addLink, bind, fs_at, update_map, update_inode, modify, inode_at.
  rewrite Hfs. simpl. rewrite list_lookup_alter_eq, Hn. simpl.
  f_equal. unfold with_inodes, with_linkmaps. simpl. f_equal.
  rewrite list_alter_alter_eq. rewrite (alter_at _ _ _ _ Hn). reflexivity.
Qed.







(** The scenario of the lazy mount: the first [statSync("/m/a.txt")] calls
    [readdirSync("/src")] and [statSync("/src/a.txt")] once each, the second
    calls nothing. *)
Lemma lazy_mount_stat_twice :
  exists s,
    stat_twice initial
    = Ok (3%Z, [CallReaddir ["/"; "src"]; CallStat ["/"; "src"; "a.txt"]],
          (3%Z, [CallReaddir ["/"; "src"]; CallStat ["/"; "src"; "a.txt"]]))%string s.
Proof. eexists. vm_compute. reflexivity. Qed.

(** ** Resolution changes only lazily built state *)

Lemma lazy_inode_refl i : lazy_inode i i.
Proof. unfold lazy_inode. repeat split; auto. Qed.

Lemma lazy_inode_trans i1 i2 i3 : lazy_inode i1 i2 -> lazy_inode i2 i3 -> lazy_inode i1 i3.
Proof.
  unfold lazy_inode.
  intros (a1&a2&a3&a4&a5&a6&a7&a8&a9&a10&a11&a12&a13&a14&a15&a16&a17)
         (b1&b2&b3&b4&b5&b6&b7&b8&b9&b10&b11&b12&b13&b14&b15&b16&b17).
  repeat split; try congruence.
  - destruct b11 as [H11 | H11]; rewrite H11; auto.
  - intros z Hz. auto.
  - intros m Hm. auto.
  - destruct b16 as [H16 | H16]; rewrite H16; auto.
  - destruct b17 as [H17 | H17]; rewrite H17; auto.
Qed.

Lemma lazy_fs_refl f : lazy_fs f f.
Proof. unfold lazy_fs. repeat split; auto. Qed.

Lemma lazy_fs_trans f1 f2 f3 : lazy_fs f1 f2 -> lazy_fs f2 f3 -> lazy_fs f1 f3.
Proof.
  unfold lazy_fs.
  intros (a1&a2&a3&a4&a5&a6&a7&a8) (b1&b2&b3&b4&b5&b6&b7&b8).
  repeat split; try congruence. intros m Hm. auto.
Qed.

Lemma lazy_upto_refl ni nm s : lazy_upto ni nm s s.
Proof.
  constructor; auto.
  - intros p i _ H. exists i. split; [exact H|apply lazy_inode_refl].
  - intros f fs H. exists fs. split; [exact H|apply lazy_fs_refl].
Qed.

Lemma lazy_upto_trans ni nm s1 s2 s3 :
  lazy_upto ni nm s1 s2 -> lazy_upto ni nm s2 s3 -> lazy_upto ni nm s1 s3.
Proof.
  intros [a1 a2 a3 a4 a5 a6 a7 a8 a9] [b1 b2 b3 b4 b5 b6 b7 b8 b9]. constructor.
  - intros p i Hp Hi. destruct (a1 p i Hp Hi) as (i2 & Hi2 & H12).
    destruct (b1 p i2 Hp Hi2) as (i3 & Hi3 & H23).
    exists i3. split; [exact Hi3|]. eapply lazy_inode_trans; eauto.
  - lia.
  - intros m L Hm HL. auto.
  - lia.
  - congruence.
  - intros f fs Hf. destruct (a6 f fs Hf) as (fs2 & Hf2 & H12).
    destruct (b6 f fs2 Hf2) as (fs3 & Hf3 & H23).
    exists fs3. split; [exact Hf3|]. eapply lazy_fs_trans; eauto.
  - congruence.
  - congruence.
  - congruence.
Qed.

Lemma lazy_upto_weaken ni nm ni' nm' s s' :
  (ni' <= ni)%nat -> (nm' <= nm)%nat -> lazy_upto ni nm s s' -> lazy_upto ni' nm' s s'.
Proof.
  intros Hi Hm [a1 a2 a3 a4 a5 a6 a7 a8 a9]. constructor; auto.
  - intros p i Hp. apply a1. lia.
  - intros m L Hlt. apply a3. lia.
Qed.

Lemma lazy_upto_bounded ni nm s s' :
  bounded ni nm s -> lazy_upto ni nm s s' -> bounded ni nm s'.
Proof. intros [H1 H2] [a1 a2 a3 a4 a5 a6 a7 a8 a9]. split; lia. Qed.

(** The rule for a sequence. *)
Lemma lazy_bind ni nm {A B} (m : M A) (k : A -> M B) s :
  lazy_upto ni nm s (final_state (m s)) ->
  (forall a s1, m s = Ok a s1 -> lazy_upto ni nm s s1 ->
                lazy_upto ni nm s1 (final_state (k a s1))) ->
  lazy_upto ni nm s (final_state (bind m k s)).
Proof.
  intros Hm Hk. unfold bind. destruct (m s) as [a s1|e s1] eqn:E; simpl in *.
  - eapply lazy_upto_trans; [exact Hm|]. apply Hk; auto.
  - exact Hm.
Qed.

Lemma lazy_for_each ni nm {A} (xs : list A) (body : A -> M unit) :
  (forall x s, In x xs -> bounded ni nm s -> lazy_upto ni nm s (final_state (body x s))) ->
  forall s, bounded ni nm s -> lazy_upto ni nm s (final_state (for_each xs body s)).
Proof.
  induction xs as [|x xs IH]; intros Hb s Hs; simpl.
  - apply lazy_upto_refl.
  - apply lazy_bind.
    + apply Hb; [left; reflexivity|exact Hs].
    + intros _ s1 _ H1. apply IH.
      * intros y s' Hy. apply Hb. right. exact Hy.
      * eapply lazy_upto_bounded; eauto.
Qed.

(** *** The primitive steps *)

Lemma lazy_update_inode_fresh ni nm p f s :
  (ni <= p)%nat -> lazy_upto ni nm s (final_state (update_inode p f s)).
Proof.
  intros Hp. unfold update_inode, modify. simpl.
  constructor; simpl; auto.
  - intros q i Hq Hi. exists i. split; [|apply lazy_inode_refl].
    rewrite list_lookup_alter_ne by lia. exact Hi.
  - rewrite length_alter. lia.
  - intros f0 fs H. exists fs. split; [exact H|apply lazy_fs_refl].
Qed.

Lemma lazy_update_inode ni nm p f s :
  (forall i, inodes s !! p = Some i -> lazy_inode i (f i)) ->
  lazy_upto ni nm s (final_state (update_inode p f s)).
Proof.
  intros Hf. unfold update_inode, modify. simpl.
  constructor; simpl; auto.
  - intros q i Hq Hi. destruct (decide (p = q)) as [->|Hne].
    + exists (f i). rewrite list_lookup_alter_eq, Hi. split; [reflexivity|auto].
    + exists i. rewrite list_lookup_alter_ne by auto. split; [exact Hi|apply lazy_inode_refl].
  - rewrite length_alter. lia.
  - intros f0 fs H. exists fs. split; [exact H|apply lazy_fs_refl].
Qed.

Lemma lazy_new_inode ni nm i s :
  lazy_upto ni nm s (final_state (new_inode i s)).
Proof.
  unfold new_inode. simpl. constructor; simpl; auto.
  - intros q i0 Hq Hi. exists i0. split; [|apply lazy_inode_refl].
    rewrite lookup_app_l; [exact Hi|]. eapply lookup_lt_Some; eauto.
  - rewrite length_app. lia.
  - intros f0 fs H. exists fs. split; [exact H|apply lazy_fs_refl].
Qed.

Lemma lazy_new_map ni nm s :
  lazy_upto ni nm s (final_state (new_map s)).
Proof.
  unfold new_map. simpl. constructor; simpl; auto.
  - intros q i0 Hq Hi. exists i0. split; [exact Hi|apply lazy_inode_refl].
  - intros m L Hm HL. rewrite lookup_app_l; [exact HL|]. eapply lookup_lt_Some; eauto.
  - rewrite length_app. lia.
  - intros f0 fs H. exists fs. split; [exact H|apply lazy_fs_refl].
Qed.


Lemma lazy_update_map_fresh ni nm m f s :
  (nm <= m)%nat -> lazy_upto ni nm s (final_state (update_map m f s)).
Proof.
  intros Hm. unfold update_map, modify. simpl. constructor; simpl; auto.
  - intros q i _ Hi. exists i. split; [exact Hi|apply lazy_inode_refl].
  - intros m' L Hlt HL. rewrite list_lookup_alter_ne by lia. exact HL.
  - rewrite length_alter. lia.
  - intros f0 fs H. exists fs. split; [exact H|apply lazy_fs_refl].
Qed.

Lemma lazy_update_fs ni nm this f s :
  (forall fs, filesystems s !! this = Some fs -> lazy_fs fs (f fs)) ->
  lazy_upto ni nm s (final_state (update_fs this f s)).
Proof.
  intros Hf. unfold update_fs, modify. simpl. constructor; simpl; auto.
  - intros q i _ Hi. exists i. split; [exact Hi|apply lazy_inode_refl].
  - intros f0 fs H. destruct (decide (this = f0)) as [->|Hne].
    + exists (f fs). rewrite list_lookup_alter_eq, H. split; [reflexivity|auto].
    + exists fs. rewrite list_lookup_alter_ne by auto. split; [exact H|apply lazy_fs_refl].
  - rewrite length_alter. reflexivity.
Qed.

(** A step that changes at most the clock, the inode counter and the record
    of resolver calls. *)
Lemma lazy_counters ni nm s s' :
  inodes s' = inodes s -> linkmaps s' = linkmaps s -> buffers s' = buffers s ->
  filesystems s' = filesystems s -> devCount s' = devCount s -> fdCount s' = fdCount s ->
  lazy_upto ni nm s s'.
Proof.
  intros H1 H2 H3 H4 H5 H6. constructor; auto.
  - intros p i _ Hi. exists i. rewrite H1. split; [exact Hi|apply lazy_inode_refl].
  - rewrite H1. lia.
  - intros m L _ HL. rewrite H2. exact HL.
  - rewrite H2. lia.
  - intros f fs H. exists fs. rewrite H4. split; [exact H|apply lazy_fs_refl].
  - rewrite H4. reflexivity.
Qed.

Lemma lazy_record_call ni nm c s : lazy_upto ni nm s (final_state (record_call c s)).
Proof. apply lazy_counters; reflexivity. Qed.

Lemma lazy_inode_at ni nm p s : lazy_upto ni nm s (final_state (inode_at p s)).
Proof. unfold inode_at. destruct (inodes s !! p); apply lazy_upto_refl. Qed.

Lemma lazy_map_at ni nm p s : lazy_upto ni nm s (final_state (map_at p s)).
Proof. unfold map_at. destruct (linkmaps s !! p); apply lazy_upto_refl. Qed.

Lemma lazy_fs_at ni nm p s : lazy_upto ni nm s (final_state (fs_at p s)).
Proof. unfold fs_at. destruct (filesystems s !! p); apply lazy_upto_refl. Qed.

Lemma inode_at_Ok p s a s1 : inode_at p s = Ok a s1 -> s1 = s /\ inodes s !! p = Some a.
Proof. unfold inode_at. destruct (inodes s !! p); intros H; inversion H; subst; auto. Qed.

Lemma map_at_Ok p s a s1 : map_at p s = Ok a s1 -> s1 = s /\ linkmaps s !! p = Some a.
Proof. unfold map_at. destruct (linkmaps s !! p); intros H; inversion H; subst; auto. Qed.

Lemma fs_at_Ok p s a s1 : fs_at p s = Ok a s1 -> s1 = s /\ filesystems s !! p = Some a.
Proof. unfold fs_at. destruct (filesystems s !! p); intros H; inversion H; subst; auto. Qed.

Lemma lazy_time ni nm this s : lazy_upto ni nm s (final_state (time this s)).
Proof.
  unfold time, bind, fs_at. destruct (filesystems s !! this); simpl.
  - apply lazy_counters; reflexivity.
  - apply lazy_upto_refl.
Qed.

Lemma mknod_Ok this dev type mode umask s p s1 :
  _mknod this dev type mode umask s = Ok p s1 -> p = length (inodes s).
Proof.
  unfold _mknod, time. unfold bind, fs_at, gets, modify, new_inode, ret.
  destruct (filesystems s !! this); simpl; intros H; inversion H; reflexivity.
Qed.

Lemma lazy_mknod ni nm this dev type mode umask s :
  lazy_upto ni nm s (final_state (_mknod this dev type mode umask s)).
Proof.
  unfold _mknod. apply lazy_bind; [apply lazy_time|]. intros t s1 _ _.
  apply lazy_bind; [apply lazy_upto_refl|]. intros n s2 _ _.
  apply lazy_bind; [apply lazy_counters; reflexivity|]. intros _ s3 _ _.
  apply lazy_new_inode.
Qed.

Lemma lazy_addLink_fresh ni nm this parent links name node s :
  (nm <= links)%nat -> (ni <= node)%nat ->
  lazy_upto ni nm s (final_state (_addLink this parent links name node s)).
Proof.
  intros Hl Hn. unfold _addLink.
  apply lazy_bind; [apply lazy_fs_at|]. intros fs s1 _ _.
  apply lazy_bind; [apply lazy_update_map_fresh; exact Hl|]. intros _ s2 _ _.
  apply lazy_bind; [apply lazy_update_inode_fresh; exact Hn|]. intros _ s3 _ _.
  apply lazy_bind; [apply lazy_inode_at|]. intros n s4 _ _.
  apply lazy_update_inode_fresh; exact Hn.
Qed.

Lemma new_inode_Ok i s p s1 :
  new_inode i s = Ok p s1 -> p = length (inodes s).
Proof. unfold new_inode. intros [= <- <-]. reflexivity. Qed.

Lemma new_map_Ok s m s1 :
  new_map s = Ok m s1 -> m = length (linkmaps s).
Proof. unfold new_map. intros [= <- <-]. reflexivity. Qed.

Lemma lazy_fs_shadows f v : lazy_fs f (FS.with_lazy_shadows v f).
Proof. unfold lazy_fs. repeat split; auto. Qed.

Lemma lazy_getShadow_rec ni nm fuel :
  forall this root s, bounded ni nm s ->
    lazy_upto ni nm s (final_state (getShadow_rec fuel this root s)).
Proof.
  induction fuel as [|fuel IH]; intros this root s Hb; simpl.
  - apply lazy_upto_refl.
  - apply lazy_bind; [apply lazy_fs_at|]. intros fs s1 _ H1.
    apply lazy_bind; [apply lazy_update_fs; intros; apply lazy_fs_shadows|]. intros _ s2 _ H2.
    apply lazy_bind; [apply lazy_inode_at|]. intros r s3 _ H3.
    destruct (jm_get Z.eqb (Inode.ino r) _); [apply lazy_upto_refl|].
    apply lazy_bind; [apply lazy_new_inode|]. intros shadow s4 Hs H4.
    apply new_inode_Ok in Hs.
    assert (Hb3 : bounded ni nm s3).
    { eapply lazy_upto_bounded; [|exact H3]. eapply lazy_upto_bounded; [|exact H2].
      eapply lazy_upto_bounded; [|exact H1]. exact Hb. }
    assert (Hsh : (ni <= shadow)%nat) by (destruct Hb3; lia).
    apply lazy_bind; [apply lazy_update_fs; intros; apply lazy_fs_shadows|]. intros _ s5 _ H5.
    apply lazy_bind; [|intros; apply lazy_upto_refl].
    apply lazy_for_each.
    + intros [rootParent rootNames] s' _ Hb'.
      apply lazy_bind.
      * destruct rootParent as [rp|]; [|apply lazy_upto_refl].
        apply lazy_bind; [apply IH; exact Hb'|]. intros; apply lazy_upto_refl.
      * intros key s6 _ H6. apply lazy_update_inode_fresh. exact Hsh.
    + eapply lazy_upto_bounded; [|exact H5]. eapply lazy_upto_bounded; [|exact H4]. exact Hb3.
Qed.

Lemma lazy_getShadow ni nm this root s :
  bounded ni nm s -> lazy_upto ni nm s (final_state (_getShadow this root s)).
Proof. intros Hb. unfold _getShadow. apply lazy_getShadow_rec. exact Hb. Qed.

Lemma lazy_copyShadowLinks ni nm this src target s :
  (nm <= target)%nat -> bounded ni nm s ->
  lazy_upto ni nm s (final_state (_copyShadowLinks this src target s)).
Proof.
  intros Ht Hb. unfold _copyShadowLinks.
  apply lazy_bind; [apply lazy_fs_at|]. intros fs s1 _ H1.
  apply lazy_for_each.
  - intros [name root] s' _ Hb'.
    apply lazy_bind; [apply lazy_getShadow; exact Hb'|]. intros shadow s2 _ _.
    apply lazy_update_map_fresh. exact Ht.
  - eapply lazy_upto_bounded; eauto.
Qed.

Lemma lazy_bind_from ni nm s0 {A B} (m : M A) (k : A -> M B) s :
  lazy_upto ni nm s0 s ->
  lazy_upto ni nm s (final_state (m s)) ->
  (forall a s1, m s = Ok a s1 -> lazy_upto ni nm s0 s1 ->
                lazy_upto ni nm s0 (final_state (k a s1))) ->
  lazy_upto ni nm s0 (final_state (bind m k s)).
Proof.
  intros H0 Hm Hk. unfold bind. destruct (m s) as [a s1|e s1] eqn:E; simpl in *.
  - apply Hk; auto. eapply lazy_upto_trans; eauto.
  - eapply lazy_upto_trans; eauto.
Qed.

Lemma lazy_mount_entry ni nm this node dev source resolver links name s :
  (nm <= links)%nat -> bounded ni nm s ->
  lazy_upto ni nm s (final_state (mount_entry this node dev source resolver links name s)).
Proof.
  intros Hl Hb. unfold mount_entry.
  apply lazy_bind; [apply lazy_record_call|]. intros _ s1 _ H1.
  assert (Hb1 : bounded ni nm s1) by (eapply lazy_upto_bounded; eauto).
  destruct (_ =? S_IFDIR)%Z; [|destruct (_ =? S_IFREG)%Z].
  - apply lazy_bind; [apply lazy_mknod|]. intros dir s2 Hd H2.
    apply mknod_Ok in Hd. assert (ni <= dir)%nat by (destruct Hb1; lia).
    apply lazy_bind; [apply lazy_update_inode_fresh; auto|]. intros _ s3 _ _.
    apply lazy_bind; [apply lazy_update_inode_fresh; auto|]. intros _ s4 _ _.
    apply lazy_addLink_fresh; auto.
  - apply lazy_bind; [apply lazy_mknod|]. intros file s2 Hd H2.
    apply mknod_Ok in Hd. assert (ni <= file)%nat by (destruct Hb1; lia).
    apply lazy_bind; [apply lazy_update_inode_fresh; auto|]. intros _ s3 _ _.
    apply lazy_bind; [apply lazy_update_inode_fresh; auto|]. intros _ s4 _ _.
    apply lazy_bind; [apply lazy_update_inode_fresh; auto|]. intros _ s5 _ _.
    apply lazy_addLink_fresh; auto.
  - apply lazy_upto_refl.
Qed.

Lemma lazy_mount_entries ni nm this node dev source resolver links s :
  (nm <= links)%nat -> bounded ni nm s ->
  lazy_upto ni nm s (final_state (mount_entries this node dev source resolver links s)).
Proof.
  intros Hl Hb. unfold mount_entries.
  apply lazy_bind; [apply lazy_record_call|]. intros _ s1 _ H1.
  apply lazy_for_each.
  - intros name s' _ Hb'. apply lazy_mount_entry; auto.
  - eapply lazy_upto_bounded; eauto.
Qed.

Lemma lazy_fs_links f m : FS.lazy_links f = None -> lazy_fs f (FS.with_lazy_links (Some m) f).
Proof. intros H. unfold lazy_fs. repeat split; auto. intros m'. rewrite H. discriminate. Qed.

Lemma lazy_getRootLinks_rec ni nm n :
  forall this s, bounded ni nm s ->
    lazy_upto ni nm s (final_state (getRootLinks_rec n this s)).
Proof.
  induction n as [|n IH]; intros this s Hb; simpl.
  - apply lazy_upto_refl.
  - apply lazy_bind; [apply lazy_fs_at|]. intros fs s1 Hfs H1.
    apply fs_at_Ok in Hfs as [-> Hfs].
    destruct (FS.lazy_links fs) as [m|] eqn:Hll; [apply lazy_upto_refl|].
    apply lazy_bind; [apply lazy_new_map|]. intros m s2 Hm H2.
    assert (Hm' := Hm). apply new_map_Ok in Hm'.
    assert (Hmf : (nm <= m)%nat) by (destruct Hb; lia).
    assert (Hfs2 : filesystems s2 !! this = Some fs).
    { unfold new_map in Hm. injection Hm as _ <-. exact Hfs. }
    apply lazy_bind.
    { apply lazy_update_fs. intros fs0 H0. rewrite Hfs2 in H0. injection H0 as <-.
      apply lazy_fs_links. exact Hll. }
    intros _ s3 _ H3.
    assert (Hb3 : bounded ni nm s3).
    { eapply lazy_upto_bounded; [|exact H3]. eapply lazy_upto_bounded; eauto. }
    apply lazy_bind; [|intros; apply lazy_upto_refl].
    destruct (FS._shadowRoot fs) as [p|]; [|apply lazy_upto_refl].
    destruct (p <? this)%nat; [|apply lazy_upto_refl].
    apply lazy_bind; [apply IH; exact Hb3|]. intros pm s4 _ H4.
    apply lazy_bind; [apply lazy_map_at|]. intros src s5 _ H5.
    apply lazy_copyShadowLinks; [exact Hmf|].
    eapply lazy_upto_bounded; [|exact H5]. eapply lazy_upto_bounded; eauto.
Qed.

(** Setting the links of a directory whose links were absent in [s]. *)
Lemma lazy_set_links ni nm s s1 node i v :
  lazy_upto ni nm s s1 ->
  inodes s !! node = Some i -> Inode.links i = None ->
  lazy_upto ni nm s (final_state (update_inode node (Inode.with_links v) s1)).
Proof.
  intros [a1 a2 a3 a4 a5 a6 a7 a8 a9] Hi Hl.
  unfold update_inode, modify. simpl. constructor; simpl; auto.
  - intros p i0 Hp Hi0. destruct (a1 p i0 Hp Hi0) as (i1 & Hi1 & H01).
    destruct (decide (node = p)) as [->|Hne].
    + rewrite list_lookup_alter_eq, Hi1. eexists; split; [reflexivity|].
      assert (i0 = i) by congruence. subst i0.
      unfold lazy_inode in *.
      destruct H01 as (b1&b2&b3&b4&b5&b6&b7&b8&b9&b10&b11&b12&b13&b14&b15&b16&b17).
      repeat split; auto. intros m. rewrite Hl. discriminate.
    + rewrite list_lookup_alter_ne by auto. eauto.
  - rewrite length_alter. exact a2.
Qed.

Lemma lazy_inode_source i : lazy_inode i (Inode.with_source None i).
Proof. unfold lazy_inode. repeat split; auto. Qed.

Lemma lazy_inode_resolver i : lazy_inode i (Inode.with_resolver None i).
Proof. unfold lazy_inode. repeat split; auto. Qed.

Lemma lazy_getLinks_rec ni nm n :
  forall this node s, bounded ni nm s ->
    lazy_upto ni nm s (final_state (getLinks_rec n this node s)).
Proof.
  induction n as [|n IH]; intros this node s Hb; simpl.
  - apply lazy_upto_refl.
  - destruct node as [node|]; [|apply (lazy_getRootLinks_rec ni nm (S n)); exact Hb].
    apply (lazy_bind_from ni nm s); [apply lazy_upto_refl|apply lazy_inode_at|].
    intros i s1 Hi _.
    apply inode_at_Ok in Hi as [-> Hi].
    destruct (Inode.links i) as [m|] eqn:Hll; [apply lazy_upto_refl|].
    apply (lazy_bind_from ni nm s); [apply lazy_upto_refl|apply lazy_new_map|].
    intros links s2 Hm H2.
    apply new_map_Ok in Hm.
    assert (Hlf : (nm <= links)%nat) by (destruct Hb; lia).
    assert (Hb2 : bounded ni nm s2) by (eapply lazy_upto_bounded; eauto).
    assert (Hshadow : forall s3, bounded ni nm s3 ->
              lazy_upto ni nm s3
                (final_state
                   ((let* fs := fs_at this in
                     match FS._shadowRoot fs, Inode.shadowRoot i with
                     | Some p, Some r =>
                         if (p <? this)%nat then
                           let* pm := getLinks_rec n p (Some r) in
                           let* src := map_at pm in
                           _copyShadowLinks this src links
                         else throw stack_overflow
                     | _, _ => ret tt
                     end) s3))).
    { intros s3 Hb3'.
      apply lazy_bind; [apply lazy_fs_at|]. intros fs s4 _ H3.
      assert (Hb3 : bounded ni nm s4) by (eapply lazy_upto_bounded; eauto).
      destruct (FS._shadowRoot fs) as [p|]; [|apply lazy_upto_refl].
      destruct (Inode.shadowRoot i) as [r|]; [|apply lazy_upto_refl].
      destruct (p <? this)%nat; [|apply lazy_upto_refl].
      apply lazy_bind; [apply IH; exact Hb3|]. intros pm s5 _ H4.
      apply lazy_bind; [apply lazy_map_at|]. intros src s6 _ H5.
      apply lazy_copyShadowLinks; [exact Hlf|].
      eapply lazy_upto_bounded; [|exact H5]. eapply lazy_upto_bounded; eauto. }
    apply (lazy_bind_from ni nm s); [exact H2| |].
    { destruct (Inode.source i) as [source|], (Inode.resolver i) as [resolver|];
        try (apply Hshadow; exact Hb2).
      apply lazy_bind.
      { apply lazy_update_inode. intros; apply lazy_inode_source. }
      intros _ s3 _ H3.
      apply lazy_bind.
      { apply lazy_update_inode. intros; apply lazy_inode_resolver. }
      intros _ s4 _ H4. apply lazy_mount_entries; [exact Hlf|].
      eapply lazy_upto_bounded; [|exact H4]. eapply lazy_upto_bounded; eauto. }
    intros _ s3 _ H3.
    unfold bind, update_inode, modify, ret. simpl.
    apply (lazy_set_links ni nm s s3 node i (Some links) H3 Hi Hll).
Qed.

Lemma lazy_getLinks ni nm this node s :
  bounded ni nm s -> lazy_upto ni nm s (final_state (_getLinks this node s)).
Proof. apply lazy_getLinks_rec. Qed.

Lemma lazy_getRootLinks ni nm this s :
  bounded ni nm s -> lazy_upto ni nm s (final_state (_getRootLinks this s)).
Proof. apply lazy_getRootLinks_rec. Qed.

(** *** What a materialization leaves behind *)

Lemma getRootLinks_ready this fs m s :
  filesystems s !! this = Some fs -> FS.lazy_links fs = Some m ->
  _getRootLinks this s = Ok m s.
Proof.
  intros Hfs Hm. unfold _getRootLinks. simpl. unfold bind, fs_at. rewrite Hfs, Hm. reflexivity.
Qed.

Lemma getLinks_ready this node i m s :
  inodes s !! node = Some i -> Inode.links i = Some m ->
  _getLinks this (Some node) s = Ok m s.
Proof.
  intros Hi Hm. unfold _getLinks. simpl. unfold bind, inode_at. rewrite Hi, Hm. reflexivity.
Qed.

Lemma getRootLinks_rec_spec n this s m s' :
  getRootLinks_rec n this s = Ok m s' ->
  exists fs', filesystems s' !! this = Some fs' /\ FS.lazy_links fs' = Some m.
Proof.
  destruct n as [|n]; simpl; [discriminate|].
  intros H. apply bind_Ok in H as (fs & s1 & Hfs & H).
  apply fs_at_Ok in Hfs as [-> Hfs].
  destruct (FS.lazy_links fs) as [m0|] eqn:Hll.
  - injection H as <- <-. eauto.
  - apply bind_Ok in H as (m1 & s2 & Hm & H).
    unfold new_map in Hm. injection Hm as <- <-.
    apply bind_Ok in H as ([] & s3 & Hu & H).
    unfold update_fs, modify in Hu. injection Hu as <-.
    apply bind_Ok in H as ([] & s4 & Hmid & H).
    injection H as <- <-.
    set (s3 := with_filesystems _ _) in Hmid.
    assert (H3 : filesystems s3 !! this
                 = Some (FS.with_lazy_links (Some (length (linkmaps s))) fs)).
    { unfold s3. simpl. rewrite list_lookup_alter_eq, Hfs. reflexivity. }
    assert (Hfr : lazy_upto 0 0 s3 s4).
    { change s4 with (final_state (@Ok unit tt s4)). rewrite <- Hmid.
      destruct (FS._shadowRoot fs) as [p|]; [|apply lazy_upto_refl].
      destruct (p <? this)%nat; [|apply lazy_upto_refl].
      apply lazy_bind; [apply lazy_getRootLinks_rec; split; lia|]. intros pm s5 _ H5.
      apply lazy_bind; [apply lazy_map_at|]. intros src s6 _ H6.
      apply lazy_copyShadowLinks; [lia|split; lia]. }
    destruct (lz_fs _ _ _ _ Hfr _ _ H3) as (fs' & Hfs' & Hlz).
    exists fs'. split; [exact Hfs'|].
    destruct Hlz as (_&_&_&_&_&_&_&Hl). apply Hl. reflexivity.
Qed.

Lemma getLinks_rec_spec n this node s m s' :
  getLinks_rec n this (Some node) s = Ok m s' ->
  exists i', inodes s' !! node = Some i' /\ Inode.links i' = Some m.
Proof.
  destruct n as [|n]; simpl; [discriminate|].
  intros H. apply bind_Ok in H as (i & s1 & Hi & H).
  apply inode_at_Ok in Hi as [-> Hi].
  destruct (Inode.links i) as [m0|] eqn:Hll.
  - injection H as <- <-. eauto.
  - apply bind_Ok in H as (links & s2 & Hm & H).
    assert (H2 : lazy_upto 0 0 s s2).
    { change s2 with (final_state (Ok links s2)). rewrite <- Hm. apply lazy_new_map. }
    apply bind_Ok in H as ([] & s3 & Hmid & H).
    assert (H3 : lazy_upto 0 0 s2 s3).
    { change s3 with (final_state (@Ok unit tt s3)). rewrite <- Hmid.
      destruct (Inode.source i) as [source|], (Inode.resolver i) as [resolver|].
      - apply lazy_bind.
        { apply lazy_update_inode. intros; apply lazy_inode_source. }
        intros _ s4 _ H4.
        apply lazy_bind.
        { apply lazy_update_inode. intros; apply lazy_inode_resolver. }
        intros _ s5 _ H5. apply lazy_mount_entries; [lia|split; lia].
      - apply lazy_bind; [apply lazy_fs_at|]. intros fs s4 _ H4.
        destruct (FS._shadowRoot fs) as [p|]; [|apply lazy_upto_refl].
        destruct (Inode.shadowRoot i) as [r|]; [|apply lazy_upto_refl].
        destruct (p <? this)%nat; [|apply lazy_upto_refl].
        apply lazy_bind; [apply lazy_getLinks_rec; split; lia|]. intros pm s5 _ H5.
        apply lazy_bind; [apply lazy_map_at|]. intros src s6 _ H6.
        apply lazy_copyShadowLinks; [lia|split; lia].
      - apply lazy_bind; [apply lazy_fs_at|]. intros fs s4 _ H4.
        destruct (FS._shadowRoot fs) as [p|]; [|apply lazy_upto_refl].
        destruct (Inode.shadowRoot i) as [r|]; [|apply lazy_upto_refl].
        destruct (p <? this)%nat; [|apply lazy_upto_refl].
        apply lazy_bind; [apply lazy_getLinks_rec; split; lia|]. intros pm s5 _ H5.
        apply lazy_bind; [apply lazy_map_at|]. intros src s6 _ H6.
        apply lazy_copyShadowLinks; [lia|split; lia].
      - apply lazy_bind; [apply lazy_fs_at|]. intros fs s4 _ H4.
        destruct (FS._shadowRoot fs) as [p|]; [|apply lazy_upto_refl].
        destruct (Inode.shadowRoot i) as [r|]; [|apply lazy_upto_refl].
        destruct (p <? this)%nat; [|apply lazy_upto_refl].
        apply lazy_bind; [apply lazy_getLinks_rec; split; lia|]. intros pm s5 _ H5.
        apply lazy_bind; [apply lazy_map_at|]. intros src s6 _ H6.
        apply lazy_copyShadowLinks; [lia|split; lia]. }
    unfold bind, update_inode, modify, ret in H. injection H as <- <-. simpl.
    assert (Hlt : (node < length (inodes s3))%nat).
    { apply lookup_lt_Some in Hi. pose proof (lz_inodes_len _ _ _ _ H2).
      pose proof (lz_inodes_len _ _ _ _ H3). lia. }
    destruct (lookup_lt_is_Some_2 _ _ Hlt) as [i3 Hi3].
    exists (Inode.with_links (Some links) i3). rewrite list_lookup_alter_eq, Hi3.
    split; reflexivity.
Qed.

(** ** C3: the limit on symbolic links *)

#[local] Arguments Nat.leb : simpl never.

Lemma lazy_walk_steps ni nm this noFollow depth :
  forall rest done links parent s, bounded ni nm s ->
    lazy_upto ni nm s
      (final_state (walk_steps this noFollow depth done rest links parent s)).
Proof.
  induction rest as [|basename rest IH]; intros done links parent s Hb; simpl.
  - apply lazy_upto_refl.
  - destruct (40 <=? depth)%nat; [apply lazy_upto_refl|].
    apply lazy_bind; [apply lazy_fs_at|]. intros fs s1 _ H1.
    apply lazy_bind; [apply lazy_map_at|]. intros m s2 _ H2.
    destruct (sm_get _ _ _) as [node|]; [|apply lazy_upto_refl].
    apply lazy_bind; [apply lazy_inode_at|]. intros n s3 _ H3.
    assert (Hb3 : bounded ni nm s3).
    { eapply lazy_upto_bounded; [|exact H3]. eapply lazy_upto_bounded; [|exact H2].
      eapply lazy_upto_bounded; eauto. }
    destruct (isSymlinkInode n && _).
    { destruct (Inode.symlink n); [|apply lazy_upto_refl].
      destruct (negb _); apply lazy_upto_refl. }
    destruct rest as [|b2 rest].
    { destruct parent; [apply lazy_upto_refl|].
      destruct (isDirectoryInode n); apply lazy_upto_refl. }
    destruct (isDirectoryInode n); [|apply lazy_upto_refl].
    apply lazy_bind; [apply lazy_getLinks; exact Hb3|]. intros links' s4 _ H4.
    apply IH. eapply lazy_upto_bounded; eauto.
Qed.

Lemma lazy_walk_pass ni nm this noFollow depth cs s :
  bounded ni nm s -> lazy_upto ni nm s (final_state (walk_pass this noFollow depth cs s)).
Proof.
  intros Hb. unfold walk_pass.
  apply lazy_bind; [apply lazy_getRootLinks; exact Hb|]. intros links s1 _ H1.
  apply lazy_walk_steps. eapply lazy_upto_bounded; eauto.
Qed.

(** [walk_loop] in terms of its runs. *)
Lemma walk_loop_unfold budget this noFollow depth cs s :
  walk_loop budget this noFollow depth cs s
  = match walk_pass this noFollow depth cs s with
    | Ok (Found entry) s' => Ok (Some entry) s'
    | Ok Missing s' => Ok None s'
    | Ok (Restart cs') s' =>
        match budget with
        | S budget' => walk_loop budget' this noFollow (S depth) cs' s'
        | O => Throw (IOError ELOOP) s'
        end
    | Throw e s' => Throw e s'
    end.
Proof.
  unfold walk_pass. destruct budget; simpl; unfold bind;
    destruct (_getRootLinks this s) as [links s1|e s1]; try reflexivity;
    destruct (walk_steps _ _ _ _ _ _ _ _) as [[| |]|]; reflexivity.
Qed.

Lemma lazy_walk_loop ni nm this noFollow budget :
  forall depth cs s, bounded ni nm s ->
    lazy_upto ni nm s (final_state (walk_loop budget this noFollow depth cs s)).
Proof.
  induction budget as [|budget IH]; intros depth cs s Hb; rewrite walk_loop_unfold;
    pose proof (lazy_walk_pass ni nm this noFollow depth cs s Hb) as Hp;
    destruct (walk_pass this noFollow depth cs s) as [[e| |cs'] s1|e s1]; simpl in *; auto.
  eapply lazy_upto_trans; [exact Hp|]. apply IH. eapply lazy_upto_bounded; eauto.
Qed.

Lemma lazy_walk ni nm this path noFollow s :
  bounded ni nm s -> lazy_upto ni nm s (final_state (_walk this path noFollow s)).
Proof. apply lazy_walk_loop. Qed.

(** Below the limit the depth plays no part. *)
Lemma walk_steps_depth this noFollow depth :
  (depth < 40)%nat ->
  forall rest done links parent s,
    walk_steps this noFollow depth done rest links parent s
    = walk_steps this noFollow 0 done rest links parent s.
Proof.
  intros Hd. induction rest as [|basename rest IH]; intros done links parent s; simpl.
  - reflexivity.
  - replace (40 <=? depth)%nat with false by (symmetry; apply Nat.leb_gt; lia).
    unfold bind.
    destruct (fs_at this s) as [fs s1|]; [|reflexivity].
    destruct (map_at links s1) as [m s2|]; [|reflexivity].
    destruct (sm_get _ _ _) as [node|]; [|reflexivity].
    destruct (inode_at node s2) as [n s3|]; [|reflexivity].
    destruct (isSymlinkInode n && _); [reflexivity|].
    destruct rest as [|b2 rest]; [reflexivity|].
    destruct (isDirectoryInode n); [|reflexivity].
    destruct (_getLinks this (Some node) s3) as [links' s4|]; [|reflexivity].
    apply IH.
Qed.

Lemma walk_pass_depth this noFollow depth cs s :
  (depth < 40)%nat ->
  walk_pass this noFollow depth cs s = walk_pass this noFollow 0 cs s.
Proof.
  intros Hd. unfold walk_pass, bind.
  destruct (_getRootLinks this s); [|reflexivity].
  apply walk_steps_depth. exact Hd.
Qed.

Lemma walk_steps_restart this noFollow depth :
  forall rest done links parent s cs s',
    walk_steps this noFollow depth done rest links parent s = Ok (Restart cs) s' ->
    cs <> [].
Proof.
  induction rest as [|basename rest IH]; intros done links parent s cs s'; simpl.
  - discriminate.
  - destruct (40 <=? depth)%nat; [discriminate|].
    unfold bind.
    destruct (fs_at this s) as [fs s1|]; [|discriminate].
    destruct (map_at links s1) as [m s2|]; [|discriminate].
    destruct (sm_get _ _ _) as [node|]; [|discriminate].
    destruct (inode_at node s2) as [n s3|]; [|discriminate].
    destruct (isSymlinkInode n && _).
    { destruct (Inode.symlink n) as [target|]; [|discriminate].
      destruct (isAbsolute (resolve done target)) eqn:Ea; simpl; [|discriminate].
      intros [= <- <-]. destruct (resolve done target); [discriminate|]. discriminate. }
    destruct rest as [|b2 rest].
    { destruct parent; [discriminate|]. destruct (isDirectoryInode n); discriminate. }
    destruct (isDirectoryInode n); [|discriminate].
    destruct (_getLinks this (Some node) s3) as [links' s4|]; [|discriminate].
    apply IH.
Qed.

Lemma walk_pass_root_links this noFollow depth cs s r s' :
  walk_pass this noFollow depth cs s = Ok r s' ->
  exists fs m, filesystems s' !! this = Some fs /\ FS.lazy_links fs = Some m.
Proof.
  unfold walk_pass. intros H. apply bind_Ok in H as (links & s1 & Hr & H).
  destruct (getRootLinks_rec_spec _ _ _ _ _ Hr) as (fs1 & Hfs1 & Hl1).
  assert (Hfr : lazy_upto 0 0 s1 s').
  { change s' with (final_state (Ok r s')). rewrite <- H.
    apply lazy_walk_steps. split; lia. }
  destruct (lz_fs _ _ _ _ Hfr _ _ Hfs1) as (fs' & Hfs' & Hlz).
  exists fs', links. split; [exact Hfs'|].
  destruct Hlz as (_&_&_&_&_&_&_&Hl). apply Hl. exact Hl1.
Qed.

Lemma walk_pass_limit this noFollow cs s fs m :
  filesystems s !! this = Some fs -> FS.lazy_links fs = Some m -> cs <> [] ->
  walk_pass this noFollow 40 cs s = Throw (IOError ELOOP) s.
Proof.
  intros Hfs Hm Hcs. unfold walk_pass.
  rewrite (bind_eq_Ok _ (getRootLinks_ready this fs m s Hfs Hm)).
  destruct cs; [congruence|]. reflexivity.
Qed.

Lemma expands_walk_loop this noFollow k s cs s' cs' :
  expands this noFollow k s cs s' cs' ->
  forall budget depth,
    (depth + k <= 40)%nat -> (k <= budget)%nat ->
    walk_loop budget this noFollow depth cs s
    = walk_loop (budget - k) this noFollow (depth + k) cs' s'.
Proof.
  induction 1 as [s cs|k s cs s1 cs1 s2 cs2 Hk IH Hp]; intros budget depth Hd Hb.
  - rewrite Nat.sub_0_r, Nat.add_0_r. reflexivity.
  - rewrite IH by lia. rewrite walk_loop_unfold.
    rewrite walk_pass_depth by lia. rewrite Hp.
    destruct (budget - k)%nat as [|b'] eqn:Eb; [lia|].
    replace (budget - S k)%nat with b' by lia.
    replace (depth + S k)%nat with (S (depth + k)) by lia. reflexivity.
Qed.

Lemma expands_last this noFollow k s cs s' cs' :
  expands this noFollow (S k) s cs s' cs' ->
  cs' <> [] /\ exists fs m, filesystems s' !! this = Some fs /\ FS.lazy_links fs = Some m.
Proof.
  inversion 1 as [|k0 s0 cs0 s1 cs1 s2 cs2 Hk Hp]; subst. split.
  - unfold walk_pass in Hp. apply bind_Ok in Hp as (links & s3 & _ & Hp).
    eapply walk_steps_restart; eauto.
  - eapply walk_pass_root_links; eauto.
Qed.

Lemma symlink_limit_general :
  forall s this noFollow cs k s' cs',
    expands this noFollow k s cs s' cs' ->
    (k = 40%nat -> _walk this cs noFollow s = Throw (IOError ELOOP) s')
    /\ ((k <= 39)%nat ->
        is_restart (walk_pass this noFollow 0 cs' s') = false ->
        _walk this cs noFollow s = walk_result (walk_pass this noFollow 0 cs' s')).
Proof.
  intros s this noFollow cs k s' cs' He. split.
  - intros ->. unfold _walk.
    rewrite (expands_walk_loop _ _ _ _ _ _ _ He 40 0) by lia.
    destruct (expands_last _ _ _ _ _ _ _ He) as (Hcs & fs & m & Hfs & Hm).
    rewrite walk_loop_unfold. change (0 + 40)%nat with 40%nat.
    rewrite (walk_pass_limit this noFollow cs' s' fs m Hfs Hm Hcs). reflexivity.
  - intros Hk Hr. unfold _walk.
    rewrite (expands_walk_loop _ _ _ _ _ _ _ He 40 0) by lia.
    rewrite walk_loop_unfold. rewrite walk_pass_depth by lia.
    destruct (walk_pass this noFollow 0 cs' s') as [[e| |cs''] s''|e s'']; simpl in *;
      try reflexivity; discriminate.
Qed.

(** C3.  When the resolution of a path expands 40 symbolic links, [_walk]
    fails with [ELOOP] at the 40th; when it expands at most 39 and its last run
    from the root expands none, [_walk] returns what that run finds.  A chain
    of 39 links to a regular file resolves to the file and a chain of 40 fails
    with [ELOOP]; for [symlinkSync("/l", "/l")], [statSync("/l")] fails with
    [ELOOP] while [lstatSync("/l")] reports a symbolic link. *)
Theorem symlink_limit :
  (forall s this noFollow cs k s' cs',
      expands this noFollow k s cs s' cs' ->
      (k = 40%nat -> _walk this cs noFollow s = Throw (IOError ELOOP) s')
      /\ ((k <= 39)%nat ->
          is_restart (walk_pass this noFollow 0 cs' s') = false ->
          _walk this cs noFollow s = walk_result (walk_pass this noFollow 0 cs' s')))
  /\ (exists fs s e s' i,
        chain 39 initial = Ok fs s
        /\ _walk fs ["/"%string; link_name 0] false s = Ok (Some e) s'
        /\ FileDescription.path e = ["/"; "target"]%string
        /\ inodes s' !! FileDescription.node e = Some i /\ isFileInode i = true)
  /\ (exists fs s s',
        chain 40 initial = Ok fs s
        /\ _walk fs ["/"%string; link_name 0] false s = Throw (IOError ELOOP) s')
  /\ (exists fs s s1 st s2,
        self_link initial = Ok fs s
        /\ statSync fs ["/"; "l"]%string s = Throw (IOError ELOOP) s1
        /\ lstatSync fs ["/"; "l"]%string s = Ok st s2
        /\ Stats.isSymbolicLink st = true).
Proof.
  split; [exact symlink_limit_general|]. split; [|split].
  - eexists _, _, _, _, _. split; [vm_compute; reflexivity|].
    split; [vm_compute; reflexivity|]. split; [reflexivity|].
    split; [vm_compute; reflexivity|]. reflexivity.
  - eexists _, _, _. split; [vm_compute; reflexivity|]. vm_compute; reflexivity.
  - eexists _, _, _, _, _. split; [vm_compute; reflexivity|].
    split; [vm_compute; reflexivity|]. split; [vm_compute; reflexivity|]. reflexivity.
Qed.

Lemma symlink_limit_witness :
  _walk 0 ["/"%string; link_name 0] false chain1_state
  = walk_result (walk_pass 0 false 0 ["/"; "target"]%string chain1_state).
Proof.
  apply (proj1 symlink_limit chain1_state 0 false ["/"%string; link_name 0] 1
           chain1_state ["/"; "target"]%string).
  - apply (expands_S 0 false 0 chain1_state ["/"%string; link_name 0]
             chain1_state ["/"%string; link_name 0] chain1_state ["/"; "target"]%string).
    + apply expands_O.
    + vm_compute; reflexivity.
  - lia.
  - vm_compute; reflexivity.
Defined.

(** ** C1: a read-only file system *)

Lemma lazy_inode_paths i : lazy_inode i (Inode.with_paths None i).
Proof. unfold lazy_inode. repeat split; auto. Qed.

Lemma lazy_invalidatePaths ni nm fuel :
  forall this node s, bounded ni nm s ->
    lazy_upto ni nm s (final_state (_invalidatePaths fuel this node s)).
Proof.
  induction fuel as [|fuel IH]; intros this node s Hb; simpl.
  - apply lazy_upto_refl.
  - apply lazy_bind.
    { apply lazy_update_inode. intros; apply lazy_inode_paths. }
    intros _ s1 _ H1.
    apply lazy_bind; [apply lazy_inode_at|]. intros i s2 _ H2.
    destruct (isDirectoryInode i); [|apply lazy_upto_refl].
    assert (Hb2 : bounded ni nm s2).
    { eapply lazy_upto_bounded; [|exact H2]. eapply lazy_upto_bounded; eauto. }
    apply lazy_bind; [apply lazy_getLinks; exact Hb2|]. intros m s3 _ H3.
    apply lazy_bind; [apply lazy_map_at|]. intros children s4 _ H4.
    apply lazy_for_each.
    + intros child s' _ Hb'. apply IH. exact Hb'.
    + eapply lazy_upto_bounded; [|exact H4]. eapply lazy_upto_bounded; eauto.
Qed.


Lemma resolve_state this p s : final_state (_resolve this p s) = s.
Proof.
  unfold _resolve, bind, fs_at. destruct (filesystems s !! this) as [fs|]; [|reflexivity].
  destruct (nonempty (FS._cwd fs)); simpl.
  - reflexivity.
  - unfold validate. destruct (isAbsolute p); reflexivity.
Qed.

Lemma resolve_Ok this p s p' s' : _resolve this p s = Ok p' s' -> s' = s.
Proof. intros H. pose proof (resolve_state this p s) as Hs. rewrite H in Hs. exact Hs. Qed.


Lemma lazy_or_throw ni nm {A} (m : M (option A)) code s :
  lazy_upto ni nm s (final_state (m s)) ->
  lazy_upto ni nm s (final_state (or_throw m code s)).
Proof.
  intros H. unfold or_throw. apply lazy_bind; [exact H|].
  intros [a|] s1 _ _; apply lazy_upto_refl.
Qed.

Lemma lazy_isReadonly ni nm this s : lazy_upto ni nm s (final_state (isReadonly this s)).
Proof.
  unfold isReadonly, bind, fs_at. destruct (filesystems s !! this); apply lazy_upto_refl.
Qed.




Lemma fails_throw ni nm {A} e s : fails_upto ni nm s (@throw A e s).
Proof. exists e, s. split; [reflexivity|apply lazy_upto_refl]. Qed.


Lemma fails_frozen_check ni nm this {A} (k : M A) s :
  is_frozen s this ->
  fails_upto ni nm s
    ((let* fs := fs_at this in if FS.frozen fs then throw (IOError EROFS) else k) s).
Proof.
  intros (fs & Hfs & Hfr). unfold bind, fs_at. rewrite Hfs, Hfr. apply fails_throw.
Qed.



Lemma lazy_find ni nm this path noFollow code s :
  bounded ni nm s ->
  lazy_upto ni nm s (final_state (or_throw (_walk this path noFollow) code s)).
Proof. intros Hb. apply lazy_or_throw. apply lazy_walk. exact Hb. Qed.


Lemma frozen_tail ni nm this {A} (b : bool) (e : Exn) (k : M A) s :
  is_frozen s this ->
  fails_upto ni nm s
    ((let* fs := fs_at this in
      if b then throw e else if FS.frozen fs then throw (IOError EROFS) else k) s).
Proof.
  intros (fs & Hfs & Hfr). unfold bind, fs_at. rewrite Hfs, Hfr.
  destruct b; apply fails_throw.
Qed.











Lemma parseFlags_state flags s : final_state (parseFlags flags s) = s.
Proof.
  unfold parseFlags. destruct flags as [str|n]; [|reflexivity].
  repeat match goal with
         | |- context [if ?b then _ else _] => destruct b; [reflexivity|]
         end.
  reflexivity.
Qed.






(** Filling in the cached size of a file whose size was absent in [s]. *)
Lemma lazy_set_size ni nm s s1 node i v :
  lazy_upto ni nm s s1 ->
  inodes s !! node = Some i -> Inode.size i = None ->
  lazy_upto ni nm s (final_state (update_inode node (Inode.with_size v) s1)).
Proof.
  intros [a1 a2 a3 a4 a5 a6 a7 a8 a9] Hi Hl.
  unfold update_inode, modify. simpl. constructor; simpl; auto.
  - intros p i0 Hp Hi0. destruct (a1 p i0 Hp Hi0) as (i1 & Hi1 & H01).
    destruct (decide (node = p)) as [->|Hne].
    + rewrite list_lookup_alter_eq, Hi1. eexists; split; [reflexivity|].
      assert (i0 = i) by congruence. subst i0.
      unfold lazy_inode in *.
      destruct H01 as (b1&b2&b3&b4&b5&b6&b7&b8&b9&b10&b11&b12&b13&b14&b15&b16&b17).
      repeat split; auto. intros z. rewrite Hl. discriminate.
    + rewrite list_lookup_alter_ne by auto. eauto.
  - rewrite length_alter. exact a2.
Qed.

Lemma lazy_buffer_at ni nm p s : lazy_upto ni nm s (final_state (buffer_at p s)).
Proof. unfold buffer_at. destruct (buffers s !! p); apply lazy_upto_refl. Qed.

Lemma lazy_getSize_rec ni nm n :
  forall this node s, bounded ni nm s ->
    lazy_upto ni nm s (final_state (getSize_rec n this node s)).
Proof.
  induction n as [|n IH]; intros this node s Hb; simpl.
  - apply lazy_upto_refl.
  - apply (lazy_bind_from ni nm s); [apply lazy_upto_refl|apply lazy_inode_at|].
    intros i s1 Hi _. apply inode_at_Ok in Hi as [-> Hi].
    destruct (Inode.buffer i) as [b|].
    { apply lazy_bind; [apply lazy_buffer_at|]. intros; apply lazy_upto_refl. }
    destruct (Inode.size i) as [sz|] eqn:Hsz; [apply lazy_upto_refl|].
    assert (Hshadow :
              lazy_upto ni nm s
                (final_state
                   ((let* fs := fs_at this in
                     match FS._shadowRoot fs, Inode.shadowRoot i with
                     | Some p, Some r =>
                         if (p <? this)%nat then
                           let* sz := getSize_rec n p r in
                           update_inode node (Inode.with_size (Some sz)) ;;
                           ret sz
                         else throw stack_overflow
                     | _, _ => ret 0%Z
                     end) s))).
    { apply (lazy_bind_from ni nm s); [apply lazy_upto_refl|apply lazy_fs_at|].
      intros fs s2 Hfs _. apply fs_at_Ok in Hfs as [-> Hfs].
      destruct (FS._shadowRoot fs) as [p|]; [|apply lazy_upto_refl].
      destruct (Inode.shadowRoot i) as [r|]; [|apply lazy_upto_refl].
      destruct (p <? this)%nat; [|apply lazy_upto_refl].
      apply (lazy_bind_from ni nm s); [apply lazy_upto_refl|apply IH; exact Hb|].
      intros sz s3 _ H3. unfold bind, update_inode, modify, ret. simpl.
      apply (lazy_set_size ni nm s s3 node i (Some sz) H3 Hi Hsz). }
    destruct (Inode.source i) as [source|], (Inode.resolver i) as [resolver|];
      try exact Hshadow.
    apply (lazy_bind_from ni nm s); [apply lazy_upto_refl|apply lazy_record_call|].
    intros _ s2 _ H2. unfold bind, update_inode, modify, ret. simpl.
    apply (lazy_set_size ni nm s s2 node i _ H2 Hi Hsz).
Qed.

Lemma lazy_stat ni nm this node s :
  bounded ni nm s -> lazy_upto ni nm s (final_state (_stat this node s)).
Proof.
  intros Hb. unfold _stat.
  apply lazy_bind; [apply lazy_inode_at|]. intros n s1 _ H1.
  apply lazy_bind.
  { destruct (isFileInode n).
    - apply lazy_getSize_rec. eapply lazy_upto_bounded; eauto.
    - destruct (isSymlinkInode n); apply lazy_upto_refl. }
  intros size s2 _ H2.
  apply lazy_bind; [apply lazy_inode_at|]. intros; apply lazy_upto_refl.
Qed.












#[local] Arguments validate : simpl never.

(** The loop inside the [Directory] case is [_applyFilesWorker]. *)
Lemma bind_ext {A B} (m : M A) (k k' : A -> M B) s :
  (forall a s1, m s = Ok a s1 -> k a s1 = k' a s1) -> bind m k s = bind m k' s.
Proof. intros H. unfold bind. destruct (m s) as [a s1|e s1]; [apply H|]; reflexivity. Qed.







Lemma bounded_self s : bounded (length (inodes s)) (length (linkmaps s)) s.
Proof. split; lia. Qed.




(** On the same file system the operations that reach the read-only test
    throw [EROFS]. *)
Lemma frozen_examples :
  (exists s, mkdirSync 0 ["/"; "e"]%string 511 frozen_state = Throw (IOError EROFS) s)
  /\ (exists s, rmdirSync 0 ["/"; "d"]%string frozen_state = Throw (IOError EROFS) s)
  /\ (exists s, unlinkSync 0 ["/"; "a"]%string frozen_state = Throw (IOError EROFS) s)
  /\ (exists s, linkSync 0 ["/"; "a"]%string ["/"; "b"]%string frozen_state
                = Throw (IOError EROFS) s)
  /\ (exists s, renameSync 3 0 ["/"; "a"]%string ["/"; "b"]%string frozen_state
                = Throw (IOError EROFS) s)
  /\ (exists s, symlinkSync 0 ["/"; "a"]%string ["/"; "l"]%string frozen_state
                = Throw (IOError EROFS) s)
  /\ (exists s, chmodSync 0 ["/"; "a"]%string 420 frozen_state = Throw (IOError EROFS) s)
  /\ (exists s, rimrafSync 3 0 ["/"; "d"]%string frozen_state = Throw (IOError EROFS) s)
  /\ (exists s, apply 3 0 [(["/"; "d"; "f"]%string, File [Byte.x58] None)] frozen_state
                = Throw (IOError EROFS) s)
  /\ (exists s, apply 3 0 [(["/"; "d"]%string, Directory [] None)] frozen_state = Ok tt s).
Proof.
  repeat split; eexists; vm_compute; reflexivity.
Qed.

(** [openSync] with [O_RDONLY | O_CREAT] creates a file on the frozen file
    system: the access mode is 0, so [write] is 0. *)
Lemma frozen_open_creates :
  exists fd s s',
    statSync 0 ["/"; "n"]%string frozen_state = Throw (IOError ENOENT) s'
    /\ openSync 0 ["/"; "n"]%string (FlagNumber (Z.lor O_RDONLY O_CREAT)) 438 frozen_state = Ok fd s
    /\ exists st s'', statSync 0 ["/"; "n"]%string s = Ok st s''.
Proof.
  eexists _, _, _. split; [vm_compute; reflexivity|]. split; [vm_compute; reflexivity|].
  eexists _, _. vm_compute. reflexivity.
Qed.

(** ** C8: rename onto an existing name *)

Lemma or_throw_Some {A} (m : M (option A)) code s a s1 :
  m s = Ok (Some a) s1 -> or_throw m code s = Ok a s1.
Proof. intros H. unfold or_throw. rewrite (bind_eq_Ok _ H). reflexivity. Qed.

Lemma inode_at_eq p s i : inodes s !! p = Some i -> inode_at p s = Ok i s.
Proof. intros H. unfold inode_at. rewrite H. reflexivity. Qed.

Lemma map_at_eq p s m : linkmaps s !! p = Some m -> map_at p s = Ok m s.
Proof. intros H. unfold map_at. rewrite H. reflexivity. Qed.

Lemma fs_at_eq p s f : filesystems s !! p = Some f -> fs_at p s = Ok f s.
Proof. intros H. unfold fs_at. rewrite H. reflexivity. Qed.

Lemma isReadonly_eq this s fs :
  filesystems s !! this = Some fs -> isReadonly this s = Ok (FS.frozen fs) s.
Proof. intros H. unfold isReadonly. rewrite (bind_eq_Ok _ (fs_at_eq _ _ _ H)). reflexivity. Qed.

Lemma lazy_of_eq ni nm {A} (m : M A) s a s1 :
  m s = Ok a s1 -> lazy_upto ni nm s (final_state (m s)) -> lazy_upto ni nm s s1.
Proof. intros ->. auto. Qed.

Section RenameChecks.
Variables (fuel : nat) (this : fsref) (oldpath newpath old new : Path).
Variables (s s1 s2 s3 : State) (entry newEntry : FileDescription.t).
Variables (np n e : Inode.t) (links : mapref) (m : list (string * nat)) (fs : FS.t).
Variable existing : nat.
Hypothesis Hold : _resolve this oldpath s = Ok old s.
Hypothesis Hnew : _resolve this newpath s = Ok new s.
Hypothesis Hentry : _lfind this old s = Ok (Some entry) s1.
Hypothesis HnewEntry : _find this (dirname new) s1 = Ok (Some newEntry) s2.
Hypothesis Hnp : inodes s2 !! FileDescription.node newEntry = Some np.
Hypothesis Hdir : isDirectoryInode np = true.
Hypothesis Hlinks : _getLinks this (Some (FileDescription.node newEntry)) s2 = Ok links s3.
Hypothesis Hm : linkmaps s3 !! links = Some m.
Hypothesis Hfs : filesystems s3 !! this = Some fs.
Hypothesis Hexisting : sm_get (FS.ignoreCase fs) (basename new) m = Some existing.
Hypothesis Hn : inodes s3 !! FileDescription.node entry = Some n.
Hypothesis He : inodes s3 !! existing = Some e.

Lemma rename_lookups_lazy : lazy_ext s s3.
Proof.
  pose proof (bounded_self s) as Hb. unfold lazy_ext.
  set (ni := length (inodes s)) in *. set (nm := length (linkmaps s)) in *.
  assert (H1 : lazy_upto ni nm s s1).
  { eapply lazy_of_eq; [exact Hentry|]. apply lazy_walk; exact Hb. }
  assert (Hb1 : bounded ni nm s1) by (eapply lazy_upto_bounded; eauto).
  assert (H2 : lazy_upto ni nm s1 s2).
  { eapply lazy_of_eq; [exact HnewEntry|]. apply lazy_walk; exact Hb1. }
  assert (Hb2 : bounded ni nm s2) by (eapply lazy_upto_bounded; eauto).
  assert (H3 : lazy_upto ni nm s2 s3).
  { eapply lazy_of_eq; [exact Hlinks|]. apply lazy_getLinks; exact Hb2. }
  eapply lazy_upto_trans; [exact H1|]. eapply lazy_upto_trans; eauto.
Qed.

(** [renameSync] up to the tests on the existing node. *)
Lemma rename_prefix :
  renameSync fuel this oldpath newpath s =
  ((if isDirectoryInode n then
      if negb (isDirectoryInode e) then throw (IOError ENOTDIR)
      else
        let* el := _getLinks this (Some existing) in
        let* em := map_at el in
        if (0 <? sm_size em)%Z then throw (IOError ENOTEMPTY) else ret tt
    else
      if isDirectoryInode e then throw (IOError EISDIR) else ret tt) ;;
   let* ro := isReadonly this in
   if ro then throw (IOError EROFS)
   else
     let* time := time this in
     (_removeLink this (Some (FileDescription.node newEntry)) links (basename new) existing ;;
      _invalidatePaths 1 this existing ;;
      update_inode existing (Inode.with_ctimeMs time)) ;;
     let* oldParentLinks := _getLinks this (Some (FileDescription.parent entry)) in
     _replaceLink this (FileDescription.parent entry) oldParentLinks
       (FileDescription.basename entry)
       (FileDescription.node newEntry) links (basename new) (FileDescription.node entry) ;;
     update_inode (FileDescription.parent entry) (Inode.with_mtimeMs time) ;;
     update_inode (FileDescription.node newEntry) (Inode.with_mtimeMs time) ;;
     _invalidatePaths fuel this (FileDescription.node entry)) s3.
Proof.
  unfold renameSync.
  rewrite (bind_eq_Ok _ Hold), (bind_eq_Ok _ Hnew).
  rewrite (bind_eq_Ok _ (or_throw_Some _ ENOENT _ _ _ Hentry)).
  rewrite (bind_eq_Ok _ (or_throw_Some _ ENOENT _ _ _ HnewEntry)).
  rewrite (bind_eq_Ok _ (inode_at_eq _ _ _ Hnp)).
  rewrite Hdir. cbn [negb].
  rewrite (bind_eq_Ok _ Hlinks).
  rewrite (bind_eq_Ok _ (map_at_eq _ _ _ Hm)).
  rewrite (bind_eq_Ok _ (fs_at_eq _ _ _ Hfs)).
  rewrite Hexisting.
  unfold bind at 1. unfold bind at 1. rewrite (inode_at_eq _ _ _ Hn).
  unfold bind at 1. rewrite (inode_at_eq _ _ _ He).
  reflexivity.
Qed.

End RenameChecks.

Lemma same_shape_refl i : same_shape i i.
Proof. split; reflexivity. Qed.

Lemma stringComparer_refl ic k : stringComparer ic k k = Eq.
Proof.
  unfold stringComparer. pose proof (String.compare_antisym (canon ic k) (canon ic k)) as H.
  destruct (String.compare (canon ic k) (canon ic k)); simpl in H; congruence.
Qed.

Lemma sm_get_set_eq ic {V} k (v : V) m : sm_get ic k (sm_set ic k v m) = Some v.
Proof.
  induction m as [|[k' v'] m IH]; simpl.
  - rewrite stringComparer_refl. reflexivity.
  - destruct (stringComparer ic k k') eqn:E; simpl.
    + rewrite E. reflexivity.
    + rewrite stringComparer_refl. reflexivity.
    + rewrite E. exact IH.
Qed.

Lemma removeLink_run this fs parent links name node i s :
  filesystems s !! this = Some fs -> inodes s !! node = Some i ->
  exists i',
    _removeLink this parent links name node s
    = Ok tt (with_inodes (<[node := i']> (inodes s))
               (with_linkmaps (alter (sm_delete (FS.ignoreCase fs) name) links (linkmaps s)) s))
    /\ same_shape i i' /\ Inode.nlink i' = (Inode.nlink i - 1)%Z.
Proof.
  intros Hfs Hn. unfold _removeLink, bind, fs_at, update_map, update_inode, modify, inode_at.
  rewrite Hfs. simpl. rewrite list_lookup_alter_eq, Hn. simpl.
  destruct (jm_get optptr_eqb parent (Inode.incomingLinks i)) as [set|].
  - destruct (ss_size _ =? 0)%Z; simpl; eexists; (split; [|split]).
    all: try (unfold with_inodes, with_linkmaps; simpl; do 2 f_equal;
              rewrite list_alter_alter_eq; apply (alter_at _ _ _ _ Hn)).
    all: try (split; reflexivity). all: reflexivity.
  - eexists; split; [|split].
    + unfold with_inodes, with_linkmaps; simpl; do 2 f_equal. apply (alter_at _ _ _ _ Hn).
    + split; reflexivity.
    + reflexivity.
Qed.

Lemma bind_assoc {A B C} (m : M A) (f : A -> M B) (k : B -> M C) s :
  bind (bind m f) k s = bind m (fun a => bind (f a) k) s.
Proof. unfold bind. destruct (m s); reflexivity. Qed.

Lemma update_inode_run p f s :
  update_inode p f s = Ok tt (with_inodes (alter f p (inodes s)) s).
Proof. reflexivity. Qed.

Lemma update_map_run p f s :
  update_map p f s = Ok tt (with_linkmaps (alter f p (linkmaps s)) s).
Proof. reflexivity. Qed.

(** [_invalidatePaths] of a node that is not a directory, or is a directory
    without entries. *)
Lemma invalidatePaths_leaf fuel this node i s :
  inodes s !! node = Some i ->
  (isDirectoryInode i = false
   \/ exists el, Inode.links i = Some el /\ linkmaps s !! el = Some []) ->
  _invalidatePaths (S fuel) this node s
  = Ok tt (with_inodes (<[node := Inode.with_paths None i]> (inodes s)) s).
Proof.
  intros Hi Hleaf. simpl.
  rewrite (bind_eq_Ok _ (update_inode_run _ _ _)).
  assert (Hi' : inodes (with_inodes (alter (Inode.with_paths None) node (inodes s)) s) !! node
                = Some (Inode.with_paths None i)).
  { simpl. rewrite list_lookup_alter_eq, Hi. reflexivity. }
  rewrite (bind_eq_Ok _ (inode_at_eq _ _ _ Hi')).
  rewrite (alter_at _ _ _ _ Hi).
  change (isDirectoryInode (Inode.with_paths None i)) with (isDirectoryInode i).
  destruct Hleaf as [Hd|(el & Hel & Hm)].
  - rewrite Hd. reflexivity.
  - destruct (isDirectoryInode i); [|reflexivity].
    rewrite (alter_at _ _ _ _ Hi) in Hi'.
    rewrite (bind_eq_Ok _ (getLinks_ready this node _ el _ Hi' Hel)).
    assert (Hm' : linkmaps (with_inodes (<[node := Inode.with_paths None i]> (inodes s)) s) !! el
                  = Some []) by exact Hm.
    rewrite (bind_eq_Ok _ (map_at_eq _ _ _ Hm')). reflexivity.
Qed.

Lemma same_shape_trans i j k : same_shape i j -> same_shape j k -> same_shape i k.
Proof. intros [a b] [c d]. split; congruence. Qed.

Lemma replaceLink_run this fs oldParent oldLinks oldName newParent newLinks newName node i s :
  filesystems s !! this = Some fs -> inodes s !! node = Some i ->
  exists i',
    _replaceLink this oldParent oldLinks oldName newParent newLinks newName node s
    = Ok tt (with_inodes (<[node := i']> (inodes s))
               (with_linkmaps
                  (alter (sm_set (FS.ignoreCase fs) newName node)
                     (if Nat.eqb oldParent newParent then oldLinks else newLinks)
                     (alter (sm_delete (FS.ignoreCase fs) oldName) oldLinks (linkmaps s))) s))
    /\ same_shape i i'.
Proof.
  intros Hfs Hn. unfold _replaceLink. destruct (Nat.eqb oldParent newParent); simpl.
  - unfold bind, fs_at, update_map, update_inode, modify, inode_at.
    rewrite Hfs. simpl. rewrite Hn.
    destruct (jm_get optptr_eqb (Some oldParent) (Inode.incomingLinks i)) as [set|]; simpl.
    + eexists. split.
      { unfold with_inodes, with_linkmaps; simpl. do 2 f_equal. apply (alter_at _ _ _ _ Hn). }
      split; reflexivity.
    + exists i. split; [|apply same_shape_refl].
      unfold with_inodes, with_linkmaps; simpl. do 2 f_equal.
      symmetry. apply list_insert_id. exact Hn.
  - destruct (removeLink_run this fs (Some oldParent) oldLinks oldName node i s Hfs Hn)
      as (i1 & Hr & Hs1 & _).
    rewrite (bind_eq_Ok _ Hr).
    match goal with |- context [_addLink _ _ _ _ _ ?st] => set (s1 := st) end.
    assert (Hn1 : inodes s1 !! node = Some i1).
    { subst s1. simpl. apply list_lookup_insert_eq. eapply lookup_lt_Some; eauto. }
    assert (Hfs1 : filesystems s1 !! this = Some fs) by exact Hfs.
    rewrite (addLink_spec this fs (Some newParent) newLinks newName node i1 s1 Hfs1 Hn1).
    eexists. split.
    + subst s1. unfold with_inodes, with_linkmaps; simpl.
      rewrite list_insert_insert_eq. reflexivity.
    + eapply same_shape_trans; [exact Hs1|]. split; reflexivity.
Qed.

Lemma lookup_alter_keeps {A} (P : A -> Prop) (f : A -> A) (l : list A) p q :
  (forall x, P x -> P (f x)) ->
  (exists x, l !! q = Some x /\ P x) -> exists x, alter f p l !! q = Some x /\ P x.
Proof.
  intros Hf (x & Hx & HP). destruct (decide (p = q)) as [->|Hne].
  - rewrite list_lookup_alter_eq, Hx. eauto.
  - rewrite list_lookup_alter_ne by auto. eauto.
Qed.

Lemma lookup_insert_keeps {A} (P : A -> Prop) (l : list A) p q y :
  p <> q -> (exists x, l !! q = Some x /\ P x) -> exists x, <[p := y]> l !! q = Some x /\ P x.
Proof. intros Hne H. rewrite list_lookup_insert_ne by auto. exact H. Qed.

Lemma lookup_insert_shape (l : list Inode.t) p q i i' (P : Inode.t -> Prop) :
  l !! p = Some i -> (p = q -> P i') ->
  (exists x, l !! q = Some x /\ P x) -> exists x, <[p := i']> l !! q = Some x /\ P x.
Proof.
  intros Hp Hq H. destruct (decide (p = q)) as [->|Hne].
  - rewrite list_lookup_insert_eq by (eapply lookup_lt_Some; eauto). eauto.
  - rewrite list_lookup_insert_ne by auto. exact H.
Qed.

Lemma rename_commit fuel this fs oldParent newParent node existing links oldLinks
    oldName newName sx ex nx opx npx mx :
  filesystems sx !! this = Some fs ->
  linkmaps sx !! links = Some mx ->
  inodes sx !! existing = Some ex -> inodes sx !! node = Some nx ->
  inodes sx !! oldParent = Some opx -> Inode.links opx = Some oldLinks ->
  inodes sx !! newParent = Some npx -> Inode.links npx = Some links ->
  (isDirectoryInode ex = false
   \/ exists el, Inode.links ex = Some el /\ el <> links /\ linkmaps sx !! el = Some []) ->
  exists s5 m5 n5,
    (let* time := time this in
     (_removeLink this (Some newParent) links newName existing ;;
      _invalidatePaths 1 this existing ;;
      update_inode existing (Inode.with_ctimeMs time)) ;;
     let* oldParentLinks := _getLinks this (Some oldParent) in
     _replaceLink this oldParent oldParentLinks oldName newParent links newName node ;;
     update_inode oldParent (Inode.with_mtimeMs time) ;;
     update_inode newParent (Inode.with_mtimeMs time) ;;
     _invalidatePaths fuel this node) sx
    = _invalidatePaths fuel this node s5
    /\ linkmaps s5 !! links = Some m5 /\ sm_get (FS.ignoreCase fs) newName m5 = Some node
    /\ inodes s5 !! node = Some n5 /\ Inode.mode n5 = Inode.mode nx
    /\ length (inodes s5) = length (inodes sx)
    /\ length (linkmaps s5) = length (linkmaps sx)
    /\ filesystems s5 = filesystems sx
    /\ (existing <> node ->
        exists e5, inodes s5 !! existing = Some e5
                   /\ Inode.nlink e5 = (Inode.nlink ex - 1)%Z).
Proof.
  intros Hfs Hmx Hex Hnx Hopx Hol Hnpx Hnl Hleaf.
  rewrite (bind_eq_Ok _ (time_spec this fs sx Hfs)).
  set (t := FS._time fs (ticks sx)). set (s1 := with_ticks (S (ticks sx)) sx).
  rewrite bind_assoc.
  destruct (removeLink_run this fs (Some newParent) links newName existing ex s1 Hfs Hex)
    as (e1 & Hr & [He1m He1l] & He1n).
  match type of Hr with _ = Ok tt ?st => set (s2 := st) in * end.
  rewrite (bind_eq_Ok _ Hr). rewrite bind_assoc.
  assert (Hlen : existing < length (inodes sx)) by (eapply lookup_lt_Some; eauto).
  assert (He2 : inodes s2 !! existing = Some e1).
  { subst s2. simpl. apply list_lookup_insert_eq. exact Hlen. }
  assert (Hleaf2 : isDirectoryInode e1 = false
                   \/ exists el, Inode.links e1 = Some el /\ linkmaps s2 !! el = Some []).
  { destruct Hleaf as [Hd|(el & Hel & Hne & Hem)].
    - left. unfold isDirectoryInode in *. rewrite He1m. exact Hd.
    - right. exists el. split; [congruence|]. subst s2. simpl.
      rewrite list_lookup_alter_ne by auto. exact Hem. }
  rewrite (bind_eq_Ok _ (invalidatePaths_leaf 0 this existing e1 s2 He2 Hleaf2)).
  rewrite (bind_eq_Ok _ (update_inode_run _ _ _)).
  match goal with
  | |- context [bind (_getLinks this (Some oldParent)) _ ?st] => set (s4 := st)
  end.
  assert (Hs4 : s4 = with_inodes
                      (<[existing := Inode.with_ctimeMs t (Inode.with_paths None e1)]>
                         (inodes sx))
                      (with_linkmaps
                         (alter (sm_delete (FS.ignoreCase fs) newName) links (linkmaps sx))
                         s1)).
  { subst s4 s2. unfold with_inodes, with_linkmaps. simpl. f_equal.
    rewrite list_insert_insert_eq.
    rewrite (alter_at (Inode.with_ctimeMs t) (<[existing:=Inode.with_paths None e1]> (inodes sx))
               existing (Inode.with_paths None e1)).
    - apply list_insert_insert_eq.
    - apply list_lookup_insert_eq. exact Hlen. }
  clearbody s4. clear He2 Hleaf2 Hr. clearbody s2. clear s2.
  set (e4 := Inode.with_ctimeMs t (Inode.with_paths None e1)) in *.
  assert (Hkeep : forall p i (P : Inode.t -> Prop),
             inodes sx !! p = Some i -> (p = existing -> P e4) -> P i ->
             exists x, inodes s4 !! p = Some x /\ P x).
  { intros p i P Hp He HP. rewrite Hs4. simpl.
    apply (lookup_insert_shape (inodes sx) existing p ex e4 P Hex); [auto|eauto]. }
  assert (Hfs4 : filesystems s4 !! this = Some fs) by (rewrite Hs4; exact Hfs).
  destruct (Hkeep oldParent opx (fun x => Inode.links x = Some oldLinks) Hopx) as (op4 & Hop4 & Hol4).
  { intros ->. simpl. rewrite He1l. congruence. }
  { exact Hol. }
  rewrite (bind_eq_Ok _ (getLinks_ready this oldParent op4 oldLinks s4 Hop4 Hol4)).
  destruct (Hkeep node nx (fun x => Inode.mode x = Inode.mode nx) Hnx) as (n4 & Hn4 & Hn4m).
  { intros ->. simpl. rewrite He1m. congruence. }
  { reflexivity. }
  destruct (replaceLink_run this fs oldParent oldLinks oldName newParent links newName node n4 s4
              Hfs4 Hn4) as (n5 & Hrep & [Hn5m _]).
  rewrite (bind_eq_Ok _ Hrep).
  rewrite (bind_eq_Ok _ (update_inode_run _ _ _)).
  rewrite (bind_eq_Ok _ (update_inode_run _ _ _)).
  assert (HL : (if Nat.eqb oldParent newParent then oldLinks else links) = links).
  { destruct (Nat.eqb_spec oldParent newParent) as [->|]; congruence. }
  rewrite HL in *. clear HL.
  assert (Hlk : exists y, alter (sm_delete (FS.ignoreCase fs) oldName) oldLinks (linkmaps s4) !! links
                          = Some y).
  { destruct (lookup_alter_keeps (fun _ => True) (sm_delete (FS.ignoreCase fs) oldName)
                (linkmaps s4) oldLinks links) as (y & Hy & _); [auto| |eauto].
    rewrite Hs4. simpl.
    destruct (lookup_alter_keeps (fun _ => True) (sm_delete (FS.ignoreCase fs) newName)
                (linkmaps sx) links links) as (y & Hy & _); eauto. }
  destruct Hlk as (y & Hy).
  assert (Hnode : exists x, alter (Inode.with_mtimeMs t) newParent
                    (alter (Inode.with_mtimeMs t) oldParent (<[node:=n5]> (inodes s4))) !! node
                  = Some x /\ Inode.mode x = Inode.mode nx).
  { apply lookup_alter_keeps; [auto|]. apply lookup_alter_keeps; [auto|].
    exists n5. split; [|congruence].
    apply list_lookup_insert_eq. eapply lookup_lt_Some; eauto. }
  destruct Hnode as (x & Hx & Hxm).
  eexists _, (sm_set (FS.ignoreCase fs) newName node y), x.
  split; [reflexivity|]. simpl.
  split; [rewrite list_lookup_alter_eq, Hy; reflexivity|].
  split; [apply sm_get_set_eq|].
  split; [exact Hx|]. split; [exact Hxm|].
  split; [rewrite !length_alter, length_insert, Hs4; simpl; apply length_insert|].
  split; [rewrite !length_alter, Hs4; simpl; apply length_alter|].
  split; [rewrite Hs4; reflexivity|].
  intros Hne.
  apply lookup_alter_keeps; [auto|]. apply lookup_alter_keeps; [auto|].
  apply lookup_insert_keeps; [auto|].
  exists e4. split; [|exact He1n].
  rewrite Hs4. simpl. apply list_lookup_insert_eq. exact Hlen.
Qed.


Lemma lazy_ext_inode s s' p i :
  lazy_ext s s' -> inodes s !! p = Some i ->
  exists i', inodes s' !! p = Some i' /\ lazy_inode i i'.
Proof. intros H Hi. apply (lz_inodes _ _ _ _ H); [eapply lookup_lt_Some; eauto|exact Hi]. Qed.

Lemma lazy_ext_map s s' m L :
  lazy_ext s s' -> linkmaps s !! m = Some L -> linkmaps s' !! m = Some L.
Proof. intros H Hm. apply (lz_maps _ _ _ _ H); [eapply lookup_lt_Some; eauto|exact Hm]. Qed.

Lemma lazy_ext_fs s s' f fs :
  lazy_ext s s' -> filesystems s !! f = Some fs ->
  exists fs', filesystems s' !! f = Some fs' /\ lazy_fs fs fs'.
Proof. intros H. apply (lz_fs _ _ _ _ H). Qed.

Lemma lazy_ext_trans s1 s2 s3 : lazy_ext s1 s2 -> lazy_ext s2 s3 -> lazy_ext s1 s3.
Proof.
  unfold lazy_ext. intros H1 H2. eapply lazy_upto_trans; [exact H1|].
  eapply lazy_upto_weaken; [| |exact H2].
  - apply (lz_inodes_len _ _ _ _ H1).
  - apply (lz_maps_len _ _ _ _ H1).
Qed.

Lemma lazy_ext_run {A} (m : M A) s a s1 :
  m s = Ok a s1 ->
  (forall ni nm, bounded ni nm s -> lazy_upto ni nm s (final_state (m s))) ->
  lazy_ext s s1.
Proof. intros E H. specialize (H _ _ (bounded_self s)). rewrite E in H. exact H. Qed.

Lemma moved_onto_intro fuel this fs links name node existing n e nx ex s5 m5 n5 :
  linkmaps s5 !! links = Some m5 -> sm_get (FS.ignoreCase fs) name m5 = Some node ->
  inodes s5 !! node = Some n5 -> Inode.mode n5 = Inode.mode nx -> Inode.mode nx = Inode.mode n ->
  Inode.nlink ex = Inode.nlink e ->
  (existing <> node ->
   exists e5, inodes s5 !! existing = Some e5 /\ Inode.nlink e5 = (Inode.nlink ex - 1)%Z) ->
  moved_onto (FS.ignoreCase fs) fuel links name node existing n e
    (_invalidatePaths fuel this node s5).
Proof.
  intros Hm5 Hget Hn5 Hmode Hmode' Hnl Hex.
  assert (Hlz : lazy_ext s5 (final_state (_invalidatePaths fuel this node s5))).
  { apply lazy_invalidatePaths. apply bounded_self. }
  split; [|split].
  - exists m5. split; [|exact Hget]. eapply lazy_ext_map; eauto.
  - intros Hne. destruct (Hex Hne) as (e5 & He5 & Hn).
    destruct (lazy_ext_inode _ _ _ _ Hlz He5) as (e' & He' & Hl).
    exists e'. split; [exact He'|].
    destruct Hl as (_&_&_&_&_&_&_&->&_). congruence.
  - intros Hd Hf. destruct fuel as [|fuel]; [lia|].
    rewrite (invalidatePaths_leaf fuel this node n5 s5 Hn5); [reflexivity|].
    left. unfold isDirectoryInode in *. rewrite Hmode, Hmode'. exact Hd.
Qed.

Lemma sm_get_nil_map ic (m : list (string * nat)) k v : sm_get ic k m = Some v -> m <> [].
Proof. destruct m; [discriminate|discriminate]. Qed.

Lemma bind_ret {A B} (a : A) (k : A -> M B) s : bind (ret a) k s = k a s.
Proof. reflexivity. Qed.

(** X1.  [renameSync] onto an existing name, in terms of the lookups the
    code makes: a directory onto a node that is not one fails with [ENOTDIR],
    a node that is not a directory onto a directory with [EISDIR], a
    directory onto a directory with entries with [ENOTEMPTY]; otherwise the
    call fails with [EROFS] on a frozen file system and else moves the node.
    Until then only lazily built state has changed. *)
Theorem rename_onto_existing
    (fuel : nat) (this : fsref) (oldpath newpath old new : Path)
    (s s1 s2 s3 : State) (entry newEntry : FileDescription.t)
    (np n e op : Inode.t) (links oldLinks : mapref) (m : list (string * nat)) (fs : FS.t)
    (existing : nat) :
  _resolve this oldpath s = Ok old s ->
  _resolve this newpath s = Ok new s ->
  _lfind this old s = Ok (Some entry) s1 ->
  _find this (dirname new) s1 = Ok (Some newEntry) s2 ->
  inodes s2 !! FileDescription.node newEntry = Some np ->
  isDirectoryInode np = true ->
  _getLinks this (Some (FileDescription.node newEntry)) s2 = Ok links s3 ->
  linkmaps s3 !! links = Some m ->
  filesystems s3 !! this = Some fs ->
  sm_get (FS.ignoreCase fs) (basename new) m = Some existing ->
  inodes s3 !! FileDescription.node entry = Some n ->
  inodes s3 !! existing = Some e ->
  inodes s3 !! FileDescription.parent entry = Some op ->
  Inode.links op = Some oldLinks ->
  let r := renameSync fuel this oldpath newpath s in
  let moved := moved_onto (FS.ignoreCase fs) fuel links (basename new)
                 (FileDescription.node entry) existing n e r in
  lazy_ext s s3
  /\ (isDirectoryInode n = true -> isDirectoryInode e = false ->
      r = Throw (IOError ENOTDIR) s3)
  /\ (isDirectoryInode n = false -> isDirectoryInode e = true ->
      r = Throw (IOError EISDIR) s3)
  /\ (isDirectoryInode n = false -> isDirectoryInode e = false ->
      (FS.frozen fs = true -> r = Throw (IOError EROFS) s3)
      /\ (FS.frozen fs = false -> moved))
  /\ (isDirectoryInode n = true -> isDirectoryInode e = true ->
      forall el s4 em,
        _getLinks this (Some existing) s3 = Ok el s4 ->
        linkmaps s4 !! el = Some em ->
        lazy_ext s s4
        /\ (em <> [] -> r = Throw (IOError ENOTEMPTY) s4)
        /\ (em = [] -> FS.frozen fs = true -> r = Throw (IOError EROFS) s4)
        /\ (em = [] -> FS.frozen fs = false -> moved)).
Proof.
  intros Hold Hnew Hentry HnewEntry Hnp Hdir Hlinks Hm Hfs Hexisting Hn He Hop Hol r moved.
  assert (Hlz3 : lazy_ext s s3).
  { exact (rename_lookups_lazy this old new s s1 s2 s3 entry newEntry links
             Hentry HnewEntry Hlinks). }
  assert (Hr : r = _) by
    (exact (rename_prefix fuel this oldpath newpath old new s s1 s2 s3 entry newEntry
              np n e links m fs existing Hold Hnew Hentry HnewEntry Hnp Hdir Hlinks Hm Hfs
              Hexisting Hn He)).
  destruct (getLinks_rec_spec _ _ _ _ _ _ Hlinks) as (np3 & Hnp3 & Hnl3).
  split; [exact Hlz3|].
  split; [|split; [|split]].
  - intros Hnd Hed. rewrite Hr, Hnd, Hed. reflexivity.
  - intros Hnd Hed. rewrite Hr, Hnd, Hed. reflexivity.
  - intros Hnd Hed. rewrite Hnd, Hed in Hr. cbv beta iota in Hr.
    rewrite bind_ret in Hr.
    rewrite (bind_eq_Ok _ (isReadonly_eq this s3 fs Hfs)) in Hr.
    split; intros Hfr; rewrite Hfr in Hr; [exact Hr|].
    destruct (rename_commit fuel this fs (FileDescription.parent entry)
                (FileDescription.node newEntry) (FileDescription.node entry) existing
                links oldLinks (FileDescription.basename entry) (basename new)
                s3 e n op np3 m Hfs Hm He Hn Hop Hol Hnp3 Hnl3)
      as (s5 & m5 & n5 & Heq & Hm5 & Hget & Hn5 & Hmode & _ & _ & _ & Hex).
    { left. exact Hed. }
    subst moved. rewrite Hr, Heq.
    eapply (moved_onto_intro fuel this fs links (basename new) _ existing n e n e);
      try eassumption; reflexivity.
  - intros Hnd Hed el s4 em Hel Hem. rewrite Hnd, Hed in Hr. cbn [negb] in Hr.
    cbv beta iota in Hr.
    rewrite bind_assoc in Hr. rewrite (bind_eq_Ok _ Hel) in Hr.
    rewrite bind_assoc in Hr. rewrite (bind_eq_Ok _ (map_at_eq _ _ _ Hem)) in Hr.
    assert (Hlz34 : lazy_ext s3 s4).
    { eapply lazy_ext_run; [exact Hel|]. intros; apply lazy_getLinks; assumption. }
    split; [eapply lazy_ext_trans; eauto|].
    destruct (lazy_ext_fs _ _ _ _ Hlz34 Hfs) as (fs4 & Hfs4 & Hic & Hfrz & _).
    split; [|split].
    + intros Hne. rewrite Hr.
      replace (0 <? sm_size em)%Z with true; [reflexivity|].
      symmetry. apply Z.ltb_lt. unfold sm_size. destruct em; [congruence|simpl; lia].
    + intros -> Hfr. rewrite Hr. change (0 <? sm_size [])%Z with false. cbv beta iota.
      rewrite bind_ret.
      rewrite (bind_eq_Ok _ (isReadonly_eq this s4 fs4 Hfs4)). rewrite Hfrz, Hfr. reflexivity.
    + intros -> Hfr. subst moved. rewrite Hr.
      change (0 <? sm_size [])%Z with false. cbv beta iota.
      rewrite bind_ret.
      rewrite (bind_eq_Ok _ (isReadonly_eq this s4 fs4 Hfs4)). rewrite Hfrz, Hfr.
      destruct (getLinks_rec_spec _ _ _ _ _ _ Hel) as (e4 & He4 & Hel4).
      destruct (lazy_ext_inode _ _ _ _ Hlz34 He) as (e4' & He4' & Hle).
      assert (e4' = e4) by congruence. subst e4'.
      destruct (lazy_ext_inode _ _ _ _ Hlz34 Hn) as (n4 & Hn4 & Hln).
      destruct (lazy_ext_inode _ _ _ _ Hlz34 Hop) as (op4 & Hop4 & Hlo).
      destruct (lazy_ext_inode _ _ _ _ Hlz34 Hnp3) as (np4 & Hnp4 & Hlnp).
      pose proof (lazy_ext_map _ _ _ _ Hlz34 Hm) as Hm4.
      destruct (rename_commit fuel this fs4 (FileDescription.parent entry)
                  (FileDescription.node newEntry) (FileDescription.node entry) existing
                  links oldLinks (FileDescription.basename entry) (basename new)
                  s4 e4 n4 op4 np4 m Hfs4 Hm4 He4 Hn4 Hop4)
        as (s5 & m5 & n5 & Heq & Hm5 & Hget & Hn5 & Hmode & _ & _ & _ & Hex).
      { destruct Hlo as (_&_&_&_&_&_&_&_&_&_&_&_&_&_&Hl&_). apply Hl. exact Hol. }
      { exact Hnp4. }
      { destruct Hlnp as (_&_&_&_&_&_&_&_&_&_&_&_&_&_&Hl&_). apply Hl. exact Hnl3. }
      { right. exists el. split; [exact Hel4|]. split; [|exact Hem].
        intros ->. rewrite Hm4 in Hem. injection Hem as ->. discriminate. }
      rewrite Heq. rewrite <- Hic.
      eapply (moved_onto_intro fuel this fs4 links (basename new) _ existing n e n4 e4);
        try eassumption.
      * destruct Hln as (_&_&Hx&_). exact Hx.
      * destruct Hle as (_&_&_&_&_&_&_&Hx&_). exact Hx.
Qed.

Lemma rename_onto_existing_witness :
  renameSync 1 0 ["/"; "d"]%string ["/"; "n"]%string rename_state
  = Throw (IOError ENOTEMPTY) rename_state.
Proof.
  edestruct (rename_onto_existing 1 0 ["/"; "d"]%string ["/"; "n"]%string
               ["/"; "d"]%string ["/"; "n"]%string
               rename_state rename_state rename_state rename_state)
    as (_ & _ & _ & _ & H).
  1-14: vm_compute; reflexivity.
  edestruct (H eq_refl eq_refl 2 rename_state) as (_ & H1 & _).
  1-2: vm_compute; reflexivity.
  apply H1. discriminate.
Defined.

(** ** Operations that only look *)

Lemma file_state this fd kind mode s : final_state (_file this fd kind mode s) = s.
Proof.
  unfold _file, bind, fs_at, inode_at, ret, throw.
  destruct (filesystems s !! this) as [fs|]; [|reflexivity].
  destruct (jm_get Z.eqb fd (FS._openFiles fs)) as [entry|]; [|reflexivity].
  destruct (inodes s !! OpenFile.node entry) as [node|]; [|reflexivity].
  destruct kind as [[|]|].
  all: repeat match goal with
         | |- context [if ?b then _ else _] => destruct b
         end; reflexivity.
Qed.






#[local] Arguments Nat.leb : simpl never.

(** ** Lookups repeat *)

Lemma walk_steps_cons this noFollow depth done basename rest' links parent :
  walk_steps this noFollow depth done (basename :: rest') links parent
  = (if (40 <=? depth)%nat then throw (IOError ELOOP)
     else
       let lastStep := match rest' with [] => true | _ => false end in
       let* fs := fs_at this in
       let* m := map_at links in
       match sm_get (FS.ignoreCase fs) basename m with
       | None => ret Missing
       | Some node =>
           let* n := inode_at node in
           if isSymlinkInode n && negb (noFollow && lastStep) then
             let dirname := done in
             match Inode.symlink n with
             | None => throw (JsError "symlink is undefined")
             | Some target =>
                 let symlink := resolve dirname target in
                 if negb (isAbsolute symlink) then throw (JsError "Path not absolute")
                 else ret (Restart (symlink ++ rest'))
             end
           else if lastStep then
             let path := done ++ [basename] in
             let parent := match parent with
                           | None => if isDirectoryInode n then Some node else None
                           | Some _ => parent
                           end in
             match parent with
             | None => throw (IOError ENOENT)
             | Some p =>
                 ret (Found {| FileDescription.path := path;
                               FileDescription.basename := basename;
                               FileDescription.parent := p;
                               FileDescription.node := node |})
             end
           else if isDirectoryInode n then
             let* links' := _getLinks this (Some node) in
             walk_steps this noFollow depth (done ++ [basename]) rest' links' (Some node)
           else throw (IOError ENOTDIR)
       end).
Proof. reflexivity. Qed.

Lemma lazy_inode_type i i' :
  lazy_inode i i' ->
  isSymlinkInode i' = isSymlinkInode i /\ isDirectoryInode i' = isDirectoryInode i
  /\ isFileInode i' = isFileInode i /\ Inode.symlink i' = Inode.symlink i.
Proof.
  intros (_&_&Hm&_&_&_&_&_&_&_&_&_&_&Hs&_).
  unfold isSymlinkInode, isDirectoryInode, isFileInode. rewrite Hm. auto.
Qed.

Lemma lazy_ext_refl s : lazy_ext s s.
Proof. apply lazy_upto_refl. Qed.

(** A run of the loop body that has returned repeats, with the same result
    and without any change, in every store that differs from the one it left
    only in lazily built state. *)
Lemma walk_steps_replay this noFollow depth :
  forall rest done links parent s r s1,
    walk_steps this noFollow depth done rest links parent s = Ok r s1 ->
    forall s', lazy_ext s1 s' ->
      walk_steps this noFollow depth done rest links parent s' = Ok r s'.
Proof.
  induction rest as [|basename rest' IH]; intros done links parent s r s1 Hrun s' Hs'.
  - simpl in *. injection Hrun as <- <-. reflexivity.
  - assert (Hlz : lazy_ext s s1).
    { eapply lazy_ext_run; [exact Hrun|]. intros; apply lazy_walk_steps; assumption. }
    assert (Hlz' : lazy_ext s s') by (eapply lazy_ext_trans; eauto).
    rewrite walk_steps_cons in Hrun |- *.
    destruct (40 <=? depth)%nat; [discriminate|]. cbv zeta in Hrun |- *.
    apply bind_Ok in Hrun as (fs & s0 & Hfs & Hrun). apply fs_at_Ok in Hfs as [-> Hfs].
    apply bind_Ok in Hrun as (m & s0 & Hm & Hrun). apply map_at_Ok in Hm as [-> Hm].
    destruct (lazy_ext_fs _ _ _ _ Hlz' Hfs) as (fs' & Hfs' & Hic & _).
    rewrite (bind_eq_Ok _ (fs_at_eq _ _ _ Hfs')).
    rewrite (bind_eq_Ok _ (map_at_eq _ _ _ (lazy_ext_map _ _ _ _ Hlz' Hm))).
    rewrite Hic.
    destruct (sm_get (FS.ignoreCase fs) basename m) as [node|].
    2: { injection Hrun as <- <-. reflexivity. }
    apply bind_Ok in Hrun as (n & s0 & Hn & Hrun). apply inode_at_Ok in Hn as [-> Hn].
    destruct (lazy_ext_inode _ _ _ _ Hlz' Hn) as (n' & Hn' & Hl).
    rewrite (bind_eq_Ok _ (inode_at_eq _ _ _ Hn')).
    destruct (lazy_inode_type _ _ Hl) as (-> & -> & _ & ->).
    destruct (isSymlinkInode n && negb (noFollow && match rest' with [] => true | _ => false end)).
    { destruct (Inode.symlink n) as [target|]; [|discriminate].
      destruct (negb (isAbsolute (resolve done target))); [discriminate|].
      injection Hrun as <- <-. reflexivity. }
    destruct rest' as [|b2 rest2].
    { destruct (match parent with
                | Some _ => parent
                | None => if isDirectoryInode n then Some node else None
                end); [|discriminate].
      injection Hrun as <- <-. reflexivity. }
    destruct (isDirectoryInode n); [|discriminate].
    apply bind_Ok in Hrun as (links' & sa & Hgl & Hrun).
    assert (Hsa1 : lazy_ext sa s1).
    { eapply lazy_ext_run; [exact Hrun|]. intros; apply lazy_walk_steps; assumption. }
    destruct (getLinks_rec_spec _ _ _ _ _ _ Hgl) as (ia & Hia & Hla).
    destruct (lazy_ext_inode _ _ _ _ (lazy_ext_trans _ _ _ Hsa1 Hs') Hia) as (ia' & Hia' & Hlia).
    assert (Hla' : Inode.links ia' = Some links').
    { destruct Hlia as (_&_&_&_&_&_&_&_&_&_&_&_&_&_&Hx&_). apply Hx. exact Hla. }
    rewrite (bind_eq_Ok _ (getLinks_ready this node ia' links' s' Hia' Hla')).
    eapply IH; eauto.
Qed.

Lemma walk_pass_replay this noFollow depth cs s r s1 :
  walk_pass this noFollow depth cs s = Ok r s1 ->
  forall s', lazy_ext s1 s' -> walk_pass this noFollow depth cs s' = Ok r s'.
Proof.
  intros Hrun s' Hs'. unfold walk_pass in *.
  apply bind_Ok in Hrun as (rl & sa & Hrl & Hrun).
  assert (Hsa1 : lazy_ext sa s1).
  { eapply lazy_ext_run; [exact Hrun|]. intros; apply lazy_walk_steps; assumption. }
  destruct (getRootLinks_rec_spec _ _ _ _ _ Hrl) as (fa & Hfa & Hlla).
  destruct (lazy_ext_fs _ _ _ _ (lazy_ext_trans _ _ _ Hsa1 Hs') Hfa) as (fa' & Hfa' & Hlf).
  assert (Hll : FS.lazy_links fa' = Some rl).
  { destruct Hlf as (_&_&_&_&_&_&_&Hx). apply Hx. exact Hlla. }
  rewrite (bind_eq_Ok _ (getRootLinks_ready this fa' rl s' Hfa' Hll)).
  eapply walk_steps_replay; eauto.
Qed.

Lemma walk_loop_replay this noFollow budget :
  forall depth cs s r s1,
    walk_loop budget this noFollow depth cs s = Ok r s1 ->
    forall s', lazy_ext s1 s' -> walk_loop budget this noFollow depth cs s' = Ok r s'.
Proof.
  induction budget as [|budget IH]; intros depth cs s r s1 Hrun s' Hs';
    rewrite walk_loop_unfold in Hrun |- *;
    destruct (walk_pass this noFollow depth cs s) as [[e| |cs'] sa|e sa] eqn:Hp;
    try discriminate.
  1-4: injection Hrun as <- <-;
    rewrite (walk_pass_replay this noFollow depth cs s _ _ Hp s' Hs'); reflexivity.
  assert (Hsa1 : lazy_ext sa s1).
  { eapply lazy_ext_run; [exact Hrun|]. intros; apply lazy_walk_loop; assumption. }
  rewrite (walk_pass_replay this noFollow depth cs s _ _ Hp s' (lazy_ext_trans _ _ _ Hsa1 Hs')).
  eapply IH; eauto.
Qed.

Lemma walk_replay this path noFollow s r s1 :
  _walk this path noFollow s = Ok r s1 ->
  forall s', lazy_ext s1 s' -> _walk this path noFollow s' = Ok r s'.
Proof. apply walk_loop_replay. Qed.

(** X3.  A lookup that has returned, with an entry or with [undefined],
    repeats: in the store it left, and in every store that differs from that
    one only in lazily built state, [_walk] of the same path returns the same
    result and changes nothing. *)
Theorem walk_repeats (this : fsref) (path : Path) (noFollow : bool)
    (s s1 : State) (r : option FileDescription.t) :
  _walk this path noFollow s = Ok r s1 ->
  forall s', lazy_ext s1 s' -> _walk this path noFollow s' = Ok r s'.
Proof. apply walk_loop_replay. Qed.

Lemma resolve_lazy this path s p s' :
  _resolve this path s = Ok p s -> lazy_ext s s' -> _resolve this path s' = Ok p s'.
Proof.
  unfold _resolve. intros H Hl.
  apply bind_Ok in H as (fs & s0 & Hfs & H). apply fs_at_Ok in Hfs as [-> Hfs].
  destruct (lazy_ext_fs _ _ _ _ Hl Hfs) as (fs' & Hfs' & _ & _ & Hcwd & _).
  rewrite (bind_eq_Ok _ (fs_at_eq _ _ _ Hfs')). rewrite Hcwd.
  destruct (nonempty (FS._cwd fs)).
  - unfold bind, validate, ret in *. simpl in *. injection H as <-. reflexivity.
  - unfold validate in *. destruct (isAbsolute path); [|discriminate].
    injection H as <-. reflexivity.
Qed.

Lemma getSize_rec_again n :
  forall this node s z s1,
    getSize_rec n this node s = Ok z s1 -> getSize_rec n this node s1 = Ok z s1.
Proof.
  destruct n as [|n]; intros this node s z s1 H; [discriminate|].
  assert (Hlz : lazy_ext s s1).
  { eapply lazy_ext_run; [exact H|]. intros; apply lazy_getSize_rec; assumption. }
  simpl in H |- *.
  apply bind_Ok in H as (i & s0 & Hi & H). apply inode_at_Ok in Hi as [-> Hi].
  destruct (Inode.buffer i) as [b|] eqn:Hb.
  { apply bind_Ok in H as (bytes & s0 & Hbytes & H). injection H as <- <-.
    unfold buffer_at in Hbytes. destruct (buffers s !! b) eqn:E; [|discriminate].
    injection Hbytes as <- <-.
    rewrite (bind_eq_Ok _ (inode_at_eq _ _ _ Hi)), Hb.
    unfold bind, buffer_at. rewrite E. reflexivity. }
  destruct (Inode.size i) as [sz|] eqn:Hsz.
  { injection H as <- <-. rewrite (bind_eq_Ok _ (inode_at_eq _ _ _ Hi)), Hb, Hsz. reflexivity. }
  assert (Hcached : forall ia, inodes s1 !! node = Some ia -> Inode.buffer ia = None ->
                               Inode.size ia = Some z ->
                    forall k, (let* i0 := inode_at node in
                               match Inode.buffer i0 with
                               | Some b => let* bytes := buffer_at b in ret (byteLength bytes)
                               | None => match Inode.size i0 with
                                         | Some sz => ret sz
                                         | None => k i0
                                         end
                               end) s1 = Ok z s1).
  { intros ia Hsa Hba Hsza k.
    rewrite (bind_eq_Ok _ (inode_at_eq _ _ _ Hsa)). rewrite Hba, Hsza. reflexivity. }
  assert (Hshadow :
            (let* fs := fs_at this in
             match FS._shadowRoot fs, Inode.shadowRoot i with
             | Some p, Some r =>
                 if (p <? this)%nat then
                   let* sz := getSize_rec n p r in
                   update_inode node (Inode.with_size (Some sz)) ;;
                   ret sz
                 else throw stack_overflow
             | _, _ => ret 0%Z
             end) s = Ok z s1 ->
            (exists ia, inodes s1 !! node = Some ia /\ Inode.buffer ia = None
                        /\ Inode.size ia = Some z)
            \/ (s1 = s /\ z = 0%Z /\
                exists fs, filesystems s !! this = Some fs /\
                           match FS._shadowRoot fs, Inode.shadowRoot i with
                           | Some _, Some _ => False
                           | _, _ => True
                           end)).
  { intros H'. apply bind_Ok in H' as (fs & s0 & Hfs & H'). apply fs_at_Ok in Hfs as [-> Hfs].
    destruct (FS._shadowRoot fs) as [p|] eqn:Hp; [destruct (Inode.shadowRoot i) as [r|] eqn:Hr|].
    - destruct (p <? this)%nat; [|discriminate].
      apply bind_Ok in H' as (sz & sa & Hrec & H').
      assert (Hsa : lazy_ext s sa).
      { eapply lazy_ext_run; [exact Hrec|]. intros; apply lazy_getSize_rec; assumption. }
      destruct (lazy_ext_inode _ _ _ _ Hsa Hi) as (ia & Hia & Hlia).
      unfold bind, update_inode, modify, ret in H'. simpl in H'. injection H' as <- <-.
      left. exists (Inode.with_size (Some sz) ia). simpl.
      rewrite list_lookup_alter_eq, Hia. split; [reflexivity|]. split; [|reflexivity].
      simpl. destruct Hlia as (_&_&_&_&_&_&_&_&_&_&_&_&->&_). exact Hb.
    - injection H' as <- <-. right. split; [reflexivity|]. split; [reflexivity|].
      exists fs. split; [exact Hfs|]. rewrite Hp. exact I.
    - injection H' as <- <-. right. split; [reflexivity|]. split; [reflexivity|].
      exists fs. split; [exact Hfs|]. rewrite Hp. exact I. }
  destruct (Inode.source i) as [source|] eqn:Hsrc;
    [destruct (Inode.resolver i) as [resolver|] eqn:Hres|].
  - unfold bind, record_call, update_inode, modify, ret in H. simpl in H.
    injection H as <- <-. eapply Hcached.
    + simpl. rewrite list_lookup_alter_eq, Hi. reflexivity.
    + exact Hb.
    + reflexivity.
  - destruct (Hshadow H) as [(ia & Hia & Hba & Hsa)|(-> & -> & fs & Hfs & Hno)].
    + eapply Hcached; eauto.
    + rewrite (bind_eq_Ok _ (inode_at_eq _ _ _ Hi)), Hb, Hsz, Hsrc, Hres.
      rewrite (bind_eq_Ok _ (fs_at_eq _ _ _ Hfs)).
      destruct (FS._shadowRoot fs); [destruct (Inode.shadowRoot i)|]; [contradiction| |];
        reflexivity.
  - destruct (Hshadow H) as [(ia & Hia & Hba & Hsa)|(-> & -> & fs & Hfs & Hno)].
    + eapply Hcached; eauto.
    + rewrite (bind_eq_Ok _ (inode_at_eq _ _ _ Hi)), Hb, Hsz, Hsrc.
      rewrite (bind_eq_Ok _ (fs_at_eq _ _ _ Hfs)).
      destruct (FS._shadowRoot fs); [destruct (Inode.shadowRoot i)|]; [contradiction| |];
        reflexivity.
Qed.

Lemma stat_again this node s st s1 :
  _stat this node s = Ok st s1 -> _stat this node s1 = Ok st s1.
Proof.
  unfold _stat. intros H.
  apply bind_Ok in H as (n & s0 & Hn & H). apply inode_at_Ok in Hn as [-> Hn].
  apply bind_Ok in H as (size & sa & Hsize & H).
  apply bind_Ok in H as (n2 & s0 & Hn2 & H). apply inode_at_Ok in Hn2 as [-> Hn2].
  injection H as <- <-.
  assert (Hlz : lazy_ext s sa).
  { destruct (isFileInode n).
    - eapply lazy_ext_run; [exact Hsize|]. intros; apply lazy_getSize_rec; assumption.
    - destruct (isSymlinkInode n); injection Hsize as <- <-; apply lazy_ext_refl. }
  destruct (lazy_ext_inode _ _ _ _ Hlz Hn) as (n2' & Hn2' & Hl).
  assert (n2' = n2) by congruence. subst n2'.
  destruct (lazy_inode_type _ _ Hl) as (Hsym & _ & Hfile & Hlink).
  rewrite (bind_eq_Ok _ (inode_at_eq _ _ _ Hn2)). rewrite Hfile, Hsym, Hlink.
  destruct (isFileInode n).
  - rewrite (bind_eq_Ok _ (getSize_rec_again _ _ _ _ _ _ Hsize)).
    rewrite (bind_eq_Ok _ (inode_at_eq _ _ _ Hn2)). reflexivity.
  - destruct (isSymlinkInode n); injection Hsize as <- <-;
      rewrite bind_ret, (bind_eq_Ok _ (inode_at_eq _ _ _ Hn2)); reflexivity.
Qed.

Lemma or_throw_Ok {A} (m : M (option A)) code s a s1 :
  or_throw m code s = Ok a s1 -> m s = Ok (Some a) s1.
Proof.
  unfold or_throw, bind. destruct (m s) as [[x|] s0|e s0]; try discriminate.
  intros [= -> ->]. reflexivity.
Qed.

Lemma file_lazy this fd kind mode s e s' :
  _file this fd kind mode s = Ok e s -> lazy_ext s s' -> _file this fd kind mode s' = Ok e s'.
Proof.
  unfold _file. intros H Hl.
  apply bind_Ok in H as (fs & s0 & Hfs & H). apply fs_at_Ok in Hfs as [-> Hfs].
  destruct (lazy_ext_fs _ _ _ _ Hl Hfs) as (fs' & Hfs' & _ & _ & _ & _ & Hof & _).
  rewrite (bind_eq_Ok _ (fs_at_eq _ _ _ Hfs')). rewrite Hof.
  destruct (jm_get Z.eqb fd (FS._openFiles fs)) as [entry|]; [|discriminate].
  apply bind_Ok in H as (n & s0 & Hn & H). apply inode_at_Ok in Hn as [-> Hn].
  destruct (lazy_ext_inode _ _ _ _ Hl Hn) as (n' & Hn' & Hln).
  rewrite (bind_eq_Ok _ (inode_at_eq _ _ _ Hn')).
  destruct (lazy_inode_type _ _ Hln) as (_ & -> & -> & _).
  apply bind_Ok in H as ([] & s0 & Hk & H).
  assert (Hk' : forall st st',
             match kind with
             | Some KindFile =>
                 if isDirectoryInode n then throw (IOError EISDIR)
                 else if negb (isFileInode n) then throw (IOError EBADF) else ret tt
             | Some KindDirectory =>
                 if negb (isDirectoryInode n) then throw (IOError EBADF) else ret tt
             | None => ret tt
             end st = Ok tt st' -> st' = st /\
             forall sx, match kind with
             | Some KindFile =>
                 if isDirectoryInode n then throw (IOError EISDIR)
                 else if negb (isFileInode n) then throw (IOError EBADF) else ret tt
             | Some KindDirectory =>
                 if negb (isDirectoryInode n) then throw (IOError EBADF) else ret tt
             | None => ret tt
             end sx = Ok tt sx).
  { intros st st'. destruct kind as [[|]|];
      repeat match goal with |- context [if ?b then _ else _] => destruct b end;
      intros Hx; try discriminate; injection Hx as <-; auto. }
  destruct (Hk' _ _ Hk) as [-> Hk2].
  rewrite (bind_eq_Ok _ (Hk2 s')).
  destruct (truthy (Z.land mode W_OK) && negb (isWritable entry)); [discriminate|].
  destruct (truthy (Z.land mode R_OK) && negb (isReadable entry)); [discriminate|].
  injection H as <-. reflexivity.
Qed.

(** X4.  A lookup that has returned repeats with the same answer and without
    any change: [statSync], [lstatSync], [fstatSync], [readdirSync],
    [readlinkSync] and [realpathSync], called again in the store the first
    call left, return what the first call returned and leave the store as
    it is. *)
Theorem lookups_repeat (s : State) (this : fsref) :
  (forall path st s1, statSync this path s = Ok st s1 -> statSync this path s1 = Ok st s1)
  /\ (forall path st s1, lstatSync this path s = Ok st s1 -> lstatSync this path s1 = Ok st s1)
  /\ (forall fd st s1, fstatSync this fd s = Ok st s1 -> fstatSync this fd s1 = Ok st s1)
  /\ (forall path names s1,
        readdirSync this path s = Ok names s1 -> readdirSync this path s1 = Ok names s1)
  /\ (forall path target s1,
        readlinkSync this path s = Ok target s1 -> readlinkSync this path s1 = Ok target s1)
  /\ (forall path real s1,
        realpathSync this path s = Ok real s1 -> realpathSync this path s1 = Ok real s1).
Proof.
  assert (Hstat : forall noFollow path st s1,
             (let* p := _resolve this path in
              let* entry := or_throw (_walk this p noFollow) ENOENT in
              _stat this (FileDescription.node entry)) s = Ok st s1 ->
             (let* p := _resolve this path in
              let* entry := or_throw (_walk this p noFollow) ENOENT in
              _stat this (FileDescription.node entry)) s1 = Ok st s1).
  { intros noFollow path st s1 H.
    apply bind_Ok in H as (p & s0 & Hp & H). pose proof (resolve_Ok _ _ _ _ _ Hp). subst s0.
    apply bind_Ok in H as (entry & sw & Hw & H). apply or_throw_Ok in Hw.
    assert (Hl1 : lazy_ext s sw).
    { eapply lazy_ext_run; [exact Hw|]. intros; apply lazy_walk; assumption. }
    assert (Hl2 : lazy_ext sw s1).
    { eapply lazy_ext_run; [exact H|]. intros; apply lazy_stat; assumption. }
    rewrite (bind_eq_Ok _ (resolve_lazy _ _ _ _ _ Hp (lazy_ext_trans _ _ _ Hl1 Hl2))).
    rewrite (bind_eq_Ok _ (or_throw_Some _ ENOENT _ _ _ (walk_replay _ _ _ _ _ _ Hw _ Hl2))).
    apply stat_again with (s := sw). exact H. }
  split; [exact (Hstat false)|]. split; [exact (Hstat true)|].
  split; [|split; [|split]].
  - intros fd st s1 H. unfold fstatSync in *.
    apply bind_Ok in H as (entry & s0 & He & H).
    pose proof (file_state this fd None F_OK s) as Hs. rewrite He in Hs. simpl in Hs. subst s0.
    assert (Hl : lazy_ext s s1).
    { eapply lazy_ext_run; [exact H|]. intros; apply lazy_stat; assumption. }
    rewrite (bind_eq_Ok _ (file_lazy _ _ _ _ _ _ _ He Hl)).
    apply stat_again with (s := s). exact H.
  - intros path names s1 H. unfold readdirSync in *.
    apply bind_Ok in H as (p & s0 & Hp & H). pose proof (resolve_Ok _ _ _ _ _ Hp). subst s0.
    apply bind_Ok in H as (entry & sw & Hw & H). apply or_throw_Ok in Hw.
    apply bind_Ok in H as (n & s0 & Hn & H). apply inode_at_Ok in Hn as [-> Hn].
    destruct (isDirectoryInode n) eqn:Hd; [|discriminate]. simpl in H.
    apply bind_Ok in H as (links & sl & Hgl & H).
    apply bind_Ok in H as (m & s0 & Hm & H). apply map_at_Ok in Hm as [-> Hm].
    injection H as <- <-.
    assert (Hl1 : lazy_ext s sw).
    { eapply lazy_ext_run; [exact Hw|]. intros; apply lazy_walk; assumption. }
    assert (Hl2 : lazy_ext sw sl).
    { eapply lazy_ext_run; [exact Hgl|]. intros; apply lazy_getLinks; assumption. }
    rewrite (bind_eq_Ok _ (resolve_lazy _ _ _ _ _ Hp (lazy_ext_trans _ _ _ Hl1 Hl2))).
    rewrite (bind_eq_Ok _ (or_throw_Some _ ENOENT _ _ _ (walk_replay _ _ _ _ _ _ Hw _ Hl2))).
    destruct (getLinks_rec_spec _ _ _ _ _ _ Hgl) as (n' & Hn' & Hln).
    rewrite (bind_eq_Ok _ (inode_at_eq _ _ _ Hn')).
    destruct (lazy_ext_inode _ _ _ _ Hl2 Hn) as (n2 & Hn2 & Hl).
    assert (n2 = n') by congruence. subst n2.
    destruct (lazy_inode_type _ _ Hl) as (_ & -> & _). rewrite Hd. simpl.
    rewrite (bind_eq_Ok _ (getLinks_ready this _ n' links sl Hn' Hln)).
    rewrite (bind_eq_Ok _ (map_at_eq _ _ _ Hm)). reflexivity.
  - intros path target s1 H. unfold readlinkSync in *.
    apply bind_Ok in H as (p & s0 & Hp & H). pose proof (resolve_Ok _ _ _ _ _ Hp). subst s0.
    apply bind_Ok in H as (entry & sw & Hw & H). apply or_throw_Ok in Hw.
    apply bind_Ok in H as (n & s0 & Hn & H). apply inode_at_Ok in Hn as [-> Hn].
    assert (Hl1 : lazy_ext s sw).
    { eapply lazy_ext_run; [exact Hw|]. intros; apply lazy_walk; assumption. }
    assert (s1 = sw).
    { destruct (negb (isSymlinkInode n)); [discriminate|].
      destruct (Inode.symlink n); [|discriminate]. injection H as _ <-. reflexivity. }
    subst s1.
    rewrite (bind_eq_Ok _ (resolve_lazy _ _ _ _ _ Hp Hl1)).
    rewrite (bind_eq_Ok _ (or_throw_Some _ ENOENT _ _ _
                             (walk_replay _ _ _ _ _ _ Hw _ (lazy_ext_refl sw)))).
    rewrite (bind_eq_Ok _ (inode_at_eq _ _ _ Hn)). exact H.
  - intros path real s1 H. unfold realpathSync in *.
    apply bind_Ok in H as (p & s0 & Hp & H). pose proof (resolve_Ok _ _ _ _ _ Hp). subst s0.
    apply bind_Ok in H as (entry & sw & Hw & H). apply or_throw_Ok in Hw.
    injection H as <- <-.
    assert (Hl1 : lazy_ext s sw).
    { eapply lazy_ext_run; [exact Hw|]. intros; apply lazy_walk; assumption. }
    rewrite (bind_eq_Ok _ (resolve_lazy _ _ _ _ _ Hp Hl1)).
    rewrite (bind_eq_Ok _ (or_throw_Some _ ENOENT _ _ _
                             (walk_replay _ _ _ _ _ _ Hw _ (lazy_ext_refl sw)))).
    reflexivity.
Qed.

Lemma walk_repeats_witness :
  _walk 0 ["/"; "m"; "a.txt"]%string false (final_state first_walk)
  = Ok first_walk_entry (final_state first_walk).
Proof.
  apply (walk_repeats 0 ["/"; "m"; "a.txt"]%string false mounted_state
           (final_state first_walk) first_walk_entry).
  - vm_compute; reflexivity.
  - apply lazy_ext_refl.
Defined.

Lemma lookups_repeat_witness :
  statSync 0 ["/"; "m"; "a.txt"]%string (final_state first_stat)
  = Ok first_stat_stats (final_state first_stat).
Proof.
  apply (proj1 (lookups_repeat mounted_state 0)). vm_compute; reflexivity.
Defined.

#[local] Arguments Nat.leb : simpl never.

(** ** What a lookup returns *)

Lemma walk_steps_found this noFollow depth :
  forall rest done links parent s e s1,
    walk_steps this noFollow depth done rest links parent s = Ok (Found e) s1 ->
    (forall p, parent = Some p ->
               exists pi, inodes s !! p = Some pi /\ isDirectoryInode pi = true
                          /\ Inode.links pi = Some links) ->
    is_link s1 this e
    /\ (noFollow = false -> is_symlink_at s1 (FileDescription.node e) = false)
    /\ FileDescription.path e = done ++ rest.
Proof.
  induction rest as [|basename rest' IH]; intros done links parent s e s1 Hrun Hpar.
  - discriminate.
  - rewrite walk_steps_cons in Hrun.
    destruct (40 <=? depth)%nat; [discriminate|]. cbv zeta in Hrun.
    apply bind_Ok in Hrun as (fs & s0 & Hfs & Hrun). apply fs_at_Ok in Hfs as [-> Hfs].
    apply bind_Ok in Hrun as (m & s0 & Hm & Hrun). apply map_at_Ok in Hm as [-> Hm].
    destruct (sm_get (FS.ignoreCase fs) basename m) as [node|] eqn:Hget; [|discriminate].
    apply bind_Ok in Hrun as (n & s0 & Hn & Hrun). apply inode_at_Ok in Hn as [-> Hn].
    destruct (isSymlinkInode n && negb (noFollow && match rest' with [] => true | _ => false end))
      eqn:Hfollow.
    { destruct (Inode.symlink n) as [target|]; [|discriminate].
      destruct (negb (isAbsolute (resolve done target))); discriminate. }
    destruct rest' as [|b2 rest2].
    { destruct parent as [p|].
      - injection Hrun as <- <-. simpl.
        destruct (Hpar p eq_refl) as (pi & Hpi & Hd & Hl).
        split; [|split; [|reflexivity]].
        + exists n, pi, fs. simpl. repeat split; auto.
          * apply last_snoc.
          * right. exists links, m. auto.
        + intros ->. unfold is_symlink_at. simpl. rewrite Hn.
          simpl in Hfollow. rewrite andb_true_r in Hfollow. exact Hfollow.
      - destruct (isDirectoryInode n) eqn:Hd; [|discriminate].
        injection Hrun as <- <-. simpl.
        split; [|split; [|reflexivity]].
        + exists n, n, fs. simpl. repeat split; auto. apply last_snoc.
        + intros ->. unfold is_symlink_at. simpl. rewrite Hn.
          simpl in Hfollow. rewrite andb_true_r in Hfollow. exact Hfollow. }
    destruct (isDirectoryInode n) eqn:Hd; [|discriminate].
    apply bind_Ok in Hrun as (links' & sa & Hgl & Hrun).
    destruct (IH (done ++ [basename]) links' (Some node) sa e s1 Hrun) as (H1 & H2 & H3).
    { intros p [= <-].
      destruct (getLinks_rec_spec _ _ _ _ _ _ Hgl) as (ia & Hia & Hla).
      exists ia. split; [exact Hia|]. split; [|exact Hla].
      assert (Hl : lazy_ext s sa).
      { eapply lazy_ext_run; [exact Hgl|]. intros; apply lazy_getLinks; assumption. }
      destruct (lazy_ext_inode _ _ _ _ Hl Hn) as (ia' & Hia' & Hlia).
      assert (ia' = ia) by congruence. subst ia'.
      destruct (lazy_inode_type _ _ Hlia) as (_ & -> & _). exact Hd. }
    split; [exact H1|]. split; [exact H2|].
    rewrite H3, <- app_assoc. reflexivity.
Qed.

Lemma walk_loop_found this noFollow budget :
  forall depth cs s e s1,
    walk_loop budget this noFollow depth cs s = Ok (Some e) s1 ->
    is_link s1 this e
    /\ (noFollow = false -> is_symlink_at s1 (FileDescription.node e) = false).
Proof.
  induction budget as [|budget IH]; intros depth cs s e s1 Hrun;
    rewrite walk_loop_unfold in Hrun;
    destruct (walk_pass this noFollow depth cs s) as [[e'| |cs'] sa|e' sa] eqn:Hp;
    try discriminate.
  3: { eapply IH; eauto. }
  all: injection Hrun as <- <-; unfold walk_pass in Hp;
    apply bind_Ok in Hp as (rl & sr & _ & Hp);
    destruct (walk_steps_found this noFollow depth cs [] rl None sr e' sa Hp) as (H1 & H2 & _);
    [discriminate|auto].
Qed.

(** X5.  What [_walk] returns is a link of the store it leaves: the node
    exists, the parent is a directory whose links map the base name to the
    node (or the entry is a root directory, which is its own parent), and the
    base name is the last component of the path of the entry.  Unless
    [noFollow] is set the node is not a symbolic link. *)
Theorem walk_returns_link (this : fsref) (path : Path) (noFollow : bool)
    (s s1 : State) (entry : FileDescription.t) :
  _walk this path noFollow s = Ok (Some entry) s1 ->
  is_link s1 this entry
  /\ (noFollow = false -> is_symlink_at s1 (FileDescription.node entry) = false).
Proof. apply walk_loop_found. Qed.

Lemma walk_returns_link_witness :
  is_link (final_state first_walk) 0
    (match first_walk_entry with
     | Some e => e
     | None => {| FileDescription.path := []; FileDescription.basename := "";
                  FileDescription.parent := 0; FileDescription.node := 0 |}
     end).
Proof.
  apply (walk_returns_link 0 ["/"; "m"; "a.txt"]%string false mounted_state).
  vm_compute; reflexivity.
Defined.

(** ** Permissions *)

Lemma chmod_type_bits a b :
  Z.land (Z.lor (Z.land a S_IFMT) (Z.land b 4095)) S_IFMT = Z.land a S_IFMT.
Proof.
  rewrite Z.land_lor_distr_l, <- !Z.land_assoc, Z.land_diag.
  change (Z.land 4095 S_IFMT) with 0%Z. rewrite Z.land_0_r, Z.lor_0_r. reflexivity.
Qed.

Lemma chmod_permission_bits a b :
  Z.land (Z.lor (Z.land a S_IFMT) (Z.land b 4095)) 4095 = Z.land b 4095.
Proof.
  rewrite Z.land_lor_distr_l, <- !Z.land_assoc, Z.land_diag.
  change (Z.land S_IFMT 4095) with 0%Z. rewrite Z.land_0_r, Z.lor_0_l. reflexivity.
Qed.

(** X6.  A [chmodSync] that returns has set the permission bits of the node
    the path resolves to, to [mode & 0o7777]; no inode has changed its type,
    its link count or its buffer, and every link map and buffer there was is
    as it was. *)
Theorem chmod_changes_permissions_only (this : fsref) (path : Path) (mode : Z)
    (s s' : State) :
  chmodSync this path mode s = Ok tt s' ->
  (exists p entry sw n',
      _resolve this path s = Ok p s
      /\ _find this p s = Ok (Some entry) sw
      /\ inodes s' !! FileDescription.node entry = Some n'
      /\ Z.land (Inode.mode n') 4095 = Z.land mode 4095)
  /\ (forall q i, inodes s !! q = Some i ->
        exists i', inodes s' !! q = Some i'
                   /\ Z.land (Inode.mode i') S_IFMT = Z.land (Inode.mode i) S_IFMT
                   /\ Inode.nlink i' = Inode.nlink i
                   /\ Inode.buffer i' = Inode.buffer i
                   /\ Inode.symlink i' = Inode.symlink i)
  /\ (forall l m, linkmaps s !! l = Some m -> linkmaps s' !! l = Some m)
  /\ buffers s' = buffers s.
Proof.
  unfold chmodSync. intros H.
  apply bind_Ok in H as (p & s0 & Hp & H). pose proof (resolve_Ok _ _ _ _ _ Hp). subst s0.
  apply bind_Ok in H as (entry & sw & Hw & H). apply or_throw_Ok in Hw.
  assert (Hl : lazy_ext s sw).
  { eapply lazy_ext_run; [exact Hw|]. intros; apply lazy_walk; assumption. }
  apply bind_Ok in H as (ro & s0 & Hro & H).
  unfold isReadonly in Hro. apply bind_Ok in Hro as (fs & s1 & Hfs & Hro).
  apply fs_at_Ok in Hfs as [-> Hfs]. injection Hro as <- <-.
  destruct (FS.frozen fs); [discriminate|].
  rewrite (bind_eq_Ok _ (update_inode_run _ _ _)) in H.
  match type of H with bind _ _ ?st = _ => set (s2 := st) in * end.
  assert (Hfs2 : filesystems s2 !! this = Some fs) by exact Hfs.
  rewrite (bind_eq_Ok _ (time_spec this fs s2 Hfs2)) in H.
  rewrite update_inode_run in H. injection H as <-.
  destruct (walk_loop_found this false 40 0 p s entry sw Hw) as ((ni & pi & fsw & Hni & _) & _).
  split; [|split; [|split]].
  - exists p, entry, sw. eexists. split; [exact Hp|]. split; [exact Hw|].
    simpl. rewrite !list_lookup_alter_eq, Hni. simpl. split; [reflexivity|].
    apply chmod_permission_bits.
  - intros q i Hq. destruct (lazy_ext_inode _ _ _ _ Hl Hq) as (i1 & Hi1 & Hli).
    destruct Hli as (_&_&Hm&_&_&_&_&Hn&_&_&_&_&Hb&Hs&_).
    simpl. destruct (decide (FileDescription.node entry = q)) as [->|Hne].
    + rewrite !list_lookup_alter_eq, Hi1. simpl. eexists. split; [reflexivity|]. simpl.
      rewrite chmod_type_bits, Hm. auto.
    + rewrite !list_lookup_alter_ne by auto. exists i1. rewrite Hm. auto.
  - intros l m Hm. simpl. eapply lazy_ext_map; eauto.
  - simpl. apply (lz_buffers _ _ _ _ Hl).
Qed.

(** ** The descriptor table *)

Lemma jm_get_In {V} k (t : list (Z * V)) e :
  jm_get Z.eqb k t = Some e -> In (k, e) t.
Proof.
  induction t as [|[k' v] t IH]; simpl; [discriminate|].
  destruct (Z.eqb_spec k k') as [->|Hne].
  - intros [= ->]. left. reflexivity.
  - intros H. right. apply IH. exact H.
Qed.

Lemma jm_get_None {V} k (t : list (Z * V)) :
  ~ In k (map fst t) -> jm_get Z.eqb k t = None.
Proof.
  induction t as [|[k' v] t IH]; simpl; [reflexivity|].
  intros H. destruct (Z.eqb_spec k k') as [->|Hne].
  - exfalso. apply H. left. reflexivity.
  - apply IH. intros Hin. apply H. right. exact Hin.
Qed.

Lemma jm_get_delete {V} k (t : list (Z * V)) :
  NoDup (map fst t) -> jm_get Z.eqb k (jm_delete Z.eqb k t) = None.
Proof.
  induction t as [|[k' v] t IH]; simpl; [reflexivity|].
  intros Hnd. apply NoDup_cons in Hnd as [Hnin Hnd].
  destruct (Z.eqb_spec k k') as [->|Hne].
  - apply jm_get_None. intros Hin. apply Hnin. apply list_elem_of_In. exact Hin.
  - simpl. destruct (Z.eqb_spec k k'); [contradiction|]. apply IH. exact Hnd.
Qed.

Lemma jm_get_delete_ne {V} k k' (t : list (Z * V)) :
  k <> k' -> jm_get Z.eqb k' (jm_delete Z.eqb k t) = jm_get Z.eqb k' t.
Proof.
  intros Hne. induction t as [|[k2 v] t IH]; simpl; [reflexivity|].
  destruct (Z.eqb_spec k k2) as [->|Hne2].
  - destruct (Z.eqb_spec k' k2); [congruence|reflexivity].
  - simpl. destruct (Z.eqb_spec k' k2); [reflexivity|exact IH].
Qed.

Lemma fsync_filesystems this entry metadata s :
  filesystems (final_state (_fsync this entry metadata s)) = filesystems s.
Proof.
  unfold _fsync, bind, inode_at.
  destruct (inodes s !! OpenFile.node entry) as [node|]; [|reflexivity].
  destruct (OpenFile.buffer entry) as [b|]; [|reflexivity].
  destruct (isFileInode node && _); [|reflexivity].
  unfold time, bind, fs_at. destruct (filesystems s !! this) as [fs|]; [|reflexivity].
  simpl. destruct metadata; [|reflexivity].
  unfold bind, buffer_at. simpl. destruct (buffers s !! b); reflexivity.
Qed.

(** X7.  After a [closeSync] that has returned the descriptor is gone: every
    use of it ([_file], and with it [closeSync] and [fstatSync]) throws
    [EBADF] and changes nothing, while every other descriptor of the file
    system is still in the table as it was. *)
Theorem close_invalidates_descriptor (this : fsref) (fd : Z) (s s' : State) (fs : FS.t) :
  filesystems s !! this = Some fs ->
  table_ok (FS._openFiles fs) ->
  closeSync this fd s = Ok tt s' ->
  open_entry s' this fd = None
  /\ (forall fd', fd' <> fd -> open_entry s' this fd' = open_entry s this fd')
  /\ (forall kind mode, _file this fd kind mode s' = Throw (IOError EBADF) s')
  /\ closeSync this fd s' = Throw (IOError EBADF) s'
  /\ fstatSync this fd s' = Throw (IOError EBADF) s'.
Proof.
  intros Hfs [Hnd Hfd] H. unfold closeSync in H.
  apply bind_Ok in H as (entry & s0 & He & H).
  apply file_Ok in He as [-> He].
  unfold open_entry in He. rewrite Hfs in He.
  assert (Hkey : OpenFile.fd entry = fd).
  { apply jm_get_In in He. apply (proj1 (List.Forall_forall _ _) Hfd _ He). }
  rewrite Hkey in H.
  rewrite (bind_eq_Ok _ (eq_refl : update_fs this _ s = Ok tt _)) in H.
  match type of H with _fsync _ _ _ ?st = _ => set (s2 := st) in * end.
  pose proof (fsync_filesystems this entry true s2) as Hfs'. rewrite H in Hfs'. simpl in Hfs'.
  assert (Hopen : forall k, open_entry s' this k
                            = jm_get Z.eqb k (jm_delete Z.eqb fd (FS._openFiles fs))).
  { intros k. unfold open_entry. rewrite Hfs'. rewrite list_lookup_alter_eq, Hfs. reflexivity. }
  assert (Hnone : open_entry s' this fd = None).
  { rewrite Hopen. apply jm_get_delete. exact Hnd. }
  assert (Hfile : forall kind mode, _file this fd kind mode s' = Throw (IOError EBADF) s').
  { intros kind mode. unfold open_entry in Hnone. unfold _file, bind, fs_at.
    destruct (filesystems s' !! this) as [fs'|] eqn:E.
    - rewrite Hnone. reflexivity.
    - rewrite Hfs' in E. rewrite list_lookup_alter_eq, Hfs in E. discriminate. }
  split; [exact Hnone|]. split; [|split; [exact Hfile|split]].
  - intros fd' Hne. rewrite Hopen. unfold open_entry. rewrite Hfs.
    apply jm_get_delete_ne. auto.
  - unfold closeSync. rewrite (bind_eq_Throw _ (Hfile None F_OK)). reflexivity.
  - unfold fstatSync. rewrite (bind_eq_Throw _ (Hfile None F_OK)). reflexivity.
Qed.

Lemma chmod_changes_permissions_only_witness :
  buffers (final_state chmod_result) = buffers rename_state.
Proof.
  apply (chmod_changes_permissions_only 0 ["/"; "f"]%string 292 rename_state
           (final_state chmod_result)).
  vm_compute; reflexivity.
Defined.

Lemma close_invalidates_descriptor_witness :
  open_entry (final_state close_result) 0 2 = None.
Proof.
  apply (close_invalidates_descriptor 0 2 plain_state (final_state close_result) plain_fs).
  - vm_compute; reflexivity.
  - split.
    + vm_compute. apply NoDup_cons. split; [apply not_elem_of_nil|apply NoDup_nil; exact I].
    + vm_compute. repeat constructor.
  - vm_compute; reflexivity.
Defined.

(** ** Reading and writing through a descriptor *)

Lemma spliced_length c data pos :
  length (spliced c data pos) = Nat.max (length c) (pos + length data).
Proof.
  unfold spliced. rewrite !length_app, length_take, length_drop, !length_app, length_replicate.
  lia.
Qed.

Lemma spliced_read c data pos :
  take (length data) (drop pos (spliced c data pos)) = data.
Proof.
  unfold spliced.
  set (t := c ++ replicate (pos + length data - length c) Byte.x00).
  assert (Ht : (pos <= length t)%nat).
  { unfold t. rewrite length_app, length_replicate. lia. }
  rewrite drop_app_length'; [|rewrite length_take; lia].
  rewrite take_app_length. reflexivity.
Qed.

Lemma copy_write data target pos :
  (pos + length data <= length target)%nat ->
  buffer_copy data target (Z.of_nat pos) 0 (0 + Z.of_nat (length data))
  = (take pos target ++ data ++ drop (pos + length data) target, Z.of_nat (length data)).
Proof.
  intros H. unfold buffer_copy.
  rewrite Z.add_0_l, Z.sub_0_r, !Nat2Z.id. change (Z.to_nat 0) with 0%nat. rewrite drop_0.
  rewrite firstn_all.
  rewrite (take_ge data) by lia. reflexivity.
Qed.

Lemma copy_read c buf pos len :
  length buf = len ->
  length (take len (drop pos c)) = len ->
  buffer_copy c buf 0 (Z.of_nat pos) (Z.of_nat pos + Z.of_nat len)
  = (take len (drop pos c), Z.of_nat len).
Proof.
  intros Hb Hc. unfold buffer_copy.
  rewrite Z.add_simpl_l, !Nat2Z.id. change (Z.to_nat 0) with 0%nat.
  rewrite Nat.sub_0_r, Hb. rewrite take_take, Nat.min_id.
  rewrite Hc. simpl. rewrite (drop_ge buf) by lia. rewrite app_nil_r. reflexivity.
Qed.

Lemma jm_get_set_eq {V} k (v : V) t : jm_get Z.eqb k (jm_set Z.eqb k v t) = Some v.
Proof.
  induction t as [|[k' v'] t IH]; simpl.
  - rewrite Z.eqb_refl. reflexivity.
  - destruct (Z.eqb_spec k k') as [->|Hne]; simpl.
    + rewrite Z.eqb_refl. reflexivity.
    + destruct (Z.eqb_spec k k'); [contradiction|]. exact IH.
Qed.

Lemma jm_get_set_ne {V} k k' (v : V) t :
  k <> k' -> jm_get Z.eqb k' (jm_set Z.eqb k v t) = jm_get Z.eqb k' t.
Proof.
  intros Hne. induction t as [|[k2 v2] t IH]; simpl.
  - destruct (Z.eqb_spec k' k); [congruence|reflexivity].
  - destruct (Z.eqb_spec k k2) as [->|Hne2]; simpl.
    + destruct (Z.eqb_spec k' k2); [congruence|reflexivity].
    + destruct (Z.eqb_spec k' k2); [reflexivity|exact IH].
Qed.

(** [_fsync] returns when its objects exist; it touches inodes only. *)
Lemma fsync_runs this entry metadata s n fs :
  inodes s !! OpenFile.node entry = Some n ->
  filesystems s !! this = Some fs ->
  (forall b, OpenFile.buffer entry = Some b -> is_Some (buffers s !! b)) ->
  exists s' n',
    _fsync this entry metadata s = Ok tt s'
    /\ filesystems s' = filesystems s /\ buffers s' = buffers s
    /\ linkmaps s' = linkmaps s /\ fdCount s' = fdCount s
    /\ length (inodes s') = length (inodes s)
    /\ (forall p, p <> OpenFile.node entry -> inodes s' !! p = inodes s !! p)
    /\ inodes s' !! OpenFile.node entry = Some n'
    /\ Inode.mode n' = Inode.mode n /\ Inode.links n' = Inode.links n
    /\ Inode.symlink n' = Inode.symlink n
    /\ (isFileInode n = true -> forall b, OpenFile.buffer entry = Some b ->
        Inode.buffer n' = Some b)
    /\ (OpenFile.buffer entry = None -> n' = n).
Proof.
  intros Hn Hfs Hb. unfold _fsync.
  rewrite (bind_eq_Ok _ (inode_at_eq _ _ _ Hn)).
  destruct (OpenFile.buffer entry) as [b|] eqn:Eb.
  2: { exists s, n. repeat split; auto. discriminate. }
  destruct (Hb b eq_refl) as [bytes Hbytes].
  destruct (isFileInode n) eqn:Hfile; simpl.
  2: { exists s, n. repeat split; auto; discriminate. }
  destruct (match Inode.buffer n with Some b' => Nat.eqb b b' | None => false end) eqn:Heq; simpl.
  { exists s, n. repeat split; auto; try discriminate.
    intros _ b0 [= <-]. destruct (Inode.buffer n) as [b'|]; [|discriminate].
    apply Nat.eqb_eq in Heq. congruence. }
  rewrite (bind_eq_Ok _ (time_spec this fs s Hfs)).
  rewrite (bind_eq_Ok _ (update_inode_run _ _ _)).
  rewrite (bind_eq_Ok _ (update_inode_run _ _ _)).
  rewrite (bind_eq_Ok _ (update_inode_run _ _ _)).
  destruct metadata.
  - unfold bind at 1. unfold buffer_at. simpl. rewrite Hbytes.
    rewrite update_inode_run.
    eexists _, (Inode.with_size (Some (byteLength bytes))
                  (Inode.with_ctimeMs (FS._time fs (ticks s))
                     (Inode.with_mtimeMs (FS._time fs (ticks s))
                        (Inode.with_buffer (Some b) n)))).
    split; [reflexivity|]. simpl.
    rewrite !length_alter. repeat split; auto; try discriminate;
      try (intros p Hp; rewrite !list_lookup_alter_ne by auto; reflexivity);
      try (rewrite !list_lookup_alter_eq, Hn; reflexivity);
      try (intros _ b0 [= <-]; reflexivity).
  - eexists _, (Inode.with_ctimeMs (FS._time fs (ticks s))
                  (Inode.with_mtimeMs (FS._time fs (ticks s))
                     (Inode.with_buffer (Some b) n))).
    split; [reflexivity|]. simpl.
    rewrite !length_alter. repeat split; auto; try discriminate;
      try (intros p Hp; rewrite !list_lookup_alter_ne by auto; reflexivity);
      try (rewrite !list_lookup_alter_eq, Hn; reflexivity);
      try (intros _ b0 [= <-]; reflexivity).
Qed.

Lemma same_tree_refl s : same_tree s s.
Proof. constructor; auto; intros; eexists; repeat split; eauto. Qed.

Lemma same_tree_trans s1 s2 s3 : same_tree s1 s2 -> same_tree s2 s3 -> same_tree s1 s3.
Proof.
  intros [a1 a2 a3 a4 a5] [b1 b2 b3 b4 b5]. constructor; try congruence.
  - intros p i Hi. destruct (a3 p i Hi) as (i2 & Hi2 & ? & ? & ?).
    destruct (b3 p i2 Hi2) as (i3 & Hi3 & ? & ? & ?). exists i3. repeat split; congruence.
  - intros f fs Hf. destruct (a5 f fs Hf) as (f2 & Hf2 & ? & ? & ? & ? & ? & ? & ?).
    destruct (b5 f f2 Hf2) as (f3 & Hf3 & ? & ? & ? & ? & ? & ? & ?).
    exists f3. repeat split; congruence.
Qed.

(** Stores that differ in the fields [same_tree] does not mention. *)
Lemma same_tree_fields s s' :
  linkmaps s' = linkmaps s -> inodes s' = inodes s -> filesystems s' = filesystems s ->
  same_tree s s'.
Proof.
  intros Hm Hi Hf. constructor; try congruence.
  - intros p i Hp. exists i. rewrite Hi. auto.
  - intros f fs Hfs. exists fs. rewrite Hf. repeat split; auto.
Qed.

Lemma same_tree_open_files this g s :
  same_tree s
    (with_filesystems
       (alter (fun f => FS.with_openFiles (g f) f) this (filesystems s)) s).
Proof.
  constructor; simpl; auto.
  - intros p i Hp. exists i. auto.
  - apply length_alter.
  - intros f fs Hfs. destruct (decide (this = f)) as [->|Hne].
    + rewrite list_lookup_alter_eq, Hfs. eexists. split; [reflexivity|]. repeat split.
    + rewrite list_lookup_alter_ne by auto. exists fs. repeat split; auto.
Qed.

Lemma open_entry_set this fd e s fs :
  filesystems s !! this = Some fs ->
  let s' := with_filesystems
              (alter (fun f => FS.with_openFiles (jm_set Z.eqb fd e (FS._openFiles f)) f)
                 this (filesystems s)) s in
  open_entry s' this fd = Some e
  /\ (forall fd', fd' <> fd -> open_entry s' this fd' = open_entry s this fd').
Proof.
  intros Hfs s'. unfold open_entry. subst s'. simpl.
  rewrite list_lookup_alter_eq, Hfs. simpl. split.
  - apply jm_get_set_eq.
  - intros fd' Hne. apply jm_get_set_ne. auto.
Qed.

Lemma buffer_at_eq b s c : buffers s !! b = Some c -> buffer_at b s = Ok c s.
Proof. intros H. unfold buffer_at. rewrite H. reflexivity. Qed.

Lemma file_is_not_directory n : isFileInode n = true -> isDirectoryInode n = false.
Proof.
  unfold isFileInode, isDirectoryInode. intros H. apply Z.eqb_eq in H. rewrite H. reflexivity.
Qed.

Lemma file_run this fd kind mode s e n :
  open_entry s this fd = Some e ->
  inodes s !! OpenFile.node e = Some n ->
  match kind with
  | Some KindFile => isFileInode n = true
  | Some KindDirectory => isDirectoryInode n = true
  | None => True
  end ->
  (truthy (Z.land mode W_OK) = true -> isWritable e = true) ->
  (truthy (Z.land mode R_OK) = true -> isReadable e = true) ->
  _file this fd kind mode s = Ok e s.
Proof.
  intros He Hn Hk Hw Hr. unfold open_entry in He.
  destruct (filesystems s !! this) as [fs|] eqn:Hfs; [|discriminate].
  unfold _file. rewrite (bind_eq_Ok _ (fs_at_eq _ _ _ Hfs)), He.
  rewrite (bind_eq_Ok _ (inode_at_eq _ _ _ Hn)).
  assert (Hkind : match kind with
                  | Some KindFile =>
                      if isDirectoryInode n then throw (IOError EISDIR)
                      else if negb (isFileInode n) then throw (IOError EBADF) else ret tt
                  | Some KindDirectory =>
                      if negb (isDirectoryInode n) then throw (IOError EBADF) else ret tt
                  | None => ret tt
                  end s = Ok tt s).
  { destruct kind as [[|]|]; [| |reflexivity].
    - rewrite (file_is_not_directory _ Hk), Hk. reflexivity.
    - rewrite Hk. reflexivity. }
  rewrite (bind_eq_Ok _ Hkind).
  destruct (truthy (Z.land mode W_OK)); [rewrite (Hw eq_refl)|]; simpl;
    (destruct (truthy (Z.land mode R_OK)); [rewrite (Hr eq_refl)|]); reflexivity.
Qed.

Section WriteRun.
Variables (this : fsref) (fd : Z) (data : list Byte.byte) (pos : nat).
Variables (s : State) (e : OpenFile.t) (n : Inode.t) (c : list Byte.byte) (fs : FS.t).
Hypothesis Hfs : filesystems s !! this = Some fs.
Hypothesis He : open_entry s this fd = Some e.
Hypothesis Hfd : OpenFile.fd e = fd.
Hypothesis Hn : inodes s !! OpenFile.node e = Some n.
Hypothesis Hfile : isFileInode n = true.
Hypothesis Hw : isWritable e = true.
Hypothesis Hc : visible s e = Some c.
Hypothesis Hdata : data <> [].

Lemma write_buffer_step :
  exists sa b0,
    match OpenFile.buffer e with
    | Some b => ret b
    | None =>
        let* nb := _getBuffer this (OpenFile.node e) in
        let* bytes := buffer_at nb in
        new_buffer bytes
    end s = Ok b0 sa
    /\ buffers sa !! b0 = Some c
    /\ inodes sa = inodes s /\ filesystems sa = filesystems s
    /\ linkmaps sa = linkmaps s /\ fdCount sa = fdCount s.
Proof.
  unfold visible in Hc. destruct (OpenFile.buffer e) as [b|].
  - exists s, b. repeat split; auto.
  - rewrite Hn in Hc. destruct (Inode.buffer n) as [nb|] eqn:Hnb; [|discriminate].
    rewrite (bind_eq_Ok _ (getBuffer_loaded this _ s n nb Hn Hnb)).
    unfold bind, buffer_at, new_buffer. rewrite Hc.
    eexists _, _. split; [reflexivity|]. simpl. repeat split.
    rewrite lookup_app_r by lia. rewrite Nat.sub_diag. reflexivity.
Qed.

Lemma write_resize_step sa b0 :
  buffers sa !! b0 = Some c ->
  exists sb b1,
    (if (byteLength c - (byteLength data - 0) <=? Z.of_nat pos)%Z
     then resizeBuffer b0 (Z.of_nat pos + (byteLength data - 0))
     else ret b0) sa = Ok b1 sb
    /\ buffers sb !! b1
       = Some (c ++ replicate (pos + length data - length c) Byte.x00)
    /\ inodes sb = inodes sa /\ filesystems sb = filesystems sa
    /\ linkmaps sb = linkmaps sa /\ fdCount sb = fdCount sa.
Proof.
  intros Hb0. unfold byteLength.
  destruct (Z.leb_spec (Z.of_nat (length c) - (Z.of_nat (length data) - 0)) (Z.of_nat pos))
    as [Hle|Hgt].
  - unfold resizeBuffer. unfold bind, buffer_at. rewrite Hb0. unfold byteLength.
    destruct (Z.eqb_spec (Z.of_nat (length c)) (Z.of_nat pos + (Z.of_nat (length data) - 0)))
      as [Heq|Hne].
    + exists sa, b0. split; [reflexivity|]. split; [|repeat split; auto].
      replace (pos + length data - length c)%nat with 0%nat by lia.
      simpl. rewrite app_nil_r. exact Hb0.
    + unfold new_buffer. eexists _, _. split; [reflexivity|]. simpl. split; [|repeat split; auto].
      rewrite lookup_app_r by lia. rewrite Nat.sub_diag. simpl. f_equal.
      rewrite take_ge by lia. f_equal. f_equal. lia.
  - exists sa, b0. split; [reflexivity|]. split; [|repeat split; auto].
    replace (pos + length data - length c)%nat with 0%nat by lia.
    simpl. rewrite app_nil_r. exact Hb0.
Qed.
Lemma writeSync_run :
  exists s1 b e1 n1,
    writeSync this fd data None None (Some (Z.of_nat pos)) s
    = Ok (Some (Z.of_nat (length data))) s1
    /\ same_tree s s1
    /\ fdCount s1 = fdCount s
    /\ open_entry s1 this fd = Some e1
    /\ (forall fd', fd' <> fd -> open_entry s1 this fd' = open_entry s this fd')
    /\ OpenFile.buffer e1 = Some b
    /\ OpenFile.offset e1 = Z.of_nat (pos + length data)
    /\ OpenFile.node e1 = OpenFile.node e
    /\ OpenFile.flags e1 = OpenFile.flags e
    /\ OpenFile.fd e1 = fd
    /\ buffers s1 !! b = Some (spliced c data pos)
    /\ inodes s1 !! OpenFile.node e = Some n1
    /\ isFileInode n1 = true
    /\ (Z.land (OpenFile.flags e) O_SYNC = 0%Z -> inodes s1 = inodes s).
Proof.
  unfold writeSync.
  assert (Hlen : (0 < length data)%nat) by (destruct data; [congruence|simpl; lia]).
  replace ((0 <? 0)%Z || (byteLength data - 0 <? 0)%Z || (Z.of_nat pos <? -1)%Z
           || (byteLength data - (byteLength data - 0) <? 0)%Z) with false.
  2: { unfold byteLength. symmetry. rewrite !orb_false_iff. repeat split; apply Z.ltb_ge; lia. }
  replace (byteLength data - 0 =? 0)%Z with false.
  2: { unfold byteLength. symmetry. apply Z.eqb_neq. lia. }
  rewrite (bind_eq_Ok _ (file_run this fd (Some KindFile) W_OK s e n He Hn Hfile
                           (fun _ => Hw) (fun H => ltac:(discriminate H)))).
  replace (negb (Z.of_nat pos =? -1)%Z) with true.
  2: { symmetry. apply negb_true_iff. apply Z.eqb_neq. lia. }
  cbv iota. simpl OpenFile.buffer. simpl OpenFile.node. simpl OpenFile.offset.
  simpl OpenFile.flags. simpl OpenFile.fd.
  destruct write_buffer_step as (sa & b0 & Hrun0 & Hb0 & Hia & Hfa & Hma & Hca).
  rewrite (bind_eq_Ok _ Hrun0).
  rewrite (bind_eq_Ok _ (buffer_at_eq _ _ _ Hb0)).
  destruct (write_resize_step sa b0 Hb0) as (sb & b1 & Hrun1 & Hb1 & Hib & Hfb & Hmb & Hcb).
  rewrite (bind_eq_Ok _ Hrun1).
  rewrite (bind_eq_Ok _ (buffer_at_eq _ _ _ Hb1)).
  set (t := c ++ replicate (pos + length data - length c) Byte.x00) in *.
  assert (Ht : (pos + length data <= length t)%nat).
  { unfold t. rewrite length_app, length_replicate. lia. }
  unfold byteLength at 1. rewrite Z.sub_0_r.
  rewrite (copy_write data t pos Ht).
  fold (spliced c data pos).
  rewrite (bind_eq_Ok _ (eq_refl : update_buffer b1 _ sb = Ok tt _)).
  rewrite (bind_eq_Ok _ (eq_refl : update_fs this _ _ = Ok tt _)).
  set (e1 := OpenFile.with_offset (Z.of_nat pos + Z.of_nat (length data))
               (OpenFile.with_buffer (Some b1) (OpenFile.with_offset (Z.of_nat pos) e))).
  match goal with |- context [bind _ _ ?st] => set (sc := st) end.
  assert (Hfsb : filesystems sb !! this = Some fs) by (rewrite Hfb, Hfa; exact Hfs).
  assert (Hinb : inodes sb = inodes s) by congruence.
  assert (Hbuf : buffers sc !! b1 = Some (spliced c data pos)).
  { subst sc. simpl. rewrite list_lookup_alter_eq, Hb1. reflexivity. }
  assert (Htree : same_tree s sc).
  { eapply same_tree_trans; [|subst sc; rewrite Hfd; apply same_tree_open_files].
    apply same_tree_fields; simpl; congruence. }
  destruct (open_entry_set this fd e1 (with_buffers
              (alter (fun _ => spliced c data pos) b1 (buffers sb)) sb) fs Hfsb)
    as (Hopen & Hother).
  assert (Hopen' : open_entry sc this fd = Some e1).
  { subst sc. rewrite Hfd. exact Hopen. }
  assert (Hother' : forall fd', fd' <> fd -> open_entry sc this fd' = open_entry s this fd').
  { intros fd' Hne. subst sc. rewrite Hfd. etransitivity; [exact (Hother fd' Hne)|].
    unfold open_entry. simpl. rewrite Hfb, Hfa. reflexivity. }
  assert (Hnc : inodes sc !! OpenFile.node e = Some n).
  { subst sc. simpl. rewrite Hinb. exact Hn. }
  assert (Hcount : fdCount sc = fdCount s) by (subst sc; simpl; congruence).
  destruct (truthy (Z.land (OpenFile.flags e) O_SYNC)) eqn:Hsync.
  - destruct (fsync_runs this e1 true sc n
                (FS.with_openFiles (jm_set Z.eqb fd e1 (FS._openFiles fs)) fs))
      as (s1 & n1 & Hrun & Hf1 & Hb1' & Hm1 & Hc1 & Hl1 & Hne1 & Hn1 & Hmode & Hlinks & Hsym & _).
    { exact Hnc. }
    { subst sc. simpl. rewrite Hfd, list_lookup_alter_eq, Hfsb. reflexivity. }
    { intros b [= <-]. rewrite Hbuf. eauto. }
    rewrite (bind_eq_Ok _ Hrun).
    exists s1, b1, e1, n1. split; [reflexivity|].
    split.
    { eapply same_tree_trans; [exact Htree|]. constructor; auto.
      - intros p i Hp. destruct (decide (p = OpenFile.node e)) as [->|Hne].
        + exists n1. assert (i = n) by congruence. subst i. auto.
        + exists i. rewrite (Hne1 p Hne). auto.
      - congruence.
      - intros f f0 Hf0. exists f0. rewrite Hf1. repeat split; auto. }
    split; [congruence|].
    split; [unfold open_entry in *; rewrite Hf1; exact Hopen'|].
    split; [intros fd' Hne'; rewrite <- (Hother' fd' Hne'); unfold open_entry; rewrite Hf1;
            reflexivity|].
    repeat split; auto; try (simpl; f_equal; lia);
      try (rewrite Hb1'; exact Hbuf);
      try (unfold isFileInode in *; rewrite Hmode; exact Hfile);
      try (intros H0; unfold truthy in Hsync; rewrite H0 in Hsync; discriminate).
  - exists sc, b1, e1, n. split; [reflexivity|].
    split; [exact Htree|].
    repeat split; auto; try (simpl; f_equal; lia);
      try (intros _; subst sc; simpl; exact Hinb).
Qed.
End WriteRun.

Section ReadRun.
Variables (this : fsref) (fd : Z) (buf : list Byte.byte) (pos len : nat).
Variables (s : State) (e : OpenFile.t) (n : Inode.t) (c : list Byte.byte) (fs : FS.t).
Hypothesis Hfs : filesystems s !! this = Some fs.
Hypothesis He : open_entry s this fd = Some e.
Hypothesis Hfd : OpenFile.fd e = fd.
Hypothesis Hn : inodes s !! OpenFile.node e = Some n.
Hypothesis Hfile : isFileInode n = true.
Hypothesis Hr : isReadable e = true.
Hypothesis Hc : visible s e = Some c.
Hypothesis Hbuf : length buf = len.
Hypothesis Hlen : (0 < len)%nat.

Lemma readSync_run :
  exists s1 b e1,
    readSync this fd buf 0 (Z.of_nat len) (Some (Z.of_nat pos)) s
    = Ok (snd (buffer_copy c buf 0 (Z.of_nat pos) (Z.of_nat pos + Z.of_nat len)),
          fst (buffer_copy c buf 0 (Z.of_nat pos) (Z.of_nat pos + Z.of_nat len))) s1
    /\ same_tree s s1
    /\ inodes s1 = inodes s /\ buffers s1 = buffers s /\ fdCount s1 = fdCount s
    /\ open_entry s1 this fd = Some e1
    /\ (forall fd', fd' <> fd -> open_entry s1 this fd' = open_entry s this fd')
    /\ OpenFile.buffer e1 = Some b
    /\ buffers s1 !! b = Some c
    /\ OpenFile.offset e1
       = (Z.of_nat pos + snd (buffer_copy c buf 0 (Z.of_nat pos) (Z.of_nat pos + Z.of_nat len)))%Z
    /\ OpenFile.node e1 = OpenFile.node e
    /\ OpenFile.flags e1 = OpenFile.flags e
    /\ OpenFile.fd e1 = fd.
Proof.
  unfold readSync.
  replace ((0 <? 0)%Z || (Z.of_nat len <? 0)%Z || (Z.of_nat pos <? -1)%Z
           || (byteLength buf - Z.of_nat len <? 0)%Z) with false.
  2: { unfold byteLength. symmetry. rewrite !orb_false_iff. repeat split; apply Z.ltb_ge; lia. }
  replace (Z.of_nat len =? 0)%Z with false by (symmetry; apply Z.eqb_neq; lia).
  rewrite (bind_eq_Ok _ (file_run this fd (Some KindFile) R_OK s e n He Hn Hfile
                           (fun H => ltac:(discriminate H)) (fun _ => Hr))).
  replace (negb (Z.of_nat pos =? -1)%Z) with true.
  2: { symmetry. apply negb_true_iff. apply Z.eqb_neq. lia. }
  cbv iota. simpl OpenFile.buffer. simpl OpenFile.node. simpl OpenFile.offset.
  assert (Hb : exists b, match OpenFile.buffer e with
                         | Some b => ret b
                         | None => _getBuffer this (OpenFile.node e)
                         end s = Ok b s /\ buffers s !! b = Some c).
  { unfold visible in Hc. destruct (OpenFile.buffer e) as [b|].
    - exists b. auto.
    - rewrite Hn in Hc. destruct (Inode.buffer n) as [nb|] eqn:Hnb; [|discriminate].
      exists nb. split; [|exact Hc]. apply (getBuffer_loaded this _ s n nb Hn Hnb). }
  destruct Hb as (b & Hrun & Hbc).
  rewrite (bind_eq_Ok _ Hrun).
  rewrite (bind_eq_Ok _ (buffer_at_eq _ _ _ Hbc)).
  destruct (buffer_copy c buf 0 (Z.of_nat pos) (Z.of_nat pos + Z.of_nat len))
    as [buf' bytesRead] eqn:Hcopy.
  rewrite (bind_eq_Ok _ (eq_refl : update_fs this _ _ = Ok tt _)).
  simpl OpenFile.fd. rewrite Hfd.
  match goal with |- context [jm_set Z.eqb fd ?x _] => set (e1 := x) end.
  destruct (open_entry_set this fd e1 s fs Hfs) as (Hopen & Hother).
  eexists _, b, e1. split; [reflexivity|].
  split; [apply same_tree_open_files|].
  repeat split; auto.
Qed.
End ReadRun.

(** X8.  What is written through a descriptor is read back through it: after
    [writeSync(fd, data, position)] of a non-empty [data] on a readable and
    writable descriptor of a regular file whose bytes are loaded, the
    descriptor holds the old bytes with [data] spliced in at [position] (a gap
    is zero-filled, the file never shrinks), and [readSync] of [data.length]
    bytes at [position] returns [data]. *)
Theorem write_then_read (this : fsref) (fd : Z) (data : list Byte.byte) (pos : nat)
    (s : State) (e : OpenFile.t) (n : Inode.t) (c : list Byte.byte) (fs : FS.t) :
  filesystems s !! this = Some fs ->
  open_entry s this fd = Some e ->
  OpenFile.fd e = fd ->
  inodes s !! OpenFile.node e = Some n ->
  isFileInode n = true ->
  isWritable e = true ->
  isReadable e = true ->
  visible s e = Some c ->
  data <> [] ->
  exists s1 e1 s2,
    writeSync this fd data None None (Some (Z.of_nat pos)) s
    = Ok (Some (Z.of_nat (length data))) s1
    /\ open_entry s1 this fd = Some e1
    /\ visible s1 e1 = Some (spliced c data pos)
    /\ length (spliced c data pos) = Nat.max (length c) (pos + length data)
    /\ readSync this fd (replicate (length data) Byte.x00) 0 (Z.of_nat (length data))
         (Some (Z.of_nat pos)) s1
       = Ok (Z.of_nat (length data), data) s2.
Proof.
  intros Hfs He Hfd Hn Hfile Hw Hr Hc Hdata.
  destruct (writeSync_run this fd data pos s e n c fs Hfs He Hfd Hn Hfile Hw Hc Hdata)
    as (s1 & b & e1 & n1 & Hrun & Htree & _ & He1 & _ & Hb1 & _ & Hnode & Hflags & Hfd1
        & Hbuf & Hn1 & Hfile1 & _).
  assert (Hvis : visible s1 e1 = Some (spliced c data pos)).
  { unfold visible. rewrite Hb1. exact Hbuf. }
  destruct (st_fs _ _ Htree _ _ Hfs) as (fs1 & Hfs1 & _).
  assert (Hlen : (0 < length data)%nat) by (destruct data; [congruence|simpl; lia]).
  destruct (readSync_run this fd (replicate (length data) Byte.x00) pos (length data)
              s1 e1 n1 (spliced c data pos) fs1 Hfs1 He1 Hfd1)
    as (s2 & b2 & e2 & Hread & _); auto.
  { rewrite Hnode. exact Hn1. }
  { unfold isReadable in *. rewrite Hflags. exact Hr. }
  { apply length_replicate. }
  exists s1, e1, s2. split; [exact Hrun|]. split; [exact He1|]. split; [exact Hvis|].
  split; [apply spliced_length|].
  rewrite Hread. rewrite copy_read.
  - simpl. rewrite spliced_read. reflexivity.
  - apply length_replicate.
  - rewrite spliced_read. reflexivity.
Qed.

Lemma write_then_read_witness :
  exists s1 e1 s2,
    writeSync 0 2 [Byte.x58] None None (Some (Z.of_nat 1)) plain_state
    = Ok (Some (Z.of_nat (length [Byte.x58]))) s1
    /\ open_entry s1 0 2 = Some e1
    /\ visible s1 e1
       = Some (spliced [Byte.x68; Byte.x65; Byte.x6c; Byte.x6c; Byte.x6f] [Byte.x58] 1)
    /\ length (spliced [Byte.x68; Byte.x65; Byte.x6c; Byte.x6c; Byte.x6f] [Byte.x58] 1)
       = Nat.max (length [Byte.x68; Byte.x65; Byte.x6c; Byte.x6c; Byte.x6f])
           (1 + length [Byte.x58])
    /\ readSync 0 2 (replicate (length [Byte.x58]) Byte.x00) 0
         (Z.of_nat (length [Byte.x58])) (Some (Z.of_nat 1)) s1
       = Ok (Z.of_nat (length [Byte.x58]), [Byte.x58]) s2.
Proof.
  apply (write_then_read 0 2 [Byte.x58] 1 plain_state plain_entry plain_inode
           [Byte.x68; Byte.x65; Byte.x6c; Byte.x6c; Byte.x6f] plain_fs).
  1-8: vm_compute; reflexivity.
  discriminate.
Defined.

#[local] Arguments Nat.leb : simpl never.

(** ** Lookups after a change *)

Lemma keeps_links_refl ic s : keeps_links ic s s.
Proof. constructor; intros; eexists; eauto. Qed.

Lemma keeps_links_trans ic s1 s2 s3 :
  keeps_links ic s1 s2 -> keeps_links ic s2 s3 -> keeps_links ic s1 s3.
Proof.
  intros [a1 a2 a3] [b1 b2 b3]. constructor.
  - intros f fs Hf. destruct (a1 f fs Hf) as (f2 & Hf2 & ? & ? & Hl2).
    destruct (b1 f f2 Hf2) as (f3 & Hf3 & ? & ? & Hl3).
    exists f3. repeat split; try congruence. auto.
  - intros p i Hi. destruct (a2 p i Hi) as (i2 & Hi2 & ? & ? & Hl2).
    destruct (b2 p i2 Hi2) as (i3 & Hi3 & ? & ? & Hl3).
    exists i3. repeat split; try congruence. auto.
  - intros l m k v Hm Hk. destruct (a3 l m k v Hm Hk) as (m2 & Hm2 & Hk2).
    apply (b3 l m2 k v Hm2 Hk2).
Qed.

Lemma lazy_keeps_links ic s s' : lazy_ext s s' -> keeps_links ic s s'.
Proof.
  intros H. constructor.
  - intros f fs Hf. destruct (lazy_ext_fs _ _ _ _ H Hf) as (fs' & Hf' & Hic & _ & Hcwd & _ & _ & _ & _ & Hl).
    exists fs'. auto.
  - intros p i Hi. destruct (lazy_ext_inode _ _ _ _ H Hi) as (i' & Hi' & Hl).
    exists i'. split; [exact Hi'|].
    destruct Hl as (_&_&Hm&_&_&_&_&_&_&_&_&_&_&Hs&Hlk&_). auto.
  - intros l m k v Hm Hk. exists m. split; [|exact Hk]. eapply lazy_ext_map; eauto.
Qed.

Lemma same_tree_keeps_links ic s s' : same_tree s s' -> keeps_links ic s s'.
Proof.
  intros H. constructor.
  - intros f fs Hf. destruct (st_fs _ _ H _ _ Hf) as (fs' & Hf' & Hic & _ & Hl & _ & Hcwd & _).
    exists fs'. repeat split; auto. intros m Hm. congruence.
  - intros p i Hi. destruct (st_inodes _ _ H _ _ Hi) as (i' & Hi' & Hm & Hl & Hs).
    exists i'. repeat split; auto. intros m Hm'. congruence.
  - intros l m k v Hm Hk. exists m. split; [|exact Hk]. rewrite (st_maps _ _ H). exact Hm.
Qed.

(** A run of the loop body that has found an entry or a symbolic link to
    expand repeats in every store that keeps the links of the one it left. *)
Lemma walk_steps_kept this noFollow depth :
  forall rest done links parent s r s1 fs,
    walk_steps this noFollow depth done rest links parent s = Ok r s1 ->
    not_missing r ->
    filesystems s !! this = Some fs ->
    forall s', keeps_links (FS.ignoreCase fs) s1 s' ->
      walk_steps this noFollow depth done rest links parent s' = Ok r s'.
Proof.
  induction rest as [|basename rest' IH]; intros done links parent s r s1 fs Hrun Hnm Hfs s' Hs'.
  - simpl in *. injection Hrun as <- <-. destruct Hnm.
  - assert (Hlz : lazy_ext s s1).
    { eapply lazy_ext_run; [exact Hrun|]. intros; apply lazy_walk_steps; assumption. }
    assert (Hk : keeps_links (FS.ignoreCase fs) s s').
    { eapply keeps_links_trans; [apply lazy_keeps_links; exact Hlz|exact Hs']. }
    rewrite walk_steps_cons in Hrun |- *.
    destruct (40 <=? depth)%nat; [discriminate|]. cbv zeta in Hrun |- *.
    rewrite (bind_eq_Ok _ (fs_at_eq _ _ _ Hfs)) in Hrun.
    apply bind_Ok in Hrun as (m & s0 & Hm & Hrun). apply map_at_Ok in Hm as [-> Hm].
    destruct (kl_fs _ _ _ Hk _ _ Hfs) as (fs' & Hfs' & Hic & _).
    rewrite (bind_eq_Ok _ (fs_at_eq _ _ _ Hfs')). rewrite Hic.
    destruct (sm_get (FS.ignoreCase fs) basename m) as [node|] eqn:Hget.
    2: { injection Hrun as <- <-. destruct Hnm. }
    destruct (kl_maps _ _ _ Hk _ _ _ _ Hm Hget) as (m' & Hm' & Hget').
    rewrite (bind_eq_Ok _ (map_at_eq _ _ _ Hm')). rewrite Hget'.
    apply bind_Ok in Hrun as (n & s0 & Hn & Hrun). apply inode_at_Ok in Hn as [-> Hn].
    destruct (kl_inodes _ _ _ Hk _ _ Hn) as (n' & Hn' & Hmode & Hsym & Hlinks).
    rewrite (bind_eq_Ok _ (inode_at_eq _ _ _ Hn')).
    assert (Hty : isSymlinkInode n' = isSymlinkInode n /\ isDirectoryInode n' = isDirectoryInode n).
    { unfold isSymlinkInode, isDirectoryInode. rewrite Hmode. auto. }
    destruct Hty as [-> ->]. rewrite Hsym.
    destruct (isSymlinkInode n && negb (noFollow && match rest' with [] => true | _ => false end)).
    { destruct (Inode.symlink n) as [target|]; [|discriminate].
      destruct (negb (isAbsolute (resolve done target))); [discriminate|].
      injection Hrun as <- <-. reflexivity. }
    destruct rest' as [|b2 rest2].
    { destruct (match parent with
                | Some _ => parent
                | None => if isDirectoryInode n then Some node else None
                end); [|discriminate].
      injection Hrun as <- <-. reflexivity. }
    destruct (isDirectoryInode n); [|discriminate].
    apply bind_Ok in Hrun as (links' & sa & Hgl & Hrun).
    assert (Hsa : lazy_ext s sa).
    { eapply lazy_ext_run; [exact Hgl|]. intros; apply lazy_getLinks; assumption. }
    assert (Hsa1 : lazy_ext sa s1).
    { eapply lazy_ext_run; [exact Hrun|]. intros; apply lazy_walk_steps; assumption. }
    destruct (getLinks_rec_spec _ _ _ _ _ _ Hgl) as (ia & Hia & Hla).
    assert (Hka : keeps_links (FS.ignoreCase fs) sa s').
    { eapply keeps_links_trans; [apply lazy_keeps_links; exact Hsa1|exact Hs']. }
    destruct (kl_inodes _ _ _ Hka _ _ Hia) as (ia' & Hia' & _ & _ & Hlia).
    rewrite (bind_eq_Ok _ (getLinks_ready this node ia' links' s' Hia' (Hlia _ Hla))).
    destruct (lazy_ext_fs _ _ _ _ Hsa Hfs) as (fsa & Hfsa & Hica & _).
    rewrite <- Hica in Hs'.
    eapply IH; eauto.
Qed.

Lemma walk_pass_kept this noFollow depth cs s r s1 fs :
  walk_pass this noFollow depth cs s = Ok r s1 ->
  not_missing r ->
  filesystems s !! this = Some fs ->
  forall s', keeps_links (FS.ignoreCase fs) s1 s' ->
    walk_pass this noFollow depth cs s' = Ok r s'.
Proof.
  intros Hrun Hnm Hfs s' Hs'. unfold walk_pass in *.
  apply bind_Ok in Hrun as (rl & sa & Hrl & Hrun).
  assert (Hsa : lazy_ext s sa).
  { eapply lazy_ext_run; [exact Hrl|]. intros; apply lazy_getRootLinks; assumption. }
  assert (Hsa1 : lazy_ext sa s1).
  { eapply lazy_ext_run; [exact Hrun|]. intros; apply lazy_walk_steps; assumption. }
  destruct (getRootLinks_rec_spec _ _ _ _ _ Hrl) as (fa & Hfa & Hlla).
  assert (Hka : keeps_links (FS.ignoreCase fs) sa s').
  { eapply keeps_links_trans; [apply lazy_keeps_links; exact Hsa1|exact Hs']. }
  destruct (kl_fs _ _ _ Hka _ _ Hfa) as (fa' & Hfa' & _ & _ & Hll).
  rewrite (bind_eq_Ok _ (getRootLinks_ready this fa' rl s' Hfa' (Hll _ Hlla))).
  destruct (lazy_ext_fs _ _ _ _ Hsa Hfs) as (fsa & Hfsa & Hica & _).
  rewrite <- Hica in Hs'.
  eapply walk_steps_kept; eauto.
Qed.

Lemma walk_loop_kept this noFollow budget :
  forall depth cs s e s1 fs,
    walk_loop budget this noFollow depth cs s = Ok (Some e) s1 ->
    filesystems s !! this = Some fs ->
    forall s', keeps_links (FS.ignoreCase fs) s1 s' ->
      walk_loop budget this noFollow depth cs s' = Ok (Some e) s'.
Proof.
  induction budget as [|budget IH]; intros depth cs s e s1 fs Hrun Hfs s' Hs';
    rewrite walk_loop_unfold in Hrun |- *;
    destruct (walk_pass this noFollow depth cs s) as [[e'| |cs'] sa|e' sa] eqn:Hp;
    try discriminate.
  1,2: injection Hrun as <- <-;
    rewrite (walk_pass_kept this noFollow depth cs s _ _ fs Hp I Hfs s' Hs'); reflexivity.
  assert (Hsa : lazy_ext s sa).
  { eapply lazy_ext_run; [exact Hp|]. intros. unfold walk_pass.
    apply lazy_bind; [apply lazy_getRootLinks; assumption|].
    intros rl s2 _ H2. apply lazy_walk_steps. eapply lazy_upto_bounded; eauto. }
  assert (Hsa1 : lazy_ext sa s1).
  { eapply lazy_ext_run; [exact Hrun|]. intros; apply lazy_walk_loop; assumption. }
  rewrite (walk_pass_kept this noFollow depth cs s _ _ fs Hp I Hfs s').
  2: { eapply keeps_links_trans; [apply lazy_keeps_links; exact Hsa1|exact Hs']. }
  destruct (lazy_ext_fs _ _ _ _ Hsa Hfs) as (fsa & Hfsa & Hica & _).
  rewrite <- Hica in Hs'.
  eapply IH; eauto.
Qed.

(** A lookup that has found an entry finds it again after any change that
    keeps the links. *)
Lemma walk_kept this path noFollow s e s1 fs :
  _walk this path noFollow s = Ok (Some e) s1 ->
  filesystems s !! this = Some fs ->
  forall s', keeps_links (FS.ignoreCase fs) s1 s' ->
    _walk this path noFollow s' = Ok (Some e) s'.
Proof. apply walk_loop_kept. Qed.

(** *** One more component *)

Lemma walk_steps_extend this noFollow depth name x nx :
  forall rest done links parent s r s1 fs,
    walk_steps this false depth done rest links parent s = Ok r s1 ->
    filesystems s !! this = Some fs ->
    forall s', keeps_links (FS.ignoreCase fs) s1 s' ->
      inodes s' !! x = Some nx ->
      (isSymlinkInode nx = false \/ noFollow = true) ->
      match r with
      | Found e =>
          linked_in s' (FS.ignoreCase fs) (FileDescription.node e) name x ->
          walk_steps this noFollow depth done (rest ++ [name]) links parent s'
          = Ok (Found (child_entry e name x)) s'
      | Restart cs =>
          walk_steps this noFollow depth done (rest ++ [name]) links parent s'
          = Ok (Restart (cs ++ [name])) s'
      | Missing => True
      end.
Proof.
  induction rest as [|basename rest' IH]; intros done links parent s r s1 fs Hrun Hfs s' Hs' Hx Hnx.
  - simpl in Hrun. injection Hrun as <- <-. exact I.
  - assert (Hlz : lazy_ext s s1).
    { eapply lazy_ext_run; [exact Hrun|]. intros; apply lazy_walk_steps; assumption. }
    assert (Hk : keeps_links (FS.ignoreCase fs) s s').
    { eapply keeps_links_trans; [apply lazy_keeps_links; exact Hlz|exact Hs']. }
    rewrite walk_steps_cons in Hrun.
    change ((basename :: rest') ++ [name]) with (basename :: (rest' ++ [name])).
    rewrite walk_steps_cons.
    destruct (40 <=? depth)%nat eqn:Hdepth; [discriminate|]. cbv zeta in Hrun |- *.
    rewrite (bind_eq_Ok _ (fs_at_eq _ _ _ Hfs)) in Hrun.
    apply bind_Ok in Hrun as (m & s0 & Hm & Hrun). apply map_at_Ok in Hm as [-> Hm].
    destruct (kl_fs _ _ _ Hk _ _ Hfs) as (fs' & Hfs' & Hic & _).
    destruct (sm_get (FS.ignoreCase fs) basename m) as [node|] eqn:Hget.
    2: { injection Hrun as <- <-. exact I. }
    destruct (kl_maps _ _ _ Hk _ _ _ _ Hm Hget) as (m' & Hm' & Hget').
    apply bind_Ok in Hrun as (n & s0 & Hn & Hrun). apply inode_at_Ok in Hn as [-> Hn].
    destruct (kl_inodes _ _ _ Hk _ _ Hn) as (n' & Hn' & Hmode & Hsym & Hlinks).
    assert (Hty : isSymlinkInode n' = isSymlinkInode n /\ isDirectoryInode n' = isDirectoryInode n).
    { unfold isSymlinkInode, isDirectoryInode. rewrite Hmode. auto. }
    destruct Hty as [Hty1 Hty2].
    assert (Hhead : forall (k : ptr -> Inode.t -> M WalkStep),
               (let* fs0 := fs_at this in
                let* m0 := map_at links in
                match sm_get (FS.ignoreCase fs0) basename m0 with
                | None => ret Missing
                | Some node0 => let* n0 := inode_at node0 in k node0 n0
                end) s' = k node n' s').
    { intros k. rewrite (bind_eq_Ok _ (fs_at_eq _ _ _ Hfs')). rewrite Hic.
      rewrite (bind_eq_Ok _ (map_at_eq _ _ _ Hm')). rewrite Hget'.
      rewrite (bind_eq_Ok _ (inode_at_eq _ _ _ Hn')). reflexivity. }
    rewrite Hhead. rewrite Hty1, Hty2, Hsym.
    replace (match rest' ++ [name] with [] => true | _ => false end) with false
      by (destruct rest'; reflexivity).
    cbn [andb negb] in Hrun. rewrite andb_true_r in Hrun.
    rewrite andb_false_r. cbn [negb]. rewrite andb_true_r.
    destruct (isSymlinkInode n) eqn:Hsymn.
    { destruct (Inode.symlink n) as [target|]; [|discriminate].
      destruct (negb (isAbsolute (resolve done target))); [discriminate|].
      injection Hrun as <- <-. rewrite <- app_assoc. reflexivity. }
    destruct rest' as [|b2 rest2].
    { (* the last step of the lookup is now the last but one *)
      destruct (match parent with
                | Some _ => parent
                | None => if isDirectoryInode n then Some node else None
                end) as [p|] eqn:Hpar; [|discriminate].
      injection Hrun as <- <-. cbn [FileDescription.node]. intros (nd & l & ml & Hnd & Hd & Hl & Hml & Hgx).
      assert (nd = n') by congruence. subst nd.
      rewrite <- Hty2, Hd.
      rewrite (bind_eq_Ok _ (getLinks_ready this node n' l s' Hn' Hl)).
      change ([] ++ [name]) with [name].
      rewrite walk_steps_cons. rewrite Hdepth. cbv zeta.
      rewrite (bind_eq_Ok _ (fs_at_eq _ _ _ Hfs')). rewrite Hic.
      rewrite (bind_eq_Ok _ (map_at_eq _ _ _ Hml)). rewrite Hgx.
      rewrite (bind_eq_Ok _ (inode_at_eq _ _ _ Hx)).
      replace (isSymlinkInode nx && negb (noFollow && true)) with false.
      2: { destruct Hnx as [->| ->]; [reflexivity|]. simpl. rewrite andb_false_r. reflexivity. }
      reflexivity. }
    destruct (isDirectoryInode n) eqn:Hdir; [|discriminate].
    apply bind_Ok in Hrun as (links' & sa & Hgl & Hrun).
    assert (Hsa : lazy_ext s sa).
    { eapply lazy_ext_run; [exact Hgl|]. intros; apply lazy_getLinks; assumption. }
    assert (Hsa1 : lazy_ext sa s1).
    { eapply lazy_ext_run; [exact Hrun|]. intros; apply lazy_walk_steps; assumption. }
    destruct (getLinks_rec_spec _ _ _ _ _ _ Hgl) as (ia & Hia & Hla).
    assert (Hka : keeps_links (FS.ignoreCase fs) sa s').
    { eapply keeps_links_trans; [apply lazy_keeps_links; exact Hsa1|exact Hs']. }
    destruct (kl_inodes _ _ _ Hka _ _ Hia) as (ia' & Hia' & _ & _ & Hlia).
    rewrite (bind_eq_Ok _ (getLinks_ready this node ia' links' s' Hia' (Hlia _ Hla))).
    destruct (lazy_ext_fs _ _ _ _ Hsa Hfs) as (fsa & Hfsa & Hica & _).
    rewrite <- Hica in Hs'.
    pose proof (IH (done ++ [basename]) links' (Some node) sa r s1 fsa Hrun Hfsa s' Hs' Hx Hnx)
      as HIH.
    destruct r as [e| |cs]; [|exact I|].
    + intros Hlinked. rewrite Hica in HIH. apply HIH. exact Hlinked.
    + exact HIH.
Qed.

Lemma walk_pass_extend this noFollow depth name x nx cs s r s1 fs :
  walk_pass this false depth cs s = Ok r s1 ->
  filesystems s !! this = Some fs ->
  forall s', keeps_links (FS.ignoreCase fs) s1 s' ->
    inodes s' !! x = Some nx ->
    (isSymlinkInode nx = false \/ noFollow = true) ->
    match r with
    | Found e =>
        linked_in s' (FS.ignoreCase fs) (FileDescription.node e) name x ->
        walk_pass this noFollow depth (cs ++ [name]) s'
        = Ok (Found (child_entry e name x)) s'
    | Restart cs' =>
        walk_pass this noFollow depth (cs ++ [name]) s' = Ok (Restart (cs' ++ [name])) s'
    | Missing => True
    end.
Proof.
  intros Hrun Hfs s' Hs' Hx Hnx. unfold walk_pass in *.
  apply bind_Ok in Hrun as (rl & sa & Hrl & Hrun).
  assert (Hsa : lazy_ext s sa).
  { eapply lazy_ext_run; [exact Hrl|]. intros; apply lazy_getRootLinks; assumption. }
  assert (Hsa1 : lazy_ext sa s1).
  { eapply lazy_ext_run; [exact Hrun|]. intros; apply lazy_walk_steps; assumption. }
  destruct (getRootLinks_rec_spec _ _ _ _ _ Hrl) as (fa & Hfa & Hlla).
  assert (Hka : keeps_links (FS.ignoreCase fs) sa s').
  { eapply keeps_links_trans; [apply lazy_keeps_links; exact Hsa1|exact Hs']. }
  destruct (kl_fs _ _ _ Hka _ _ Hfa) as (fa' & Hfa' & _ & _ & Hll).
  rewrite (bind_eq_Ok _ (getRootLinks_ready this fa' rl s' Hfa' (Hll _ Hlla))).
  destruct (lazy_ext_fs _ _ _ _ Hsa Hfs) as (fsa & Hfsa & Hica & _).
  rewrite <- Hica in Hs' |- *.
  exact (walk_steps_extend this noFollow depth name x nx cs [] rl None sa r s1 fsa
           Hrun Hfsa s' Hs' Hx Hnx).
Qed.

Lemma walk_loop_extend this noFollow name x nx budget :
  forall depth cs s e s1 fs,
    walk_loop budget this false depth cs s = Ok (Some e) s1 ->
    filesystems s !! this = Some fs ->
    forall s', keeps_links (FS.ignoreCase fs) s1 s' ->
      inodes s' !! x = Some nx ->
      (isSymlinkInode nx = false \/ noFollow = true) ->
      linked_in s' (FS.ignoreCase fs) (FileDescription.node e) name x ->
      walk_loop budget this noFollow depth (cs ++ [name]) s'
      = Ok (Some (child_entry e name x)) s'.
Proof.
  induction budget as [|budget IH]; intros depth cs s e s1 fs Hrun Hfs s' Hs' Hx Hnx Hl;
    rewrite walk_loop_unfold in Hrun |- *;
    destruct (walk_pass this false depth cs s) as [[e'| |cs'] sa|e' sa] eqn:Hp;
    try discriminate.
  1,2: injection Hrun as <- <-;
    rewrite (walk_pass_extend this noFollow depth name x nx cs s _ _ fs Hp Hfs s' Hs' Hx Hnx Hl);
    reflexivity.
  assert (Hsa : lazy_ext s sa).
  { eapply lazy_ext_run; [exact Hp|]. intros. unfold walk_pass.
    apply lazy_bind; [apply lazy_getRootLinks; assumption|].
    intros rl s2 _ H2. apply lazy_walk_steps. eapply lazy_upto_bounded; eauto. }
  assert (Hsa1 : lazy_ext sa s1).
  { eapply lazy_ext_run; [exact Hrun|]. intros; apply lazy_walk_loop; assumption. }
  rewrite (walk_pass_extend this noFollow depth name x nx cs s _ _ fs Hp Hfs s').
  2: { eapply keeps_links_trans; [apply lazy_keeps_links; exact Hsa1|exact Hs']. }
  2,3: assumption.
  destruct (lazy_ext_fs _ _ _ _ Hsa Hfs) as (fsa & Hfsa & Hica & _).
  rewrite <- Hica in Hs', Hl.
  eapply IH; eauto.
Qed.

(** A lookup of a directory extends by one name linked in it: the entry of
    the name has the directory as its parent. *)
Lemma walk_extend this noFollow name x nx cs s e s1 fs :
  _walk this cs false s = Ok (Some e) s1 ->
  filesystems s !! this = Some fs ->
  forall s', keeps_links (FS.ignoreCase fs) s1 s' ->
    inodes s' !! x = Some nx ->
    (isSymlinkInode nx = false \/ noFollow = true) ->
    linked_in s' (FS.ignoreCase fs) (FileDescription.node e) name x ->
    _walk this (cs ++ [name]) noFollow s' = Ok (Some (child_entry e name x)) s'.
Proof. apply walk_loop_extend. Qed.

#[local] Arguments Nat.leb : simpl never.

(** ** New links *)

Lemma stringComparer_Eq ic a b : stringComparer ic a b = Eq -> canon ic a = canon ic b.
Proof. unfold stringComparer. apply String.compare_eq_iff. Qed.

Lemma stringComparer_canon ic a b c :
  canon ic a = canon ic b -> stringComparer ic c a = stringComparer ic c b.
Proof. unfold stringComparer. intros ->. reflexivity. Qed.

Lemma sm_get_canon ic {V} a b (m : list (string * V)) :
  canon ic a = canon ic b -> sm_get ic a m = sm_get ic b m.
Proof.
  intros H. induction m as [|[k v] m IH]; simpl; [reflexivity|].
  rewrite IH. unfold stringComparer. rewrite H. reflexivity.
Qed.

Lemma sm_get_set_ne ic {V} k name (v : V) m :
  stringComparer ic k name <> Eq -> sm_get ic k (sm_set ic name v m) = sm_get ic k m.
Proof.
  intros Hne. induction m as [|[k' v'] m IH]; simpl.
  - destruct (stringComparer ic k name); congruence.
  - destruct (stringComparer ic name k') eqn:E; simpl.
    + apply stringComparer_Eq in E.
      rewrite <- (stringComparer_canon ic name k' k E).
      destruct (stringComparer ic k name); congruence.
    + destruct (stringComparer ic k name); congruence.
    + rewrite IH. reflexivity.
Qed.

(** Setting a name that a map does not have keeps what every lookup in the
    map finds. *)
Lemma sm_get_set_fresh ic {V} k name (v x : V) m :
  sm_get ic name m = None -> sm_get ic k m = Some v ->
  sm_get ic k (sm_set ic name x m) = Some v.
Proof.
  intros Hn Hk. rewrite sm_get_set_ne; [exact Hk|].
  intros E. apply stringComparer_Eq in E.
  rewrite (sm_get_canon ic k name m E) in Hk. congruence.
Qed.

Lemma keeps_same ic s s' :
  inodes s' = inodes s -> linkmaps s' = linkmaps s -> filesystems s' = filesystems s ->
  keeps_links ic s s'.
Proof.
  intros Hi Hm Hf. constructor.
  - intros f fs H. exists fs. rewrite Hf. auto.
  - intros p i H. exists i. rewrite Hi. auto.
  - intros l m k v H Hk. exists m. rewrite Hm. auto.
Qed.

Lemma keeps_new_inode ic s i : keeps_links ic s (with_inodes (inodes s ++ [i]) s).
Proof.
  constructor.
  - intros f fs H. exists fs. auto.
  - intros p j H. exists j. simpl. rewrite lookup_app_l; [auto|]. eapply lookup_lt_Some; eauto.
  - intros l m k v H Hk. exists m. auto.
Qed.

Lemma keeps_update_inode ic s p f :
  keeps_node f -> keeps_links ic s (with_inodes (alter f p (inodes s)) s).
Proof.
  intros Hf. constructor.
  - intros g fs H. exists fs. auto.
  - intros q j H. simpl. destruct (decide (q = p)) as [->|Hne].
    + exists (f j). rewrite list_lookup_alter_eq, H. destruct (Hf j) as (? & ? & Hl).
      repeat split; auto. intros m Hm. congruence.
    + exists j. rewrite list_lookup_alter_ne by congruence. auto.
  - intros l m k v H Hk. exists m. auto.
Qed.

(** A change of an inode that the first store does not have. *)
Lemma keeps_update_fresh ic s0 s p f :
  keeps_links ic s0 s -> inodes s0 !! p = None ->
  keeps_links ic s0 (with_inodes (alter f p (inodes s)) s).
Proof.
  intros [a1 a2 a3] Hp. constructor.
  - exact a1.
  - intros q j H. destruct (a2 q j H) as (j' & Hj' & Hrest).
    exists j'. split; [|exact Hrest]. simpl.
    rewrite list_lookup_alter_ne; [exact Hj'|]. intros ->. congruence.
  - exact a3.
Qed.

Lemma keeps_set_fresh ic s l m name x :
  linkmaps s !! l = Some m -> sm_get ic name m = None ->
  keeps_links ic s (with_linkmaps (alter (sm_set ic name x) l (linkmaps s)) s).
Proof.
  intros Hl Hn. constructor.
  - intros g fs H. exists fs. auto.
  - intros q j H. exists j. auto.
  - intros l' m' k v H Hk. simpl. destruct (decide (l' = l)) as [->|Hne].
    + exists (sm_set ic name x m'). rewrite list_lookup_alter_eq, H. split; [reflexivity|].
      assert (m' = m) by congruence. subst m'. apply sm_get_set_fresh; assumption.
    + exists m'. rewrite list_lookup_alter_ne by congruence. auto.
Qed.

Lemma keeps_node_linked ic parent name : keeps_node (linked ic parent name).
Proof. intros i. auto. Qed.

Lemma keeps_node_mtime t : keeps_node (Inode.with_mtimeMs t).
Proof. intros i. auto. Qed.

Lemma keeps_node_ctime t : keeps_node (Inode.with_ctimeMs t).
Proof. intros i. auto. Qed.

Lemma keeps_insert ic s p i j :
  inodes s !! p = Some i ->
  Inode.mode j = Inode.mode i -> Inode.symlink j = Inode.symlink i ->
  Inode.links j = Inode.links i ->
  keeps_links ic s (with_inodes (<[p := j]> (inodes s)) s).
Proof.
  intros Hp Hm Hs Hl. constructor.
  - intros g fs H. exists fs. auto.
  - intros q k H. simpl. destruct (decide (q = p)) as [->|Hne].
    + exists j. rewrite list_lookup_insert_eq by (eapply lookup_lt_Some; eauto).
      assert (k = i) by congruence. subst k.
      repeat split; auto. intros m Hm'. congruence.
    + exists k. rewrite list_lookup_insert_ne by congruence. auto.
  - intros l m k v H Hk. exists m. auto.
Qed.

(** [_addLink] of a name that the directory does not have. *)
Lemma addLink_fresh this fs parent links name node ni m s :
  filesystems s !! this = Some fs ->
  inodes s !! node = Some ni ->
  linkmaps s !! links = Some m ->
  sm_get (FS.ignoreCase fs) name m = None ->
  exists s',
    _addLink this parent links name node s = Ok tt s'
    /\ keeps_links (FS.ignoreCase fs) s s'
    /\ linkmaps s' !! links = Some (sm_set (FS.ignoreCase fs) name node m)
    /\ inodes s' = <[node := linked (FS.ignoreCase fs) parent name ni]> (inodes s)
    /\ filesystems s' = filesystems s /\ buffers s' = buffers s
    /\ ticks s' = ticks s /\ fdCount s' = fdCount s.
Proof.
  intros Hfs Hn Hm Hname. eexists. split; [apply (addLink_spec _ _ _ _ _ _ _ _ Hfs Hn)|].
  split; [|split; [|repeat split]].
  - eapply keeps_links_trans; [apply (keeps_set_fresh _ _ _ _ _ node Hm Hname)|].
    apply (keeps_insert _ (with_linkmaps _ s) node ni); auto.
  - simpl. rewrite list_lookup_alter_eq, Hm. reflexivity.
Qed.

Lemma dirname_basename (p : Path) : (2 <= length p)%nat -> dirname p ++ [basename p] = p.
Proof.
  destruct p as [|a [|b cs]]; simpl; try lia. intros _.
  change (a :: removelast (b :: cs) ++ [List.last (b :: cs) ""%string] = a :: b :: cs).
  f_equal. symmetry. apply app_removelast_last. discriminate.
Qed.

Lemma not_root_long ic (p : Path) : is_root_path ic p = false -> (2 <= length p)%nat.
Proof.
  unfold is_root_path. destruct p as [|a [|b cs]]; simpl; try lia;
    rewrite stringComparer_refl; discriminate.
Qed.

Lemma mknod_type_bits dev type mode umask ino t :
  Z.land (Inode.mode (mknod_inode dev type mode umask ino t)) S_IFMT = Z.land type S_IFMT.
Proof.
  simpl. rewrite Z.land_lor_distr_l, <- !Z.land_assoc, Z.land_diag.
  change (Z.land 4095 S_IFMT) with 0%Z. rewrite !Z.land_0_r, Z.lor_0_l. reflexivity.
Qed.

Lemma mknod_permission_bits dev type mode umask ino t :
  Z.land (Inode.mode (mknod_inode dev type mode umask ino t)) 4095
  = Z.land (Z.land mode (Z.lnot umask)) 4095.
Proof.
  simpl. rewrite Z.land_lor_distr_l, <- !Z.land_assoc, Z.land_diag.
  change (Z.land S_IFMT 4095) with 0%Z. rewrite !Z.land_0_r, Z.lor_0_r.
  rewrite (Z.land_comm (Z.lnot S_IFMT)), <- (Z.land_assoc (Z.lnot umask)).
  change (Z.land (Z.lnot S_IFMT) 4095) with 4095%Z. reflexivity.
Qed.

(** The end of [mkdirSync], [symlinkSync] and of the creation of a file by
    [openSync]: the new node is linked under a name its parent does not have
    and the parent's [mtimeMs] is set. *)
Lemma link_new_node this fs parent links name node ni pi m s :
  filesystems s !! this = Some fs ->
  inodes s !! node = Some ni -> node <> parent ->
  inodes s !! parent = Some pi -> isDirectoryInode pi = true ->
  Inode.links pi = Some links ->
  linkmaps s !! links = Some m ->
  sm_get (FS.ignoreCase fs) name m = None ->
  exists s',
    (_addLink this (Some parent) links name node ;;
     let* t := time this in update_inode parent (Inode.with_mtimeMs t)) s = Ok tt s'
    /\ keeps_links (FS.ignoreCase fs) s s'
    /\ linked_in s' (FS.ignoreCase fs) parent name node
    /\ inodes s' !! node = Some (linked (FS.ignoreCase fs) (Some parent) name ni)
    /\ filesystems s' = filesystems s /\ buffers s' = buffers s
    /\ fdCount s' = fdCount s /\ length (linkmaps s') = length (linkmaps s).
Proof.
  intros Hfs Hn Hne Hp Hdir Hl Hm Hname.
  destruct (addLink_fresh this fs (Some parent) links name node ni m s Hfs Hn Hm Hname)
    as (sa & Hrun & Hk & Hma & Hia & Hfa & Hba & Hta & Hfd).
  assert (Hla : length (linkmaps sa) = length (linkmaps s)).
  { rewrite (addLink_spec _ _ _ _ _ _ _ _ Hfs Hn) in Hrun. injection Hrun as <-.
    simpl. apply length_alter. }
  rewrite <- Hfa in Hfs.
  eexists. split.
  { rewrite (bind_eq_Ok _ Hrun). rewrite (bind_eq_Ok _ (time_spec this fs sa Hfs)).
    apply update_inode_run. }
  assert (Hpa : inodes sa !! parent = Some pi).
  { rewrite Hia. rewrite list_lookup_insert_ne by congruence. exact Hp. }
  split; [|split; [|split; [|repeat split; simpl; auto]]].
  - eapply keeps_links_trans; [exact Hk|].
    eapply keeps_links_trans; [apply (keeps_same _ sa (with_ticks (S (ticks sa)) sa)); reflexivity|].
    apply (keeps_update_inode _ (with_ticks _ sa)). apply keeps_node_mtime.
  - exists (Inode.with_mtimeMs (FS._time fs (ticks sa)) pi), links,
      (sm_set (FS.ignoreCase fs) name node m).
    simpl. rewrite list_lookup_alter_eq, Hpa. repeat split; auto.
    apply sm_get_set_eq.
  - simpl. rewrite list_lookup_alter_ne by congruence. rewrite Hia.
    apply list_lookup_insert_eq. eapply lookup_lt_Some; eauto.
Qed.

Lemma resolve_kept ic this path s p s' :
  _resolve this path s = Ok p s -> keeps_links ic s s' -> _resolve this path s' = Ok p s'.
Proof.
  unfold _resolve. intros H Hk.
  apply bind_Ok in H as (fs & s0 & Hfs & H). apply fs_at_Ok in Hfs as [-> Hfs].
  destruct (kl_fs _ _ _ Hk _ _ Hfs) as (fs' & Hfs' & _ & Hcwd & _).
  rewrite (bind_eq_Ok _ (fs_at_eq _ _ _ Hfs')). rewrite Hcwd.
  destruct (nonempty (FS._cwd fs)).
  - unfold bind, validate, ret in *. simpl in *. injection H as <-. reflexivity.
  - unfold validate in *. destruct (isAbsolute path); [|discriminate].
    injection H as <-. reflexivity.
Qed.

(** [_stat] of a node that is not a regular file. *)
Lemma stat_not_file this node n s :
  inodes s !! node = Some n -> isFileInode n = false ->
  exists st,
    _stat this node s = Ok st s
    /\ Stats.mode st = Inode.mode n /\ Stats.nlink st = Inode.nlink n
    /\ Stats.ino st = Inode.ino n /\ Stats.dev st = Inode.dev n
    /\ Stats.size st = (if isSymlinkInode n
                        then match Inode.symlink n with
                             | Some t => Z.of_nat (String.length (format t))
                             | None => 0%Z
                             end
                        else 0%Z).
Proof.
  intros Hn Hf. unfold _stat. rewrite (bind_eq_Ok _ (inode_at_eq _ _ _ Hn)), Hf.
  destruct (isSymlinkInode n); unfold bind at 1, ret at 1;
    rewrite (bind_eq_Ok _ (inode_at_eq _ _ _ Hn)); eexists; (split; [reflexivity|]);
    simpl; auto.
Qed.

(** The links of a directory that has none yet and is neither mounted nor a
    shadow: a new, empty map. *)
Lemma getLinks_new this fs node n s :
  filesystems s !! this = Some fs ->
  inodes s !! node = Some n -> Inode.links n = None ->
  Inode.source n = None -> Inode.shadowRoot n = None ->
  _getLinks this (Some node) s
  = Ok (length (linkmaps s))
      (with_inodes (alter (Inode.with_links (Some (length (linkmaps s)))) node (inodes s))
         (with_linkmaps (linkmaps s ++ [[]]) s)).
Proof.
  intros Hfs Hn Hl Hs Hsh. unfold _getLinks. simpl.
  rewrite (bind_eq_Ok _ (inode_at_eq _ _ _ Hn)), Hl, Hs.
  unfold bind, new_map, fs_at. simpl. rewrite Hfs, Hsh.
  destruct (FS._shadowRoot fs); reflexivity.
Qed.

(** X9.  A directory that [mkdirSync] has made is there: after a
    [mkdirSync] of a path that is not a root has returned, [statSync] of the
    path returns, changing nothing, the stats of a directory with the
    permission bits [mode & 0o1777 & ~0o022], one link and size 0, and
    [readdirSync] of the path returns no names. *)
Theorem mkdir_then_stat (this : fsref) (path p : Path) (mode : Z) (s s1 : State) (fs : FS.t) :
  filesystems s !! this = Some fs ->
  _resolve this path s = Ok p s ->
  is_root_path (FS.ignoreCase fs) p = false ->
  mkdirSync this path mode s = Ok tt s1 ->
  exists st s2,
    statSync this path s1 = Ok st s1
    /\ Stats.isDirectory st = true
    /\ Z.land (Stats.mode st) 4095 = Z.land (Z.land (Z.land mode 1023) (Z.lnot 18)) 4095
    /\ Stats.nlink st = 1%Z /\ Stats.size st = 0%Z
    /\ readdirSync this path s1 = Ok [] s2.
Proof.
  intros Hfs Hres Hroot Hrun. unfold mkdirSync in Hrun.
  rewrite (bind_eq_Ok _ Hres) in Hrun. cbv zeta in Hrun.
  apply bind_Ok in Hrun as ([parent name] & sa & Hpn & Hrun).
  unfold parent_and_name in Hpn.
  rewrite (bind_eq_Ok _ (fs_at_eq _ _ _ Hfs)), Hroot in Hpn.
  apply bind_Ok in Hpn as (entry & sb & Hentry & Hpn).
  apply or_throw_Ok in Hentry.
  apply bind_Ok in Hpn as (pn & sc & Hpnode & Hpn). apply inode_at_Ok in Hpnode as [-> Hpnode].
  destruct (isDirectoryInode pn) eqn:Hdir; [|discriminate]. cbn [negb] in Hpn.
  injection Hpn as <- <- <-.
  set (pnode := FileDescription.node entry) in *.
  assert (Hsb : lazy_ext s sb).
  { eapply lazy_ext_run; [exact Hentry|]. intros; apply lazy_walk; assumption. }
  apply bind_Ok in Hrun as (links & sd & Hgl & Hrun).
  assert (Hsd : lazy_ext sb sd).
  { eapply lazy_ext_run; [exact Hgl|]. intros; apply lazy_getLinks; assumption. }
  destruct (getLinks_rec_spec _ _ _ _ _ _ Hgl) as (pi & Hpi & Hlinks).
  apply bind_Ok in Hrun as (m & s0 & Hm & Hrun). apply map_at_Ok in Hm as [-> Hm].
  destruct (lazy_ext_fs _ _ _ _ (lazy_ext_trans _ _ _ Hsb Hsd) Hfs)
    as (fsd & Hfsd & Hic & Hfrozen & Hcwd & Htime & _).
  rewrite (bind_eq_Ok _ (fs_at_eq _ _ _ Hfsd)) in Hrun. rewrite Hic in Hrun.
  unfold sm_has in Hrun.
  destruct (sm_get (FS.ignoreCase fs) (basename p) m) eqn:Hname; [discriminate|].
  destruct (FS.frozen fsd); [discriminate|].
  apply bind_Ok in Hrun as (node & se & Hnode & Hrun).
  unfold new_directory_node in Hnode.
  rewrite (bind_eq_Ok _ (inode_at_eq _ _ _ Hpi)) in Hnode.
  rewrite (mknod_spec _ _ _ _ _ _ _ Hfsd) in Hnode. injection Hnode as <- <-.
  set (ni := mknod_inode _ _ _ _ _ _) in Hrun.
  set (node := length (inodes sd)) in *.
  set (se := with_inodes _ _) in Hrun.
  assert (Hlt : (pnode < node)%nat) by (eapply lookup_lt_Some; exact Hpi).
  destruct (link_new_node this fsd pnode links (basename p) node ni pi m se)
    as (s1' & Hrun' & Hk & Hlinked & Hni & Hfs1 & _); try assumption.
  { subst se; simpl. apply list_lookup_middle. reflexivity. }
  { lia. }
  { subst se; simpl. rewrite lookup_app_l by exact Hlt. exact Hpi. }
  { destruct (lazy_ext_inode _ _ _ _ Hsd Hpnode) as (pi' & Hpi' & Hlz).
    assert (pi' = pi) by congruence. subst pi'.
    destruct (lazy_inode_type _ _ Hlz) as (_ & -> & _). exact Hdir. }
  { rewrite Hic. exact Hname. }
  unfold link_new_directory in Hrun. rewrite Hrun' in Hrun. injection Hrun as ->.
  rewrite Hic in *.
  assert (Hkb : keeps_links (FS.ignoreCase fs) sb s1).
  { eapply keeps_links_trans; [apply lazy_keeps_links; exact Hsd|].
    eapply keeps_links_trans; [|exact Hk].
    eapply keeps_links_trans;
      [|apply (keeps_new_inode _ (with_inoCount (inoCount sd + 1)
                                    (with_ticks (S (ticks sd)) sd)) ni)].
    apply keeps_same; reflexivity. }
  assert (Hks : keeps_links (FS.ignoreCase fs) s s1).
  { eapply keeps_links_trans; [apply lazy_keeps_links; exact Hsb|exact Hkb]. }
  assert (Hty : Z.land (Inode.mode ni) S_IFMT = S_IFDIR) by apply mknod_type_bits.
  assert (Hwalk : _find this p s1
                  = Ok (Some (child_entry entry (basename p) node)) s1).
  { rewrite <- (dirname_basename p) at 1 by (eapply not_root_long; exact Hroot).
    eapply (walk_extend this false (basename p) node _ (dirname p) s entry sb fs);
      try eassumption.
    left. unfold isSymlinkInode.
    change (Inode.mode (linked _ _ _ ni)) with (Inode.mode ni). rewrite Hty. reflexivity. }
  destruct (stat_not_file this node _ s1 Hni) as (st & Hst & Hmode & Hnlink & _ & _ & Hsize).
  { unfold isFileInode.
    change (Inode.mode (linked _ _ _ ni)) with (Inode.mode ni). rewrite Hty. reflexivity. }
  assert (Hres1 := resolve_kept _ _ _ _ _ _ Hres Hks).
  assert (Hfs1' : filesystems s1 !! this = Some fsd) by (rewrite Hfs1; exact Hfsd).
  exists st. eexists. split; [|split; [|split; [|split; [|split]]]].
  - unfold statSync. rewrite (bind_eq_Ok _ Hres1).
    rewrite (bind_eq_Ok _ (or_throw_Some _ ENOENT _ _ _ Hwalk)). exact Hst.
  - unfold Stats.isDirectory. rewrite Hmode.
    change (Inode.mode (linked _ _ _ ni)) with (Inode.mode ni). rewrite Hty. reflexivity.
  - rewrite Hmode. change (Inode.mode (linked _ _ _ ni)) with (Inode.mode ni).
    apply mknod_permission_bits.
  - rewrite Hnlink. reflexivity.
  - rewrite Hsize. unfold isSymlinkInode.
    change (Inode.mode (linked _ _ _ ni)) with (Inode.mode ni). rewrite Hty. reflexivity.
  - unfold readdirSync. rewrite (bind_eq_Ok _ Hres1).
    rewrite (bind_eq_Ok _ (or_throw_Some _ ENOENT _ _ _ Hwalk)).
    cbn [child_entry FileDescription.node].
    rewrite (bind_eq_Ok _ (inode_at_eq _ _ _ Hni)).
    unfold isDirectoryInode at 1.
    change (Inode.mode (linked _ _ _ ni)) with (Inode.mode ni). rewrite Hty.
    cbn [Z.eqb S_IFDIR Pos.eqb negb].
    rewrite (bind_eq_Ok _ (getLinks_new this fsd node _ s1 Hfs1' Hni eq_refl eq_refl eq_refl)).
    unfold bind, map_at. simpl. rewrite list_lookup_middle by reflexivity. reflexivity.
Qed.

Lemma mkdir_then_stat_witness :
  exists st s2,
    statSync 0 ["/"; "d"; "e"]%string (final_state mkdir_result)
    = Ok st (final_state mkdir_result)
    /\ Stats.isDirectory st = true
    /\ Z.land (Stats.mode st) 4095 = Z.land (Z.land (Z.land 493 1023) (Z.lnot 18)) 4095
    /\ Stats.nlink st = 1%Z /\ Stats.size st = 0%Z
    /\ readdirSync 0 ["/"; "d"; "e"]%string (final_state mkdir_result) = Ok [] s2.
Proof.
  apply (mkdir_then_stat 0 ["/"; "d"; "e"]%string ["/"; "d"; "e"]%string 493 rename_state
           (final_state mkdir_result) rename_fs).
  - vm_compute; reflexivity.
  - vm_compute; reflexivity.
  - vm_compute; reflexivity.
  - vm_compute; reflexivity.
Defined.

#[local] Arguments Nat.leb : simpl never.

(** X10.  A symbolic link that [symlinkSync] has made is there: after a
    [symlinkSync] to a path that is not a root has returned, [readlinkSync]
    of the path returns the target as it was given, and [lstatSync] the stats
    of a symbolic link with one link, whose size is the length of the
    target; neither changes anything. *)
Theorem symlink_then_readlink (this : fsref) (target linkpath p : Path) (s s1 : State)
    (fs : FS.t) :
  filesystems s !! this = Some fs ->
  _resolve this linkpath s = Ok p s ->
  is_root_path (FS.ignoreCase fs) p = false ->
  symlinkSync this target linkpath s = Ok tt s1 ->
  readlinkSync this linkpath s1 = Ok target s1
  /\ exists st,
       lstatSync this linkpath s1 = Ok st s1
       /\ Stats.isSymbolicLink st = true
       /\ Stats.nlink st = 1%Z
       /\ Stats.size st = Z.of_nat (String.length (format target)).
Proof.
  intros Hfs Hres Hroot Hrun. unfold symlinkSync in Hrun.
  unfold validate at 1 in Hrun. unfold bind at 1, ret at 1 in Hrun.
  rewrite (bind_eq_Ok _ Hres) in Hrun. cbv zeta in Hrun.
  apply bind_Ok in Hrun as (entry & sb & Hentry & Hrun).
  apply or_throw_Ok in Hentry.
  apply bind_Ok in Hrun as (pn & sc & Hpnode & Hrun). apply inode_at_Ok in Hpnode as [-> Hpnode].
  destruct (isDirectoryInode pn) eqn:Hdir; [|discriminate]. cbn [negb] in Hrun.
  set (pnode := FileDescription.node entry) in *.
  assert (Hsb : lazy_ext s sb).
  { eapply lazy_ext_run; [exact Hentry|]. intros; apply lazy_walk; assumption. }
  apply bind_Ok in Hrun as (links & sd & Hgl & Hrun).
  assert (Hsd : lazy_ext sb sd).
  { eapply lazy_ext_run; [exact Hgl|]. intros; apply lazy_getLinks; assumption. }
  destruct (getLinks_rec_spec _ _ _ _ _ _ Hgl) as (pi & Hpi & Hlinks).
  apply bind_Ok in Hrun as (m & s0 & Hm & Hrun). apply map_at_Ok in Hm as [-> Hm].
  destruct (lazy_ext_fs _ _ _ _ (lazy_ext_trans _ _ _ Hsb Hsd) Hfs)
    as (fsd & Hfsd & Hic & Hfrozen & Hcwd & Htime & _).
  rewrite (bind_eq_Ok _ (fs_at_eq _ _ _ Hfsd)) in Hrun. rewrite Hic in Hrun.
  unfold sm_has in Hrun.
  destruct (sm_get (FS.ignoreCase fs) (basename p) m) eqn:Hname; [discriminate|].
  destruct (FS.frozen fsd); [discriminate|].
  rewrite (bind_eq_Ok _ (mknod_spec _ _ _ _ _ _ _ Hfsd)) in Hrun.
  rewrite (bind_eq_Ok _ (update_inode_run _ _ _)) in Hrun.
  set (ni := mknod_inode _ _ _ _ _ _) in Hrun.
  set (node := length (inodes sd)) in *.
  set (se := with_inodes (alter _ _ _) _) in Hrun.
  assert (Hlt : (pnode < node)%nat) by (eapply lookup_lt_Some; exact Hpi).
  assert (Hnse : inodes se !! node = Some (Inode.with_symlink (Some target) ni)).
  { subst se; simpl. rewrite list_lookup_alter_eq.
    rewrite list_lookup_middle by reflexivity. reflexivity. }
  destruct (link_new_node this fsd pnode links (basename p) node
              (Inode.with_symlink (Some target) ni) pi m se)
    as (s1' & Hrun' & Hk & Hlinked & Hni & Hfs1 & _); try eassumption.
  { lia. }
  { subst se; simpl. rewrite list_lookup_alter_ne by lia.
    rewrite lookup_app_l by exact Hlt. exact Hpi. }
  { destruct (lazy_ext_inode _ _ _ _ Hsd Hpnode) as (pi' & Hpi' & Hlz).
    assert (pi' = pi) by congruence. subst pi'.
    destruct (lazy_inode_type _ _ Hlz) as (_ & -> & _). exact Hdir. }
  { rewrite Hic. exact Hname. }
  rewrite Hrun' in Hrun. injection Hrun as ->.
  rewrite Hic in *.
  assert (Hkb : keeps_links (FS.ignoreCase fs) sb s1).
  { eapply keeps_links_trans; [apply lazy_keeps_links; exact Hsd|].
    eapply keeps_links_trans; [|exact Hk].
    apply (keeps_update_fresh _ sd
             (with_inodes (inodes sd ++ [ni])
                (with_inoCount (inoCount sd + 1) (with_ticks (S (ticks sd)) sd)))).
    - eapply keeps_links_trans;
        [|apply (keeps_new_inode _ (with_inoCount (inoCount sd + 1)
                                      (with_ticks (S (ticks sd)) sd)) ni)].
      apply keeps_same; reflexivity.
    - apply lookup_ge_None. unfold node. lia. }
  assert (Hks : keeps_links (FS.ignoreCase fs) s s1).
  { eapply keeps_links_trans; [apply lazy_keeps_links; exact Hsb|exact Hkb]. }
  assert (Hty : Z.land (Inode.mode ni) S_IFMT = S_IFLNK) by apply mknod_type_bits.
  assert (Hwalk : _lfind this p s1
                  = Ok (Some (child_entry entry (basename p) node)) s1).
  { rewrite <- (dirname_basename p) at 1 by (eapply not_root_long; exact Hroot).
    eapply (walk_extend this true (basename p) node _ (dirname p) s entry sb fs);
      try eassumption.
    right. reflexivity. }
  assert (Hres1 := resolve_kept _ _ _ _ _ _ Hres Hks).
  split.
  - unfold readlinkSync. rewrite (bind_eq_Ok _ Hres1).
    rewrite (bind_eq_Ok _ (or_throw_Some _ ENOENT _ _ _ Hwalk)).
    cbn [child_entry FileDescription.node].
    rewrite (bind_eq_Ok _ (inode_at_eq _ _ _ Hni)).
    unfold isSymlinkInode.
    change (Inode.mode (linked _ _ _ (Inode.with_symlink _ ni))) with (Inode.mode ni).
    rewrite Hty. reflexivity.
  - destruct (stat_not_file this node _ s1 Hni) as (st & Hst & Hmode & Hnlink & _ & _ & Hsize).
    { unfold isFileInode.
      change (Inode.mode (linked _ _ _ (Inode.with_symlink _ ni))) with (Inode.mode ni).
      rewrite Hty. reflexivity. }
    exists st. split; [|split; [|split]].
    + unfold lstatSync. rewrite (bind_eq_Ok _ Hres1).
      rewrite (bind_eq_Ok _ (or_throw_Some _ ENOENT _ _ _ Hwalk)). exact Hst.
    + unfold Stats.isSymbolicLink. rewrite Hmode.
      change (Inode.mode (linked _ _ _ (Inode.with_symlink _ ni))) with (Inode.mode ni).
      rewrite Hty. reflexivity.
    + rewrite Hnlink. reflexivity.
    + rewrite Hsize. unfold isSymlinkInode.
      change (Inode.mode (linked _ _ _ (Inode.with_symlink _ ni))) with (Inode.mode ni).
      rewrite Hty. reflexivity.
Qed.

Lemma symlink_then_readlink_witness :
  readlinkSync 0 ["/"; "d"; "l"]%string (final_state symlink_result)
  = Ok ["/"; "f"]%string (final_state symlink_result)
  /\ exists st,
       lstatSync 0 ["/"; "d"; "l"]%string (final_state symlink_result)
       = Ok st (final_state symlink_result)
       /\ Stats.isSymbolicLink st = true
       /\ Stats.nlink st = 1%Z
       /\ Stats.size st = Z.of_nat (String.length (format ["/"; "f"]%string)).
Proof.
  apply (symlink_then_readlink 0 ["/"; "f"]%string ["/"; "d"; "l"]%string
           ["/"; "d"; "l"]%string rename_state (final_state symlink_result) rename_fs).
  - vm_compute; reflexivity.
  - vm_compute; reflexivity.
  - vm_compute; reflexivity.
  - vm_compute; reflexivity.
Defined.

#[local] Arguments Nat.leb : simpl never.

(** ** Opening, writing and reading a file *)

Lemma openSync_parts this path flags mode :
  openSync this path flags mode
  = (let* path := _resolve this path in
     let* flags := parseFlags flags in
     let write := open_write flags in
     let* ro := isReadonly this in
     if truthy write && ro then throw (IOError EROFS)
     else
       let* entry := _walk this path (truthy (Z.land flags O_NOFOLLOW)) in
       let* r := open_node this path flags mode entry in
       open_tail this path write r).
Proof. reflexivity. Qed.

(** A change of the descriptor table of one file system. *)
Lemma same_tree_alter_fs s s' this h :
  linkmaps s' = linkmaps s -> inodes s' = inodes s ->
  filesystems s' = alter h this (filesystems s) ->
  (forall f, exists t, h f = FS.with_openFiles t f) ->
  same_tree s s'.
Proof.
  intros Hm Hi Hf Hh. constructor; try congruence.
  - intros p i Hp. exists i. rewrite Hi. auto.
  - rewrite Hf. apply length_alter.
  - intros f fs Hfs. rewrite Hf. destruct (decide (this = f)) as [->|Hne].
    + rewrite list_lookup_alter_eq, Hfs. eexists. split; [reflexivity|].
      destruct (Hh fs) as [t ->]. repeat split.
    + rewrite list_lookup_alter_ne by auto. exists fs. repeat split; auto.
Qed.

(** The end of [openSync] on a node that can be opened, without [O_APPEND]
    and [O_SYNC]: the descriptor is the next one, its offset is 0 and, with
    [O_TRUNC], it has an empty buffer of its own. *)
Lemma open_tail_run this path write flags node parent n fs s :
  inodes s !! node = Some n -> filesystems s !! this = Some fs ->
  truthy (Z.land flags O_DIRECTORY) && isFileInode n = false ->
  truthy write && isDirectoryInode n = false ->
  (Z.land flags (Z.lor O_APPEND O_TRUNC) =? O_APPEND)%Z = false ->
  truthy (Z.land flags O_SYNC) = false ->
  exists s' e,
    open_tail this path write (flags, node, parent) s = Ok (fdCount s + 1)%Z s'
    /\ same_tree s s' /\ inodes s' = inodes s /\ fdCount s' = (fdCount s + 1)%Z
    /\ open_entry s' this (fdCount s + 1) = Some e
    /\ (forall fd', fd' <> (fdCount s + 1)%Z -> open_entry s' this fd' = open_entry s this fd')
    /\ OpenFile.fd e = (fdCount s + 1)%Z /\ OpenFile.node e = node
    /\ OpenFile.flags e = flags /\ OpenFile.offset e = 0%Z
    /\ (forall b, (b < length (buffers s))%nat -> buffers s' !! b = buffers s !! b)
    /\ (if truthy (Z.land flags O_TRUNC)
        then exists b, OpenFile.buffer e = Some b /\ buffers s' !! b = Some []
        else OpenFile.buffer e = None /\ buffers s' = buffers s).
Proof.
  intros Hn Hfs Hd Hw Ha Hs. unfold open_tail.
  rewrite (bind_eq_Ok _ (inode_at_eq _ _ _ Hn)). rewrite Hd, Hw, Ha, andb_false_r.
  rewrite (bind_eq_Ok _ (eq_refl : gets fdCount s = Ok (fdCount s) s)).
  rewrite (bind_eq_Ok _ (eq_refl : modify _ s = Ok tt _)).
  unfold ret at 1. unfold bind at 1.
  rewrite (bind_eq_Ok _ (eq_refl : update_fs this _ _ = Ok tt _)).
  set (fd := (fdCount s + 1)%Z).
  set (file := {| OpenFile.fd := fd; OpenFile.path := path |}).
  set (sa := with_fdCount fd s).
  assert (Hfsa : filesystems sa !! this = Some fs) by exact Hfs.
  destruct (open_entry_set this fd file sa fs Hfsa) as (Hopen & Hother).
  destruct (truthy (Z.land flags O_TRUNC)) eqn:Ht.
  - rewrite Hs. unfold bind, new_buffer, update_fs, modify, ret. cbv beta.
    eexists _, (OpenFile.with_buffer (Some (length (buffers s))) file).
    split; [reflexivity|].
    split.
    { eapply (same_tree_alter_fs s _ this); [reflexivity|reflexivity| |].
      - simpl. rewrite list_alter_alter_eq. reflexivity.
      - intros f. eexists. reflexivity. }
    split; [reflexivity|]. split; [reflexivity|].
    split.
    { unfold open_entry. simpl. rewrite !list_lookup_alter_eq, Hfs. simpl.
      apply jm_get_set_eq. }
    split.
    { intros fd' Hne. unfold open_entry. simpl. rewrite !list_lookup_alter_eq, Hfs. simpl.
      rewrite !jm_get_set_ne by auto. reflexivity. }
    repeat split.
    + intros b Hb. simpl. apply lookup_app_l. exact Hb.
    + exists (length (buffers s)). split; [reflexivity|].
      simpl. apply list_lookup_middle. reflexivity.
  - unfold bind, ret.
    eexists _, file. split; [reflexivity|].
    split.
    { eapply (same_tree_alter_fs s _ this); [reflexivity|reflexivity|reflexivity|].
      intros f. eexists. reflexivity. }
    split; [reflexivity|]. split; [reflexivity|].
    split; [exact Hopen|].
    split.
    { intros fd' Hne. rewrite (Hother fd' Hne). reflexivity. }
    repeat split.
Qed.

Lemma spliced_empty data : spliced [] data 0 = data.
Proof.
  unfold spliced. simpl. rewrite Nat.sub_0_r.
  rewrite drop_ge by (rewrite length_replicate; lia). apply app_nil_r.
Qed.

(** The loop of [writeFileSync] on a descriptor whose own buffer is empty:
    one [writeSync] writes all of [data]. *)
Lemma write_all this fd data flags s e n fs b :
  filesystems s !! this = Some fs ->
  open_entry s this fd = Some e -> OpenFile.fd e = fd ->
  inodes s !! OpenFile.node e = Some n -> isFileInode n = true ->
  isWritable e = true ->
  OpenFile.buffer e = Some b -> buffers s !! b = Some [] ->
  truthy (Z.land flags O_APPEND) = false ->
  Z.land (OpenFile.flags e) O_SYNC = 0%Z ->
  exists s1 b1 e1,
    write_loop (S (length data)) this fd data flags 0 s = Ok tt s1
    /\ same_tree s s1 /\ inodes s1 = inodes s /\ fdCount s1 = fdCount s
    /\ open_entry s1 this fd = Some e1
    /\ (forall fd', fd' <> fd -> open_entry s1 this fd' = open_entry s this fd')
    /\ OpenFile.buffer e1 = Some b1 /\ buffers s1 !! b1 = Some data
    /\ OpenFile.node e1 = OpenFile.node e /\ OpenFile.fd e1 = fd.
Proof.
  intros Hfs He Hfd Hn Hfile Hw Hb Hbuf Happ Hsync.
  destruct data as [|x data].
  - exists s, b, e. split; [reflexivity|]. split; [apply same_tree_refl|].
    repeat split; auto.
  - assert (Hc : visible s e = Some []) by (unfold visible; rewrite Hb; exact Hbuf).
    destruct (writeSync_run this fd (x :: data) 0 s e n [] fs Hfs He Hfd Hn Hfile Hw Hc)
      as (s1 & b1 & e1 & n1 & Hrun & Htree & Hcount & He1 & Hother & Hb1 & _ & Hnode & _
          & Hfd1 & Hbuf1 & _ & _ & Hin); [discriminate|].
    exists s1, b1, e1.
    split.
    { change (write_loop (S (length (x :: data))) this fd (x :: data) flags 0)
        with (if (0 <? byteLength (x :: data))%Z
              then let* r := writeSync this fd (x :: data) (Some 0%Z)
                               (Some (byteLength (x :: data) - 0)%Z)
                               (if truthy (Z.land flags O_APPEND) then None else Some 0%Z) in
                   match r with
                   | Some n => write_loop (length (x :: data)) this fd (x :: data) flags (0 + n)
                   | None => ret tt
                   end
              else ret tt).
      replace (0 <? byteLength (x :: data))%Z with true
        by (symmetry; apply Z.ltb_lt; unfold byteLength; simpl length; lia).
      rewrite Happ.
      change (writeSync this fd (x :: data) (Some 0%Z) (Some (byteLength (x :: data) - 0)%Z)
                (Some 0%Z))
        with (writeSync this fd (x :: data) None None (Some (Z.of_nat 0))).
      rewrite (bind_eq_Ok _ Hrun).
      simpl length. cbn [write_loop].
      replace (0 + Z.of_nat (S (length data)) <? byteLength (x :: data))%Z with false
        by (symmetry; apply Z.ltb_ge; unfold byteLength; simpl length; lia).
      reflexivity. }
    rewrite spliced_empty in Hbuf1.
    split; [exact Htree|].
    split; [apply Hin; exact Hsync|].
    repeat split; auto.
Qed.

(** A change of inodes that keeps the type, the links and the symlink target
    of each. *)
Lemma same_tree_inodes s s' node n n' :
  linkmaps s' = linkmaps s -> filesystems s' = filesystems s ->
  length (inodes s') = length (inodes s) ->
  (forall p, p <> node -> inodes s' !! p = inodes s !! p) ->
  inodes s !! node = Some n -> inodes s' !! node = Some n' ->
  Inode.mode n' = Inode.mode n -> Inode.links n' = Inode.links n ->
  Inode.symlink n' = Inode.symlink n ->
  same_tree s s'.
Proof.
  intros Hm Hf Hlen Hother Hn Hn' H1 H2 H3. constructor; try congruence.
  - intros p i Hp. destruct (decide (p = node)) as [->|Hne].
    + exists n'. assert (i = n) by congruence. subst i. auto.
    + exists i. rewrite (Hother p Hne). auto.
  - intros f fs Hfs. exists fs. rewrite Hf. repeat split; auto.
Qed.

(** [closeSync] of an open descriptor: the descriptor is removed and its
    buffer, if it has one, becomes the buffer of the file. *)
Lemma close_run this fd s e n fs :
  filesystems s !! this = Some fs ->
  open_entry s this fd = Some e ->
  inodes s !! OpenFile.node e = Some n ->
  (forall b, OpenFile.buffer e = Some b -> is_Some (buffers s !! b)) ->
  exists s' n',
    closeSync this fd s = Ok tt s'
    /\ same_tree s s' /\ buffers s' = buffers s /\ fdCount s' = fdCount s
    /\ (forall p, p <> OpenFile.node e -> inodes s' !! p = inodes s !! p)
    /\ inodes s' !! OpenFile.node e = Some n'
    /\ Inode.mode n' = Inode.mode n
    /\ (isFileInode n = true -> forall b, OpenFile.buffer e = Some b ->
        Inode.buffer n' = Some b)
    /\ (OpenFile.buffer e = None -> n' = n).
Proof.
  intros Hfs He Hn Hb.
  rewrite (closeSync_spec s this fd e n He Hn).
  destruct (fsync_runs this e true (unregister this e s) n
              (FS.with_openFiles (jm_delete Z.eqb (OpenFile.fd e) (FS._openFiles fs)) fs))
    as (s' & n' & Hrun & Hf & Hbuf & Hm & Hc & Hlen & Hother & Hn' & Hmode & Hlinks & Hsym
        & Hinst & Hnone).
  { exact Hn. }
  { unfold unregister. simpl. rewrite list_lookup_alter_eq, Hfs. reflexivity. }
  { exact Hb. }
  exists s', n'. split; [exact Hrun|].
  split.
  { eapply same_tree_trans.
    - eapply (same_tree_alter_fs s (unregister this e s) this);
        [reflexivity|reflexivity|reflexivity|].
      intros f. eexists. reflexivity.
    - eapply same_tree_inodes; eauto. }
  repeat split; auto.
Qed.

(** [_stat] of a regular file whose bytes are loaded. *)
Lemma stat_file_loaded this node n b c s :
  inodes s !! node = Some n -> isFileInode n = true ->
  Inode.buffer n = Some b -> buffers s !! b = Some c ->
  exists st,
    _stat this node s = Ok st s
    /\ Stats.size st = byteLength c /\ Stats.mode st = Inode.mode n
    /\ Stats.nlink st = Inode.nlink n /\ Stats.ino st = Inode.ino n.
Proof.
  intros Hn Hf Hb Hc. unfold _stat. rewrite (bind_eq_Ok _ (inode_at_eq _ _ _ Hn)), Hf.
  assert (Hsize : _getSize this node s = Ok (byteLength c) s).
  { unfold _getSize. simpl. rewrite (bind_eq_Ok _ (inode_at_eq _ _ _ Hn)), Hb.
    rewrite (bind_eq_Ok _ (buffer_at_eq _ _ _ Hc)). reflexivity. }
  rewrite (bind_eq_Ok _ Hsize). rewrite (bind_eq_Ok _ (inode_at_eq _ _ _ Hn)).
  eexists. split; [reflexivity|]. repeat split.
Qed.

Lemma readFileSync_parts this p flag :
  readFileSync this (ByPath p) flag
  = (let* fd := openSync this p flag 438 in read_opened this fd (closeSync this fd)).
Proof. reflexivity. Qed.

Lemma finally_Ok {A} (m : M A) (f : M unit) s a s1 s2 :
  m s = Ok a s1 -> f s1 = Ok tt s2 -> finally m f s = Ok a s2.
Proof. intros Hm Hf. unfold finally. rewrite Hm, Hf. reflexivity. Qed.

(** Reading all of a regular file through a new descriptor that can be
    read. *)
Lemma read_all this fd s e n fs b data :
  filesystems s !! this = Some fs ->
  open_entry s this fd = Some e -> OpenFile.fd e = fd ->
  inodes s !! OpenFile.node e = Some n -> isFileInode n = true ->
  isReadable e = true ->
  OpenFile.buffer e = None ->
  Inode.buffer n = Some b -> buffers s !! b = Some data ->
  exists s', read_opened this fd (closeSync this fd) s = Ok data s'.
Proof.
  intros Hfs He Hfd Hn Hfile Hr Hnone Hb Hdata.
  destruct (stat_file_loaded this _ n b data s Hn Hfile Hb Hdata) as (st & Hst & Hsize & _).
  assert (Hfstat : fstatSync this fd s = Ok st s).
  { unfold fstatSync.
    rewrite (bind_eq_Ok _ (file_run this fd None F_OK s e n He Hn I
                             (fun H => ltac:(discriminate H)) (fun H => ltac:(discriminate H)))).
    exact Hst. }
  unfold read_opened.
  rewrite (bind_eq_Ok _ Hfstat). cbv zeta. rewrite Hsize. unfold byteLength. rewrite Nat2Z.id.
  destruct data as [|x data].
  - destruct (close_run this fd s e n fs Hfs He Hn) as (s' & n' & Hclose & _).
    { intros b0 Hb0. congruence. }
    exists s'. eapply finally_Ok; [|exact Hclose]. reflexivity.
  - set (len := length (x :: data)).
    assert (Hc : visible s e = Some (x :: data)).
    { unfold visible. rewrite Hnone, Hn, Hb. exact Hdata. }
    destruct (readSync_run this fd (replicate len Byte.x00) 0 len s e n (x :: data) fs
                Hfs He Hfd Hn Hfile Hr Hc)
      as (s1 & b1 & e1 & Hread & Htree & Hin & Hbuf & _ & He1 & _ & Hb1 & Hbytes & _ & Hnode & _).
    { apply length_replicate. }
    { unfold len. simpl. lia. }
    rewrite (copy_read (x :: data) (replicate len Byte.x00) 0 len) in Hread.
    2: { apply length_replicate. }
    2: { unfold len. rewrite drop_0, firstn_all. reflexivity. }
    cbn [fst snd] in Hread. rewrite drop_0 in Hread.
    replace (take len (x :: data)) with (x :: data) in Hread
      by (symmetry; apply firstn_all).
    destruct (st_fs _ _ Htree _ _ Hfs) as (fs1 & Hfs1 & _).
    destruct (close_run this fd s1 e1 n fs1 Hfs1 He1) as (s' & n' & Hclose & _).
    { rewrite Hnode, Hin. exact Hn. }
    { intros b0 Hb0. assert (b0 = b1) by congruence. subst b0. rewrite Hbytes. eauto. }
    assert (Hloop : read_loop (S (S len)) this fd (replicate len Byte.x00) (Z.of_nat len) 0 None s
                    = Ok ((0 + Z.of_nat len)%Z, x :: data) s1).
    { change (read_loop (S (S len)) this fd (replicate len Byte.x00) (Z.of_nat len) 0 None)
        with (if negb false && (0 <? Z.of_nat len)%Z
              then let* r := readSync this fd (replicate len Byte.x00) 0 (Z.of_nat len - 0)
                               (Some 0%Z) in
                   read_loop (S len) this fd (snd r) (Z.of_nat len) (0 + fst r) (Some 0%Z)
              else ret (0%Z, replicate len Byte.x00)).
      replace (0 <? Z.of_nat len)%Z with true
        by (symmetry; apply Z.ltb_lt; unfold len; simpl; lia).
      cbn [negb andb]. rewrite Z.sub_0_r.
      change (Some 0%Z) with (Some (Z.of_nat 0)) at 1.
      rewrite (bind_eq_Ok _ Hread). cbn [fst snd].
      change (read_loop (S len) this fd (x :: data) (Z.of_nat len) (0 + Z.of_nat len) (Some 0%Z))
        with (if negb (0 =? 0 + Z.of_nat len)%Z && (0 + Z.of_nat len <? Z.of_nat len)%Z
              then let* r := readSync this fd (x :: data) (0 + Z.of_nat len)
                               (Z.of_nat len - (0 + Z.of_nat len))
                               (Some (0 + Z.of_nat len)%Z) in
                   read_loop len this fd (snd r) (Z.of_nat len) (0 + Z.of_nat len + fst r)
                     (Some (0 + Z.of_nat len)%Z)
              else ret ((0 + Z.of_nat len)%Z, x :: data)).
      replace (0 + Z.of_nat len <? Z.of_nat len)%Z with false by (symmetry; apply Z.ltb_ge; lia).
      rewrite andb_false_r. reflexivity. }
    exists s'. eapply finally_Ok; [|exact Hclose].
    rewrite (bind_eq_Ok _ Hloop).
    replace (0 + Z.of_nat len <? Z.of_nat len)%Z with false by (symmetry; apply Z.ltb_ge; lia).
    reflexivity.
Qed.

Lemma resolves_to_found this p s e sw fs :
  _walk this p false s = Ok (Some e) sw ->
  filesystems s !! this = Some fs ->
  resolves_to this (FS.ignoreCase fs) p (FileDescription.node e) sw.
Proof.
  intros Hw Hfs s' Hk. exists e. split; [|reflexivity].
  eapply walk_kept; eauto.
Qed.

Lemma writeFileSync_parts this p data mode :
  writeFileSync this (ByPath p) data (FlagString "w") mode
  = (let* fd := openSync this p (FlagNumber 577) mode in
     finally (write_loop (S (length data)) this fd data 577 0) (closeSync this fd)).
Proof. reflexivity. Qed.

(** [writeFileSync] with flag "w" from the point where [openSync] has the
    regular file [node] to open. *)
Lemma write_session this p parent data s fs node n :
  filesystems s !! this = Some fs ->
  inodes s !! node = Some n -> isFileInode n = true ->
  exists s1 n1 b fs1,
    (let* fd := open_tail this p (open_write 577) (577%Z, node, parent) in
     finally (write_loop (S (length data)) this fd data 577 0) (closeSync this fd)) s
    = Ok tt s1
    /\ same_tree s s1
    /\ filesystems s1 !! this = Some fs1
    /\ inodes s1 !! node = Some n1 /\ isFileInode n1 = true
    /\ Inode.buffer n1 = Some b /\ buffers s1 !! b = Some data.
Proof.
  intros Hfs Hn Hfile.
  assert (Hdir : isDirectoryInode n = false).
  { unfold isFileInode, isDirectoryInode in *. apply Z.eqb_eq in Hfile. rewrite Hfile.
    reflexivity. }
  destruct (open_tail_run this p (open_write 577) 577 node parent n fs s Hn Hfs)
    as (so & e & Hopen & Htree & Hin & Hcount & He & _ & Hfd & Hnode & Hflags & _ & _ & Hb);
    try reflexivity.
  { rewrite Hdir. apply andb_false_r. }
  change (truthy (Z.land 577 O_TRUNC)) with true in Hb. cbv iota in Hb.
  destruct Hb as (b0 & Hb0 & Hbuf0).
  destruct (st_fs _ _ Htree _ _ Hfs) as (fso & Hfso & _).
  assert (Hno : inodes so !! OpenFile.node e = Some n) by (rewrite Hnode, Hin; exact Hn).
  destruct (write_all this (fdCount s + 1) data 577 so e n fso b0 Hfso He Hfd Hno Hfile)
    as (sw & b1 & e1 & Hwrite & Htree1 & Hin1 & _ & He1 & _ & Hb1 & Hbuf1 & Hnode1 & _);
    try assumption; try reflexivity.
  { unfold isWritable. rewrite Hflags. reflexivity. }
  { rewrite Hflags. reflexivity. }
  destruct (st_fs _ _ Htree1 _ _ Hfso) as (fsw & Hfsw & _).
  assert (Hnw : inodes sw !! OpenFile.node e1 = Some n) by (rewrite Hnode1, Hin1; exact Hno).
  destruct (close_run this (fdCount s + 1) sw e1 n fsw Hfsw He1 Hnw)
    as (sc & n' & Hclose & Htree2 & Hbufc & _ & _ & Hn' & Hmode & Hinst & _).
  { intros b Hb. assert (b = b1) by congruence. subst b. rewrite Hbuf1. eauto. }
  destruct (st_fs _ _ Htree2 _ _ Hfsw) as (fsc & Hfsc & _).
  exists sc, n', b1, fsc.
  split.
  { rewrite (bind_eq_Ok _ Hopen). eapply finally_Ok; [exact Hwrite|exact Hclose]. }
  split; [eapply same_tree_trans; [exact Htree|eapply same_tree_trans; eassumption]|].
  split; [exact Hfsc|].
  split; [rewrite <- Hnode, <- Hnode1; exact Hn'|].
  split; [unfold isFileInode in *; rewrite Hmode; exact Hfile|].
  split; [apply Hinst; assumption|].
  rewrite Hbufc. exact Hbuf1.
Qed.

(** [readFileSync] with flag "r" of a path that resolves to a regular file
    whose bytes are loaded. *)
Lemma read_session this path p s fs e n b data :
  filesystems s !! this = Some fs ->
  _resolve this path s = Ok p s ->
  _walk this p false s = Ok (Some e) s ->
  inodes s !! FileDescription.node e = Some n -> isFileInode n = true ->
  Inode.buffer n = Some b -> buffers s !! b = Some data ->
  exists s2, readFileSync this (ByPath path) (FlagString "r") s = Ok data s2.
Proof.
  intros Hfs Hres Hwalk Hn Hfile Hb Hdata.
  rewrite readFileSync_parts, openSync_parts.
  assert (Hdir : isDirectoryInode n = false).
  { unfold isFileInode, isDirectoryInode in *. apply Z.eqb_eq in Hfile. rewrite Hfile.
    reflexivity. }
  destruct (open_tail_run this p (open_write 0) 0 (FileDescription.node e)
              (FileDescription.parent e) n fs s Hn Hfs)
    as (so & oe & Hopen & Htree & Hin & Hcount & He & _ & Hfd & Hnode & Hflags & _ & Hkeep & Hb0);
    try reflexivity.
  change (truthy (Z.land 0 O_TRUNC)) with false in Hb0. cbv iota in Hb0.
  destruct Hb0 as (Hnone & Hbufs).
  destruct (st_fs _ _ Htree _ _ Hfs) as (fso & Hfso & _).
  destruct (read_all this (fdCount s + 1) so oe n fso b data Hfso He Hfd) as (s2 & Hread);
    try assumption.
  { rewrite Hnode, Hin. exact Hn. }
  { unfold isReadable. rewrite Hflags. reflexivity. }
  { rewrite Hbufs. exact Hdata. }
  exists s2.
  assert (Hopen' : openSync this path (FlagString "r") 438 s = Ok (fdCount s + 1)%Z so).
  { rewrite openSync_parts. rewrite (bind_eq_Ok _ Hres).
    change (parseFlags (FlagString "r")) with (ret (A:=Z) 0%Z).
    unfold ret at 1. unfold bind at 1. cbv zeta.
    rewrite (bind_eq_Ok _ (isReadonly_eq _ _ _ Hfs)).
    change (truthy (open_write 0)) with false. cbn [andb].
    change (truthy (Z.land 0 O_NOFOLLOW)) with false.
    rewrite (bind_eq_Ok _ Hwalk).
    unfold open_node. change (truthy (Z.land 0 O_EXCL)) with false. cbv iota.
    unfold ret at 1. unfold bind at 1. exact Hopen. }
  rewrite <- openSync_parts. rewrite (bind_eq_Ok _ Hopen'). exact Hread.
Qed.

Lemma bind_same {A B} (m m' : M A) (k : A -> M B) s s' :
  m s = m' s' -> bind m k s = bind m' k s'.
Proof. unfold bind. intros ->. reflexivity. Qed.

(** X11.  What [writeFileSync] writes to a regular file, [readFileSync]
    reads: when the path resolves to a regular file of a file system that is
    not read-only, [writeFileSync(path, data)] (flag "w") returns, and
    [readFileSync(path)] (flag "r") in the store it leaves returns [data],
    whatever the file held before. *)
Theorem writeFile_then_readFile (this : fsref) (path p : Path) (data : list Byte.byte)
    (mode : Z) (s sw : State) (fs : FS.t) (e : FileDescription.t) (n : Inode.t) :
  filesystems s !! this = Some fs -> FS.frozen fs = false ->
  _resolve this path s = Ok p s ->
  _find this p s = Ok (Some e) sw ->
  inodes sw !! FileDescription.node e = Some n -> isFileInode n = true ->
  exists s1 s2,
    writeFileSync this (ByPath path) data (FlagString "w") mode s = Ok tt s1
    /\ readFileSync this (ByPath path) (FlagString "r") s1 = Ok data s2.
Proof.
  intros Hfs Hrw Hres Hwalk Hn Hfile.
  assert (Hsw : lazy_ext s sw).
  { eapply lazy_ext_run; [exact Hwalk|]. intros; apply lazy_walk; assumption. }
  destruct (lazy_ext_fs _ _ _ _ Hsw Hfs) as (fsw & Hfsw & Hic & _).
  destruct (write_session this p (FileDescription.parent e) data sw fsw
              (FileDescription.node e) n Hfsw Hn Hfile)
    as (s1 & n1 & b & fs1 & Hrun & Htree & Hfs1 & Hn1 & Hfile1 & Hb & Hbuf).
  assert (Hopen : openSync this path (FlagNumber 577) mode s
                  = open_tail this p (open_write 577)
                      (577%Z, FileDescription.node e, FileDescription.parent e) sw).
  { rewrite openSync_parts. rewrite (bind_eq_Ok _ Hres).
    unfold parseFlags. unfold ret at 1. unfold bind at 1. cbv zeta.
    rewrite (bind_eq_Ok _ (isReadonly_eq _ _ _ Hfs)). rewrite Hrw, andb_false_r.
    change (truthy (Z.land 577 O_NOFOLLOW)) with false.
    rewrite (bind_eq_Ok _ Hwalk).
    unfold open_node. change (truthy (Z.land 577 O_EXCL)) with false. cbv iota.
    unfold ret at 1. unfold bind at 1. reflexivity. }
  assert (Hk : keeps_links (FS.ignoreCase fs) sw s1) by (apply same_tree_keeps_links; exact Htree).
  assert (Hks : keeps_links (FS.ignoreCase fs) s s1).
  { eapply keeps_links_trans; [apply lazy_keeps_links; exact Hsw|exact Hk]. }
  destruct (read_session this path p s1 fs1 e n1 b data Hfs1
              (resolve_kept _ _ _ _ _ _ Hres Hks)
              (walk_kept this p false s e sw fs Hwalk Hfs s1 Hk) Hn1 Hfile1 Hb Hbuf)
    as (s2 & Hread).
  exists s1, s2. split; [|exact Hread].
  rewrite writeFileSync_parts. rewrite (bind_same _ _ _ _ _ Hopen). exact Hrun.
Qed.

Lemma writeFile_then_readFile_witness :
  exists s1 s2,
    writeFileSync 0 (ByPath ["/"; "f"]%string) overwrite_data (FlagString "w") 438 rename_state
    = Ok tt s1
    /\ readFileSync 0 (ByPath ["/"; "f"]%string) (FlagString "r") s1 = Ok overwrite_data s2.
Proof.
  apply (writeFile_then_readFile 0 ["/"; "f"]%string ["/"; "f"]%string overwrite_data 438
           rename_state (final_state found_f) rename_fs found_f_entry found_f_inode).
  - vm_compute; reflexivity.
  - vm_compute; reflexivity.
  - vm_compute; reflexivity.
  - vm_compute; reflexivity.
  - vm_compute; reflexivity.
  - vm_compute; reflexivity.
Defined.

#[local] Arguments Nat.leb : simpl never.

(** ** Names that a directory does not have *)

Lemma walk_steps_absent this noFollow depth name :
  forall rest done links parent s r s1 fs,
    walk_steps this false depth done rest links parent s = Ok r s1 ->
    filesystems s !! this = Some fs ->
    forall s', keeps_links (FS.ignoreCase fs) s1 s' ->
      match r with
      | Found e =>
          unlinked_in s' (FS.ignoreCase fs) (FileDescription.node e) name ->
          walk_steps this noFollow depth done (rest ++ [name]) links parent s'
          = Ok Missing s'
      | Restart cs =>
          walk_steps this noFollow depth done (rest ++ [name]) links parent s'
          = Ok (Restart (cs ++ [name])) s'
      | Missing => True
      end.
Proof.
  induction rest as [|basename rest' IH]; intros done links parent s r s1 fs Hrun Hfs s' Hs'.
  - simpl in Hrun. injection Hrun as <- <-. exact I.
  - assert (Hlz : lazy_ext s s1).
    { eapply lazy_ext_run; [exact Hrun|]. intros; apply lazy_walk_steps; assumption. }
    assert (Hk : keeps_links (FS.ignoreCase fs) s s').
    { eapply keeps_links_trans; [apply lazy_keeps_links; exact Hlz|exact Hs']. }
    rewrite walk_steps_cons in Hrun.
    change ((basename :: rest') ++ [name]) with (basename :: (rest' ++ [name])).
    rewrite walk_steps_cons.
    destruct (40 <=? depth)%nat eqn:Hdepth; [discriminate|]. cbv zeta in Hrun |- *.
    rewrite (bind_eq_Ok _ (fs_at_eq _ _ _ Hfs)) in Hrun.
    apply bind_Ok in Hrun as (m & s0 & Hm & Hrun). apply map_at_Ok in Hm as [-> Hm].
    destruct (kl_fs _ _ _ Hk _ _ Hfs) as (fs' & Hfs' & Hic & _).
    destruct (sm_get (FS.ignoreCase fs) basename m) as [node|] eqn:Hget.
    2: { injection Hrun as <- <-. exact I. }
    destruct (kl_maps _ _ _ Hk _ _ _ _ Hm Hget) as (m' & Hm' & Hget').
    apply bind_Ok in Hrun as (n & s0 & Hn & Hrun). apply inode_at_Ok in Hn as [-> Hn].
    destruct (kl_inodes _ _ _ Hk _ _ Hn) as (n' & Hn' & Hmode & Hsym & Hlinks).
    assert (Hty : isSymlinkInode n' = isSymlinkInode n /\ isDirectoryInode n' = isDirectoryInode n).
    { unfold isSymlinkInode, isDirectoryInode. rewrite Hmode. auto. }
    destruct Hty as [Hty1 Hty2].
    assert (Hhead : forall (k : ptr -> Inode.t -> M WalkStep),
               (let* fs0 := fs_at this in
                let* m0 := map_at links in
                match sm_get (FS.ignoreCase fs0) basename m0 with
                | None => ret Missing
                | Some node0 => let* n0 := inode_at node0 in k node0 n0
                end) s' = k node n' s').
    { intros k. rewrite (bind_eq_Ok _ (fs_at_eq _ _ _ Hfs')). rewrite Hic.
      rewrite (bind_eq_Ok _ (map_at_eq _ _ _ Hm')). rewrite Hget'.
      rewrite (bind_eq_Ok _ (inode_at_eq _ _ _ Hn')). reflexivity. }
    rewrite Hhead. rewrite Hty1, Hty2, Hsym.
    replace (match rest' ++ [name] with [] => true | _ => false end) with false
      by (destruct rest'; reflexivity).
    cbn [andb negb] in Hrun. rewrite andb_true_r in Hrun.
    rewrite andb_false_r. cbn [negb]. rewrite andb_true_r.
    destruct (isSymlinkInode n) eqn:Hsymn.
    { destruct (Inode.symlink n) as [target|]; [|discriminate].
      destruct (negb (isAbsolute (resolve done target))); [discriminate|].
      injection Hrun as <- <-. rewrite <- app_assoc. reflexivity. }
    destruct rest' as [|b2 rest2].
    { destruct (match parent with
                | Some _ => parent
                | None => if isDirectoryInode n then Some node else None
                end) as [p|] eqn:Hpar; [|discriminate].
      injection Hrun as <- <-. cbn [FileDescription.node].
      intros (nd & l & ml & Hnd & Hd & Hl & Hml & Hgx).
      assert (nd = n') by congruence. subst nd.
      rewrite <- Hty2, Hd.
      rewrite (bind_eq_Ok _ (getLinks_ready this node n' l s' Hn' Hl)).
      change ([] ++ [name]) with [name].
      rewrite walk_steps_cons. rewrite Hdepth. cbv zeta.
      rewrite (bind_eq_Ok _ (fs_at_eq _ _ _ Hfs')). rewrite Hic.
      rewrite (bind_eq_Ok _ (map_at_eq _ _ _ Hml)). rewrite Hgx.
      reflexivity. }
    destruct (isDirectoryInode n) eqn:Hdir; [|discriminate].
    apply bind_Ok in Hrun as (links' & sa & Hgl & Hrun).
    assert (Hsa : lazy_ext s sa).
    { eapply lazy_ext_run; [exact Hgl|]. intros; apply lazy_getLinks; assumption. }
    assert (Hsa1 : lazy_ext sa s1).
    { eapply lazy_ext_run; [exact Hrun|]. intros; apply lazy_walk_steps; assumption. }
    destruct (getLinks_rec_spec _ _ _ _ _ _ Hgl) as (ia & Hia & Hla).
    assert (Hka : keeps_links (FS.ignoreCase fs) sa s').
    { eapply keeps_links_trans; [apply lazy_keeps_links; exact Hsa1|exact Hs']. }
    destruct (kl_inodes _ _ _ Hka _ _ Hia) as (ia' & Hia' & _ & _ & Hlia).
    rewrite (bind_eq_Ok _ (getLinks_ready this node ia' links' s' Hia' (Hlia _ Hla))).
    destruct (lazy_ext_fs _ _ _ _ Hsa Hfs) as (fsa & Hfsa & Hica & _).
    rewrite <- Hica in Hs'.
    pose proof (IH (done ++ [basename]) links' (Some node) sa r s1 fsa Hrun Hfsa s' Hs') as HIH.
    destruct r as [e| |cs]; [|exact I|].
    + intros Hun. rewrite Hica in HIH. apply HIH. exact Hun.
    + exact HIH.
Qed.

Lemma walk_pass_absent this noFollow depth name cs s r s1 fs :
  walk_pass this false depth cs s = Ok r s1 ->
  filesystems s !! this = Some fs ->
  forall s', keeps_links (FS.ignoreCase fs) s1 s' ->
    match r with
    | Found e =>
        unlinked_in s' (FS.ignoreCase fs) (FileDescription.node e) name ->
        walk_pass this noFollow depth (cs ++ [name]) s' = Ok Missing s'
    | Restart cs' =>
        walk_pass this noFollow depth (cs ++ [name]) s' = Ok (Restart (cs' ++ [name])) s'
    | Missing => True
    end.
Proof.
  intros Hrun Hfs s' Hs'. unfold walk_pass in *.
  apply bind_Ok in Hrun as (rl & sa & Hrl & Hrun).
  assert (Hsa : lazy_ext s sa).
  { eapply lazy_ext_run; [exact Hrl|]. intros; apply lazy_getRootLinks; assumption. }
  assert (Hsa1 : lazy_ext sa s1).
  { eapply lazy_ext_run; [exact Hrun|]. intros; apply lazy_walk_steps; assumption. }
  destruct (getRootLinks_rec_spec _ _ _ _ _ Hrl) as (fa & Hfa & Hlla).
  assert (Hka : keeps_links (FS.ignoreCase fs) sa s').
  { eapply keeps_links_trans; [apply lazy_keeps_links; exact Hsa1|exact Hs']. }
  destruct (kl_fs _ _ _ Hka _ _ Hfa) as (fa' & Hfa' & _ & _ & Hll).
  rewrite (bind_eq_Ok _ (getRootLinks_ready this fa' rl s' Hfa' (Hll _ Hlla))).
  destruct (lazy_ext_fs _ _ _ _ Hsa Hfs) as (fsa & Hfsa & Hica & _).
  rewrite <- Hica in Hs' |- *.
  exact (walk_steps_absent this noFollow depth name cs [] rl None sa r s1 fsa
           Hrun Hfsa s' Hs').
Qed.

Lemma walk_loop_absent this noFollow name budget :
  forall depth cs s e s1 fs,
    walk_loop budget this false depth cs s = Ok (Some e) s1 ->
    filesystems s !! this = Some fs ->
    forall s', keeps_links (FS.ignoreCase fs) s1 s' ->
      unlinked_in s' (FS.ignoreCase fs) (FileDescription.node e) name ->
      walk_loop budget this noFollow depth (cs ++ [name]) s' = Ok None s'.
Proof.
  induction budget as [|budget IH]; intros depth cs s e s1 fs Hrun Hfs s' Hs' Hl;
    rewrite walk_loop_unfold in Hrun |- *;
    destruct (walk_pass this false depth cs s) as [[e'| |cs'] sa|e' sa] eqn:Hp;
    try discriminate.
  1,2: injection Hrun as <- <-;
    rewrite (walk_pass_absent this noFollow depth name cs s _ _ fs Hp Hfs s' Hs' Hl);
    reflexivity.
  assert (Hsa : lazy_ext s sa).
  { eapply lazy_ext_run; [exact Hp|]. intros. unfold walk_pass.
    apply lazy_bind; [apply lazy_getRootLinks; assumption|].
    intros rl s2 _ H2. apply lazy_walk_steps. eapply lazy_upto_bounded; eauto. }
  assert (Hsa1 : lazy_ext sa s1).
  { eapply lazy_ext_run; [exact Hrun|]. intros; apply lazy_walk_loop; assumption. }
  rewrite (walk_pass_absent this noFollow depth name cs s _ _ fs Hp Hfs s').
  2: { eapply keeps_links_trans; [apply lazy_keeps_links; exact Hsa1|exact Hs']. }
  destruct (lazy_ext_fs _ _ _ _ Hsa Hfs) as (fsa & Hfsa & Hica & _).
  rewrite <- Hica in Hs', Hl.
  eapply IH; eauto.
Qed.

(** The lookup of a name that the directory a path resolves to does not
    have finds nothing. *)
Lemma walk_absent this noFollow name cs s e s1 fs :
  _walk this cs false s = Ok (Some e) s1 ->
  filesystems s !! this = Some fs ->
  forall s', keeps_links (FS.ignoreCase fs) s1 s' ->
    unlinked_in s' (FS.ignoreCase fs) (FileDescription.node e) name ->
    _walk this (cs ++ [name]) noFollow s' = Ok None s'.
Proof. apply walk_loop_absent. Qed.

#[local] Arguments Nat.leb : simpl never.

Lemma linked_in_same_tree s s' ic dir name x :
  same_tree s s' -> linked_in s ic dir name x -> linked_in s' ic dir name x.
Proof.
  intros Ht (n & l & m & Hn & Hd & Hl & Hm & Hg).
  destruct (st_inodes _ _ Ht _ _ Hn) as (n' & Hn' & Hmode & Hlinks & _).
  exists n', l, m. rewrite (st_maps _ _ Ht).
  repeat split; auto; try congruence.
  unfold isDirectoryInode in *. rewrite Hmode. exact Hd.
Qed.

Lemma file_is_not_symlink n : isFileInode n = true -> isSymlinkInode n = false.
Proof.
  unfold isFileInode, isSymlinkInode. intros H. apply Z.eqb_eq in H. rewrite H. reflexivity.
Qed.

(** The file that [openSync] makes with flag "w" for a name that the parent
    directory does not have. *)
Lemma open_node_creates this p mode s fs e pn l m :
  filesystems s !! this = Some fs ->
  _walk this (dirname p) false s = Ok (Some e) s ->
  inodes s !! FileDescription.node e = Some pn -> isDirectoryInode pn = true ->
  Inode.links pn = Some l -> linkmaps s !! l = Some m ->
  sm_get (FS.ignoreCase fs) (basename p) m = None ->
  exists s' n,
    open_node this p 577 mode None s
    = Ok (577%Z, length (inodes s), FileDescription.node e) s'
    /\ keeps_links (FS.ignoreCase fs) s s'
    /\ linked_in s' (FS.ignoreCase fs) (FileDescription.node e) (basename p) (length (inodes s))
    /\ inodes s' !! length (inodes s) = Some n /\ isFileInode n = true
    /\ Z.land (Inode.mode n) 4095 = Z.land (Z.land mode (Z.lnot 18)) 4095
    /\ filesystems s' = filesystems s.
Proof.
  intros Hfs Hwalk Hpn Hdir Hl Hm Hname.
  set (pnode := FileDescription.node e) in *.
  set (node := length (inodes s)).
  set (ni := mknod_inode (Inode.dev pn) S_IFREG mode default_umask (inoCount s + 1)
               (FS._time fs (ticks s))).
  set (b := length (buffers s)).
  set (sa := with_inodes (alter (Inode.with_buffer (Some b)) node (inodes s ++ [ni]))
               (with_buffers (buffers s ++ [[]])
                  (with_inoCount (inoCount s + 1) (with_ticks (S (ticks s)) s)))).
  assert (Hlt : (pnode < node)%nat) by (eapply lookup_lt_Some; exact Hpn).
  assert (Hna : inodes sa !! node = Some (Inode.with_buffer (Some b) ni)).
  { subst sa; simpl. rewrite list_lookup_alter_eq.
    rewrite list_lookup_middle by reflexivity. reflexivity. }
  assert (Hpa : inodes sa !! pnode = Some pn).
  { subst sa; simpl. rewrite list_lookup_alter_ne by lia.
    rewrite lookup_app_l by exact Hlt. exact Hpn. }
  destruct (link_new_node this fs pnode l (basename p) node (Inode.with_buffer (Some b) ni)
              pn m sa)
    as (s' & Hrun & Hk & Hlinked & Hni & Hfs1 & _); try assumption.
  { lia. }
  exists s', (linked (FS.ignoreCase fs) (Some pnode) (basename p) (Inode.with_buffer (Some b) ni)).
  assert (Hty : Z.land (Inode.mode ni) S_IFMT = S_IFREG) by apply mknod_type_bits.
  split.
  { unfold open_node.
    change (truthy (Z.land (Z.lnot 577) O_CREAT)) with false.
    change (truthy (Z.land 577 O_DIRECTORY)) with false. cbv iota zeta.
    change (Z.lor 577 O_TRUNC) with 577%Z.
    rewrite (bind_eq_Ok _ (or_throw_Some _ ENOENT _ _ _ Hwalk)).
    rewrite (bind_eq_Ok _ (inode_at_eq _ _ _ Hpn)). rewrite Hdir. cbn [negb].
    rewrite (bind_eq_Ok _ (mknod_spec _ _ _ _ _ _ _ Hfs)).
    rewrite (bind_eq_Ok _ (eq_refl : new_buffer [] _ = Ok _ _)).
    rewrite (bind_eq_Ok _ (update_inode_run _ _ _)).
    rewrite (bind_eq_Ok _ (getLinks_ready this pnode pn l sa Hpa Hl)).
    apply bind_Ok in Hrun as ([] & sb & Hadd & Hrun).
    apply bind_Ok in Hrun as (t & sc & Ht & Hupd).
    rewrite (bind_eq_Ok _ Hadd), (bind_eq_Ok _ Ht), (bind_eq_Ok _ Hupd). reflexivity. }
  split; [|split; [exact Hlinked|split; [exact Hni|split; [|split]]]].
  - eapply keeps_links_trans; [|exact Hk].
    apply (keeps_update_fresh _ s
             (with_inodes (inodes s ++ [ni])
                (with_buffers (buffers s ++ [[]])
                   (with_inoCount (inoCount s + 1) (with_ticks (S (ticks s)) s))))).
    + eapply keeps_links_trans;
        [|apply (keeps_new_inode _ (with_buffers (buffers s ++ [[]])
                                      (with_inoCount (inoCount s + 1)
                                         (with_ticks (S (ticks s)) s))) ni)].
      apply keeps_same; reflexivity.
    + apply lookup_ge_None. unfold node. lia.
  - unfold isFileInode.
    change (Inode.mode (linked _ _ _ (Inode.with_buffer _ ni))) with (Inode.mode ni).
    rewrite Hty. reflexivity.
  - change (Inode.mode (linked _ _ _ (Inode.with_buffer _ ni))) with (Inode.mode ni).
    apply mknod_permission_bits.
  - exact Hfs1.
Qed.

(** X12.  [writeFileSync] makes the file when the name is free: when the
    parent directory of the path is found, its links are built and have no
    entry for the base name, and the file system is not read-only,
    [writeFileSync(path, data, { mode })] (flag "w") returns; afterwards
    [statSync(path)] reports a regular file of [data.length] bytes with the
    permission bits [mode & ~0o022 & 0o7777], and [readFileSync(path)]
    returns [data]. *)
Theorem writeFile_creates (this : fsref) (path p : Path) (data : list Byte.byte)
    (mode : Z) (s : State) (fs : FS.t) (e : FileDescription.t) :
  filesystems s !! this = Some fs -> FS.frozen fs = false ->
  _resolve this path s = Ok p s ->
  is_root_path (FS.ignoreCase fs) p = false ->
  _find this (dirname p) s = Ok (Some e) s ->
  unlinked_in s (FS.ignoreCase fs) (FileDescription.node e) (basename p) ->
  exists s1 s2 st,
    writeFileSync this (ByPath path) data (FlagString "w") mode s = Ok tt s1
    /\ statSync this path s1 = Ok st s1
    /\ Stats.isFile st = true /\ Stats.size st = Z.of_nat (length data)
    /\ Z.land (Stats.mode st) 4095 = Z.land (Z.land mode (Z.lnot 18)) 4095
    /\ readFileSync this (ByPath path) (FlagString "r") s1 = Ok data s2.
Proof.
  intros Hfs Hrw Hres Hroot Hwalk (pn & l & m & Hpn & Hdir & Hl & Hm & Hname).
  assert (Hp : dirname p ++ [basename p] = p).
  { apply dirname_basename. eapply not_root_long; exact Hroot. }
  assert (Hnone : _walk this p false s = Ok None s).
  { rewrite <- Hp at 1.
    apply (walk_absent this false (basename p) (dirname p) s e s fs Hwalk Hfs s
             (keeps_links_refl _ _)).
    exists pn, l, m. auto. }
  destruct (open_node_creates this p mode s fs e pn l m Hfs Hwalk Hpn Hdir Hl Hm Hname)
    as (sc & n & Hnode & Hk & Hlinked & Hn & Hfile & Hperm & Hfsc).
  assert (Hfsc' : filesystems sc !! this = Some fs) by (rewrite Hfsc; exact Hfs).
  destruct (write_session this p (FileDescription.node e) data sc fs (length (inodes s)) n
              Hfsc' Hn Hfile)
    as (s1 & n1 & b & fs1 & Hrun & Htree & Hfs1 & Hn1 & Hfile1 & Hb & Hbuf).
  assert (Hopen : openSync this path (FlagNumber 577) mode s
                  = open_tail this p (open_write 577)
                      (577%Z, length (inodes s), FileDescription.node e) sc).
  { rewrite openSync_parts. rewrite (bind_eq_Ok _ Hres).
    unfold parseFlags. unfold ret at 1. unfold bind at 1. cbv zeta.
    rewrite (bind_eq_Ok _ (isReadonly_eq _ _ _ Hfs)). rewrite Hrw, andb_false_r.
    change (truthy (Z.land 577 O_NOFOLLOW)) with false.
    rewrite (bind_eq_Ok _ Hnone). rewrite (bind_eq_Ok _ Hnode). reflexivity. }
  assert (Hks : keeps_links (FS.ignoreCase fs) s s1).
  { eapply keeps_links_trans; [exact Hk|apply same_tree_keeps_links; exact Htree]. }
  assert (Hfound : _walk this p false s1
                   = Ok (Some (child_entry e (basename p) (length (inodes s)))) s1).
  { rewrite <- Hp at 1.
    apply (walk_extend this false (basename p) (length (inodes s)) n1 (dirname p) s e s fs
             Hwalk Hfs s1 Hks Hn1).
    - left. apply file_is_not_symlink. exact Hfile1.
    - eapply linked_in_same_tree; eassumption. }
  assert (Hres1 := resolve_kept _ _ _ _ _ _ Hres Hks).
  destruct (read_session this path p s1 fs1 _ n1 b data Hfs1 Hres1 Hfound Hn1 Hfile1 Hb Hbuf)
    as (s2 & Hread).
  destruct (stat_file_loaded this _ n1 b data s1 Hn1 Hfile1 Hb Hbuf)
    as (st & Hst & Hsize & Hmode & Hnlink & _).
  destruct (st_inodes _ _ Htree _ _ Hn) as (n1' & Hn1' & Hmode1 & _).
  assert (n1' = n1) by congruence. subst n1'.
  exists s1, s2, st.
  split; [rewrite writeFileSync_parts; rewrite (bind_same _ _ _ _ _ Hopen); exact Hrun|].
  split.
  { unfold statSync. rewrite (bind_eq_Ok _ Hres1).
    rewrite (bind_eq_Ok _ (or_throw_Some _ ENOENT _ _ _ Hfound)). exact Hst. }
  split; [unfold Stats.isFile; rewrite Hmode; exact Hfile1|].
  split; [exact Hsize|].
  split; [rewrite Hmode, Hmode1; exact Hperm|].
  exact Hread.
Qed.

Lemma writeFile_creates_witness :
  exists s1 s2 st,
    writeFileSync 0 (ByPath ["/"; "d"; "new.txt"]%string) overwrite_data (FlagString "w") 438
      rename_state = Ok tt s1
    /\ statSync 0 ["/"; "d"; "new.txt"]%string s1 = Ok st s1
    /\ Stats.isFile st = true /\ Stats.size st = Z.of_nat (length overwrite_data)
    /\ Z.land (Stats.mode st) 4095 = Z.land (Z.land 438 (Z.lnot 18)) 4095
    /\ readFileSync 0 (ByPath ["/"; "d"; "new.txt"]%string) (FlagString "r") s1
       = Ok overwrite_data s2.
Proof.
  apply (writeFile_creates 0 ["/"; "d"; "new.txt"]%string ["/"; "d"; "new.txt"]%string
           overwrite_data 438 rename_state rename_fs found_d_entry).
  - vm_compute; reflexivity.
  - vm_compute; reflexivity.
  - vm_compute; reflexivity.
  - vm_compute; reflexivity.
  - vm_compute; reflexivity.
  - vm_compute. eexists _, _, _. repeat split; reflexivity.
Defined.

#[local] Arguments Nat.leb : simpl never.

(** ** Hard links *)

Lemma keeps_node_paths : keeps_node (Inode.with_paths None).
Proof. intros i. auto. Qed.

Lemma linked_in_update s ic dir name x q f :
  keeps_node f -> linked_in s ic dir name x ->
  linked_in (with_inodes (alter f q (inodes s)) s) ic dir name x.
Proof.
  intros Hf (n & l & m & Hn & Hd & Hl & Hm & Hg).
  destruct (decide (dir = q)) as [->|Hne].
  - exists (f n), l, m. simpl. rewrite list_lookup_alter_eq, Hn.
    destruct (Hf n) as (Hmode & _ & Hlinks).
    repeat split; auto; try congruence.
    unfold isDirectoryInode in *. rewrite Hmode. exact Hd.
  - exists n, l, m. simpl. rewrite list_lookup_alter_ne by congruence. auto.
Qed.

Lemma linked_in_insert s ic dir name x q j :
  dir <> q -> linked_in s ic dir name x ->
  linked_in (with_inodes (<[q := j]> (inodes s)) s) ic dir name x.
Proof.
  intros Hne (n & l & m & Hn & Hd & Hl & Hm & Hg).
  exists n, l, m. simpl. rewrite list_lookup_insert_ne by congruence. auto.
Qed.

(** X13.  A hard link shares the inode: after [linkSync(oldpath, newpath)]
    with a [newpath] that is not a root has returned, both paths resolve to
    the same node, which is not a directory and has one link more than
    before, and [statSync] of the two paths gives the same result. *)
Theorem link_shares_inode (this : fsref) (oldpath newpath po pn : Path) (s s1 : State)
    (fs : FS.t) :
  filesystems s !! this = Some fs ->
  _resolve this oldpath s = Ok po s ->
  _resolve this newpath s = Ok pn s ->
  is_root_path (FS.ignoreCase fs) pn = false ->
  linkSync this oldpath newpath s = Ok tt s1 ->
  exists e1 e2 n,
    _find this po s1 = Ok (Some e1) s1
    /\ _find this pn s1 = Ok (Some e2) s1
    /\ FileDescription.node e2 = FileDescription.node e1
    /\ inodes s1 !! FileDescription.node e1 = Some n
    /\ isDirectoryInode n = false
    /\ (forall n0, inodes s !! FileDescription.node e1 = Some n0 ->
                   Inode.nlink n = (Inode.nlink n0 + 1)%Z)
    /\ statSync this newpath s1 = statSync this oldpath s1.
Proof.
  intros Hfs Hreso Hresn Hroot Hrun. unfold linkSync in Hrun.
  rewrite (bind_eq_Ok _ Hreso) in Hrun. rewrite (bind_eq_Ok _ Hresn) in Hrun.
  apply bind_Ok in Hrun as (entry & sa & Hentry & Hrun). apply or_throw_Ok in Hentry.
  cbv zeta in Hrun.
  set (node := FileDescription.node entry) in *.
  apply bind_Ok in Hrun as (n0 & s0 & Hn0 & Hrun). apply inode_at_Ok in Hn0 as [-> Hn0].
  destruct (isDirectoryInode n0) eqn:Hnd; [discriminate|].
  apply bind_Ok in Hrun as (newEntry & sb & Hnew & Hrun). apply or_throw_Ok in Hnew.
  set (parent := FileDescription.node newEntry) in *.
  apply bind_Ok in Hrun as (np & s0 & Hnp & Hrun). apply inode_at_Ok in Hnp as [-> Hnp].
  destruct (isDirectoryInode np) eqn:Hpd; [|discriminate]. cbn [negb] in Hrun.
  apply bind_Ok in Hrun as (links & sc & Hgl & Hrun).
  apply bind_Ok in Hrun as (m & s0 & Hm & Hrun). apply map_at_Ok in Hm as [-> Hm].
  assert (Hsa : lazy_ext s sa).
  { eapply lazy_ext_run; [exact Hentry|]. intros; apply lazy_walk; assumption. }
  assert (Hsb : lazy_ext sa sb).
  { eapply lazy_ext_run; [exact Hnew|]. intros; apply lazy_walk; assumption. }
  assert (Hsc : lazy_ext sb sc).
  { eapply lazy_ext_run; [exact Hgl|]. intros; apply lazy_getLinks; assumption. }
  destruct (getLinks_rec_spec _ _ _ _ _ _ Hgl) as (pi & Hpi & Hlinks).
  destruct (lazy_ext_fs _ _ _ _ Hsa Hfs) as (fsa & Hfsa & Hica & _).
  destruct (lazy_ext_fs _ _ _ _ (lazy_ext_trans _ _ _ Hsb Hsc) Hfsa)
    as (fsc & Hfsc & Hicc & _).
  rewrite (bind_eq_Ok _ (fs_at_eq _ _ _ Hfsc)) in Hrun.
  assert (Hic : FS.ignoreCase fsc = FS.ignoreCase fs) by congruence.
  unfold sm_has in Hrun.
  destruct (sm_get (FS.ignoreCase fsc) (basename pn) m) eqn:Hname; [discriminate|].
  destruct (FS.frozen fsc); [discriminate|].
  destruct (lazy_ext_inode _ _ _ _ (lazy_ext_trans _ _ _ Hsb Hsc) Hn0) as (nc & Hnc & Hlzn).
  destruct (lazy_inode_type _ _ Hlzn) as (Hsymc & Hdirc & _).
  assert (Hpdir : isDirectoryInode pi = true).
  { destruct (lazy_ext_inode _ _ _ _ Hsc Hnp) as (pi' & Hpi' & Hlz).
    assert (pi' = pi) by congruence. subst pi'.
    destruct (lazy_inode_type _ _ Hlz) as (_ & -> & _). exact Hpd. }
  assert (Hne : node <> parent).
  { intros E. rewrite E in Hnc. assert (nc = pi) by congruence. subst nc. congruence. }
  destruct (link_new_node this fsc parent links (basename pn) node nc pi m sc)
    as (sd & Hrun' & Hk & Hlinked & Hni & Hfsd & _); try assumption.
  apply bind_Ok in Hrun as ([] & sx & Hadd & Hrun).
  apply bind_Ok in Hrun as (t & sy & Ht & Hrun).
  apply bind_Ok in Hrun as ([] & sz & Hupd & Hrun).
  rewrite (bind_eq_Ok _ Hadd), (bind_eq_Ok _ Ht), Hupd in Hrun'. injection Hrun' as <-.
  rewrite (bind_eq_Ok _ (update_inode_run _ _ _)) in Hrun.
  set (linked_n := linked (FS.ignoreCase fsc) (Some parent) (basename pn) nc) in *.
  set (se := with_inodes _ sz) in Hrun.
  assert (Hnse : inodes se !! node = Some (Inode.with_ctimeMs t linked_n)).
  { subst se. simpl. rewrite list_lookup_alter_eq, Hni. reflexivity. }
  rewrite (invalidatePaths_leaf 0 this node _ se Hnse) in Hrun.
  2: { left. unfold isDirectoryInode in *. simpl. rewrite <- Hnd, <- Hdirc. reflexivity. }
  injection Hrun as <-.
  set (nfinal := Inode.with_paths None (Inode.with_ctimeMs t linked_n)).
  rewrite Hic in *.
  assert (Hkd : keeps_links (FS.ignoreCase fs) sz
                  (with_inodes (<[node := nfinal]> (inodes se)) se)).
  { eapply keeps_links_trans; [apply (keeps_update_inode _ sz node (Inode.with_ctimeMs t));
                               apply keeps_node_ctime|].
    fold se. apply (keeps_insert _ se node _ nfinal Hnse); reflexivity. }
  set (s1 := with_inodes (<[node := nfinal]> (inodes se)) se) in *.
  assert (Hkc : keeps_links (FS.ignoreCase fs) sc s1).
  { eapply keeps_links_trans; [exact Hk|exact Hkd]. }
  assert (Hkb : keeps_links (FS.ignoreCase fs) sb s1).
  { eapply keeps_links_trans; [apply lazy_keeps_links; exact Hsc|exact Hkc]. }
  assert (Hka : keeps_links (FS.ignoreCase fs) sa s1).
  { eapply keeps_links_trans; [apply lazy_keeps_links; exact Hsb|exact Hkb]. }
  assert (Hks : keeps_links (FS.ignoreCase fs) s s1).
  { eapply keeps_links_trans; [apply lazy_keeps_links; exact Hsa|exact Hka]. }
  assert (Hn1 : inodes s1 !! node = Some nfinal).
  { subst s1. simpl. apply list_lookup_insert_eq. eapply lookup_lt_Some; exact Hnse. }
  assert (Hold : _find this po s1 = Ok (Some entry) s1).
  { exact (walk_kept this po false s entry sa fs Hentry Hfs s1 Hka). }
  assert (Hnotsym : isSymlinkInode nfinal = false).
  { destruct (walk_loop_found this false 40 0 po s entry sa Hentry) as (_ & Hns).
    specialize (Hns eq_refl). unfold is_symlink_at in Hns. fold node in Hns.
    rewrite Hn0 in Hns. unfold isSymlinkInode in *. simpl. rewrite <- Hns.
    unfold isSymlinkInode in Hsymc. rewrite <- Hsymc. reflexivity. }
  assert (Hlinked1 : linked_in s1 (FS.ignoreCase fs) parent (basename pn) node).
  { subst s1. apply linked_in_insert; [congruence|].
    subst se. apply linked_in_update; [apply keeps_node_ctime|exact Hlinked]. }
  assert (Hp : dirname pn ++ [basename pn] = pn).
  { apply dirname_basename. eapply not_root_long; exact Hroot. }
  assert (Hnewwalk : _find this pn s1 = Ok (Some (child_entry newEntry (basename pn) node)) s1).
  { unfold _find. rewrite <- Hp at 1.
    exact (walk_extend this false (basename pn) node nfinal (dirname pn) sa newEntry sb fsa
             Hnew Hfsa s1 ltac:(rewrite Hica; exact Hkb) Hn1 (or_introl Hnotsym)
             ltac:(rewrite Hica; exact Hlinked1)). }
  exists entry, (child_entry newEntry (basename pn) node), nfinal.
  split; [exact Hold|]. split; [exact Hnewwalk|]. split; [reflexivity|].
  split; [exact Hn1|].
  split.
  { unfold isDirectoryInode in *. simpl. rewrite <- Hnd, <- Hdirc. reflexivity. }
  split.
  { intros n0' Hn0'. fold node in Hn0'.
    destruct (lazy_ext_inode _ _ _ _ Hsa Hn0') as (na & Hna & Hlza).
    assert (na = n0) by congruence. subst na.
    destruct Hlza as (_&_&_&_&_&_&_&Hnl&_). destruct Hlzn as (_&_&_&_&_&_&_&Hnl'&_).
    simpl. rewrite Hnl', Hnl. reflexivity. }
  unfold statSync.
  rewrite (bind_eq_Ok _ (resolve_kept _ _ _ _ _ _ Hresn Hks)).
  rewrite (bind_eq_Ok _ (resolve_kept _ _ _ _ _ _ Hreso Hks)).
  rewrite (bind_eq_Ok _ (or_throw_Some _ ENOENT _ _ _ Hnewwalk)).
  rewrite (bind_eq_Ok _ (or_throw_Some _ ENOENT _ _ _ Hold)).
  reflexivity.
Qed.

Lemma link_shares_inode_witness :
  exists e1 e2 n,
    _find 0 ["/"; "f"]%string (final_state link_result)
    = Ok (Some e1) (final_state link_result)
    /\ _find 0 ["/"; "d"; "h"]%string (final_state link_result)
       = Ok (Some e2) (final_state link_result)
    /\ FileDescription.node e2 = FileDescription.node e1
    /\ inodes (final_state link_result) !! FileDescription.node e1 = Some n
    /\ isDirectoryInode n = false
    /\ (forall n0, inodes rename_state !! FileDescription.node e1 = Some n0 ->
                   Inode.nlink n = (Inode.nlink n0 + 1)%Z)
    /\ statSync 0 ["/"; "d"; "h"]%string (final_state link_result)
       = statSync 0 ["/"; "f"]%string (final_state link_result).
Proof.
  apply (link_shares_inode 0 ["/"; "f"]%string ["/"; "d"; "h"]%string ["/"; "f"]%string
           ["/"; "d"; "h"]%string rename_state (final_state link_result) rename_fs).
  - vm_compute; reflexivity.
  - vm_compute; reflexivity.
  - vm_compute; reflexivity.
  - vm_compute; reflexivity.
  - vm_compute; reflexivity.
Defined.

#[local] Arguments Nat.leb : simpl never.
#[local] Arguments validate : simpl never.

(** ** What the operations on names leave alone *)

Lemma kf_refl s : keeps_files s s.
Proof. constructor; auto; intros; eexists; repeat split; eauto. Qed.

Lemma kf_trans s1 s2 s3 : keeps_files s1 s2 -> keeps_files s2 s3 -> keeps_files s1 s3.
Proof.
  intros [a1 a2 a3 a4] [b1 b2 b3 b4]. constructor; [auto| | |congruence].
  - intros p i Hi. destruct (a2 p i Hi) as (i2 & Hi2 & ? & ? & ? & Hz2).
    destruct (b2 p i2 Hi2) as (i3 & Hi3 & ? & ? & ? & Hz3).
    exists i3. repeat split; try congruence. auto.
  - intros f fs Hf. destruct (a3 f fs Hf) as (f2 & Hf2 & ? & ? & ?).
    destruct (b3 f f2 Hf2) as (f3 & Hf3 & ? & ? & ?).
    exists f3. repeat split; congruence.
Qed.

Lemma kf_lazy_ext s s' : lazy_ext s s' -> keeps_files s s'.
Proof.
  intros H. constructor.
  - intros b c Hb. rewrite (lz_buffers _ _ _ _ H). exact Hb.
  - intros p i Hi. destruct (lazy_ext_inode _ _ _ _ H Hi) as (i' & Hi' & Hl).
    exists i'. split; [exact Hi'|].
    destruct Hl as (_&_&Hm&_&_&_&_&_&_&_&_&Hz&Hb&Hs&_). auto.
  - intros f fs Hf. destruct (lazy_ext_fs _ _ _ _ H Hf) as (fs' & Hf' & Hic & Hfr & _ & _ & Ho & _).
    exists fs'. auto.
  - apply (lz_fdCount _ _ _ _ H).
Qed.

(** The rule for a step that changes lazily built state only. *)
Lemma kf_lazy {A} (m : M A) s :
  (forall ni nm, bounded ni nm s -> lazy_upto ni nm s (final_state (m s))) ->
  keeps_files s (final_state (m s)).
Proof. intros H. apply kf_lazy_ext. apply H. apply bounded_self. Qed.

(** The rule for a sequence. *)
Lemma kf_bind {A B} (m : M A) (k : A -> M B) s :
  keeps_files s (final_state (m s)) ->
  (forall a s1, m s = Ok a s1 -> keeps_files s1 (final_state (k a s1))) ->
  keeps_files s (final_state (bind m k s)).
Proof.
  intros Hm Hk. unfold bind. destruct (m s) as [a s1|e s1] eqn:E; simpl in *.
  - eapply kf_trans; [exact Hm|]. apply Hk; auto.
  - exact Hm.
Qed.

Lemma kf_for_each {A} (xs : list A) (body : A -> M unit) :
  (forall x s, In x xs -> keeps_files s (final_state (body x s))) ->
  forall s, keeps_files s (final_state (for_each xs body s)).
Proof.
  induction xs as [|x xs IH]; intros Hb s; simpl.
  - apply kf_refl.
  - apply kf_bind.
    + apply Hb. left. reflexivity.
    + intros _ s1 _. apply IH. intros y s' Hy. apply Hb. right. exact Hy.
Qed.

Lemma kf_same s s' :
  buffers s' = buffers s -> inodes s' = inodes s -> filesystems s' = filesystems s ->
  fdCount s' = fdCount s -> keeps_files s s'.
Proof.
  intros Hb Hi Hf Hc. constructor; [| | |exact Hc].
  - intros b c H. rewrite Hb. exact H.
  - intros p i H. exists i. rewrite Hi. auto.
  - intros f fs H. exists fs. rewrite Hf. auto.
Qed.

Lemma kf_update_inode p f s :
  keeps_file f -> keeps_files s (final_state (update_inode p f s)).
Proof.
  intros Hf. constructor; simpl; auto.
  - intros q j H. destruct (decide (q = p)) as [->|Hne].
    + exists (f j). rewrite list_lookup_alter_eq, H. destruct (Hf j) as (? & ? & ? & Hz).
      repeat split; auto. intros z Hj. congruence.
    + exists j. rewrite list_lookup_alter_ne by congruence. auto.
  - intros g fs H. exists fs. auto.
Qed.

Lemma kf_update_map l f s : keeps_files s (final_state (update_map l f s)).
Proof. apply kf_same; reflexivity. Qed.

Lemma kf_new_inode i s : keeps_files s (final_state (new_inode i s)).
Proof.
  constructor; simpl; auto.
  - intros q j H. exists j. rewrite lookup_app_l; [auto|]. eapply lookup_lt_Some; eauto.
  - intros g fs H. exists fs. auto.
Qed.

Lemma kf_inode_at p s : keeps_files s (final_state (inode_at p s)).
Proof. unfold inode_at. destruct (inodes s !! p); apply kf_refl. Qed.

Lemma kf_map_at p s : keeps_files s (final_state (map_at p s)).
Proof. unfold map_at. destruct (linkmaps s !! p); apply kf_refl. Qed.

Lemma kf_fs_at p s : keeps_files s (final_state (fs_at p s)).
Proof. unfold fs_at. destruct (filesystems s !! p); apply kf_refl. Qed.

Lemma kf_isReadonly this s : keeps_files s (final_state (isReadonly this s)).
Proof. apply kf_lazy. intros; apply lazy_isReadonly. Qed.

Lemma kf_resolve this p s : keeps_files s (final_state (_resolve this p s)).
Proof. rewrite resolve_state. apply kf_refl. Qed.

Lemma kf_find this path noFollow code s :
  keeps_files s (final_state (or_throw (_walk this path noFollow) code s)).
Proof. apply kf_lazy. intros; apply lazy_find; assumption. Qed.

Lemma kf_getLinks this node s : keeps_files s (final_state (_getLinks this node s)).
Proof. apply kf_lazy. intros; apply lazy_getLinks; assumption. Qed.

Lemma kf_time this s : keeps_files s (final_state (time this s)).
Proof. apply kf_lazy. intros; apply lazy_time. Qed.

Lemma kf_mknod this dev type mode umask s :
  keeps_files s (final_state (_mknod this dev type mode umask s)).
Proof. apply kf_lazy. intros; apply lazy_mknod. Qed.


Ltac kf_step :=
  first
    [ apply kf_refl
    | apply kf_inode_at | apply kf_map_at | apply kf_fs_at | apply kf_isReadonly
    | apply kf_resolve | apply kf_find | apply kf_getLinks | apply kf_time
    | apply kf_mknod | apply kf_update_map | apply kf_new_inode
    | apply kf_update_inode; intros ?; repeat split; reflexivity ].

Lemma kf_addLink this parent links name node s :
  keeps_files s (final_state (_addLink this parent links name node s)).
Proof.
  unfold _addLink.
  apply kf_bind; [kf_step|]. intros fs s1 _. cbv zeta.
  apply kf_bind; [kf_step|]. intros _ s2 _.
  apply kf_bind; [kf_step|]. intros _ s3 _.
  apply kf_bind; [kf_step|]. intros n s4 _. kf_step.
Qed.

Lemma kf_removeLink this parent links name node s :
  keeps_files s (final_state (_removeLink this parent links name node s)).
Proof.
  unfold _removeLink.
  apply kf_bind; [kf_step|]. intros fs s1 _. cbv zeta.
  apply kf_bind; [kf_step|]. intros _ s2 _.
  apply kf_bind; [kf_step|]. intros _ s3 _.
  apply kf_bind; [kf_step|]. intros n s4 _.
  destruct (jm_get optptr_eqb parent (Inode.incomingLinks n)); [|kf_step].
  destruct (ss_size _ =? 0)%Z; kf_step.
Qed.

Lemma kf_replaceLink this oldParent oldLinks oldName newParent newLinks newName node s :
  keeps_files s
    (final_state (_replaceLink this oldParent oldLinks oldName newParent newLinks newName
                    node s)).
Proof.
  unfold _replaceLink. destruct (negb (oldParent =? newParent)%nat).
  - apply kf_bind; [apply kf_removeLink|]. intros _ s1 _. apply kf_addLink.
  - apply kf_bind; [kf_step|]. intros fs s1 _. cbv zeta.
    apply kf_bind; [kf_step|]. intros _ s2 _.
    apply kf_bind; [kf_step|]. intros _ s3 _.
    apply kf_bind; [kf_step|]. intros n s4 _.
    destruct (jm_get optptr_eqb (Some oldParent) (Inode.incomingLinks n)); kf_step.
Qed.

Lemma kf_invalidatePaths fuel :
  forall this node s, keeps_files s (final_state (_invalidatePaths fuel this node s)).
Proof.
  induction fuel as [|fuel IH]; intros this node s; simpl.
  - apply kf_refl.
  - apply kf_bind; [kf_step|]. intros _ s1 _.
    apply kf_bind; [kf_step|]. intros i s2 _.
    destruct (isDirectoryInode i); [|kf_step].
    apply kf_bind; [kf_step|]. intros m s3 _.
    apply kf_bind; [kf_step|]. intros children s4 _.
    apply kf_for_each. intros child s5 _. apply IH.
Qed.


Ltac kf_go :=
  repeat first
    [ kf_step
    | apply kf_addLink | apply kf_removeLink | apply kf_replaceLink
    | apply kf_invalidatePaths
    | apply kf_bind; [|intros ? ? _]
    | progress cbv zeta
    | match goal with
      | |- keeps_files _ (final_state ((if ?b then _ else _) _)) => destruct b
      | |- keeps_files _ (final_state ((match ?x with _ => _ end) _)) => destruct x
      | |- keeps_files _ (final_state ((let (_, _) := ?x in _) _)) => destruct x
      end ].








Lemma kf_unlinkSync this path s : keeps_files s (final_state (unlinkSync this path s)).
Proof. unfold unlinkSync. kf_go. Qed.


Lemma kf_renameSync fuel this oldpath newpath s :
  keeps_files s (final_state (renameSync fuel this oldpath newpath s)).
Proof. unfold renameSync. kf_go. Qed.






Lemma kf_open_entry s s' this fd e :
  keeps_files s s' -> open_entry s this fd = Some e -> open_entry s' this fd = Some e.
Proof.
  intros Hk. unfold open_entry. destruct (filesystems s !! this) as [fs|] eqn:Hfs; [|discriminate].
  destruct (kf_fs _ _ Hk _ _ Hfs) as (fs' & -> & -> & _). auto.
Qed.

Lemma kf_visible s s' e c :
  keeps_files s s' -> visible s e = Some c -> visible s' e = Some c.
Proof.
  intros Hk. unfold visible. destruct (OpenFile.buffer e) as [b|].
  - apply (kf_buffers _ _ Hk).
  - destruct (inodes s !! OpenFile.node e) as [n|] eqn:Hn; [|discriminate].
    destruct (kf_inodes _ _ Hk _ _ Hn) as (n' & -> & _ & -> & _).
    destruct (Inode.buffer n); [|discriminate]. apply (kf_buffers _ _ Hk).
Qed.

(** Reading all the bytes a descriptor sees, in a store that has kept the
    files. *)
Lemma read_kept this fd s s1 e n c fs :
  keeps_files s s1 ->
  filesystems s !! this = Some fs ->
  open_entry s this fd = Some e -> OpenFile.fd e = fd ->
  inodes s !! OpenFile.node e = Some n -> isFileInode n = true ->
  isReadable e = true -> visible s e = Some c -> c <> [] ->
  exists s2,
    readSync this fd (replicate (length c) Byte.x00) 0 (Z.of_nat (length c)) (Some 0%Z) s1
    = Ok (Z.of_nat (length c), c) s2.
Proof.
  intros Hk Hfs He Hfd Hn Hfile Hr Hc Hne.
  destruct (kf_fs _ _ Hk _ _ Hfs) as (fs1 & Hfs1 & _).
  destruct (kf_inodes _ _ Hk _ _ Hn) as (n1 & Hn1 & Hmode & _).
  destruct (readSync_run this fd (replicate (length c) Byte.x00) 0 (length c) s1 e n1 c fs1
              Hfs1 (kf_open_entry _ _ _ _ _ Hk He) Hfd Hn1)
    as (s2 & b & e1 & Hread & _).
  { unfold isFileInode in *. rewrite Hmode. exact Hfile. }
  { exact Hr. }
  { exact (kf_visible _ _ _ _ Hk Hc). }
  { apply length_replicate. }
  { destruct c; [congruence|simpl; lia]. }
  rewrite (copy_read c (replicate (length c) Byte.x00) 0 (length c)) in Hread.
  2: { apply length_replicate. }
  2: { rewrite drop_0, firstn_all. reflexivity. }
  cbn [fst snd] in Hread. rewrite drop_0, firstn_all in Hread.
  exists s2. exact Hread.
Qed.

(** X15.  An open descriptor outlives the name of its file: after
    [unlinkSync] or [renameSync] of any path, returned or thrown, and so also
    of the path the file was opened by, a readable descriptor of a regular
    file is still in the table and [readSync] through it returns the bytes it
    saw before. *)
Theorem descriptor_outlives_name (this : fsref) (fd : Z) (s : State) (e : OpenFile.t)
    (n : Inode.t) (c : list Byte.byte) (fs : FS.t) :
  filesystems s !! this = Some fs ->
  open_entry s this fd = Some e -> OpenFile.fd e = fd ->
  inodes s !! OpenFile.node e = Some n -> isFileInode n = true ->
  isReadable e = true -> visible s e = Some c -> c <> [] ->
  (forall path,
      let s1 := final_state (unlinkSync this path s) in
      open_entry s1 this fd = Some e
      /\ exists s2,
           readSync this fd (replicate (length c) Byte.x00) 0 (Z.of_nat (length c))
             (Some 0%Z) s1 = Ok (Z.of_nat (length c), c) s2)
  /\ (forall fuel oldpath newpath,
         let s1 := final_state (renameSync fuel this oldpath newpath s) in
         open_entry s1 this fd = Some e
         /\ exists s2,
              readSync this fd (replicate (length c) Byte.x00) 0 (Z.of_nat (length c))
                (Some 0%Z) s1 = Ok (Z.of_nat (length c), c) s2).
Proof.
  intros Hfs He Hfd Hn Hfile Hr Hc Hne. split.
  - intros path s1. pose proof (kf_unlinkSync this path s) as Hk. fold s1 in Hk.
    split; [exact (kf_open_entry _ _ _ _ _ Hk He)|].
    exact (read_kept this fd s s1 e n c fs Hk Hfs He Hfd Hn Hfile Hr Hc Hne).
  - intros fuel oldpath newpath s1.
    pose proof (kf_renameSync fuel this oldpath newpath s) as Hk. fold s1 in Hk.
    split; [exact (kf_open_entry _ _ _ _ _ Hk He)|].
    exact (read_kept this fd s s1 e n c fs Hk Hfs He Hfd Hn Hfile Hr Hc Hne).
Qed.

Lemma descriptor_outlives_name_witness :
  open_entry (final_state (unlinkSync 0 ["/"; "a"]%string plain_state)) 0 2 = Some plain_entry
  /\ exists s2,
       readSync 0 2 (replicate 5 Byte.x00) 0 5 (Some 0%Z)
         (final_state (unlinkSync 0 ["/"; "a"]%string plain_state))
       = Ok (5%Z, [Byte.x68; Byte.x65; Byte.x6c; Byte.x6c; Byte.x6f]) s2.
Proof.
  destruct (descriptor_outlives_name 0 2 plain_state plain_entry plain_inode
              [Byte.x68; Byte.x65; Byte.x6c; Byte.x6c; Byte.x6f] plain_fs) as [H _].
  1-7: vm_compute; reflexivity.
  - discriminate.
  - exact (H ["/"; "a"]%string).
Defined.

#[local] Arguments Nat.leb : simpl never.

(** ** Lookups after a link is removed *)

Lemma keeps_but_after ic l s1 s2 s3 :
  keeps_links ic s1 s2 -> keeps_but ic l s2 s3 -> keeps_but ic l s1 s3.
Proof.
  intros [a1 a2 a3] [b1 b2 b3]. constructor.
  - intros f fs Hf. destruct (a1 f fs Hf) as (f2 & Hf2 & ? & ? & Hl2).
    destruct (b1 f f2 Hf2) as (f3 & Hf3 & ? & Hl3).
    exists f3. repeat split; try congruence. auto.
  - intros p i Hi. destruct (a2 p i Hi) as (i2 & Hi2 & ? & ? & Hl2).
    destruct (b2 p i2 Hi2) as (i3 & Hi3 & ? & ? & Hl3).
    exists i3. repeat split; try congruence. auto.
  - intros l' m k v Hm Hk. destruct (a3 l' m k v Hm Hk) as (m2 & Hm2 & Hk2).
    apply (b3 l' m2 k v Hm2 Hk2).
Qed.

Lemma keeps_but_then ic l s1 s2 s3 :
  keeps_but ic l s1 s2 -> same_tree s2 s3 -> keeps_but ic l s1 s3.
Proof.
  intros [a1 a2 a3] H. constructor.
  - intros f fs Hf. destruct (a1 f fs Hf) as (f2 & Hf2 & ? & Hl2).
    destruct (st_fs _ _ H _ _ Hf2) as (f3 & Hf3 & ? & _ & Hl3 & _).
    exists f3. repeat split; try congruence. intros m Hm. rewrite Hl3. auto.
  - intros p i Hi. destruct (a2 p i Hi) as (i2 & Hi2 & ? & ? & Hl2).
    destruct (st_inodes _ _ H _ _ Hi2) as (i3 & Hi3 & ? & Hl3 & ?).
    exists i3. repeat split; try congruence. intros m Hm. rewrite Hl3. auto.
  - intros l' m k v Hm Hk. rewrite (st_maps _ _ H). apply (a3 l' m k v Hm Hk).
Qed.

(** A run of the loop body that has found an entry or a link to expand
    repeats where a link has been removed, unless it comes to look the
    removed link up. *)
Lemma walk_steps_but this noFollow depth l :
  forall rest done links parent s r s1 fs,
    walk_steps this noFollow depth done rest links parent s = Ok r s1 ->
    not_missing r ->
    filesystems s !! this = Some fs ->
    forall s', keeps_but (FS.ignoreCase fs) l s1 s' ->
      walk_steps this noFollow depth done rest links parent s' = Ok r s'
      \/ (walk_steps this noFollow depth done rest links parent s' = Ok Missing s'
          /\ is_Some (linkmaps s1 !! l)).
Proof.
  induction rest as [|basename rest' IH]; intros done links parent s r s1 fs Hrun Hnm Hfs s' Hs'.
  - simpl in *. injection Hrun as <- <-. destruct Hnm.
  - assert (Hlz : lazy_ext s s1).
    { eapply lazy_ext_run; [exact Hrun|]. intros; apply lazy_walk_steps; assumption. }
    assert (Hk : keeps_but (FS.ignoreCase fs) l s s').
    { eapply keeps_but_after; [apply lazy_keeps_links; exact Hlz|exact Hs']. }
    rewrite walk_steps_cons in Hrun |- *.
    destruct (40 <=? depth)%nat; [discriminate|]. cbv zeta in Hrun |- *.
    rewrite (bind_eq_Ok _ (fs_at_eq _ _ _ Hfs)) in Hrun.
    apply bind_Ok in Hrun as (m & s0 & Hm & Hrun). apply map_at_Ok in Hm as [-> Hm].
    destruct (kb_fs _ _ _ _ Hk _ _ Hfs) as (fs' & Hfs' & Hic & _).
    rewrite (bind_eq_Ok _ (fs_at_eq _ _ _ Hfs')). rewrite Hic.
    destruct (sm_get (FS.ignoreCase fs) basename m) as [node|] eqn:Hget.
    2: { injection Hrun as <- <-. destruct Hnm. }
    destruct (kb_maps _ _ _ _ Hk _ _ _ _ Hm Hget) as (m' & Hm' & [Hget'|[Hl Hget']]).
    2: { right. rewrite (bind_eq_Ok _ (map_at_eq _ _ _ Hm')). rewrite Hget'.
         split; [reflexivity|]. rewrite <- Hl. exists m. exact (lazy_ext_map _ _ _ _ Hlz Hm). }
    rewrite (bind_eq_Ok _ (map_at_eq _ _ _ Hm')). rewrite Hget'.
    apply bind_Ok in Hrun as (n & s0 & Hn & Hrun). apply inode_at_Ok in Hn as [-> Hn].
    destruct (kb_inodes _ _ _ _ Hk _ _ Hn) as (n' & Hn' & Hmode & Hsym & Hlinks).
    rewrite (bind_eq_Ok _ (inode_at_eq _ _ _ Hn')).
    assert (Hty : isSymlinkInode n' = isSymlinkInode n /\ isDirectoryInode n' = isDirectoryInode n).
    { unfold isSymlinkInode, isDirectoryInode. rewrite Hmode. auto. }
    destruct Hty as [-> ->]. rewrite Hsym.
    destruct (isSymlinkInode n && negb (noFollow && match rest' with [] => true | _ => false end)).
    { destruct (Inode.symlink n) as [target|]; [|discriminate].
      destruct (negb (isAbsolute (resolve done target))); [discriminate|].
      injection Hrun as <- <-. left. reflexivity. }
    destruct rest' as [|b2 rest2].
    { destruct (match parent with
                | Some _ => parent
                | None => if isDirectoryInode n then Some node else None
                end); [|discriminate].
      injection Hrun as <- <-. left. reflexivity. }
    destruct (isDirectoryInode n); [|discriminate].
    apply bind_Ok in Hrun as (links' & sa & Hgl & Hrun).
    assert (Hsa : lazy_ext s sa).
    { eapply lazy_ext_run; [exact Hgl|]. intros; apply lazy_getLinks; assumption. }
    assert (Hsa1 : lazy_ext sa s1).
    { eapply lazy_ext_run; [exact Hrun|]. intros; apply lazy_walk_steps; assumption. }
    destruct (getLinks_rec_spec _ _ _ _ _ _ Hgl) as (ia & Hia & Hla).
    assert (Hka : keeps_but (FS.ignoreCase fs) l sa s').
    { eapply keeps_but_after; [apply lazy_keeps_links; exact Hsa1|exact Hs']. }
    destruct (kb_inodes _ _ _ _ Hka _ _ Hia) as (ia' & Hia' & _ & _ & Hlia).
    rewrite (bind_eq_Ok _ (getLinks_ready this node ia' links' s' Hia' (Hlia _ Hla))).
    destruct (lazy_ext_fs _ _ _ _ Hsa Hfs) as (fsa & Hfsa & Hica & _).
    rewrite <- Hica in Hs'.
    eapply IH; eauto.
Qed.

Lemma walk_pass_but this noFollow depth l cs s r s1 fs :
  walk_pass this noFollow depth cs s = Ok r s1 ->
  not_missing r ->
  filesystems s !! this = Some fs ->
  forall s', keeps_but (FS.ignoreCase fs) l s1 s' ->
    walk_pass this noFollow depth cs s' = Ok r s'
    \/ (walk_pass this noFollow depth cs s' = Ok Missing s' /\ is_Some (linkmaps s1 !! l)).
Proof.
  intros Hrun Hnm Hfs s' Hs'. unfold walk_pass in *.
  apply bind_Ok in Hrun as (rl & sa & Hrl & Hrun).
  assert (Hsa : lazy_ext s sa).
  { eapply lazy_ext_run; [exact Hrl|]. intros; apply lazy_getRootLinks; assumption. }
  assert (Hsa1 : lazy_ext sa s1).
  { eapply lazy_ext_run; [exact Hrun|]. intros; apply lazy_walk_steps; assumption. }
  destruct (getRootLinks_rec_spec _ _ _ _ _ Hrl) as (fa & Hfa & Hlla).
  assert (Hka : keeps_but (FS.ignoreCase fs) l sa s').
  { eapply keeps_but_after; [apply lazy_keeps_links; exact Hsa1|exact Hs']. }
  destruct (kb_fs _ _ _ _ Hka _ _ Hfa) as (fa' & Hfa' & _ & Hll).
  rewrite (bind_eq_Ok _ (getRootLinks_ready this fa' rl s' Hfa' (Hll _ Hlla))).
  destruct (lazy_ext_fs _ _ _ _ Hsa Hfs) as (fsa & Hfsa & Hica & _).
  rewrite <- Hica in Hs'.
  eapply walk_steps_but; eauto.
Qed.

Lemma walk_loop_but this noFollow l budget :
  forall depth cs s e s1 fs,
    walk_loop budget this noFollow depth cs s = Ok (Some e) s1 ->
    filesystems s !! this = Some fs ->
    forall s', keeps_but (FS.ignoreCase fs) l s1 s' ->
      walk_loop budget this noFollow depth cs s' = Ok (Some e) s'
      \/ (walk_loop budget this noFollow depth cs s' = Ok None s'
          /\ is_Some (linkmaps s1 !! l)).
Proof.
  induction budget as [|budget IH]; intros depth cs s e s1 fs Hrun Hfs s' Hs';
    rewrite walk_loop_unfold in Hrun |- *;
    destruct (walk_pass this noFollow depth cs s) as [[e'| |cs'] sa|e' sa] eqn:Hp;
    try discriminate.
  1,2: injection Hrun as <- <-;
    destruct (walk_pass_but this noFollow depth l cs s _ _ fs Hp I Hfs s' Hs') as [-> | [-> Hl]];
    [left; reflexivity|right; split; [reflexivity|exact Hl]].
  assert (Hsa : lazy_ext s sa).
  { eapply lazy_ext_run; [exact Hp|]. intros. unfold walk_pass.
    apply lazy_bind; [apply lazy_getRootLinks; assumption|].
    intros rl s2 _ H2. apply lazy_walk_steps. eapply lazy_upto_bounded; eauto. }
  assert (Hsa1 : lazy_ext sa s1).
  { eapply lazy_ext_run; [exact Hrun|]. intros; apply lazy_walk_loop; assumption. }
  destruct (walk_pass_but this noFollow depth l cs s _ _ fs Hp I Hfs s') as [-> | [-> Hl]].
  { eapply keeps_but_after; [apply lazy_keeps_links; exact Hsa1|exact Hs']. }
  2: { right. split; [reflexivity|]. destruct Hl as [m Hm]. exists m.
       exact (lazy_ext_map _ _ _ _ Hsa1 Hm). }
  destruct (lazy_ext_fs _ _ _ _ Hsa Hfs) as (fsa & Hfsa & Hica & _).
  rewrite <- Hica in Hs'.
  eapply IH; eauto.
Qed.

(** A lookup that has found an entry finds it again, or nothing, after a link
    has been removed; it finds nothing only where the map that has lost the
    link was there to be looked up. *)
Lemma walk_but this path noFollow l s e s1 fs :
  _walk this path noFollow s = Ok (Some e) s1 ->
  filesystems s !! this = Some fs ->
  forall s', keeps_but (FS.ignoreCase fs) l s1 s' ->
    _walk this path noFollow s' = Ok (Some e) s'
    \/ (_walk this path noFollow s' = Ok None s' /\ is_Some (linkmaps s1 !! l)).
Proof. apply walk_loop_but. Qed.

(** A lookup that finds nothing for a path finds nothing for a longer
    one. *)
Lemma walk_steps_longer this noFollow depth name :
  forall rest done links parent s r s1,
    walk_steps this false depth done rest links parent s = Ok r s1 ->
    rest <> [] ->
    forall s', lazy_ext s1 s' ->
      match r with
      | Found _ => True
      | Missing =>
          walk_steps this noFollow depth done (rest ++ [name]) links parent s' = Ok Missing s'
      | Restart cs =>
          walk_steps this noFollow depth done (rest ++ [name]) links parent s'
          = Ok (Restart (cs ++ [name])) s'
      end.
Proof.
  induction rest as [|basename rest' IH]; intros done links parent s r s1 Hrun Hne s' Hs'.
  - congruence.
  - assert (Hlz : lazy_ext s s1).
    { eapply lazy_ext_run; [exact Hrun|]. intros; apply lazy_walk_steps; assumption. }
    assert (Hlz' : lazy_ext s s') by (eapply lazy_ext_trans; eauto).
    rewrite walk_steps_cons in Hrun.
    change ((basename :: rest') ++ [name]) with (basename :: (rest' ++ [name])).
    rewrite walk_steps_cons.
    destruct (40 <=? depth)%nat; [discriminate|]. cbv zeta in Hrun |- *.
    apply bind_Ok in Hrun as (fs & s0 & Hfs & Hrun). apply fs_at_Ok in Hfs as [-> Hfs].
    apply bind_Ok in Hrun as (m & s0 & Hm & Hrun). apply map_at_Ok in Hm as [-> Hm].
    destruct (lazy_ext_fs _ _ _ _ Hlz' Hfs) as (fs' & Hfs' & Hic & _).
    rewrite (bind_eq_Ok _ (fs_at_eq _ _ _ Hfs')).
    rewrite (bind_eq_Ok _ (map_at_eq _ _ _ (lazy_ext_map _ _ _ _ Hlz' Hm))).
    rewrite Hic.
    destruct (sm_get (FS.ignoreCase fs) basename m) as [node|].
    2: { injection Hrun as <- <-. reflexivity. }
    apply bind_Ok in Hrun as (n & s0 & Hn & Hrun). apply inode_at_Ok in Hn as [-> Hn].
    destruct (lazy_ext_inode _ _ _ _ Hlz' Hn) as (n' & Hn' & Hl).
    rewrite (bind_eq_Ok _ (inode_at_eq _ _ _ Hn')).
    destruct (lazy_inode_type _ _ Hl) as (-> & -> & _ & ->).
    replace (match rest' ++ [name] with [] => true | _ => false end) with false
      by (destruct rest'; reflexivity).
    cbn [andb negb] in Hrun. rewrite andb_true_r in Hrun.
    rewrite andb_false_r. cbn [negb]. rewrite andb_true_r.
    destruct (isSymlinkInode n).
    { destruct (Inode.symlink n) as [target|]; [|discriminate].
      destruct (negb (isAbsolute (resolve done target))); [discriminate|].
      injection Hrun as <- <-. rewrite <- app_assoc. reflexivity. }
    destruct rest' as [|b2 rest2].
    { destruct (match parent with
                | Some _ => parent
                | None => if isDirectoryInode n then Some node else None
                end); [|discriminate].
      injection Hrun as <- <-. exact I. }
    destruct (isDirectoryInode n); [|discriminate].
    apply bind_Ok in Hrun as (links' & sa & Hgl & Hrun).
    assert (Hsa1 : lazy_ext sa s1).
    { eapply lazy_ext_run; [exact Hrun|]. intros; apply lazy_walk_steps; assumption. }
    destruct (getLinks_rec_spec _ _ _ _ _ _ Hgl) as (ia & Hia & Hla).
    destruct (lazy_ext_inode _ _ _ _ (lazy_ext_trans _ _ _ Hsa1 Hs') Hia) as (ia' & Hia' & Hlia).
    assert (Hla' : Inode.links ia' = Some links').
    { destruct Hlia as (_&_&_&_&_&_&_&_&_&_&_&_&_&_&Hx&_). apply Hx. exact Hla. }
    rewrite (bind_eq_Ok _ (getLinks_ready this node ia' links' s' Hia' Hla')).
    eapply (IH (done ++ [basename]) links' (Some node) sa r s1 Hrun); [discriminate|exact Hs'].
Qed.

Lemma walk_pass_longer this noFollow depth name cs s r s1 :
  walk_pass this false depth cs s = Ok r s1 ->
  cs <> [] ->
  forall s', lazy_ext s1 s' ->
    match r with
    | Found _ => True
    | Missing => walk_pass this noFollow depth (cs ++ [name]) s' = Ok Missing s'
    | Restart cs' =>
        walk_pass this noFollow depth (cs ++ [name]) s' = Ok (Restart (cs' ++ [name])) s'
    end.
Proof.
  intros Hrun Hne s' Hs'. unfold walk_pass in *.
  apply bind_Ok in Hrun as (rl & sa & Hrl & Hrun).
  assert (Hsa1 : lazy_ext sa s1).
  { eapply lazy_ext_run; [exact Hrun|]. intros; apply lazy_walk_steps; assumption. }
  destruct (getRootLinks_rec_spec _ _ _ _ _ Hrl) as (fa & Hfa & Hlla).
  destruct (lazy_ext_fs _ _ _ _ (lazy_ext_trans _ _ _ Hsa1 Hs') Hfa) as (fa' & Hfa' & Hlf).
  assert (Hll : FS.lazy_links fa' = Some rl).
  { destruct Hlf as (_&_&_&_&_&_&_&Hx). apply Hx. exact Hlla. }
  rewrite (bind_eq_Ok _ (getRootLinks_ready this fa' rl s' Hfa' Hll)).
  exact (walk_steps_longer this noFollow depth name cs [] rl None sa r s1 Hrun Hne s' Hs').
Qed.

Lemma walk_loop_longer this noFollow name budget :
  forall depth cs s s1,
    walk_loop budget this false depth cs s = Ok None s1 ->
    cs <> [] ->
    forall s', lazy_ext s1 s' ->
      walk_loop budget this noFollow depth (cs ++ [name]) s' = Ok None s'.
Proof.
  induction budget as [|budget IH]; intros depth cs s s1 Hrun Hne s' Hs';
    rewrite walk_loop_unfold in Hrun |- *;
    destruct (walk_pass this false depth cs s) as [[e| |cs'] sa|e sa] eqn:Hp;
    try discriminate.
  1,2: injection Hrun as <-;
    rewrite (walk_pass_longer this noFollow depth name cs s _ _ Hp Hne s' Hs'); reflexivity.
  assert (Hsa1 : lazy_ext sa s1).
  { eapply lazy_ext_run; [exact Hrun|]. intros; apply lazy_walk_loop; assumption. }
  rewrite (walk_pass_longer this noFollow depth name cs s _ _ Hp Hne s'
             (lazy_ext_trans _ _ _ Hsa1 Hs')).
  eapply IH; eauto.
  unfold walk_pass in Hp. apply bind_Ok in Hp as (rl & sr & _ & Hp).
  eapply walk_steps_restart; exact Hp.
Qed.

Lemma walk_longer this noFollow name cs s s1 :
  _walk this cs false s = Ok None s1 -> cs <> [] ->
  forall s', lazy_ext s1 s' -> _walk this (cs ++ [name]) noFollow s' = Ok None s'.
Proof. apply walk_loop_longer. Qed.

#[local] Arguments Nat.leb : simpl never.

(** ** Removing a name *)

Lemma sm_get_delete_ne ic {V} k name (m : list (string * V)) :
  stringComparer ic k name <> Eq -> sm_get ic k (sm_delete ic name m) = sm_get ic k m.
Proof.
  intros Hne. induction m as [|[k' v'] m IH]; simpl; [reflexivity|].
  destruct (stringComparer ic name k') eqn:E; simpl.
  - apply stringComparer_Eq in E.
    rewrite <- (stringComparer_canon ic name k' k E).
    destruct (stringComparer ic k name); congruence.
  - rewrite IH. reflexivity.
  - rewrite IH. reflexivity.
Qed.

Lemma resolve_same_fs this path s p s' :
  filesystems s' = filesystems s ->
  _resolve this path s = Ok p s -> _resolve this path s' = Ok p s'.
Proof.
  unfold _resolve. intros Hf H.
  apply bind_Ok in H as (fs & s0 & Hfs & H). apply fs_at_Ok in Hfs as [-> Hfs].
  rewrite <- Hf in Hfs.
  rewrite (bind_eq_Ok _ (fs_at_eq _ _ _ Hfs)).
  destruct (nonempty (FS._cwd fs)).
  - unfold bind, validate, ret in *. simpl in *. injection H as <-. reflexivity.
  - unfold validate in *. destruct (isAbsolute path); [|discriminate].
    injection H as <-. reflexivity.
Qed.

(** The store after the one link [name] of [x] in the map [l] is deleted and
    inodes have changed in what no lookup reads. *)
Lemma keeps_but_delete ic l name m s s' :
  linkmaps s !! l = Some m ->
  sm_get ic name (sm_delete ic name m) = None ->
  linkmaps s' = alter (sm_delete ic name) l (linkmaps s) ->
  filesystems s' = filesystems s ->
  (forall p i, inodes s !! p = Some i ->
     exists i', inodes s' !! p = Some i' /\ Inode.mode i' = Inode.mode i
                /\ Inode.symlink i' = Inode.symlink i /\ Inode.links i' = Inode.links i) ->
  keeps_but ic l s s'.
Proof.
  intros Hm Hgone Hmaps Hfs Hin. constructor.
  - intros f fs H. exists fs. rewrite Hfs. auto.
  - intros p i H. destruct (Hin p i H) as (i' & Hi' & ? & ? & Hl).
    exists i'. repeat split; auto. intros m0 Hm0. congruence.
  - intros l' m0 k v H Hk. rewrite Hmaps. destruct (decide (l' = l)) as [->|Hne].
    + assert (m0 = m) by congruence. subst m0.
      exists (sm_delete ic name m). rewrite list_lookup_alter_eq, Hm. split; [reflexivity|].
      destruct (stringComparer ic k name) eqn:E.
      * right. split; [reflexivity|]. apply stringComparer_Eq in E.
        rewrite (sm_get_canon ic k name _ E). exact Hgone.
      * left. rewrite sm_get_delete_ne by congruence. exact Hk.
      * left. rewrite sm_get_delete_ne by congruence. exact Hk.
    + exists m0. rewrite list_lookup_alter_ne by congruence. auto.
Qed.

(** After a link is removed its path resolves to nothing. *)
Lemma walk_removed this noFollow p s e fs s1 l m0 n1 :
  _walk this (dirname p) false s = Ok (Some e) s ->
  filesystems s !! this = Some fs ->
  (2 <= length p)%nat ->
  keeps_but (FS.ignoreCase fs) l s s1 ->
  filesystems s1 = filesystems s ->
  inodes s1 !! FileDescription.node e = Some n1 -> isDirectoryInode n1 = true ->
  Inode.links n1 = Some l -> linkmaps s1 !! l = Some m0 ->
  sm_get (FS.ignoreCase fs) (basename p) m0 = None ->
  _walk this p noFollow s1 = Ok None s1.
Proof.
  intros Hwalk Hfs Hlen Hk Hfs1 Hn1 Hdir Hl Hm0 Hnone.
  rewrite <- (dirname_basename p Hlen) at 1.
  assert (Hfs1' : filesystems s1 !! this = Some fs) by (rewrite Hfs1; exact Hfs).
  destruct (walk_but this (dirname p) false l s e s fs Hwalk Hfs s1 Hk) as [H|[H _]].
  - apply (walk_absent this noFollow (basename p) (dirname p) s1 e s1 fs H Hfs1' s1
             (keeps_links_refl _ _)).
    exists n1, l, m0. auto.
  - apply (walk_longer this noFollow (basename p) (dirname p) s1 s1 H).
    + destruct p as [|a [|b p]]; simpl in *; try lia. discriminate.
    + apply lazy_ext_refl.
Qed.

Lemma removeLink_result this fs parent links name node i s :
  filesystems s !! this = Some fs -> inodes s !! node = Some i ->
  exists i',
    _removeLink this parent links name node s
    = Ok tt (with_inodes (<[node := i']> (inodes s))
               (with_linkmaps (alter (sm_delete (FS.ignoreCase fs) name) links (linkmaps s)) s))
    /\ Inode.mode i' = Inode.mode i /\ Inode.links i' = Inode.links i
    /\ Inode.symlink i' = Inode.symlink i
    /\ Inode.nlink i' = (Inode.nlink i - 1)%Z.
Proof.
  intros Hfs Hn. unfold _removeLink, bind, fs_at, update_map, update_inode, modify, inode_at.
  rewrite Hfs. simpl. rewrite list_lookup_alter_eq, Hn. simpl.
  destruct (jm_get optptr_eqb parent (Inode.incomingLinks i)) as [set|].
  - destruct (ss_size _ =? 0)%Z; simpl; eexists; (split; [|split; [|split; [|split]]]).
    all: try (unfold with_inodes, with_linkmaps; simpl; do 2 f_equal;
              rewrite list_alter_alter_eq; apply (alter_at _ _ _ _ Hn)).
    all: reflexivity.
  - eexists; split; [|split; [|split; [|split]]].
    + unfold with_inodes, with_linkmaps; simpl; do 2 f_equal. apply (alter_at _ _ _ _ Hn).
    + reflexivity.
    + reflexivity.
    + reflexivity.
    + reflexivity.
Qed.

(** X16.  A file that [unlinkSync] has removed is gone: when the parent
    directory of the path is found, its links are built and have the name
    once, for a node that is not a directory, and the file system is not
    read-only, [unlinkSync(path)] returns; afterwards [lstatSync(path)] and
    [statSync(path)] throw ENOENT and the node has one link less. *)
Theorem unlink_then_gone (this : fsref) (path p : Path) (s : State) (fs : FS.t)
    (e : FileDescription.t) (x : ptr) (nx : Inode.t) :
  filesystems s !! this = Some fs -> FS.frozen fs = false ->
  _resolve this path s = Ok p s ->
  is_root_path (FS.ignoreCase fs) p = false ->
  _find this (dirname p) s = Ok (Some e) s ->
  linked_once s (FS.ignoreCase fs) (FileDescription.node e) (basename p) x ->
  inodes s !! x = Some nx -> isDirectoryInode nx = false ->
  exists s1 nx1,
    unlinkSync this path s = Ok tt s1
    /\ lstatSync this path s1 = Throw (IOError ENOENT) s1
    /\ statSync this path s1 = Throw (IOError ENOENT) s1
    /\ inodes s1 !! x = Some nx1
    /\ Inode.nlink nx1 = (Inode.nlink nx - 1)%Z.
Proof.
  intros Hfs Hrw Hres Hroot Hwalk (pn & l & m & Hpn & Hpdir & Hl & Hm & Hget & Hgone) Hx Hxd.
  set (parent := FileDescription.node e) in *.
  assert (Hlen : (2 <= length p)%nat) by (eapply not_root_long; exact Hroot).
  assert (Hne : x <> parent).
  { intros ->. assert (nx = pn) by congruence. subst nx. congruence. }
  assert (Hlfind : _lfind this p s = Ok (Some (child_entry e (basename p) x)) s).
  { unfold _lfind. rewrite <- (dirname_basename p Hlen) at 1.
    apply (walk_extend this true (basename p) x nx (dirname p) s e s fs Hwalk Hfs s
             (keeps_links_refl _ _) Hx (or_intror eq_refl)).
    exists pn, l, m. auto. }
  destruct (removeLink_result this fs (Some parent) l (basename p) x nx s Hfs Hx)
    as (nx' & Hrem & Hmode & Hlinks & Hsym & Hnlink).
  set (sa := with_inodes (<[x := nx']> (inodes s))
               (with_linkmaps (alter (sm_delete (FS.ignoreCase fs) (basename p)) l (linkmaps s))
                  s)) in *.
  set (t := FS._time fs (ticks s)).
  set (sb := with_inodes (alter (Inode.with_ctimeMs t) x
                            (alter (Inode.with_mtimeMs t) parent (inodes sa)))
               (with_ticks (S (ticks s)) sa)).
  assert (Hxb : inodes sb !! x = Some (Inode.with_ctimeMs t nx')).
  { subst sb sa. simpl. rewrite list_lookup_alter_eq.
    rewrite list_lookup_alter_ne by congruence.
    rewrite list_lookup_insert_eq by (eapply lookup_lt_Some; exact Hx). reflexivity. }
  set (nx1 := Inode.with_paths None (Inode.with_ctimeMs t nx')).
  set (s1 := with_inodes (<[x := nx1]> (inodes sb)) sb).
  assert (Hrun : unlinkSync this path s = Ok tt s1).
  { unfold unlinkSync. rewrite (bind_eq_Ok _ Hres).
    rewrite (bind_eq_Ok _ (or_throw_Some _ ENOENT _ _ _ Hlfind)).
    cbv zeta. cbn [child_entry FileDescription.node FileDescription.parent
                   FileDescription.basename].
    rewrite (bind_eq_Ok _ (inode_at_eq _ _ _ Hx)). rewrite Hxd.
    rewrite (bind_eq_Ok _ (isReadonly_eq _ _ _ Hfs)). rewrite Hrw.
    rewrite (bind_eq_Ok _ (getLinks_ready this parent pn l s Hpn Hl)).
    rewrite (bind_eq_Ok _ Hrem).
    rewrite (bind_eq_Ok _ (time_spec this fs sa Hfs)).
    rewrite (bind_eq_Ok _ (update_inode_run _ _ _)).
    rewrite (bind_eq_Ok _ (update_inode_run _ _ _)).
    apply (invalidatePaths_leaf 0 this x _ sb Hxb).
    left. unfold isDirectoryInode in *. simpl. rewrite Hmode. exact Hxd. }
  assert (Hp1 : inodes s1 !! parent = Some (Inode.with_mtimeMs t pn)).
  { subst s1 sb sa. simpl. rewrite list_lookup_insert_ne by congruence.
    rewrite list_lookup_alter_ne by congruence. rewrite list_lookup_alter_eq.
    rewrite list_lookup_insert_ne by congruence. rewrite Hpn. reflexivity. }
  assert (Hx1 : inodes s1 !! x = Some nx1).
  { subst s1. simpl. apply list_lookup_insert_eq. eapply lookup_lt_Some; exact Hxb. }
  assert (Hk : keeps_but (FS.ignoreCase fs) l s s1).
  { apply (keeps_but_delete _ l (basename p) m s s1 Hm Hgone); try reflexivity.
    intros q i Hq. destruct (decide (q = x)) as [->|Hqx].
    - exists nx1. assert (i = nx) by congruence. subst i. split; [exact Hx1|].
      simpl. auto.
    - destruct (decide (q = parent)) as [->|Hqp].
      + exists (Inode.with_mtimeMs t pn). assert (i = pn) by congruence. subst i.
        split; [exact Hp1|]. simpl. auto.
      + exists i. split; [|auto]. subst s1 sb sa. simpl.
        rewrite list_lookup_insert_ne by congruence.
        rewrite !list_lookup_alter_ne by congruence.
        rewrite list_lookup_insert_ne by congruence. exact Hq. }
  assert (Hgone1 : forall nf, _walk this p nf s1 = Ok None s1).
  { intros nf.
    apply (walk_removed this nf p s e fs s1 l (sm_delete (FS.ignoreCase fs) (basename p) m)
             (Inode.with_mtimeMs t pn) Hwalk Hfs Hlen Hk eq_refl Hp1); auto.
    subst s1 sb sa. simpl. rewrite list_lookup_alter_eq, Hm. reflexivity. }
  assert (Hres1 : _resolve this path s1 = Ok p s1) by (apply (resolve_same_fs _ _ s); auto).
  exists s1, nx1. split; [exact Hrun|].
  assert (Hthrow : forall nf, or_throw (_walk this p nf) ENOENT s1 = Throw (IOError ENOENT) s1).
  { intros nf. unfold or_throw. rewrite (bind_eq_Ok _ (Hgone1 nf)). reflexivity. }
  split.
  { unfold lstatSync, _lfind. rewrite (bind_eq_Ok _ Hres1).
    apply (bind_eq_Throw _ (Hthrow true)). }
  split.
  { unfold statSync, _find. rewrite (bind_eq_Ok _ Hres1).
    apply (bind_eq_Throw _ (Hthrow false)). }
  split; [exact Hx1|]. exact Hnlink.
Qed.

Lemma unlink_then_gone_witness :
  exists s1 nx1,
    unlinkSync 0 ["/"; "f"]%string rename_state = Ok tt s1
    /\ lstatSync 0 ["/"; "f"]%string s1 = Throw (IOError ENOENT) s1
    /\ statSync 0 ["/"; "f"]%string s1 = Throw (IOError ENOENT) s1
    /\ inodes s1 !! FileDescription.node found_f_entry = Some nx1
    /\ Inode.nlink nx1 = (Inode.nlink found_f_inode - 1)%Z.
Proof.
  apply (unlink_then_gone 0 ["/"; "f"]%string ["/"; "f"]%string rename_state rename_fs
           found_root_entry (FileDescription.node found_f_entry) found_f_inode).
  - vm_compute; reflexivity.
  - vm_compute; reflexivity.
  - vm_compute; reflexivity.
  - vm_compute; reflexivity.
  - vm_compute; reflexivity.
  - vm_compute. eexists _, _, _. repeat split; reflexivity.
  - vm_compute; reflexivity.
  - vm_compute; reflexivity.
Defined.

(** X17.  A directory that [rmdirSync] has removed is gone: when the parent
    directory of the path is found, its links are built and have the name
    once, for a directory whose links are built and empty, and the file system
    is not read-only, [rmdirSync(path)] returns; afterwards [statSync(path)]
    and [lstatSync(path)] throw ENOENT. *)
Theorem rmdir_then_gone (this : fsref) (path p : Path) (s : State) (fs : FS.t)
    (e : FileDescription.t) (x : ptr) (nx : Inode.t) (el : mapref) :
  filesystems s !! this = Some fs -> FS.frozen fs = false ->
  _resolve this path s = Ok p s ->
  is_root_path (FS.ignoreCase fs) p = false ->
  _find this (dirname p) s = Ok (Some e) s ->
  linked_once s (FS.ignoreCase fs) (FileDescription.node e) (basename p) x ->
  inodes s !! x = Some nx -> isDirectoryInode nx = true ->
  Inode.links nx = Some el -> linkmaps s !! el = Some [] ->
  x <> FileDescription.node e ->
  exists s1,
    rmdirSync this path s = Ok tt s1
    /\ statSync this path s1 = Throw (IOError ENOENT) s1
    /\ lstatSync this path s1 = Throw (IOError ENOENT) s1.
Proof.
  intros Hfs Hrw Hres Hroot Hwalk (pn & l & m & Hpn & Hpdir & Hl & Hm & Hget & Hgone)
    Hx Hxd Hel Helm Hne.
  set (parent := FileDescription.node e) in *.
  assert (Hlen : (2 <= length p)%nat) by (eapply not_root_long; exact Hroot).
  assert (Hnotsym : isSymlinkInode nx = false).
  { unfold isDirectoryInode, isSymlinkInode in *. apply Z.eqb_eq in Hxd. rewrite Hxd.
    reflexivity. }
  assert (Hfind : _find this p s = Ok (Some (child_entry e (basename p) x)) s).
  { unfold _find. rewrite <- (dirname_basename p Hlen) at 1.
    apply (walk_extend this false (basename p) x nx (dirname p) s e s fs Hwalk Hfs s
             (keeps_links_refl _ _) Hx (or_introl Hnotsym)).
    exists pn, l, m. auto. }
  destruct (removeLink_result this fs (Some parent) l (basename p) x nx s Hfs Hx)
    as (nx' & Hrem & Hmode & Hlinks & Hsym & Hnlink).
  set (sa := with_inodes (<[x := nx']> (inodes s))
               (with_linkmaps (alter (sm_delete (FS.ignoreCase fs) (basename p)) l (linkmaps s))
                  s)) in *.
  set (t := FS._time fs (ticks s)).
  set (sb := with_inodes (alter (Inode.with_ctimeMs t) x
                            (alter (Inode.with_mtimeMs t) parent (inodes sa)))
               (with_ticks (S (ticks s)) sa)).
  assert (Hxb : inodes sb !! x = Some (Inode.with_ctimeMs t nx')).
  { subst sb sa. simpl. rewrite list_lookup_alter_eq.
    rewrite list_lookup_alter_ne by congruence.
    rewrite list_lookup_insert_eq by (eapply lookup_lt_Some; exact Hx). reflexivity. }
  set (nx1 := Inode.with_paths None (Inode.with_ctimeMs t nx')).
  set (s1 := with_inodes (<[x := nx1]> (inodes sb)) sb).
  assert (Hell : el <> l).
  { intros ->. assert (m = []) by congruence. subst m. discriminate. }
  assert (Hrun : rmdirSync this path s = Ok tt s1).
  { unfold rmdirSync. rewrite (bind_eq_Ok _ Hres).
    rewrite (bind_eq_Ok _ (or_throw_Some _ ENOENT _ _ _ Hfind)).
    cbv zeta. cbn [child_entry FileDescription.node FileDescription.parent].
    rewrite (bind_eq_Ok _ (inode_at_eq _ _ _ Hx)). rewrite Hxd. cbn [negb].
    rewrite (bind_eq_Ok _ (getLinks_ready this x nx el s Hx Hel)).
    rewrite (bind_eq_Ok _ (map_at_eq _ _ _ Helm)).
    change (negb (sm_size (@nil (string * nat)) =? 0)%Z) with false. cbv iota.
    rewrite (bind_eq_Ok _ (isReadonly_eq _ _ _ Hfs)). rewrite Hrw.
    rewrite (bind_eq_Ok _ (getLinks_ready this parent pn l s Hpn Hl)).
    rewrite (bind_eq_Ok _ Hrem).
    rewrite (bind_eq_Ok _ (time_spec this fs sa Hfs)).
    rewrite (bind_eq_Ok _ (update_inode_run _ _ _)).
    rewrite (bind_eq_Ok _ (update_inode_run _ _ _)).
    apply (invalidatePaths_leaf 0 this x _ sb Hxb).
    right. exists el. split; [simpl; rewrite Hlinks; exact Hel|].
    subst sb sa. simpl. rewrite list_lookup_alter_ne by congruence. exact Helm. }
  assert (Hp1 : inodes s1 !! parent = Some (Inode.with_mtimeMs t pn)).
  { subst s1 sb sa. simpl. rewrite list_lookup_insert_ne by congruence.
    rewrite list_lookup_alter_ne by congruence. rewrite list_lookup_alter_eq.
    rewrite list_lookup_insert_ne by congruence. rewrite Hpn. reflexivity. }
  assert (Hx1 : inodes s1 !! x = Some nx1).
  { subst s1. simpl. apply list_lookup_insert_eq. eapply lookup_lt_Some; exact Hxb. }
  assert (Hk : keeps_but (FS.ignoreCase fs) l s s1).
  { apply (keeps_but_delete _ l (basename p) m s s1 Hm Hgone); try reflexivity.
    intros q i Hq. destruct (decide (q = x)) as [->|Hqx].
    - exists nx1. assert (i = nx) by congruence. subst i. split; [exact Hx1|].
      simpl. auto.
    - destruct (decide (q = parent)) as [->|Hqp].
      + exists (Inode.with_mtimeMs t pn). assert (i = pn) by congruence. subst i.
        split; [exact Hp1|]. simpl. auto.
      + exists i. split; [|auto]. subst s1 sb sa. simpl.
        rewrite list_lookup_insert_ne by congruence.
        rewrite !list_lookup_alter_ne by congruence.
        rewrite list_lookup_insert_ne by congruence. exact Hq. }
  assert (Hgone1 : forall nf, _walk this p nf s1 = Ok None s1).
  { intros nf.
    apply (walk_removed this nf p s e fs s1 l (sm_delete (FS.ignoreCase fs) (basename p) m)
             (Inode.with_mtimeMs t pn) Hwalk Hfs Hlen Hk eq_refl Hp1); auto.
    subst s1 sb sa. simpl. rewrite list_lookup_alter_eq, Hm. reflexivity. }
  assert (Hres1 : _resolve this path s1 = Ok p s1) by (apply (resolve_same_fs _ _ s); auto).
  assert (Hthrow : forall nf, or_throw (_walk this p nf) ENOENT s1 = Throw (IOError ENOENT) s1).
  { intros nf. unfold or_throw. rewrite (bind_eq_Ok _ (Hgone1 nf)). reflexivity. }
  exists s1. split; [exact Hrun|].
  split.
  { unfold statSync, _find. rewrite (bind_eq_Ok _ Hres1).
    apply (bind_eq_Throw _ (Hthrow false)). }
  { unfold lstatSync, _lfind. rewrite (bind_eq_Ok _ Hres1).
    apply (bind_eq_Throw _ (Hthrow true)). }
Qed.

Lemma rmdir_then_gone_witness :
  exists s1,
    rmdirSync 0 ["/"; "d"]%string rename_state = Ok tt s1
    /\ statSync 0 ["/"; "d"]%string s1 = Throw (IOError ENOENT) s1
    /\ lstatSync 0 ["/"; "d"]%string s1 = Throw (IOError ENOENT) s1.
Proof.
  apply (rmdir_then_gone 0 ["/"; "d"]%string ["/"; "d"]%string rename_state rename_fs
           found_root_entry 1 found_d_inode 3).
  - vm_compute; reflexivity.
  - vm_compute; reflexivity.
  - vm_compute; reflexivity.
  - vm_compute; reflexivity.
  - vm_compute; reflexivity.
  - vm_compute. eexists _, _, _. repeat split; reflexivity.
  - vm_compute; reflexivity.
  - vm_compute; reflexivity.
  - vm_compute; reflexivity.
  - vm_compute; reflexivity.
  - vm_compute. discriminate.
Defined.

#[local] Arguments Nat.leb : simpl never.
#[local] Arguments validate : simpl never.

(** ** Descriptor numbers *)

Lemma kt_refl s : keeps_tables s s.
Proof. repeat split; auto. Qed.

Lemma kt_trans s1 s2 s3 : keeps_tables s1 s2 -> keeps_tables s2 s3 -> keeps_tables s1 s3.
Proof.
  intros (a1 & a2 & a3) (b1 & b2 & b3). split; [congruence|]. split.
  - intros f fd. rewrite b2. apply a2.
  - intros f. rewrite b3. apply a3.
Qed.

Lemma kt_same s s' :
  filesystems s' = filesystems s -> fdCount s' = fdCount s -> keeps_tables s s'.
Proof.
  intros Hf Hc. split; [exact Hc|]. split.
  - intros f fd. unfold open_entry. rewrite Hf. reflexivity.
  - intros f. rewrite Hf. reflexivity.
Qed.

Lemma kt_lazy_ext s s' : lazy_ext s s' -> keeps_tables s s'.
Proof.
  intros H. split; [apply (lz_fdCount _ _ _ _ H)|].
  assert (Hsome : forall f, is_Some (filesystems s' !! f) <-> is_Some (filesystems s !! f)).
  { intros f. rewrite !lookup_lt_is_Some. rewrite (lz_fs_len _ _ _ _ H). reflexivity. }
  split; [|exact Hsome].
  intros f fd. unfold open_entry. destruct (filesystems s !! f) as [fs|] eqn:Hfs.
  - destruct (lazy_ext_fs _ _ _ _ H Hfs) as (fs' & -> & _ & _ & _ & _ & -> & _). reflexivity.
  - destruct (filesystems s' !! f) eqn:E; [|reflexivity].
    assert (Hs : is_Some (filesystems s !! f)) by (apply Hsome; eauto).
    rewrite Hfs in Hs. destruct Hs as [? [=]].
Qed.

Lemma kt_lazy {A} (m : M A) s :
  (forall ni nm, bounded ni nm s -> lazy_upto ni nm s (final_state (m s))) ->
  keeps_tables s (final_state (m s)).
Proof. intros H. apply kt_lazy_ext. apply H. apply bounded_self. Qed.

Lemma kt_bind {A B} (m : M A) (k : A -> M B) s :
  keeps_tables s (final_state (m s)) ->
  (forall a s1, m s = Ok a s1 -> keeps_tables s1 (final_state (k a s1))) ->
  keeps_tables s (final_state (bind m k s)).
Proof.
  intros Hm Hk. unfold bind. destruct (m s) as [a s1|e s1] eqn:E; simpl in *.
  - eapply kt_trans; [exact Hm|]. apply Hk; auto.
  - exact Hm.
Qed.

Lemma kt_run {A} (m : M A) s a s1 :
  m s = Ok a s1 -> keeps_tables s (final_state (m s)) -> keeps_tables s s1.
Proof. intros E H. rewrite E in H. exact H. Qed.

Lemma kt_addLink this parent links name node s :
  keeps_tables s (final_state (_addLink this parent links name node s)).
Proof.
  apply kt_same; unfold _addLink, bind, fs_at, update_map, update_inode, modify, inode_at;
    destruct (filesystems s !! this); try reflexivity; simpl;
    destruct (alter _ node (inodes s) !! node); reflexivity.
Qed.

Lemma kt_fsync this entry metadata s :
  keeps_tables s (final_state (_fsync this entry metadata s)).
Proof.
  apply kt_same; [apply fsync_filesystems|].
  unfold _fsync, bind, inode_at.
  destruct (inodes s !! OpenFile.node entry) as [node|]; [|reflexivity].
  destruct (OpenFile.buffer entry) as [b|]; [|reflexivity].
  destruct (isFileInode node && _); [|reflexivity].
  unfold time, bind, fs_at. destruct (filesystems s !! this) as [fs|]; [|reflexivity].
  simpl. destruct metadata; [|reflexivity].
  unfold buffer_at. simpl. destruct (buffers s !! b); reflexivity.
Qed.

Lemma kt_open_node this p flags mode entry s :
  keeps_tables s (final_state (open_node this p flags mode entry s)).
Proof.
  unfold open_node. destruct entry as [e|].
  - destruct (truthy (Z.land flags O_EXCL)); apply kt_refl.
  - destruct (truthy (Z.land (Z.lnot flags) O_CREAT)); [apply kt_refl|].
    destruct (truthy (Z.land flags O_DIRECTORY)); [apply kt_refl|]. cbv zeta.
    apply kt_bind; [apply kt_lazy; intros; apply lazy_find; assumption|]. intros e s1 _.
    apply kt_bind; [apply kt_lazy; intros; apply lazy_inode_at|]. intros pi s2 _.
    destruct (negb (isDirectoryInode pi)); [apply kt_refl|].
    apply kt_bind; [apply kt_lazy; intros; apply lazy_mknod|]. intros node s3 _.
    apply kt_bind; [apply kt_same; reflexivity|]. intros b s4 _.
    apply kt_bind; [apply kt_same; reflexivity|]. intros _ s5 _.
    apply kt_bind; [apply kt_lazy; intros; apply lazy_getLinks; assumption|]. intros links s6 _.
    apply kt_bind; [apply kt_addLink|]. intros _ s7 _.
    apply kt_bind; [apply kt_lazy; intros; apply lazy_time|]. intros t s8 _.
    apply kt_bind; [apply kt_same; reflexivity|]. intros _ s9 _.
    apply kt_refl.
Qed.

(** A new entry for [fd] in the table of [this]. *)
Lemma set_entry this fd e s :
  is_Some (filesystems s !! this) ->
  let s' := with_filesystems
              (alter (fun f => FS.with_openFiles (jm_set Z.eqb fd e (FS._openFiles f)) f)
                 this (filesystems s)) s in
  open_entry s' this fd = Some e
  /\ (forall fd', fd' <> fd -> open_entry s' this fd' = open_entry s this fd')
  /\ (forall f, f <> this -> forall fd', open_entry s' f fd' = open_entry s f fd')
  /\ (forall f, is_Some (filesystems s' !! f) <-> is_Some (filesystems s !! f)).
Proof.
  intros [fs Hfs] s'. destruct (open_entry_set this fd e s fs Hfs) as (H1 & H2).
  split; [exact H1|]. split; [exact H2|]. split.
  - intros f Hf fd'. unfold open_entry. subst s'. simpl.
    rewrite list_lookup_alter_ne by congruence. reflexivity.
  - intros f. subst s'. simpl. rewrite !lookup_lt_is_Some, length_alter. reflexivity.
Qed.

(** The end of [openSync] that has returned. *)
Lemma open_tail_Ok this p write r s fd s1 :
  is_Some (filesystems s !! this) ->
  open_tail this p write r s = Ok fd s1 ->
  fd = (fdCount s + 1)%Z /\ fdCount s1 = fd
  /\ (exists e, open_entry s1 this fd = Some e /\ OpenFile.fd e = fd
                /\ OpenFile.node e = snd (fst r) /\ OpenFile.flags e = fst (fst r))
  /\ (forall fd', fd' <> fd -> open_entry s1 this fd' = open_entry s this fd')
  /\ (forall f, f <> this -> forall fd', open_entry s1 f fd' = open_entry s f fd').
Proof.
  destruct r as [[flags node] parent]. unfold open_tail. intros Hex H.
  apply bind_Ok in H as (n & s0 & Hn & H). apply inode_at_Ok in Hn as [-> Hn].
  destruct (truthy (Z.land flags O_DIRECTORY) && isFileInode n); [discriminate|].
  destruct (truthy write && isDirectoryInode n); [discriminate|].
  apply bind_Ok in H as (c & s0 & Hc & H). injection Hc as <- <-.
  apply bind_Ok in H as ([] & sa & Ha & H). injection Ha as <-.
  apply bind_Ok in H as (offset & sb & Hoff & H).
  assert (Hsb : keeps_tables (with_fdCount (fdCount s + 1) s) sb).
  { destruct (isFileInode n && (Z.land flags (Z.lor O_APPEND O_TRUNC) =? O_APPEND)%Z).
    - apply (kt_run _ _ _ _ Hoff). apply kt_lazy.
      intros; apply lazy_getSize_rec; assumption.
    - injection Hoff as <- <-. apply kt_refl. }
  destruct Hsb as (Hcb & Hob & Hsomeb). cbn [fdCount with_fdCount] in Hcb.
  assert (Hob' : forall f fd', open_entry sb f fd' = open_entry s f fd') by exact Hob.
  assert (Hexb : is_Some (filesystems sb !! this)) by (apply Hsomeb; exact Hex).
  apply bind_Ok in H as ([] & sc & Hc & H). injection Hc as <-.
  apply bind_Ok in H as ([] & sd & Hd & H). injection H as <- <-.
  set (fd := (fdCount s + 1)%Z) in *.
  set (file := {| OpenFile.fd := fd; OpenFile.path := p |}) in *.
  destruct (set_entry this fd file sb Hexb) as (Ho1 & Ho2 & Ho3 & Ho4).
  set (sc := with_filesystems _ sb) in *.
  destruct (truthy (Z.land flags O_TRUNC)).
  - apply bind_Ok in Hd as (b & se & Hb & Hd). injection Hb as <- <-.
    apply bind_Ok in Hd as ([] & sf & Hf & Hd). injection Hf as <-.
    set (file' := OpenFile.with_buffer (Some (length (buffers sc))) file) in *.
    set (se := with_buffers _ sc) in *.
    assert (Hexe : is_Some (filesystems se !! this)) by (apply Ho4; exact Hexb).
    destruct (set_entry this fd file' se Hexe) as (Hp1 & Hp2 & Hp3 & Hp4).
    set (sf := with_filesystems _ se) in *.
    assert (Hfin : keeps_tables sf sd).
    { destruct (truthy (Z.land flags O_SYNC)).
      - apply (kt_run _ _ _ _ Hd). apply kt_fsync.
      - injection Hd as <-. apply kt_refl. }
    destruct Hfin as (Hcf & Hof & _).
    split; [reflexivity|]. split; [rewrite Hcf; exact Hcb|].
    split; [exists file'; rewrite Hof; split; [exact Hp1|repeat split]|].
    split.
    + intros fd' Hne. rewrite Hof, (Hp2 fd' Hne). rewrite <- Hob'. exact (Ho2 fd' Hne).
    + intros f Hf fd'. rewrite Hof, (Hp3 f Hf fd'). rewrite <- Hob'. exact (Ho3 f Hf fd').
  - injection Hd as <-.
    split; [reflexivity|]. split; [exact Hcb|].
    split; [exists file; split; [exact Ho1|repeat split]|].
    split.
    + intros fd' Hne. rewrite <- Hob'. exact (Ho2 fd' Hne).
    + intros f Hf fd'. rewrite <- Hob'. exact (Ho3 f Hf fd').
Qed.

(** X18.  [openSync] gives out the next descriptor number: when it returns,
    the descriptor is [fdCount + 1], which is the new [fdCount]; the table of
    the file system has an entry for it, filed under its own number; every
    other descriptor, of this and of every other file system, is as it was.
    So descriptor numbers are never reused: if no descriptor in a table
    exceeded [fdCount] before, the new one was free, and none exceeds
    [fdCount] afterwards. *)
Theorem open_allocates_descriptor (this : fsref) (path : Path) (flags : OpenFlags)
    (mode : Z) (s s1 : State) (fd : Z) :
  openSync this path flags mode s = Ok fd s1 ->
  fd = (fdCount s + 1)%Z /\ fdCount s1 = fd
  /\ (exists e, open_entry s1 this fd = Some e /\ OpenFile.fd e = fd)
  /\ (forall fd', fd' <> fd -> open_entry s1 this fd' = open_entry s this fd')
  /\ (forall f, f <> this -> forall fd', open_entry s1 f fd' = open_entry s f fd')
  /\ (fds_bounded s -> open_entry s this fd = None /\ fds_bounded s1).
Proof.
  intros H. rewrite openSync_parts in H.
  apply bind_Ok in H as (p & s0 & Hres & H). apply resolve_Ok in Hres as ->.
  apply bind_Ok in H as (n & s0 & Hflags & H).
  pose proof (parseFlags_state flags s) as Hps. rewrite Hflags in Hps. simpl in Hps. subst s0.
  cbv zeta in H.
  apply bind_Ok in H as (ro & s0 & Hro & H).
  unfold isReadonly in Hro. apply bind_Ok in Hro as (fs & s0' & Hfs & Hro).
  apply fs_at_Ok in Hfs as [-> Hfs]. injection Hro as <- <-.
  destruct (truthy (open_write n) && FS.frozen fs); [discriminate|].
  apply bind_Ok in H as (entry & sa & Hwalk & H).
  apply bind_Ok in H as (r & sb & Hnode & H).
  assert (Hsa : keeps_tables s sa).
  { apply (kt_run _ _ _ _ Hwalk). apply kt_lazy. intros; apply lazy_walk; assumption. }
  assert (Hsb : keeps_tables s sb).
  { eapply kt_trans; [exact Hsa|]. apply (kt_run _ _ _ _ Hnode). apply kt_open_node. }
  destruct Hsb as (Hcb & Hob & Hsomeb).
  destruct (open_tail_Ok this p (open_write n) r sb fd s1) as (Hfd & Hc1 & He & Hother & Hfs');
    [apply Hsomeb; eauto|exact H|].
  rewrite Hcb in Hfd.
  split; [exact Hfd|]. split; [exact Hc1|].
  split; [destruct He as (e & He & Hfe & _); eauto|].
  split; [intros fd' Hne; rewrite (Hother fd' Hne); apply Hob|].
  split; [intros f Hf fd'; rewrite (Hfs' f Hf fd'); apply Hob|].
  intros Hb. split.
  - destruct (open_entry s this fd) as [e|] eqn:E; [|reflexivity].
    apply Hb in E. lia.
  - intros f fd' e Hopen. rewrite Hc1.
    destruct (Z.eq_dec fd' fd) as [->|Hne]; [lia|].
    assert (Hold : open_entry s f fd' = Some e).
    { destruct (decide (f = this)) as [->|Hf].
      - rewrite <- Hob, <- (Hother fd' Hne). exact Hopen.
      - rewrite <- Hob, <- (Hfs' f Hf fd'). exact Hopen. }
    apply Hb in Hold. lia.
Qed.

Lemma open_allocates_descriptor_witness :
  fdCount (final_state second_open) = 3%Z
  /\ exists e, open_entry (final_state second_open) 0 3 = Some e /\ OpenFile.fd e = 3%Z.
Proof.
  destruct (open_allocates_descriptor 0 ["/"; "a"]%string (FlagString "r") 438 plain_state
              (final_state second_open) 3) as (_ & H1 & H2 & _).
  - vm_compute; reflexivity.
  - split; [exact H1|exact H2].
Defined.

#[local] Arguments Nat.leb : simpl never.

(** ** Access modes *)

Lemma file_throws this fd kind mode s e n fs code :
  filesystems s !! this = Some fs ->
  jm_get Z.eqb fd (FS._openFiles fs) = Some e ->
  inodes s !! OpenFile.node e = Some n ->
  match kind with
  | Some KindFile =>
      (isDirectoryInode n = true /\ code = EISDIR)
      \/ (isFileInode n = true /\ code = EBADF
          /\ (truthy (Z.land mode W_OK) && negb (isWritable e)
              || truthy (Z.land mode R_OK) && negb (isReadable e)) = true)
  | _ => False
  end ->
  _file this fd kind mode s = Throw (IOError code) s.
Proof.
  intros Hfs He Hn Hk. unfold _file.
  rewrite (bind_eq_Ok _ (fs_at_eq _ _ _ Hfs)), He.
  rewrite (bind_eq_Ok _ (inode_at_eq _ _ _ Hn)).
  destruct kind as [[|]|]; try contradiction.
  destruct Hk as [[Hd ->]|(Hf & -> & Hm)].
  - rewrite Hd. reflexivity.
  - rewrite (file_is_not_directory n Hf), Hf. cbn [negb].
    unfold ret at 1. unfold bind at 1.
    destruct (truthy (Z.land mode W_OK) && negb (isWritable e)); [reflexivity|].
    simpl in Hm. rewrite Hm. reflexivity.
Qed.

(** X19.  The access mode of a descriptor is enforced, and a directory is
    neither read nor written: [writeSync] of at least one byte through a
    descriptor of a regular file that was not opened for writing throws EBADF,
    [readSync] of at least one byte through one that was not opened for
    reading throws EBADF, and both throw EISDIR on a descriptor of a
    directory; nothing is changed. *)
Theorem access_mode_enforced (this : fsref) (fd : Z) (s : State) (e : OpenFile.t)
    (n : Inode.t) :
  open_entry s this fd = Some e ->
  inodes s !! OpenFile.node e = Some n ->
  (forall data pos, data <> [] -> (-1 <= pos)%Z ->
     (isFileInode n = true -> isWritable e = false ->
      writeSync this fd data None None (Some pos) s = Throw (IOError EBADF) s)
     /\ (isDirectoryInode n = true ->
         writeSync this fd data None None (Some pos) s = Throw (IOError EISDIR) s))
  /\ (forall buf len pos, (0 < len <= Z.of_nat (length buf))%Z -> (-1 <= pos)%Z ->
        (isFileInode n = true -> isReadable e = false ->
         readSync this fd buf 0 len (Some pos) s = Throw (IOError EBADF) s)
        /\ (isDirectoryInode n = true ->
            readSync this fd buf 0 len (Some pos) s = Throw (IOError EISDIR) s)).
Proof.
  intros He Hn. unfold open_entry in He.
  destruct (filesystems s !! this) as [fs|] eqn:Hfs; [|discriminate].
  split.
  - intros data pos Hdata Hpos.
    assert (Hlen : (0 < length data)%nat) by (destruct data; [congruence|simpl; lia]).
    assert (Hpre : forall code,
               _file this fd (Some KindFile) W_OK s = Throw (IOError code) s ->
               writeSync this fd data None None (Some pos) s = Throw (IOError code) s).
    { intros code Hfile. unfold writeSync.
      replace ((0 <? 0)%Z || (byteLength data - 0 <? 0)%Z || (pos <? -1)%Z
               || (byteLength data - (byteLength data - 0) <? 0)%Z) with false.
      2: { unfold byteLength. symmetry. rewrite !orb_false_iff.
           repeat split; apply Z.ltb_ge; lia. }
      replace (byteLength data - 0 =? 0)%Z with false
        by (unfold byteLength; symmetry; apply Z.eqb_neq; lia).
      apply (bind_eq_Throw _ Hfile). }
    split.
    + intros Hf Hw. apply Hpre. apply (file_throws this fd _ _ s e n fs EBADF Hfs He Hn).
      right. rewrite Hw. auto.
    + intros Hd. apply Hpre. apply (file_throws this fd _ _ s e n fs EISDIR Hfs He Hn).
      left. auto.
  - intros buf len pos Hlen Hpos.
    assert (Hpre : forall code,
               _file this fd (Some KindFile) R_OK s = Throw (IOError code) s ->
               readSync this fd buf 0 len (Some pos) s = Throw (IOError code) s).
    { intros code Hfile. unfold readSync.
      replace ((0 <? 0)%Z || (len <? 0)%Z || (pos <? -1)%Z
               || (byteLength buf - len <? 0)%Z) with false.
      2: { unfold byteLength. symmetry. rewrite !orb_false_iff.
           repeat split; apply Z.ltb_ge; lia. }
      replace (len =? 0)%Z with false by (symmetry; apply Z.eqb_neq; lia).
      apply (bind_eq_Throw _ Hfile). }
    split.
    + intros Hf Hr. apply Hpre. apply (file_throws this fd _ _ s e n fs EBADF Hfs He Hn).
      right. rewrite Hr. auto.
    + intros Hd. apply Hpre. apply (file_throws this fd _ _ s e n fs EISDIR Hfs He Hn).
      left. auto.
Qed.

Lemma access_mode_enforced_witness :
  writeSync 0 3 [Byte.x58] None None (Some 0%Z) readonly_state
  = Throw (IOError EBADF) readonly_state.
Proof.
  destruct (access_mode_enforced 0 3 readonly_state readonly_entry plain_inode) as [H _].
  - vm_compute; reflexivity.
  - vm_compute; reflexivity.
  - apply (H [Byte.x58] 0%Z); [discriminate|lia|vm_compute; reflexivity|vm_compute; reflexivity].
Defined.

#[local] Arguments Nat.leb : simpl never.

(** ** The errors of [openSync] *)

(** X20.  The errors of [openSync], decided by the lookup of the path (on a
    file system that is writable, or with flags that do not ask to write):
    when nothing is found and [O_CREAT] is not set it throws ENOENT; when an
    entry is found and [O_EXCL] is set it throws EEXIST; when the entry is a
    regular file and [O_DIRECTORY] is set it throws ENOTDIR; when the entry is
    a directory and the flags ask to write it throws EISDIR.  The store is the
    one the lookup left: no descriptor is given out. *)
Theorem open_errors (this : fsref) (path p : Path) (flags : OpenFlags) (mode n : Z)
    (s sw : State) (fs : FS.t) (entry : option FileDescription.t) :
  filesystems s !! this = Some fs ->
  _resolve this path s = Ok p s ->
  parseFlags flags s = Ok n s ->
  truthy (open_write n) && FS.frozen fs = false ->
  _walk this p (truthy (Z.land n O_NOFOLLOW)) s = Ok entry sw ->
  (entry = None -> truthy (Z.land (Z.lnot n) O_CREAT) = true ->
   openSync this path flags mode s = Throw (IOError ENOENT) sw)
  /\ (forall e, entry = Some e -> truthy (Z.land n O_EXCL) = true ->
      openSync this path flags mode s = Throw (IOError EEXIST) sw)
  /\ (forall e ne, entry = Some e -> truthy (Z.land n O_EXCL) = false ->
      inodes sw !! FileDescription.node e = Some ne ->
      (truthy (Z.land n O_DIRECTORY) = true -> isFileInode ne = true ->
       openSync this path flags mode s = Throw (IOError ENOTDIR) sw)
      /\ (truthy (open_write n) = true -> isDirectoryInode ne = true ->
          openSync this path flags mode s = Throw (IOError EISDIR) sw)).
Proof.
  intros Hfs Hres Hflags Hrw Hwalk.
  assert (Hpre : openSync this path flags mode s
                 = (let* r := open_node this p n mode entry in
                    open_tail this p (open_write n) r) sw).
  { rewrite openSync_parts.
    rewrite (bind_eq_Ok _ Hres). rewrite (bind_eq_Ok _ Hflags). cbv zeta.
    rewrite (bind_eq_Ok _ (isReadonly_eq _ _ _ Hfs)). rewrite Hrw.
    rewrite (bind_eq_Ok _ Hwalk). reflexivity. }
  rewrite Hpre.
  split; [|split].
  - intros -> Hc. unfold open_node. rewrite Hc. reflexivity.
  - intros e -> Hx. unfold open_node. rewrite Hx. reflexivity.
  - intros e ne -> Hx Hne.
    assert (Htail : (let* r := open_node this p n mode (Some e) in
                     open_tail this p (open_write n) r) sw
                    = open_tail this p (open_write n)
                        (n, FileDescription.node e, FileDescription.parent e) sw).
    { unfold open_node. rewrite Hx. reflexivity. }
    rewrite Htail. unfold open_tail.
    rewrite (bind_eq_Ok _ (inode_at_eq _ _ _ Hne)).
    split.
    + intros Hd Hf. rewrite Hd, Hf. reflexivity.
    + intros Hw Hd. rewrite Hw, Hd.
      assert (Hnf : isFileInode ne = false).
      { unfold isFileInode, isDirectoryInode in *. apply Z.eqb_eq in Hd. rewrite Hd.
        reflexivity. }
      rewrite Hnf, andb_false_r. reflexivity.
Qed.

(** [openSync("/d", "w")] on the sample store, where [/d] is a directory. *)
Lemma open_errors_witness :
  openSync 0 ["/"; "d"]%string (FlagString "w") 438 rename_state
  = Throw (IOError EISDIR) (final_state found_d).
Proof.
  destruct (open_errors 0 ["/"; "d"]%string ["/"; "d"]%string (FlagString "w") 438 577
              rename_state (final_state found_d) rename_fs (Some found_d_entry))
    as (_ & _ & H).
  - vm_compute; reflexivity.
  - vm_compute; reflexivity.
  - vm_compute; reflexivity.
  - vm_compute; reflexivity.
  - vm_compute; reflexivity.
  - apply (H found_d_entry found_d_inode eq_refl).
    + vm_compute; reflexivity.
    + vm_compute; reflexivity.
    + vm_compute; reflexivity.
    + vm_compute; reflexivity.
Defined.

#[local] Arguments Nat.leb : simpl never.

(** ** Appending to a file *)

Lemma with_offset_id e : OpenFile.with_offset (OpenFile.offset e) e = e.
Proof. destruct e. reflexivity. Qed.

(** A write without a position is a write at the offset of the
    descriptor. *)
Lemma writeSync_at_offset this fd data offset length s e :
  open_entry s this fd = Some e -> (0 <= OpenFile.offset e)%Z ->
  writeSync this fd data offset length None s
  = writeSync this fd data offset length (Some (OpenFile.offset e)) s.
Proof.
  intros He Hoff. unfold writeSync.
  replace (OpenFile.offset e <? -1)%Z with false by (symmetry; apply Z.ltb_ge; lia).
  change (-1 <? -1)%Z with false.
  match goal with
  | |- (if ?c then _ else _) _ = _ => destruct c; [reflexivity|]
  end.
  match goal with
  | |- (if ?c then _ else _) _ = _ => destruct c; [reflexivity|]
  end.
  apply bind_ext. intros a s1 Hfile.
  apply file_Ok in Hfile as [-> Hfile]. assert (a = e) by congruence. subst a.
  replace (negb (OpenFile.offset e =? -1)%Z) with true
    by (symmetry; apply negb_true_iff, Z.eqb_neq; lia).
  change (negb (-1 =? -1)%Z) with false. cbv iota.
  rewrite with_offset_id. reflexivity.
Qed.

Lemma spliced_end c data : spliced c data (length c) = c ++ data.
Proof.
  unfold spliced.
  replace (length c + length data - length c)%nat with (length data) by lia.
  rewrite take_app_length.
  rewrite drop_ge by (rewrite length_app, length_replicate; lia).
  rewrite app_nil_r. reflexivity.
Qed.

(** The end of [openSync] with [O_APPEND] and neither [O_TRUNC] nor [O_SYNC],
    on a regular file whose bytes are loaded: the offset of the descriptor is
    the size of the file. *)
Lemma open_tail_append this path write flags node parent n fs b c s :
  inodes s !! node = Some n -> filesystems s !! this = Some fs ->
  isFileInode n = true -> Inode.buffer n = Some b -> buffers s !! b = Some c ->
  truthy (Z.land flags O_DIRECTORY) = false ->
  (Z.land flags (Z.lor O_APPEND O_TRUNC) =? O_APPEND)%Z = true ->
  truthy (Z.land flags O_TRUNC) = false ->
  exists s' e,
    open_tail this path write (flags, node, parent) s = Ok (fdCount s + 1)%Z s'
    /\ same_tree s s' /\ inodes s' = inodes s /\ buffers s' = buffers s
    /\ open_entry s' this (fdCount s + 1) = Some e
    /\ OpenFile.fd e = (fdCount s + 1)%Z /\ OpenFile.node e = node
    /\ OpenFile.flags e = flags /\ OpenFile.offset e = Z.of_nat (length c)
    /\ OpenFile.buffer e = None.
Proof.
  intros Hn Hfs Hfile Hb Hc Hd Ha Ht. unfold open_tail.
  rewrite (bind_eq_Ok _ (inode_at_eq _ _ _ Hn)).
  rewrite Hd, (file_is_not_directory n Hfile), andb_false_r, Hfile, Ha. cbn [andb].
  rewrite (bind_eq_Ok _ (eq_refl : gets fdCount s = Ok (fdCount s) s)).
  rewrite (bind_eq_Ok _ (eq_refl : modify _ s = Ok tt _)).
  set (sa := with_fdCount (fdCount s + 1) s).
  assert (Hsize : _getSize this node sa = Ok (byteLength c) sa).
  { unfold _getSize. simpl.
    rewrite (bind_eq_Ok _ (inode_at_eq node sa n Hn)), Hb.
    rewrite (bind_eq_Ok _ (buffer_at_eq b sa c Hc)). reflexivity. }
  rewrite (bind_eq_Ok _ Hsize).
  rewrite (bind_eq_Ok _ (eq_refl : update_fs this _ _ = Ok tt _)).
  rewrite Ht. unfold ret at 1. unfold bind at 1. unfold ret.
  set (file := {| OpenFile.fd := (fdCount s + 1)%Z; OpenFile.path := path |}).
  destruct (open_entry_set this (fdCount s + 1) file sa fs Hfs) as (Hopen & _).
  eexists _, file. split; [reflexivity|].
  split.
  { eapply (same_tree_alter_fs s _ this); [reflexivity|reflexivity|reflexivity|].
    intros f. eexists. reflexivity. }
  split; [reflexivity|]. split; [reflexivity|].
  split; [exact Hopen|]. repeat split.
Qed.

(** The loop of [writeFileSync] with [O_APPEND] on a descriptor whose offset
    is the size of the file. *)
Lemma write_all_append this fd data flags s e n fs b c :
  filesystems s !! this = Some fs ->
  open_entry s this fd = Some e -> OpenFile.fd e = fd ->
  inodes s !! OpenFile.node e = Some n -> isFileInode n = true ->
  isWritable e = true ->
  OpenFile.buffer e = None -> Inode.buffer n = Some b -> buffers s !! b = Some c ->
  OpenFile.offset e = Z.of_nat (length c) ->
  truthy (Z.land flags O_APPEND) = true ->
  Z.land (OpenFile.flags e) O_SYNC = 0%Z ->
  data <> [] ->
  exists s1 b1 e1,
    write_loop (S (length data)) this fd data flags 0 s = Ok tt s1
    /\ same_tree s s1 /\ inodes s1 = inodes s
    /\ open_entry s1 this fd = Some e1
    /\ OpenFile.buffer e1 = Some b1 /\ buffers s1 !! b1 = Some (c ++ data)
    /\ OpenFile.node e1 = OpenFile.node e.
Proof.
  intros Hfs He Hfd Hn Hfile Hw Hnone Hb Hc Hoff Happ Hsync Hdata.
  assert (Hvis : visible s e = Some c).
  { unfold visible. rewrite Hnone, Hn, Hb. exact Hc. }
  destruct (writeSync_run this fd data (length c) s e n c fs Hfs He Hfd Hn Hfile Hw Hvis Hdata)
    as (s1 & b1 & e1 & n1 & Hrun & Htree & Hcount & He1 & Hother & Hb1 & _ & Hnode & _
        & Hfd1 & Hbuf1 & _ & _ & Hin).
  rewrite spliced_end in Hbuf1.
  exists s1, b1, e1.
  split.
  { destruct data as [|x data]; [congruence|].
    change (write_loop (S (length (x :: data))) this fd (x :: data) flags 0)
      with (if (0 <? byteLength (x :: data))%Z
            then let* r := writeSync this fd (x :: data) (Some 0%Z)
                             (Some (byteLength (x :: data) - 0)%Z)
                             (if truthy (Z.land flags O_APPEND) then None else Some 0%Z) in
                 match r with
                 | Some n => write_loop (length (x :: data)) this fd (x :: data) flags (0 + n)
                 | None => ret tt
                 end
            else ret tt).
    replace (0 <? byteLength (x :: data))%Z with true
      by (symmetry; apply Z.ltb_lt; unfold byteLength; simpl length; lia).
    rewrite Happ.
    assert (Hpos : (0 <= OpenFile.offset e)%Z) by (rewrite Hoff; lia).
    rewrite (bind_same _ _ _ s s
               (writeSync_at_offset this fd (x :: data) (Some 0%Z)
                  (Some (byteLength (x :: data) - 0)%Z) s e He Hpos)).
    rewrite Hoff.
    change (writeSync this fd (x :: data) (Some 0%Z) (Some (byteLength (x :: data) - 0)%Z)
              (Some (Z.of_nat (length c))))
      with (writeSync this fd (x :: data) None None (Some (Z.of_nat (length c)))).
    rewrite (bind_eq_Ok _ Hrun).
    simpl length. cbn [write_loop].
    replace (0 + Z.of_nat (S (length data)) <? byteLength (x :: data))%Z with false
      by (symmetry; apply Z.ltb_ge; unfold byteLength; simpl length; lia).
    reflexivity. }
  split; [exact Htree|].
  split; [apply Hin; exact Hsync|].
  repeat split; auto.
Qed.

Lemma appendFileSync_parts this p data mode :
  writeFileSync this (ByPath p) data (FlagString "a") mode
  = (let* fd := openSync this p (FlagNumber 1089) mode in
     finally (write_loop (S (length data)) this fd data 1089 0) (closeSync this fd)).
Proof. reflexivity. Qed.

(** X21.  [writeFileSync] with flag "a" appends: when the path resolves to a
    regular file whose bytes [c] are loaded, on a file system that is not
    read-only, [writeFileSync(path, data, { flag: "a" })] returns, and
    [readFileSync(path)] in the store it leaves returns [c] followed by
    [data]. *)
Theorem appendFile_then_readFile (this : fsref) (path p : Path) (data c : list Byte.byte)
    (mode : Z) (s sw : State) (fs : FS.t) (e : FileDescription.t) (n : Inode.t) (b : bufref) :
  filesystems s !! this = Some fs -> FS.frozen fs = false ->
  _resolve this path s = Ok p s ->
  _find this p s = Ok (Some e) sw ->
  inodes sw !! FileDescription.node e = Some n -> isFileInode n = true ->
  Inode.buffer n = Some b -> buffers sw !! b = Some c ->
  exists s1 s2,
    writeFileSync this (ByPath path) data (FlagString "a") mode s = Ok tt s1
    /\ readFileSync this (ByPath path) (FlagString "r") s1 = Ok (c ++ data) s2.
Proof.
  intros Hfs Hrw Hres Hwalk Hn Hfile Hb Hc.
  assert (Hsw : lazy_ext s sw).
  { eapply lazy_ext_run; [exact Hwalk|]. intros; apply lazy_walk; assumption. }
  destruct (lazy_ext_fs _ _ _ _ Hsw Hfs) as (fsw & Hfsw & Hic & _).
  set (node := FileDescription.node e) in *.
  assert (Hopen : openSync this path (FlagNumber 1089) mode s
                  = open_tail this p (open_write 1089)
                      (1089%Z, node, FileDescription.parent e) sw).
  { rewrite openSync_parts. rewrite (bind_eq_Ok _ Hres).
    unfold parseFlags. unfold ret at 1. unfold bind at 1. cbv zeta.
    rewrite (bind_eq_Ok _ (isReadonly_eq _ _ _ Hfs)). rewrite Hrw, andb_false_r.
    change (truthy (Z.land 1089 O_NOFOLLOW)) with false.
    rewrite (bind_eq_Ok _ Hwalk).
    unfold open_node. change (truthy (Z.land 1089 O_EXCL)) with false. cbv iota.
    unfold ret at 1. unfold bind at 1. reflexivity. }
  destruct (open_tail_append this p (open_write 1089) 1089 node (FileDescription.parent e)
              n fsw b c sw Hn Hfsw Hfile Hb Hc)
    as (so & oe & Ho & Htree & Hin & Hbufs & Hoe & Hfd & Hnode & Hflags & Hoff & Hnone);
    try reflexivity.
  destruct (st_fs _ _ Htree _ _ Hfsw) as (fso & Hfso & _).
  assert (Hno : inodes so !! OpenFile.node oe = Some n) by (rewrite Hnode, Hin; exact Hn).
  assert (Hco : buffers so !! b = Some c) by (rewrite Hbufs; exact Hc).
  assert (Hsession : exists s1 n1 b1 fs1,
             finally (write_loop (S (length data)) this (fdCount sw + 1) data 1089 0)
               (closeSync this (fdCount sw + 1)) so = Ok tt s1
             /\ same_tree so s1 /\ filesystems s1 !! this = Some fs1
             /\ inodes s1 !! node = Some n1 /\ isFileInode n1 = true
             /\ Inode.buffer n1 = Some b1 /\ buffers s1 !! b1 = Some (c ++ data)).
  { destruct data as [|x data].
    - destruct (close_run this (fdCount sw + 1) so oe n fso Hfso Hoe Hno)
        as (sc & n' & Hclose & Htree2 & Hbufc & _ & _ & Hn' & _ & _ & Hsame).
      { intros b0 Hb0. congruence. }
      destruct (st_fs _ _ Htree2 _ _ Hfso) as (fsc & Hfsc & _).
      specialize (Hsame Hnone). subst n'.
      exists sc, n, b, fsc. split; [eapply finally_Ok; [reflexivity|exact Hclose]|].
      split; [exact Htree2|]. split; [exact Hfsc|].
      split; [rewrite <- Hnode; exact Hn'|].
      split; [exact Hfile|]. split; [exact Hb|].
      rewrite app_nil_r, Hbufc. exact Hco.
    - destruct (write_all_append this (fdCount sw + 1) (x :: data) 1089 so oe n fso b c
                  Hfso Hoe Hfd Hno Hfile)
        as (sx & b1 & e1 & Hwrite & Htree1 & Hin1 & He1 & Hb1 & Hbuf1 & Hnode1);
        try assumption; try reflexivity.
      { unfold isWritable. rewrite Hflags. reflexivity. }
      { rewrite Hflags. reflexivity. }
      { discriminate. }
      destruct (st_fs _ _ Htree1 _ _ Hfso) as (fsx & Hfsx & _).
      assert (Hnx : inodes sx !! OpenFile.node e1 = Some n) by (rewrite Hnode1, Hin1; exact Hno).
      destruct (close_run this (fdCount sw + 1) sx e1 n fsx Hfsx He1 Hnx)
        as (sc & n' & Hclose & Htree2 & Hbufc & _ & _ & Hn' & Hmode & Hinst & _).
      { intros b0 Hb0. assert (b0 = b1) by congruence. subst b0. rewrite Hbuf1. eauto. }
      destruct (st_fs _ _ Htree2 _ _ Hfsx) as (fsc & Hfsc & _).
      exists sc, n', b1, fsc.
      split; [eapply finally_Ok; [exact Hwrite|exact Hclose]|].
      split; [eapply same_tree_trans; eassumption|].
      split; [exact Hfsc|].
      split; [rewrite <- Hnode, <- Hnode1; exact Hn'|].
      split; [unfold isFileInode in *; rewrite Hmode; exact Hfile|].
      split; [apply Hinst; assumption|].
      rewrite Hbufc. exact Hbuf1. }
  destruct Hsession as (s1 & n1 & b1 & fs1 & Hrun & Htree1 & Hfs1 & Hn1 & Hfile1 & Hb1 & Hbuf1).
  assert (Hk : keeps_links (FS.ignoreCase fs) sw s1).
  { apply same_tree_keeps_links. eapply same_tree_trans; eassumption. }
  assert (Hks : keeps_links (FS.ignoreCase fs) s s1).
  { eapply keeps_links_trans; [apply lazy_keeps_links; exact Hsw|exact Hk]. }
  destruct (read_session this path p s1 fs1 e n1 b1 (c ++ data) Hfs1
              (resolve_kept _ _ _ _ _ _ Hres Hks)
              (walk_kept this p false s e sw fs Hwalk Hfs s1 Hk) Hn1 Hfile1 Hb1 Hbuf1)
    as (s2 & Hread).
  exists s1, s2. split; [|exact Hread].
  rewrite appendFileSync_parts. rewrite (bind_same _ _ _ _ _ Hopen).
  rewrite (bind_eq_Ok _ Ho). exact Hrun.
Qed.

(** [writeFileSync("/f", "hi", { flag: "a" })] on the sample store, where
    [/f] holds "f". *)
Lemma appendFile_then_readFile_witness :
  exists s1 s2,
    writeFileSync 0 (ByPath ["/"; "f"]%string) overwrite_data (FlagString "a") 438 rename_state
    = Ok tt s1
    /\ readFileSync 0 (ByPath ["/"; "f"]%string) (FlagString "r") s1
       = Ok ([Byte.x66] ++ overwrite_data) s2.
Proof.
  apply (appendFile_then_readFile 0 ["/"; "f"]%string ["/"; "f"]%string overwrite_data
           [Byte.x66] 438 rename_state (final_state found_f) rename_fs found_f_entry
           found_f_inode
           (match Inode.buffer found_f_inode with Some b => b | None => 0%nat end)).
  all: vm_compute; reflexivity.
Defined.

#[local] Arguments Nat.leb : simpl never.

(** ** The working directory *)

(** A lookup that has found an entry finds it again in a store with the same
    links. *)
Lemma walk_same_links this path noFollow s e s1 fs s' :
  _walk this path noFollow s = Ok (Some e) s1 ->
  filesystems s !! this = Some fs ->
  keeps_but (FS.ignoreCase fs) (length (linkmaps s1)) s1 s' ->
  _walk this path noFollow s' = Ok (Some e) s'.
Proof.
  intros Hw Hfs Hk.
  destruct (walk_but this path noFollow _ s e s1 fs Hw Hfs s' Hk) as [H|[_ [m Hm]]].
  - exact H.
  - apply lookup_lt_Some in Hm. lia.
Qed.

(** A change to a file system's record that leaves [ignoreCase] and the root
    links alone keeps every link. *)
Lemma keeps_but_fs ic l this f s :
  (forall fs, FS.ignoreCase (f fs) = FS.ignoreCase fs) ->
  (forall fs, FS.lazy_links (f fs) = FS.lazy_links fs) ->
  keeps_but ic l s (with_filesystems (alter f this (filesystems s)) s).
Proof.
  intros Hic Hll. constructor.
  - intros f0 fs Hf. destruct (decide (f0 = this)) as [->|Hne].
    + exists (f fs). simpl. rewrite list_lookup_alter_eq, Hf. simpl.
      repeat split; auto. intros m Hm. rewrite Hll. exact Hm.
    + exists fs. simpl. rewrite list_lookup_alter_ne by congruence. auto.
  - intros p i Hi. exists i. destruct s; simpl in *. auto.
  - intros l' m k v Hm Hk. exists m. destruct s; simpl in *. auto.
Qed.

Lemma keeps_but_refl ic l s : keeps_but ic l s s.
Proof.
  constructor.
  - intros f fs Hf. exists fs. auto.
  - intros p i Hi. exists i. auto.
  - intros l' m k v Hm Hk. exists m. auto.
Qed.

Lemma resolve_nonempty this path s p s' :
  _resolve this path s = Ok p s' -> nonempty p = true.
Proof.
  unfold _resolve. intros H.
  apply bind_Ok in H as (fs & s0 & Hfs & H). apply fs_at_Ok in Hfs as [-> Hfs].
  destruct (FS._cwd fs) as [|c cs] eqn:Hc; simpl in H.
  - unfold validate in H. destruct (isAbsolute path) eqn:Ha; [|discriminate].
    injection H as <- <-. destruct path; [discriminate|reflexivity].
  - unfold bind, validate, ret in H. injection H as <- <-.
    unfold resolve. destruct (isAbsolute path) eqn:Ha.
    + destruct path; [discriminate|reflexivity].
    + reflexivity.
Qed.

(** X22. After [chdir(path)] has returned, [cwd()] returns the path [chdir]
    resolved, leaving the store as it is, and every path is from then on
    resolved against it. *)
Theorem chdir_then_cwd (this : fsref) (path : Path) (s s1 : State) :
  chdir this path s = Ok tt s1 ->
  exists p,
    _resolve this path s = Ok p s
    /\ cwd this s1 = Ok p s1
    /\ (forall q, _resolve this q s1 = Ok (resolve p q) s1).
Proof.
  unfold chdir. intros Hrun.
  apply bind_Ok in Hrun as (ro & s0 & Hro & Hrun).
  unfold isReadonly in Hro. apply bind_Ok in Hro as (fs & s0' & Hfs & Hro).
  apply fs_at_Ok in Hfs as [-> Hfs]. injection Hro as <- <-.
  destruct (FS.frozen fs) eqn:Hfrozen; [discriminate|].
  apply bind_Ok in Hrun as (p & s0 & Hp & Hrun).
  pose proof (resolve_Ok _ _ _ _ _ Hp) as ->.
  pose proof (resolve_nonempty _ _ _ _ _ Hp) as Hne.
  apply bind_Ok in Hrun as (e & sa & He & Hrun).
  apply or_throw_Ok in He.
  apply bind_Ok in Hrun as (n & s0 & Hn & Hrun). apply inode_at_Ok in Hn as [-> Hn].
  destruct (isDirectoryInode n) eqn:Hdir; [|discriminate]. simpl in Hrun.
  apply bind_Ok in Hrun as (fsa & s0 & Hfsa & Hrun). apply fs_at_Ok in Hfsa as [-> Hfsa].
  exists p. split; [exact Hp|].
  assert (Hcwd : exists fs1, filesystems s1 !! this = Some fs1 /\ FS._cwd fs1 = p
                             /\ inodes s1 = inodes sa
                             /\ keeps_but (FS.ignoreCase fs) (length (linkmaps sa)) sa s1).
  { unfold path_eqb in Hrun. destruct (decide (FS._cwd fsa = p)) as [Heq|Hneq]; simpl in Hrun.
    - injection Hrun as <-. exists fsa.
      split; [exact Hfsa|]. split; [exact Heq|]. split; [reflexivity|]. apply keeps_but_refl.
    - unfold update_fs, modify in Hrun. injection Hrun as <-.
      exists (FS.with_cwd p fsa). simpl. rewrite list_lookup_alter_eq, Hfsa. simpl.
      split; [reflexivity|]. split; [reflexivity|]. split; [reflexivity|].
      apply (keeps_but_fs _ _ this (FS.with_cwd p) sa); intros []; reflexivity. }
  destruct Hcwd as (fs1 & Hfs1 & Hc1 & Hi1 & Hk).
  split.
  - unfold cwd. rewrite (bind_eq_Ok _ (fs_at_eq _ _ _ Hfs1)). rewrite Hc1, Hne. simpl.
    assert (Hw : _find this p s1 = Ok (Some e) s1).
    { exact (walk_same_links this p false s e sa fs s1 He Hfs Hk). }
    rewrite (bind_eq_Ok _ (or_throw_Some _ ENOENT _ _ _ Hw)).
    rewrite <- Hi1 in Hn. rewrite (bind_eq_Ok _ (inode_at_eq _ _ _ Hn)). rewrite Hdir. simpl.
    rewrite (bind_eq_Ok _ (fs_at_eq _ _ _ Hfs1)). rewrite Hc1. reflexivity.
  - intros q. unfold _resolve. rewrite (bind_eq_Ok _ (fs_at_eq _ _ _ Hfs1)). rewrite Hc1, Hne.
    reflexivity.
Qed.

Lemma chdir_then_cwd_witness :
  cwd 0 (final_state chdir_result) = Ok ["/"; "n"]%string (final_state chdir_result).
Proof.
  destruct (chdir_then_cwd 0 [""; "n"]%string rename_state (final_state chdir_result))
    as (p & Hp & Hc & _).
  - vm_compute; reflexivity.
  - assert (Hq : p = ["/"; "n"]%string).
    { apply (f_equal (fun r : Res (list string) => match r with Ok a _ => a | Throw _ _ => [] end))
        in Hp.
      rewrite <- Hp. vm_compute. reflexivity. }
    rewrite <- Hq. exact Hc.
Defined.

#[local] Arguments Nat.leb : simpl never.

(** ** Removals that are refused *)

Lemma or_throw_None {A} (m : M (option A)) code s s1 :
  m s = Ok None s1 -> or_throw m code s = Throw (IOError code) s1.
Proof. intros H. unfold or_throw. rewrite (bind_eq_Ok _ H). reflexivity. Qed.

Lemma sm_get_size ic {V} k (m : list (string * V)) v :
  sm_get ic k m = Some v -> (sm_size m =? 0)%Z = false.
Proof.
  destruct m; [discriminate|]. intros _. unfold sm_size. simpl length.
  apply Z.eqb_neq. lia.
Qed.

(** X23. The removals that are refused.  With [p] the resolved path:
    [unlinkSync] throws ENOENT where the lookup of [p] that does not follow a
    last symbolic link finds nothing and EISDIR where it finds a directory;
    [rmdirSync] throws ENOENT where the lookup of [p] finds nothing, ENOTDIR
    where it finds a node that is no directory and ENOTEMPTY where it finds a
    directory that has an entry.  The store is the one the lookup has left:
    no name is removed. *)
Theorem removal_errors (this : fsref) (path p : Path) (s sw : State) :
  _resolve this path s = Ok p s ->
  (_lfind this p s = Ok None sw -> unlinkSync this path s = Throw (IOError ENOENT) sw)
  /\ (forall e n, _lfind this p s = Ok (Some e) sw ->
        inodes sw !! FileDescription.node e = Some n -> isDirectoryInode n = true ->
        unlinkSync this path s = Throw (IOError EISDIR) sw)
  /\ (_find this p s = Ok None sw -> rmdirSync this path s = Throw (IOError ENOENT) sw)
  /\ (forall e n, _find this p s = Ok (Some e) sw ->
        inodes sw !! FileDescription.node e = Some n -> isDirectoryInode n = false ->
        rmdirSync this path s = Throw (IOError ENOTDIR) sw)
  /\ (forall e ic name x, _find this p s = Ok (Some e) sw ->
        linked_in sw ic (FileDescription.node e) name x ->
        rmdirSync this path s = Throw (IOError ENOTEMPTY) sw).
Proof.
  intros Hp. repeat apply conj.
  - intros Hw. unfold unlinkSync. rewrite (bind_eq_Ok _ Hp).
    rewrite (bind_eq_Throw _ (or_throw_None _ ENOENT _ _ Hw)). reflexivity.
  - intros e n Hw Hn Hdir. unfold unlinkSync. rewrite (bind_eq_Ok _ Hp).
    rewrite (bind_eq_Ok _ (or_throw_Some _ ENOENT _ _ _ Hw)). cbv zeta.
    rewrite (bind_eq_Ok _ (inode_at_eq _ _ _ Hn)). rewrite Hdir. reflexivity.
  - intros Hw. unfold rmdirSync. rewrite (bind_eq_Ok _ Hp).
    rewrite (bind_eq_Throw _ (or_throw_None _ ENOENT _ _ Hw)). reflexivity.
  - intros e n Hw Hn Hdir. unfold rmdirSync. rewrite (bind_eq_Ok _ Hp).
    rewrite (bind_eq_Ok _ (or_throw_Some _ ENOENT _ _ _ Hw)). cbv zeta.
    rewrite (bind_eq_Ok _ (inode_at_eq _ _ _ Hn)). rewrite Hdir. reflexivity.
  - intros e ic name x Hw (n & l & m & Hn & Hdir & Hl & Hm & Hget).
    unfold rmdirSync. rewrite (bind_eq_Ok _ Hp).
    rewrite (bind_eq_Ok _ (or_throw_Some _ ENOENT _ _ _ Hw)). cbv zeta.
    rewrite (bind_eq_Ok _ (inode_at_eq _ _ _ Hn)). rewrite Hdir. cbn [negb].
    rewrite (bind_eq_Ok _ (getLinks_ready this _ n l sw Hn Hl)).
    rewrite (bind_eq_Ok _ (map_at_eq _ _ _ Hm)).
    rewrite (sm_get_size _ _ _ _ Hget). reflexivity.
Qed.

Lemma removal_errors_witness :
  rmdirSync 0 ["/"; "n"]%string rename_state = Throw (IOError ENOTEMPTY) rename_state
  /\ unlinkSync 0 ["/"; "d"]%string rename_state = Throw (IOError EISDIR) rename_state.
Proof.
  split.
  - destruct (removal_errors 0 ["/"; "n"]%string ["/"; "n"]%string rename_state rename_state)
      as (_ & _ & _ & _ & H); [vm_compute; reflexivity|].
    apply (H {| FileDescription.path := ["/"; "n"]%string; FileDescription.basename := "n"%string;
                FileDescription.parent := 0; FileDescription.node := 2 |} false "x"%string 3).
    + vm_compute; reflexivity.
    + exists found_n_inode, 2%nat, found_n_links.
      split; [vm_compute; reflexivity|]. split; [vm_compute; reflexivity|].
      split; [vm_compute; reflexivity|]. split; vm_compute; reflexivity.
  - destruct (removal_errors 0 ["/"; "d"]%string ["/"; "d"]%string rename_state rename_state)
      as (_ & H & _); [vm_compute; reflexivity|].
    apply (H {| FileDescription.path := ["/"; "d"]%string; FileDescription.basename := "d"%string;
                FileDescription.parent := 0; FileDescription.node := 1 |} found_d_inode).
    + vm_compute; reflexivity.
    + vm_compute; reflexivity.
    + vm_compute; reflexivity.
Defined.

#[local] Arguments Nat.leb : simpl never.

(** ** Links that are refused *)

Lemma find_fs this path s r sw fs :
  _find this path s = Ok r sw -> filesystems s !! this = Some fs ->
  exists fs', filesystems sw !! this = Some fs' /\ FS.ignoreCase fs' = FS.ignoreCase fs.
Proof.
  intros Hw Hfs.
  assert (Hlz : lazy_ext s sw).
  { eapply lazy_ext_run; [exact Hw|]. intros; apply lazy_walk; assumption. }
  destruct (lazy_ext_fs _ _ _ _ Hlz Hfs) as (fs' & Hfs' & Hic & _).
  exists fs'. auto.
Qed.

Lemma linked_in_has s ic dir name x :
  linked_in s ic dir name x ->
  exists n l m, inodes s !! dir = Some n /\ isDirectoryInode n = true
                /\ Inode.links n = Some l /\ linkmaps s !! l = Some m
                /\ sm_has ic name m = true.
Proof.
  intros (n & l & m & Hn & Hd & Hl & Hm & Hg). exists n, l, m.
  unfold sm_has. rewrite Hg. auto.
Qed.

(** X24. The links that are refused.  With [p] the resolved path of the new
    name, which is not the root: [mkdirSync] and [symlinkSync] throw ENOENT
    where the lookup of the directory of [p] finds nothing, ENOTDIR where it
    finds a node that is no directory and EEXIST where that directory has an
    entry for the last component of [p]; [linkSync] throws EPERM where the old
    path is a directory, and EEXIST where the new name is taken.  The store
    is the one the lookups have left: no link is made, also on a read-only
    file system, where these errors come before EROFS. *)
Theorem creation_errors (this : fsref) (path p : Path) (mode : Z) (target : Path)
    (s sw : State) (fs : FS.t) :
  _resolve this path s = Ok p s ->
  filesystems s !! this = Some fs ->
  is_root_path (FS.ignoreCase fs) p = false ->
  (_find this (dirname p) s = Ok None sw ->
     mkdirSync this path mode s = Throw (IOError ENOENT) sw
     /\ symlinkSync this target path s = Throw (IOError ENOENT) sw)
  /\ (forall e n, _find this (dirname p) s = Ok (Some e) sw ->
        inodes sw !! FileDescription.node e = Some n -> isDirectoryInode n = false ->
        mkdirSync this path mode s = Throw (IOError ENOTDIR) sw
        /\ symlinkSync this target path s = Throw (IOError ENOTDIR) sw)
  /\ (forall e x, _find this (dirname p) s = Ok (Some e) sw ->
        linked_in sw (FS.ignoreCase fs) (FileDescription.node e) (basename p) x ->
        mkdirSync this path mode s = Throw (IOError EEXIST) sw
        /\ symlinkSync this target path s = Throw (IOError EEXIST) sw)
  /\ (forall old po eo no, _resolve this old s = Ok po s ->
        _find this po s = Ok (Some eo) sw ->
        inodes sw !! FileDescription.node eo = Some no -> isDirectoryInode no = true ->
        linkSync this old path s = Throw (IOError EPERM) sw)
  /\ (forall old po eo no s0 e x, _resolve this old s = Ok po s ->
        _find this po s = Ok (Some eo) s0 ->
        inodes s0 !! FileDescription.node eo = Some no -> isDirectoryInode no = false ->
        _find this (dirname p) s0 = Ok (Some e) sw ->
        linked_in sw (FS.ignoreCase fs) (FileDescription.node e) (basename p) x ->
        linkSync this old path s = Throw (IOError EEXIST) sw).
Proof.
  intros Hp Hfs Hroot.
  assert (Hpn : parent_and_name this p s
                = (let* entry := or_throw (_find this (dirname p)) ENOENT in
                   let* node := inode_at (FileDescription.node entry) in
                   if negb (isDirectoryInode node) then throw (IOError ENOTDIR)
                   else ret (Some (FileDescription.node entry), basename p)) s).
  { unfold parent_and_name. rewrite (bind_eq_Ok _ (fs_at_eq _ _ _ Hfs)). rewrite Hroot.
    reflexivity. }
  assert (Hsym : forall s0, validate target RelativeOrAbsolute s0 = Ok target s0) by reflexivity.
  repeat apply conj.
  - intros Hw. split.
    + unfold mkdirSync. rewrite (bind_eq_Ok _ Hp). cbv zeta.
      erewrite bind_eq_Throw; [reflexivity|]. rewrite Hpn.
      rewrite (bind_eq_Throw _ (or_throw_None _ ENOENT _ _ Hw)). reflexivity.
    + unfold symlinkSync. rewrite (bind_eq_Ok _ (Hsym s)). rewrite (bind_eq_Ok _ Hp). cbv zeta.
      rewrite (bind_eq_Throw _ (or_throw_None _ ENOENT _ _ Hw)). reflexivity.
  - intros e n Hw Hn Hdir. split.
    + unfold mkdirSync. rewrite (bind_eq_Ok _ Hp). cbv zeta.
      erewrite bind_eq_Throw; [reflexivity|]. rewrite Hpn.
      rewrite (bind_eq_Ok _ (or_throw_Some _ ENOENT _ _ _ Hw)).
      rewrite (bind_eq_Ok _ (inode_at_eq _ _ _ Hn)). rewrite Hdir. reflexivity.
    + unfold symlinkSync. rewrite (bind_eq_Ok _ (Hsym s)). rewrite (bind_eq_Ok _ Hp). cbv zeta.
      rewrite (bind_eq_Ok _ (or_throw_Some _ ENOENT _ _ _ Hw)).
      rewrite (bind_eq_Ok _ (inode_at_eq _ _ _ Hn)). rewrite Hdir. reflexivity.
  - intros e x Hw Hin.
    destruct (linked_in_has _ _ _ _ _ Hin) as (n & l & m & Hn & Hdir & Hl & Hm & Hhas).
    destruct (find_fs _ _ _ _ _ _ Hw Hfs) as (fs' & Hfs' & Hic).
    split.
    + unfold mkdirSync. rewrite (bind_eq_Ok _ Hp). cbv zeta.
      erewrite bind_eq_Ok.
      2: { rewrite Hpn. rewrite (bind_eq_Ok _ (or_throw_Some _ ENOENT _ _ _ Hw)).
           rewrite (bind_eq_Ok _ (inode_at_eq _ _ _ Hn)). rewrite Hdir. reflexivity. }
      cbv beta iota.
      rewrite (bind_eq_Ok _ (getLinks_ready this _ n l sw Hn Hl)).
      rewrite (bind_eq_Ok _ (map_at_eq _ _ _ Hm)).
      rewrite (bind_eq_Ok _ (fs_at_eq _ _ _ Hfs')). rewrite Hic, Hhas. reflexivity.
    + unfold symlinkSync. rewrite (bind_eq_Ok _ (Hsym s)). rewrite (bind_eq_Ok _ Hp). cbv zeta.
      rewrite (bind_eq_Ok _ (or_throw_Some _ ENOENT _ _ _ Hw)).
      rewrite (bind_eq_Ok _ (inode_at_eq _ _ _ Hn)). rewrite Hdir. cbn [negb].
      rewrite (bind_eq_Ok _ (getLinks_ready this _ n l sw Hn Hl)).
      rewrite (bind_eq_Ok _ (map_at_eq _ _ _ Hm)).
      rewrite (bind_eq_Ok _ (fs_at_eq _ _ _ Hfs')). rewrite Hic, Hhas. reflexivity.
  - intros old po eo no Hpo Hw Hno Hdir.
    unfold linkSync. rewrite (bind_eq_Ok _ Hpo). rewrite (bind_eq_Ok _ Hp).
    rewrite (bind_eq_Ok _ (or_throw_Some _ ENOENT _ _ _ Hw)). cbv zeta.
    rewrite (bind_eq_Ok _ (inode_at_eq _ _ _ Hno)). rewrite Hdir. reflexivity.
  - intros old po eo no s0 e x Hpo Hwo Hno Hdiro Hw Hin.
    destruct (linked_in_has _ _ _ _ _ Hin) as (n & l & m & Hn & Hdir & Hl & Hm & Hhas).
    destruct (find_fs _ _ _ _ _ _ Hwo Hfs) as (fs0 & Hfs0 & Hic0).
    destruct (find_fs _ _ _ _ _ _ Hw Hfs0) as (fs' & Hfs' & Hic).
    unfold linkSync. rewrite (bind_eq_Ok _ Hpo). rewrite (bind_eq_Ok _ Hp).
    rewrite (bind_eq_Ok _ (or_throw_Some _ ENOENT _ _ _ Hwo)). cbv zeta.
    rewrite (bind_eq_Ok _ (inode_at_eq _ _ _ Hno)). rewrite Hdiro.
    rewrite (bind_eq_Ok _ (or_throw_Some _ ENOENT _ _ _ Hw)).
    rewrite (bind_eq_Ok _ (inode_at_eq _ _ _ Hn)). rewrite Hdir. cbn [negb].
    rewrite (bind_eq_Ok _ (getLinks_ready this _ n l sw Hn Hl)).
    rewrite (bind_eq_Ok _ (map_at_eq _ _ _ Hm)).
    rewrite (bind_eq_Ok _ (fs_at_eq _ _ _ Hfs')). rewrite Hic, Hic0, Hhas. reflexivity.
Qed.

Lemma creation_errors_witness :
  mkdirSync 0 ["/"; "d"]%string 511 rename_state = Throw (IOError EEXIST) rename_state
  /\ symlinkSync 0 ["/"; "f"]%string ["/"; "d"]%string rename_state
     = Throw (IOError EEXIST) rename_state
  /\ linkSync 0 ["/"; "n"]%string ["/"; "d"]%string rename_state
     = Throw (IOError EPERM) rename_state.
Proof.
  destruct (creation_errors 0 ["/"; "d"]%string ["/"; "d"]%string 511 ["/"; "f"]%string
              rename_state rename_state rename_fs) as (_ & _ & H & H' & _).
  - vm_compute; reflexivity.
  - vm_compute; reflexivity.
  - vm_compute; reflexivity.
  - destruct (H found_root_entry 1) as [H1 H2].
    + vm_compute; reflexivity.
    + exists found_root_inode, 1%nat, found_root_links.
      split; [vm_compute; reflexivity|]. split; [vm_compute; reflexivity|].
      split; [vm_compute; reflexivity|]. split; vm_compute; reflexivity.
    + split; [exact H1|]. split; [exact H2|].
      apply (H' ["/"; "n"]%string ["/"; "n"]%string
               {| FileDescription.path := ["/"; "n"]%string; FileDescription.basename := "n"%string;
                  FileDescription.parent := 0; FileDescription.node := 2 |} found_n_inode).
      * vm_compute; reflexivity.
      * vm_compute; reflexivity.
      * vm_compute; reflexivity.
      * vm_compute; reflexivity.
Defined.

#[local] Arguments Nat.leb : simpl never.

(** ** Lookups that do not come to a file *)

Lemma keeps_except_after ic x s1 s2 s3 :
  keeps_links ic s1 s2 -> keeps_except ic x s2 s3 -> keeps_except ic x s1 s3.
Proof.
  intros [a1 a2 a3] [b1 b2 b3 b4]. constructor.
  - intros f fs Hf. destruct (a1 f fs Hf) as (f2 & Hf2 & ? & ? & Hl2).
    destruct (b1 f f2 Hf2) as (f3 & Hf3 & ? & Hl3).
    exists f3. repeat split; try congruence. auto.
  - intros p i Hi. destruct (a2 p i Hi) as (i2 & Hi2 & ? & ? & Hl2).
    destruct (b2 p i2 Hi2) as (i3 & Hi3 & ? & ? & Hl3).
    exists i3. repeat split; try congruence. auto.
  - intros l' m k v Hm Hk Hv. destruct (a3 l' m k v Hm Hk) as (m2 & Hm2 & Hk2).
    apply (b3 l' m2 k v Hm2 Hk2 Hv).
  - intros i Hi. destruct (a2 x i Hi) as (i2 & Hi2 & Hmode & _).
    destruct (b4 i2 Hi2) as [Hd Hs]. unfold isDirectoryInode, isSymlinkInode in *.
    rewrite <- Hmode. auto.
Qed.

(** A run of the loop body that has found an entry or a link to expand, and
    not the node [x], repeats where links to [x] have changed. *)
Lemma walk_steps_except this noFollow depth x :
  forall rest done links parent s r s1 fs,
    walk_steps this noFollow depth done rest links parent s = Ok r s1 ->
    not_missing r -> avoids x r ->
    filesystems s !! this = Some fs ->
    forall s', keeps_except (FS.ignoreCase fs) x s1 s' ->
      walk_steps this noFollow depth done rest links parent s' = Ok r s'.
Proof.
  induction rest as [|basename rest' IH];
    intros done links parent s r s1 fs Hrun Hnm Hav Hfs s' Hs'.
  - simpl in *. injection Hrun as <- <-. destruct Hnm.
  - assert (Hlz : lazy_ext s s1).
    { eapply lazy_ext_run; [exact Hrun|]. intros; apply lazy_walk_steps; assumption. }
    assert (Hk : keeps_except (FS.ignoreCase fs) x s s').
    { eapply keeps_except_after; [apply lazy_keeps_links; exact Hlz|exact Hs']. }
    rewrite walk_steps_cons in Hrun |- *.
    destruct (40 <=? depth)%nat; [discriminate|]. cbv zeta in Hrun |- *.
    rewrite (bind_eq_Ok _ (fs_at_eq _ _ _ Hfs)) in Hrun.
    apply bind_Ok in Hrun as (m & s0 & Hm & Hrun). apply map_at_Ok in Hm as [-> Hm].
    destruct (ke_fs _ _ _ _ Hk _ _ Hfs) as (fs' & Hfs' & Hic & _).
    rewrite (bind_eq_Ok _ (fs_at_eq _ _ _ Hfs')). rewrite Hic.
    destruct (sm_get (FS.ignoreCase fs) basename m) as [node|] eqn:Hget.
    2: { injection Hrun as <- <-. destruct Hnm. }
    apply bind_Ok in Hrun as (n & s0 & Hn & Hrun). apply inode_at_Ok in Hn as [-> Hn].
    destruct (decide (node = x)) as [->|Hnx].
    { exfalso. destruct (ke_file _ _ _ _ Hk _ Hn) as [Hd Hsl]. rewrite Hsl, Hd in Hrun.
      cbn [andb] in Hrun. destruct rest' as [|b2 rest2]; [|discriminate].
      destruct parent; [|discriminate]. injection Hrun as <- <-. apply Hav. reflexivity. }
    destruct (ke_maps _ _ _ _ Hk _ _ _ _ Hm Hget Hnx) as (m' & Hm' & Hget').
    rewrite (bind_eq_Ok _ (map_at_eq _ _ _ Hm')). rewrite Hget'.
    destruct (ke_inodes _ _ _ _ Hk _ _ Hn) as (n' & Hn' & Hmode & Hsym & Hlinks).
    rewrite (bind_eq_Ok _ (inode_at_eq _ _ _ Hn')).
    assert (Hty : isSymlinkInode n' = isSymlinkInode n /\ isDirectoryInode n' = isDirectoryInode n).
    { unfold isSymlinkInode, isDirectoryInode. rewrite Hmode. auto. }
    destruct Hty as [-> ->]. rewrite Hsym.
    destruct (isSymlinkInode n && negb (noFollow && match rest' with [] => true | _ => false end)).
    { destruct (Inode.symlink n) as [target|]; [|discriminate].
      destruct (negb (isAbsolute (resolve done target))); [discriminate|].
      injection Hrun as <- <-. reflexivity. }
    destruct rest' as [|b2 rest2].
    { destruct (match parent with
                | Some _ => parent
                | None => if isDirectoryInode n then Some node else None
                end); [|discriminate].
      injection Hrun as <- <-. reflexivity. }
    destruct (isDirectoryInode n); [|discriminate].
    apply bind_Ok in Hrun as (links' & sa & Hgl & Hrun).
    assert (Hsa : lazy_ext s sa).
    { eapply lazy_ext_run; [exact Hgl|]. intros; apply lazy_getLinks; assumption. }
    assert (Hsa1 : lazy_ext sa s1).
    { eapply lazy_ext_run; [exact Hrun|]. intros; apply lazy_walk_steps; assumption. }
    destruct (getLinks_rec_spec _ _ _ _ _ _ Hgl) as (ia & Hia & Hla).
    assert (Hka : keeps_except (FS.ignoreCase fs) x sa s').
    { eapply keeps_except_after; [apply lazy_keeps_links; exact Hsa1|exact Hs']. }
    destruct (ke_inodes _ _ _ _ Hka _ _ Hia) as (ia' & Hia' & _ & _ & Hlia).
    rewrite (bind_eq_Ok _ (getLinks_ready this node ia' links' s' Hia' (Hlia _ Hla))).
    destruct (lazy_ext_fs _ _ _ _ Hsa Hfs) as (fsa & Hfsa & Hica & _).
    rewrite <- Hica in Hs'.
    eapply IH; eauto.
Qed.

Lemma walk_pass_except this noFollow depth x cs s r s1 fs :
  walk_pass this noFollow depth cs s = Ok r s1 ->
  not_missing r -> avoids x r ->
  filesystems s !! this = Some fs ->
  forall s', keeps_except (FS.ignoreCase fs) x s1 s' ->
    walk_pass this noFollow depth cs s' = Ok r s'.
Proof.
  intros Hrun Hnm Hav Hfs s' Hs'. unfold walk_pass in *.
  apply bind_Ok in Hrun as (rl & sa & Hrl & Hrun).
  assert (Hsa : lazy_ext s sa).
  { eapply lazy_ext_run; [exact Hrl|]. intros; apply lazy_getRootLinks; assumption. }
  assert (Hsa1 : lazy_ext sa s1).
  { eapply lazy_ext_run; [exact Hrun|]. intros; apply lazy_walk_steps; assumption. }
  destruct (getRootLinks_rec_spec _ _ _ _ _ Hrl) as (fa & Hfa & Hlla).
  assert (Hka : keeps_except (FS.ignoreCase fs) x sa s').
  { eapply keeps_except_after; [apply lazy_keeps_links; exact Hsa1|exact Hs']. }
  destruct (ke_fs _ _ _ _ Hka _ _ Hfa) as (fa' & Hfa' & _ & Hll).
  rewrite (bind_eq_Ok _ (getRootLinks_ready this fa' rl s' Hfa' (Hll _ Hlla))).
  destruct (lazy_ext_fs _ _ _ _ Hsa Hfs) as (fsa & Hfsa & Hica & _).
  rewrite <- Hica in Hs'.
  eapply walk_steps_except; eauto.
Qed.

Lemma walk_loop_except this noFollow x budget :
  forall depth cs s e s1 fs,
    walk_loop budget this noFollow depth cs s = Ok (Some e) s1 ->
    FileDescription.node e <> x ->
    filesystems s !! this = Some fs ->
    forall s', keeps_except (FS.ignoreCase fs) x s1 s' ->
      walk_loop budget this noFollow depth cs s' = Ok (Some e) s'.
Proof.
  induction budget as [|budget IH]; intros depth cs s e s1 fs Hrun Hav Hfs s' Hs';
    rewrite walk_loop_unfold in Hrun |- *;
    destruct (walk_pass this noFollow depth cs s) as [[e'| |cs'] sa|e' sa] eqn:Hp;
    try discriminate.
  1,2: injection Hrun as <- <-;
    rewrite (walk_pass_except this noFollow depth x cs s _ _ fs Hp I Hav Hfs s' Hs');
    reflexivity.
  assert (Hsa : lazy_ext s sa).
  { eapply lazy_ext_run; [exact Hp|]. intros. unfold walk_pass.
    apply lazy_bind; [apply lazy_getRootLinks; assumption|].
    intros rl s2 _ H2. apply lazy_walk_steps. eapply lazy_upto_bounded; eauto. }
  assert (Hsa1 : lazy_ext sa s1).
  { eapply lazy_ext_run; [exact Hrun|]. intros; apply lazy_walk_loop; assumption. }
  rewrite (walk_pass_except this noFollow depth x cs s _ _ fs Hp I I Hfs s').
  2: { eapply keeps_except_after; [apply lazy_keeps_links; exact Hsa1|exact Hs']. }
  destruct (lazy_ext_fs _ _ _ _ Hsa Hfs) as (fsa & Hfsa & Hica & _).
  rewrite <- Hica in Hs'.
  eapply IH; eauto.
Qed.

(** A lookup that has found a node other than the file [x] finds it again
    where links to [x] have changed. *)
Lemma walk_except this path noFollow x s e s1 fs :
  _walk this path noFollow s = Ok (Some e) s1 ->
  FileDescription.node e <> x ->
  filesystems s !! this = Some fs ->
  forall s', keeps_except (FS.ignoreCase fs) x s1 s' ->
    _walk this path noFollow s' = Ok (Some e) s'.
Proof. apply walk_loop_except. Qed.

#[local] Arguments Nat.leb : simpl never.

(** ** Moving a file *)

Lemma removeLink_content this fs parent links name node i s :
  filesystems s !! this = Some fs -> inodes s !! node = Some i ->
  exists i',
    _removeLink this parent links name node s
    = Ok tt (with_inodes (<[node := i']> (inodes s))
               (with_linkmaps (alter (sm_delete (FS.ignoreCase fs) name) links (linkmaps s)) s))
    /\ same_content i i' /\ Inode.nlink i' = (Inode.nlink i - 1)%Z.
Proof.
  intros Hfs Hn. unfold _removeLink, bind, fs_at, update_map, update_inode, modify, inode_at.
  rewrite Hfs. simpl. rewrite list_lookup_alter_eq, Hn. simpl.
  destruct (jm_get optptr_eqb parent (Inode.incomingLinks i)) as [set|].
  - destruct (ss_size _ =? 0)%Z; simpl; eexists; (split; [|split]).
    all: try (unfold with_inodes, with_linkmaps; simpl; do 2 f_equal;
              rewrite list_alter_alter_eq; apply (alter_at _ _ _ _ Hn)).
    all: try (repeat split; reflexivity).
  - eexists; split; [|split].
    + unfold with_inodes, with_linkmaps; simpl; do 2 f_equal. apply (alter_at _ _ _ _ Hn).
    + repeat split; reflexivity.
    + reflexivity.
Qed.

Lemma replaceLink_content this fs oldParent oldLinks oldName newParent newLinks newName node i s :
  filesystems s !! this = Some fs -> inodes s !! node = Some i ->
  exists i',
    _replaceLink this oldParent oldLinks oldName newParent newLinks newName node s
    = Ok tt (with_inodes (<[node := i']> (inodes s))
               (with_linkmaps
                  (alter (sm_set (FS.ignoreCase fs) newName node)
                     (if Nat.eqb oldParent newParent then oldLinks else newLinks)
                     (alter (sm_delete (FS.ignoreCase fs) oldName) oldLinks (linkmaps s))) s))
    /\ same_content i i' /\ Inode.nlink i' = Inode.nlink i.
Proof.
  intros Hfs Hn. unfold _replaceLink. destruct (Nat.eqb oldParent newParent); simpl.
  - unfold bind, fs_at, update_map, update_inode, modify, inode_at.
    rewrite Hfs. simpl. rewrite Hn.
    destruct (jm_get optptr_eqb (Some oldParent) (Inode.incomingLinks i)) as [set|]; simpl.
    + eexists. split.
      { unfold with_inodes, with_linkmaps; simpl. do 2 f_equal. apply (alter_at _ _ _ _ Hn). }
      split; [repeat split; reflexivity|reflexivity].
    + exists i. split; [|split; [repeat split; reflexivity|reflexivity]].
      unfold with_inodes, with_linkmaps; simpl. do 2 f_equal.
      symmetry. apply list_insert_id. exact Hn.
  - destruct (removeLink_content this fs (Some oldParent) oldLinks oldName node i s Hfs Hn)
      as (i1 & Hr & (Hmode & Hlinks & Hsym & Hbuf & Hsize) & Hnlink).
    rewrite (bind_eq_Ok _ Hr).
    match goal with |- context [_addLink _ _ _ _ _ ?st] => set (s1 := st) end.
    assert (Hn1 : inodes s1 !! node = Some i1).
    { subst s1. simpl. apply list_lookup_insert_eq. eapply lookup_lt_Some; eauto. }
    assert (Hfs1 : filesystems s1 !! this = Some fs) by exact Hfs.
    rewrite (addLink_spec this fs (Some newParent) newLinks newName node i1 s1 Hfs1 Hn1).
    eexists. split.
    + subst s1. unfold with_inodes, with_linkmaps; simpl.
      rewrite list_insert_insert_eq. reflexivity.
    + unfold same_content, linked. simpl. rewrite Hnlink.
      repeat split; try assumption. lia.
Qed.

Lemma file_kind n :
  isFileInode n = true -> isDirectoryInode n = false /\ isSymlinkInode n = false.
Proof.
  unfold isFileInode, isDirectoryInode, isSymlinkInode. intros H.
  apply Z.eqb_eq in H. rewrite H. split; reflexivity.
Qed.

(** What a lookup finds in a map that has lost the one link [name] of [x]. *)
Lemma sm_get_delete_once ic k name (x v : ptr) m :
  sm_get ic name m = Some x -> sm_get ic name (sm_delete ic name m) = None ->
  sm_get ic k m = Some v ->
  sm_get ic k (sm_delete ic name m) = Some v
  \/ (v = x /\ sm_get ic k (sm_delete ic name m) = None).
Proof.
  intros Hx Hgone Hk. destruct (stringComparer ic k name) eqn:E.
  - right. apply stringComparer_Eq in E. split.
    + rewrite (sm_get_canon ic k name _ E) in Hk. congruence.
    + rewrite (sm_get_canon ic k name _ E). exact Hgone.
  - left. rewrite sm_get_delete_ne by congruence. exact Hk.
  - left. rewrite sm_get_delete_ne by congruence. exact Hk.
Qed.

(** The link maps after the link [bo] of [x] in the map [lo] has been deleted
    and the link [bn] has been set in the map [ln], which had none. *)
Lemma maps_after_move ic (lo ln : mapref) bo bn (x : ptr) mo mn
    (maps : list (list (string * ptr))) :
  maps !! lo = Some mo -> maps !! ln = Some mn ->
  sm_get ic bo mo = Some x -> sm_get ic bo (sm_delete ic bo mo) = None ->
  sm_get ic bn mn = None ->
  let maps' := alter (sm_set ic bn x) ln (alter (sm_delete ic bo) lo maps) in
  (exists m', maps' !! ln = Some m' /\ sm_get ic bn m' = Some x)
  /\ (exists m', maps' !! lo = Some m' /\ sm_get ic bo m' = None)
  /\ (forall l m k v, maps !! l = Some m -> sm_get ic k m = Some v ->
        exists m', maps' !! l = Some m'
                   /\ (sm_get ic k m' = Some v
                       \/ (l = lo /\ v = x /\ sm_get ic k m' = None))).
Proof.
  intros Hmo Hmn Hx Hgone Hfree maps'.
  assert (Hne : lo = ln -> stringComparer ic bo bn <> Eq).
  { intros -> E. apply stringComparer_Eq in E.
    rewrite (sm_get_canon ic bo bn _ E) in Hx. congruence. }
  split; [|split].
  - subst maps'. rewrite list_lookup_alter_eq.
    destruct (decide (ln = lo)) as [->|Hd].
    + rewrite list_lookup_alter_eq, Hmo. simpl. eexists. split; [reflexivity|].
      apply sm_get_set_eq.
    + rewrite list_lookup_alter_ne by congruence. rewrite Hmn. simpl.
      eexists. split; [reflexivity|]. apply sm_get_set_eq.
  - subst maps'. destruct (decide (lo = ln)) as [He|Hd].
    + subst ln. rewrite !list_lookup_alter_eq, Hmo. simpl. eexists. split; [reflexivity|].
      rewrite sm_get_set_ne by auto. exact Hgone.
    + rewrite list_lookup_alter_ne by congruence. rewrite list_lookup_alter_eq, Hmo. simpl.
      eexists. split; [reflexivity|]. exact Hgone.
  - intros l m k v Hm Hk. subst maps'.
    destruct (decide (l = ln)) as [Hln|Hln]; destruct (decide (l = lo)) as [Hlo|Hlo];
      try subst ln; try subst lo.
    + assert (m = mo) by congruence. subst m. assert (mn = mo) by congruence. subst mn.
      rewrite !list_lookup_alter_eq, Hmo. simpl. eexists. split; [reflexivity|].
      assert (Hkn : stringComparer ic k bn <> Eq).
      { intros E. apply stringComparer_Eq in E.
        rewrite (sm_get_canon ic k bn _ E) in Hk. congruence. }
      rewrite sm_get_set_ne by exact Hkn.
      destruct (sm_get_delete_once ic k bo x v mo Hx Hgone Hk) as [H|[H1 H2]]; auto.
    + assert (m = mn) by congruence. subst m.
      rewrite list_lookup_alter_eq. rewrite list_lookup_alter_ne by congruence.
      rewrite Hmn. simpl. eexists. split; [reflexivity|]. left.
      apply sm_get_set_fresh; assumption.
    + assert (m = mo) by congruence. subst m.
      rewrite list_lookup_alter_ne by congruence. rewrite list_lookup_alter_eq, Hmo. simpl.
      eexists. split; [reflexivity|].
      destruct (sm_get_delete_once ic k bo x v mo Hx Hgone Hk) as [H|[H1 H2]]; auto.
    + rewrite !list_lookup_alter_ne by congruence. exists m. auto.
Qed.

(** X25.  [renameSync] moves a file to a free name: when the directories of
    both paths are found with their links built, the old directory has the
    old name once, for a regular file, the new directory has no entry for the
    new name, and the file system is not read-only, [renameSync] returns;
    afterwards the new path resolves to the file, with and without following
    a last symbolic link, [lstatSync] and [statSync] of the old path throw
    ENOENT, and the file has its type, its bytes and its link count. *)
Theorem rename_moves_file (fuel : nat) (this : fsref) (oldpath newpath po pn : Path)
    (s : State) (fs : FS.t) (eo en : FileDescription.t) (x : ptr) (nx : Inode.t) :
  filesystems s !! this = Some fs -> FS.frozen fs = false ->
  _resolve this oldpath s = Ok po s ->
  _resolve this newpath s = Ok pn s ->
  is_root_path (FS.ignoreCase fs) po = false ->
  is_root_path (FS.ignoreCase fs) pn = false ->
  _find this (dirname po) s = Ok (Some eo) s ->
  linked_once s (FS.ignoreCase fs) (FileDescription.node eo) (basename po) x ->
  inodes s !! x = Some nx -> isFileInode nx = true ->
  _find this (dirname pn) s = Ok (Some en) s ->
  unlinked_in s (FS.ignoreCase fs) (FileDescription.node en) (basename pn) ->
  exists s1 nx1,
    renameSync (S fuel) this oldpath newpath s = Ok tt s1
    /\ (forall noFollow,
          _walk this pn noFollow s1 = Ok (Some (child_entry en (basename pn) x)) s1)
    /\ lstatSync this oldpath s1 = Throw (IOError ENOENT) s1
    /\ statSync this oldpath s1 = Throw (IOError ENOENT) s1
    /\ inodes s1 !! x = Some nx1
    /\ same_content nx nx1 /\ Inode.nlink nx1 = Inode.nlink nx.
Proof.
  intros Hfs Hrw Hold Hnew Hrooto Hrootn Hwo
    (pno & lo & mo & Hpno & Hpod & Hlo & Hmo & Hget & Hgone) Hx Hfile Hwn
    (pnn & ln & mn & Hpnn & Hpnd & Hln & Hmn & Hfree).
  set (ic := FS.ignoreCase fs) in *.
  set (parent_o := FileDescription.node eo) in *.
  set (parent_n := FileDescription.node en) in *.
  set (bo := basename po) in *. set (bn := basename pn) in *.
  destruct (file_kind nx Hfile) as [Hxd Hxs].
  assert (Hleno : (2 <= length po)%nat) by (eapply not_root_long; exact Hrooto).
  assert (Hlenn : (2 <= length pn)%nat) by (eapply not_root_long; exact Hrootn).
  assert (Hneo : x <> parent_o).
  { intros ->. assert (nx = pno) by congruence. subst nx. congruence. }
  assert (Hnen : x <> parent_n).
  { intros ->. assert (nx = pnn) by congruence. subst nx. congruence. }
  assert (Hlfind : _lfind this po s = Ok (Some (child_entry eo bo x)) s).
  { unfold _lfind. rewrite <- (dirname_basename po Hleno) at 1.
    apply (walk_extend this true bo x nx (dirname po) s eo s fs Hwo Hfs s
             (keeps_links_refl _ _) Hx (or_intror eq_refl)).
    exists pno, lo, mo. auto. }
  set (t := FS._time fs (ticks s)).
  set (sa := with_ticks (S (ticks s)) s).
  destruct (replaceLink_content this fs parent_o lo bo parent_n ln bn x nx sa Hfs Hx)
    as (nx' & Hrep & Hcontent & Hnlink).
  assert (HL2 : (if Nat.eqb parent_o parent_n then lo else ln) = ln).
  { destruct (Nat.eqb parent_o parent_n) eqn:E; [|reflexivity].
    apply Nat.eqb_eq in E. rewrite E in Hpno. congruence. }
  rewrite HL2 in Hrep.
  set (maps1 := alter (sm_set ic bn x) ln (alter (sm_delete ic bo) lo (linkmaps s))) in *.
  set (sb := with_inodes (<[x := nx']> (inodes sa)) (with_linkmaps maps1 sa)) in *.
  set (sc := with_inodes (alter (Inode.with_mtimeMs t) parent_n
                            (alter (Inode.with_mtimeMs t) parent_o (inodes sb))) sb).
  assert (Hxc : inodes sc !! x = Some nx').
  { subst sc sb sa. simpl. rewrite !list_lookup_alter_ne by congruence.
    apply list_lookup_insert_eq. eapply lookup_lt_Some; exact Hx. }
  set (nx1 := Inode.with_paths None nx').
  set (s1 := with_inodes (<[x := nx1]> (inodes sc)) sc).
  destruct Hcontent as (Hmode & Hlinks & Hsym & Hbuf & Hsize).
  assert (Hrun : renameSync (S fuel) this oldpath newpath s = Ok tt s1).
  { unfold renameSync. rewrite (bind_eq_Ok _ Hold). rewrite (bind_eq_Ok _ Hnew).
    rewrite (bind_eq_Ok _ (or_throw_Some _ ENOENT _ _ _ Hlfind)).
    cbv zeta. cbn [child_entry FileDescription.node FileDescription.parent
                   FileDescription.basename].
    rewrite (bind_eq_Ok _ (or_throw_Some _ ENOENT _ _ _ Hwn)).
    fold parent_n parent_o.
    rewrite (bind_eq_Ok _ (inode_at_eq _ _ _ Hpnn)). rewrite Hpnd. cbn [negb].
    rewrite (bind_eq_Ok _ (getLinks_ready this parent_n pnn ln s Hpnn Hln)).
    rewrite (bind_eq_Ok _ (map_at_eq _ _ _ Hmn)).
    rewrite (bind_eq_Ok _ (fs_at_eq _ _ _ Hfs)). fold ic bn. rewrite Hfree.
    rewrite bind_ret.
    rewrite (bind_eq_Ok _ (isReadonly_eq _ _ _ Hfs)). rewrite Hrw.
    rewrite (bind_eq_Ok _ (time_spec this fs s Hfs)).
    rewrite bind_ret.
    rewrite (bind_eq_Ok _ (getLinks_ready this parent_o pno lo sa Hpno Hlo)).
    rewrite (bind_eq_Ok _ Hrep).
    rewrite (bind_eq_Ok _ (update_inode_run _ _ _)).
    rewrite (bind_eq_Ok _ (update_inode_run _ _ _)).
    apply (invalidatePaths_leaf fuel this x _ sc Hxc).
    left. unfold isDirectoryInode in *. rewrite Hmode. exact Hxd. }
  assert (Hx1 : inodes s1 !! x = Some nx1).
  { subst s1. simpl. apply list_lookup_insert_eq. eapply lookup_lt_Some; exact Hxc. }
  assert (Hin : forall p i, inodes s !! p = Some i ->
            exists i', inodes s1 !! p = Some i' /\ Inode.mode i' = Inode.mode i
                       /\ Inode.symlink i' = Inode.symlink i
                       /\ Inode.links i' = Inode.links i).
  { intros p i Hp. destruct (decide (p = x)) as [->|Hpx].
    - exists nx1. assert (i = nx) by congruence. subst i. split; [exact Hx1|].
      simpl. auto.
    - subst s1 sc sb sa. simpl. rewrite list_lookup_insert_ne by congruence.
      apply (lookup_alter_keeps
               (fun i' => Inode.mode i' = Inode.mode i /\ Inode.symlink i' = Inode.symlink i
                          /\ Inode.links i' = Inode.links i)); [intros []; auto|].
      apply (lookup_alter_keeps
               (fun i' => Inode.mode i' = Inode.mode i /\ Inode.symlink i' = Inode.symlink i
                          /\ Inode.links i' = Inode.links i)); [intros []; auto|].
      rewrite list_lookup_insert_ne by congruence. exists i. auto. }
  destruct (maps_after_move ic lo ln bo bn x mo mn (linkmaps s) Hmo Hmn Hget Hgone Hfree)
    as ((m1 & Hm1 & Hnew1) & (m0 & Hm0 & Hold0) & Hmaps).
  fold maps1 in Hm1, Hm0, Hmaps.
  assert (Hke : keeps_except ic x s s1).
  { constructor.
    - intros f f0 Hf. exists f0. auto.
    - intros p i Hp. destruct (Hin p i Hp) as (i' & Hi' & H1 & H2 & H3).
      exists i'. repeat split; auto. intros m Hm. congruence.
    - intros l m k v Hm Hk Hv. destruct (Hmaps l m k v Hm Hk) as (m' & Hm' & [H|(_ & H & _)]).
      + exists m'. auto.
      + congruence.
    - intros i Hi. assert (i = nx) by congruence. subst i. auto. }
  assert (Hkb : keeps_but ic lo s s1).
  { constructor.
    - intros f f0 Hf. exists f0. auto.
    - intros p i Hp. destruct (Hin p i Hp) as (i' & Hi' & H1 & H2 & H3).
      exists i'. repeat split; auto. intros m Hm. congruence.
    - intros l m k v Hm Hk. destruct (Hmaps l m k v Hm Hk) as (m' & Hm' & [H|(H1 & _ & H2)]).
      + exists m'. auto.
      + exists m'. auto. }
  assert (Hfs1 : filesystems s1 !! this = Some fs) by exact Hfs.
  destruct (Hin _ _ Hpnn) as (pnn1 & Hpnn1 & Hpm & _ & Hpl).
  destruct (Hin _ _ Hpno) as (pno1 & Hpno1 & Hom & _ & Hol).
  assert (Hwn1 : _walk this (dirname pn) false s1 = Ok (Some en) s1).
  { apply (walk_except this (dirname pn) false x s en s fs Hwn); auto. }
  assert (Hfound : forall nf, _walk this pn nf s1 = Ok (Some (child_entry en bn x)) s1).
  { intros nf. rewrite <- (dirname_basename pn Hlenn) at 1.
    apply (walk_extend this nf bn x nx1 (dirname pn) s1 en s1 fs Hwn1 Hfs1 s1
             (keeps_links_refl _ _) Hx1).
    - left. unfold isSymlinkInode in *. simpl. rewrite Hmode. exact Hxs.
    - exists pnn1, ln, m1. repeat split; auto.
      + unfold isDirectoryInode in *. rewrite Hpm. exact Hpnd.
      + congruence. }
  assert (Hgone1 : forall nf, _walk this po nf s1 = Ok None s1).
  { intros nf.
    apply (walk_removed this nf po s eo fs s1 lo m0 pno1 Hwo Hfs Hleno Hkb eq_refl Hpno1); auto.
    - unfold isDirectoryInode in *. rewrite Hom. exact Hpod.
    - congruence. }
  assert (Hres1 : _resolve this oldpath s1 = Ok po s1) by (apply (resolve_same_fs _ _ s); auto).
  assert (Hthrow : forall nf, or_throw (_walk this po nf) ENOENT s1 = Throw (IOError ENOENT) s1).
  { intros nf. apply or_throw_None. apply Hgone1. }
  exists s1, nx1. split; [exact Hrun|]. split; [exact Hfound|].
  split.
  { unfold lstatSync, _lfind. rewrite (bind_eq_Ok _ Hres1).
    apply (bind_eq_Throw _ (Hthrow true)). }
  split.
  { unfold statSync, _find. rewrite (bind_eq_Ok _ Hres1).
    apply (bind_eq_Throw _ (Hthrow false)). }
  split; [exact Hx1|]. split; [|exact Hnlink].
  unfold same_content. simpl. auto.
Qed.

Lemma rename_moves_file_witness :
  exists s1 nx1,
    renameSync 1 0 ["/"; "f"]%string ["/"; "d"; "f2"]%string rename_state = Ok tt s1
    /\ (forall noFollow,
          _walk 0 ["/"; "d"; "f2"]%string noFollow s1
          = Ok (Some (child_entry found_d_entry "f2" (FileDescription.node found_f_entry))) s1)
    /\ lstatSync 0 ["/"; "f"]%string s1 = Throw (IOError ENOENT) s1
    /\ statSync 0 ["/"; "f"]%string s1 = Throw (IOError ENOENT) s1
    /\ inodes s1 !! FileDescription.node found_f_entry = Some nx1
    /\ same_content found_f_inode nx1 /\ Inode.nlink nx1 = Inode.nlink found_f_inode.
Proof.
  apply (rename_moves_file 0 0 ["/"; "f"]%string ["/"; "d"; "f2"]%string
           ["/"; "f"]%string ["/"; "d"; "f2"]%string rename_state rename_fs
           found_root_entry found_d_entry (FileDescription.node found_f_entry) found_f_inode).
  - vm_compute; reflexivity.
  - vm_compute; reflexivity.
  - vm_compute; reflexivity.
  - vm_compute; reflexivity.
  - vm_compute; reflexivity.
  - vm_compute; reflexivity.
  - vm_compute; reflexivity.
  - exists found_root_inode, 1%nat, found_root_links.
    split; [vm_compute; reflexivity|]. split; [vm_compute; reflexivity|].
    split; [vm_compute; reflexivity|]. split; [vm_compute; reflexivity|].
    split; vm_compute; reflexivity.
  - vm_compute; reflexivity.
  - vm_compute; reflexivity.
  - vm_compute; reflexivity.
  - exists found_d_inode, 3%nat, [].
    split; [vm_compute; reflexivity|]. split; [vm_compute; reflexivity|].
    split; [vm_compute; reflexivity|]. split; vm_compute; reflexivity.
Defined.
